(* ===== verification/_CoqProject ===== *)
-Q . S2P
GoPrelude.v
Bytes.v
Uuid.v
Regex.v
Password.v
Errors.v
Tenancy.v
Delegation.v
Http.v
Guardrail.v
CompositeGuardrail.v
ClassifierClient.v
ExternalClassifiers.v
Quota.v
RateLimit.v
DelegationMW.v
DelegationStore.v
CircuitBreaker.v
ChatModel.v
Routing.v
Fallback.v
Providers.v
Pricing.v
ToolLoop.v
CompositeTools.v
WasmExecutor.v
Sha256.v
Tokens.v
AuditLog.v
ToolRepository.v
GuardrailMW.v
Auth.v
Sessions.v
TenantAdmin.v
AuthHandlers.v
AuditHandlers.v
ChatHandlers.v
Router.v
Review.v
ReviewHandlers.v
Config.v
Gateway.v
OpenApi.v
