(* ===== verification/GoPrelude.v ===== *)
(** * A verification development of the agent gateway

    The gateway is a multi-tenant HTTP service in front of language-model
    providers. A request passes the middlewares (authentication, tenant,
    delegation, rate limit, audit, guardrails, human review), reaches a handler
    and its use case (chat, sessions, reviews, tools, administration), and the use
    cases talk to PostgreSQL, Redis, the model providers and the tool executor.
    Sources are under [src/]; file names below are relative to it.

    ** Parts and files

    - [GoPrelude.v] (this file): Go results and early returns, machine integers,
      SQL tables as finite maps with [COUNT] and [UPDATE], the automation.
    - [Bytes.v], [Uuid.v], [Errors.v], [Sha256.v], [Regex.v]: byte strings, hex,
      decimal text; [internal/domain/uuid.go]; the sentinel errors of the domain
      packages with wrapping and [errors.Is]; SHA-256, executable; the built-in
      patterns of the guardrails and a backtracking matcher for them.
    - [Tenancy.v]: [internal/adapter/postgres/db.go] and the row-level-security
      policies. [WithTenant] runs the repository's statements on the pool, on
      another connection than the one it sets the tenant on; [WithTenantTx] runs
      them on the transaction. Whether the database role bypasses row-level
      security, whether the server answers, and which tenants exist (the tenant
      columns' foreign key) are fields of [DbEnv], so each theorem says which case
      it is about.
    - [Http.v]: requests, contexts, answers, handlers and gates. [Router.v]: the
      routing table of [internal/api/router.go]. [OpenApi.v]: the documented
      interface ([internal/api/openapi.go]), against that table. [Auth.v], [Password.v],
      [Sessions.v], [AuthHandlers.v]: tokens and the authentication, tenant, audit
      and review middlewares ([internal/adapter/jwt], [internal/middleware]);
      Argon2id hashes ([internal/adapter/crypto]); [internal/usecase/auth] with the
      user and refresh-token repositories; their end points. [Tokens.v]: the
      refresh side of the token service, HMAC signatures and opaque tokens.
    - [Delegation.v]: [internal/domain/delegation]: scope sets, the grant
      lifecycle, the validators. [DelegationMW.v]: the handler of
      [internal/middleware/delegation.go] against its two ports, a class.
      [DelegationStore.v]: the ports' implementations
      ([internal/adapter/postgres/delegation_repository.go],
      [internal/adapter/redis/delegation_budget.go]) and what holds end to end.
    - [Quota.v], [RateLimit.v]: quotas with their end points and resolver; the Redis
      script, the limiter and [internal/middleware/ratelimit.go].
    - [Guardrail.v], [CompositeGuardrail.v], [GuardrailMW.v]: the local rules, their
      composition with an external classifier (an interface, the record
      [ExternalClassifier]), and [internal/middleware/guardrails.go] with its
      store. [ClassifierClient.v], [ExternalClassifiers.v]: the classifiers
      behind that interface, [internal/adapter/guardrail/external/].
    - [CircuitBreaker.v]: [internal/domain/model/circuitbreaker.go].
      [ChatModel.v]: the records of the chat path, and the providers and the
      clock as the class [ModelEnv]. [Routing.v], [Fallback.v], [ToolLoop.v]:
      [internal/usecase/chat]; the tool repository, the approval service and the
      executor are the class [ToolEnv]. [Pricing.v]: [internal/adapter/pricing], in
      binary64 arithmetic. [Providers.v]: the clients of
      [internal/adapter/provider], an instance of [ModelEnv]. [ChatHandlers.v]:
      [internal/api/handlers/chat.go]. [CompositeTools.v]: the copy of the tool
      loop in [internal/adapter/guardrail/composite.go], against the original.
    - [ToolRepository.v], [WasmExecutor.v]: the tool registry with its cache and end
      points; the WebAssembly and the mock executor.
    - [Review.v], [ReviewHandlers.v]: the review state machine
      ([internal/usecase/hitl] and its repository); its end points, event streams
      and notifications.
    - [AuditLog.v], [AuditHandlers.v]: the hash chain of
      [internal/adapter/postgres/audit_repository.go], and its end points.
    - [TenantAdmin.v]: tenants, roles and users with their end points.
    - [Config.v], [Gateway.v]: [internal/config/config.go] and the decoding of its
      sections; the start of [cmd/gateway/main.go] and [cmd/bootstrap/main.go].

    State is passed explicitly; a request's clock readings and random draws are
    arguments. A repository method is a function from the tables to the tables
    and a [result]. Where requests interleave (sessions, review streams, the
    executor's pool, the classifiers' breaker, audit appends) the calls are also
    taken apart into steps of a relation. What lies outside [src/] (providers and
    the HTTP transport, JSON texts, Argon2, token signing, the router library,
    the LRU cache, the WebAssembly engine, Unicode case mapping and configured
    regular expressions, the configuration library) is a class, with laws only
    where a theorem needs them, and instantiated by a concrete function in the
    witnesses.

    ** What the theorems show

    Entry: no route is served around the middleware chain; of the 38 operations
    the OpenAPI document lists (36 of them in the interface generated from it), 19
    reach their handler; a bearer passes exactly with a token signed by a known key
    and still valid; registration in a tenant that exists grants the admin role, and
    any token can suspend any tenant; passwords verify against their own hashes.
    Sessions: one live token per family in every state that requests run one by one
    reach, what is left of that when their statements interleave, rotation, reuse
    detection over any later history, and the interleaving that escapes it.
    Delegation: the middleware refuses exactly the inadmissible grants and, with
    the Redis script and configured to fail closed, admits over any sequence of
    requests exactly as many requests with budgeted grants as a chain's pool gives
    units (grants that state no budget never ask it); one hop's scope is computed as
    the exact intersection; revoking a chain closes it at the next request; the
    store reads back what it wrote.
    Limits: the script refines a token bucket; how quotas become limits.
    Guardrails: exactly which inputs the local rules allow; the merge of local and
    external verdicts, and when a local refusal stands; what a classifier's reply decides; what passes when a
    classifier is misconfigured; how often the client calls.
    Model routing: the breaker's invariant, thresholds, windows, probe budget and
    recovery; the registry's priority order; selection; an execution of the fallback
    chain as the one run of its candidates, with its calls, bounds and result; which provider answers are retried; a chat
    request makes a bounded number of provider calls and runs a tool only through
    all its gates.
    Tools: the cache answers as the table would, except for names last written by
    the two calls that do not tell it; run times are used by one call at a time and
    calls stay within their limits (a configured page count is rounded up to a
    pool's size). Reviews: the lifecycle over all interleavings of statements, single
    use of approvals, each decision announced at most once to each stream,
    notifications that end.
    Audit: a log the code wrote verifies exactly up to its first event whose payload
    does not survive its [jsonb] column; two verified logs with one final hash agree
    on the hashed texts unless SHA-256 was broken; what verification cannot see;
    pages partition a listing that nothing is recorded into meanwhile.
    Administration: the tables stay well typed. Configuration: which settings the
    environment reaches, what decoding loses, that the documented prices do not
    start the gateway, and that a bootstrapped administrator can log in.

    Some theorems state what the code does where that differs from what its
    documentation says (a second refresh in flight, a scope intersection that is
    computed and dropped, a breaker that grants one probe too many); they are
    theorems about the code as written.

    ** Bounds and fuel

    Loops over lists are structural. The retry loop has as its measure the number
    of attempts the configuration allows ([iterations]), the tool loop the
    iteration limit, the classifiers' client its retries; these are the loops' own
    bounds and not an extra allowance, and the functions are total. The matcher
    recurs on pattern and text; trimming a text has its length as fuel, and each
    step removes a byte. Notifications are steps; a theorem bounds their number. Go's [int] counters are kept at 64 bits,
    database integers at 32; Redis integers are exact below 2^53.

    ** Not modelled

    The body types of [internal/api/openapi.go], data of the document without
    operations; generated query code (the queries themselves are modelled); logging,
    listening and signals; the chat types of [internal/domain/guardrail/chat.go],
    copies that nothing refers to; escapes and non-finite numbers in paths and query parameters; context
    cancellation except where a loop tests it. A pool connection whose tenant
    setting was left empty by an earlier transaction makes the policy's cast fail
    instead of hiding the rows; both deny access, and the model only hides. *)

From stdpp Require Import base gmap strings list sorting numbers.
From Stdlib Require Import Ascii.

(** * Results

    Go's [(T, error)] pairs, where exactly one of the two is meaningful. *)

Inductive result (E A : Type) : Type :=
| Ok (a : A)
| Err (e : E).
Arguments Ok {E A} & a.
Arguments Err {E A} & e.

Declare Scope go_scope.
Delimit Scope go_scope with go.

(** [let? x := c in k] is the Go idiom [x, err := c; if err != nil return err]. *)
Notation "'let?' x ':=' c 'in' k" :=
  (match c with Ok x => k | Err e => Err e end)
  (at level 10, x pattern, c at level 100, k at level 200) : go_scope.

(** [fail_if c then e else k] is an early return [if c { return e }]. *)
Notation "'fail_if' c 'then' e 'else' k" :=
  (if c then Err e else k)
  (at level 10, c at level 100, e at level 100, k at level 200) : go_scope.

Open Scope go_scope.
Open Scope Z_scope.

Definition is_ok {E A} (r : result E A) : bool :=
  match r with Ok _ => true | Err _ => false end.

Section ResultFacts.
Context {E A : Type}.

Lemma is_ok_true (r : result E A) : is_ok r = true <-> exists a, r = Ok a.
Proof. destruct r; naive_solver. Qed.
End ResultFacts.

(** * Machine integers

    Go's [int] and [int64] are 64-bit two's complement; [int32] is 32-bit. *)

Definition wrap_signed (w z : Z) : Z := (z + 2 ^ (w - 1)) mod 2 ^ w - 2 ^ (w - 1).
Definition int64_wrap : Z -> Z := wrap_signed 64.
Definition int32_wrap : Z -> Z := wrap_signed 32.
Definition is_int64 (z : Z) : Prop := - 2 ^ 63 <= z < 2 ^ 63.
Definition is_int32 (z : Z) : Prop := - 2 ^ 31 <= z < 2 ^ 31.

Lemma int64_wrap_id z : is_int64 z -> int64_wrap z = z.
Proof.
  unfold is_int64, int64_wrap, wrap_signed. intros H.
  rewrite Z.mod_small; lia.
Qed.

Lemma int32_wrap_id z : is_int32 z -> int32_wrap z = z.
Proof.
  unfold is_int32, int32_wrap, wrap_signed. intros H.
  rewrite Z.mod_small; lia.
Qed.

Lemma int32_wrap_range z : is_int32 (int32_wrap z).
Proof.
  unfold is_int32, int32_wrap, wrap_signed.
  pose proof (Z.mod_pos_bound (z + 2 ^ (32 - 1)) (2 ^ 32) ltac:(lia)). lia.
Qed.

(** * Lists *)

Section ListFacts.
Context {A : Type}.

Lemma list_elem_filter_bool (f : A -> bool) (l : list A) x :
  x ∈ List.filter f l <-> x ∈ l /\ f x = true.
Proof. rewrite !list_elem_of_In. apply filter_In. Qed.

Lemma NoDup_filter_bool (f : A -> bool) (l : list A) :
  NoDup l -> NoDup (List.filter f l).
Proof.
  induction 1 as [|x l Hx Hl IH]; simpl; [constructor|].
  destruct (f x); [|done]. constructor; [|done].
  rewrite list_elem_filter_bool. naive_solver.
Qed.

Lemma existsb_elem_of (f : A -> bool) (l : list A) :
  existsb f l = true <-> exists x, x ∈ l /\ f x = true.
Proof.
  rewrite existsb_exists. setoid_rewrite list_elem_of_In. done.
Qed.

Lemma existsb_none (f : A -> bool) (l : list A) :
  existsb f l = false <-> forall x, x ∈ l -> f x = false.
Proof.
  split.
  - intros H x Hx. apply not_true_is_false. intros Hf.
    assert (existsb f l = true); [|congruence].
    apply existsb_elem_of. eauto.
  - intros H. apply not_true_is_false. intros (x & Hx & Hf)%existsb_elem_of.
    rewrite H in Hf; done.
Qed.
End ListFacts.

(** * Tables

    SQL tables are finite maps from their key to the row; [map_count p m] is
    [SELECT COUNT(...) WHERE p], and an UPDATE is a map over the rows. *)

Section MapCount.
Context `{Countable K} {V : Type}.
Implicit Types (m : gmap K V) (p q : V -> bool).

Definition map_select p m : gmap K V := filter (fun kv => p (snd kv) = true) m.
Definition map_count p m : nat := size (map_select p m).

Lemma map_select_lookup p m k v :
  map_select p m !! k = Some v <-> m !! k = Some v /\ p v = true.
Proof. apply map_lookup_filter_Some. Qed.

Lemma map_select_ext p q m :
  (forall k v, m !! k = Some v -> p v = q v) -> map_select p m = map_select q m.
Proof.
  intros Hpq. apply map_eq. intros k. apply option_eq. intros v.
  rewrite !map_select_lookup. split; intros [Hk Hv]; split; try done.
  - by rewrite <- (Hpq k).
  - by rewrite (Hpq k).
Qed.

Lemma map_select_select p q m :
  map_select p (map_select q m) = map_select (fun v => q v && p v) m.
Proof.
  apply map_eq. intros k. apply option_eq. intros v.
  rewrite !map_select_lookup, andb_true_iff. naive_solver.
Qed.

Lemma map_count_ext p q m :
  (forall k v, m !! k = Some v -> p v = q v) -> map_count p m = map_count q m.
Proof. unfold map_count. intros Hpq. by rewrite (map_select_ext p q). Qed.

Lemma map_count_fmap p (f : V -> V) m :
  map_count p (f <$> m) = map_count (fun v => p (f v)) m.
Proof.
  unfold map_count. rewrite <- (map_size_fmap f (map_select _ m)). f_equal.
  apply map_eq. intros k. apply option_eq. intros v.
  rewrite map_select_lookup, !lookup_fmap, !fmap_Some.
  setoid_rewrite map_select_lookup. naive_solver.
Qed.

Lemma map_count_orb p q m :
  (forall v, p v = true -> q v = true -> False) ->
  map_count (fun v => p v || q v) m = (map_count p m + map_count q m)%nat.
Proof.
  intros Hdisj. unfold map_count. rewrite <- map_size_disj_union.
  - f_equal. apply map_eq. intros k. apply option_eq. intros v.
    rewrite lookup_union_Some, !map_select_lookup, orb_true_iff; [naive_solver|].
    apply map_disjoint_spec. intros i x y. rewrite !map_select_lookup. naive_solver.
  - apply map_disjoint_spec. intros i x y. rewrite !map_select_lookup. naive_solver.
Qed.

Lemma map_count_zero p m :
  map_count p m = 0%nat <-> forall k v, m !! k = Some v -> p v = false.
Proof.
  unfold map_count. split.
  - intros Hs%map_size_empty_inv k v Hk. apply not_true_is_false. intros Hp.
    assert (map_select p m !! k = Some v) as Hsel by by apply map_select_lookup.
    rewrite Hs, lookup_empty in Hsel. done.
  - intros Hnone. replace (map_select p m) with (∅ : gmap K V); [done|].
    symmetry. apply map_eq. intros k. rewrite lookup_empty.
    destruct (map_select p m !! k) as [v|] eqn:Hk; [|done].
    apply map_select_lookup in Hk as [Hk Hp]. rewrite (Hnone k v Hk) in Hp. done.
Qed.

Lemma map_count_insert_new p m k v :
  m !! k = None ->
  map_count p (<[k := v]> m) = ((if p v then 1 else 0) + map_count p m)%nat.
Proof.
  intros Hk. unfold map_count.
  assert (map_select p m !! k = None) as Hsel.
  { destruct (map_select p m !! k) as [x|] eqn:E; [|done].
    apply map_select_lookup in E as [E _]. congruence. }
  destruct (p v) eqn:Hp.
  - rewrite <- (map_size_insert_None k v (map_select p m)) by done. f_equal.
    apply map_eq. intros i. apply option_eq. intros x.
    rewrite map_select_lookup, !lookup_insert.
    case_decide; [naive_solver|]. by rewrite map_select_lookup.
  - simpl. f_equal. apply map_eq. intros i. apply option_eq. intros x.
    rewrite !map_select_lookup. destruct (decide (k = i)) as [->|Hne].
    + rewrite lookup_insert_eq. split; intros [? ?]; congruence.
    + by rewrite lookup_insert_ne.
Qed.

(** At most one row satisfies [p] iff any two that do have the same key. *)
Lemma map_count_le_one p m :
  (map_count p m <= 1)%nat <->
  forall k1 k2 v1 v2, m !! k1 = Some v1 -> m !! k2 = Some v2 ->
    p v1 = true -> p v2 = true -> k1 = k2.
Proof.
  unfold map_count. split.
  - intros Hle k1 k2 v1 v2 H1 H2 Hp1 Hp2. apply dec_stable. intros Hne.
    assert (map_select p m !! k1 = Some v1) as S1 by by apply map_select_lookup.
    assert (map_select p m !! k2 = Some v2) as S2 by by apply map_select_lookup.
    rewrite <- (insert_delete_id _ _ _ S1) in Hle.
    rewrite map_size_insert_None in Hle by apply lookup_delete_eq.
    assert (delete k1 (map_select p m) = ∅) as He by (apply map_size_empty_inv; lia).
    apply (f_equal (lookup k2)) in He.
    rewrite lookup_delete_ne, S2, lookup_empty in He; done.
  - intros Huniq. destruct (decide (map_select p m = ∅)) as [->|Hne];
      [rewrite map_size_empty; lia|].
    apply map_choose in Hne as (k & v & Hk).
    replace (map_select p m) with ({[k := v]} : gmap K V); [by rewrite map_size_singleton|].
    apply map_eq. intros i. apply option_eq. intros x. split.
    + by intros [<- <-]%lookup_singleton_Some.
    + intros Hi. apply map_select_lookup in Hk as [Hk Hpk].
      apply map_select_lookup in Hi as [Hi Hpi].
      rewrite (Huniq k i v x) in Hk |- * by done. simplify_eq. apply lookup_singleton_eq.
Qed.
End MapCount.

(** * Automation *)

Create HintDb gateway.
#[export] Hint Resolve int32_wrap_range : gateway.

(** Case-split on the scrutinee of the outermost [if]/[match] of the goal or a
    hypothesis, keeping the equation. *)
Ltac split_case :=
  match goal with
  | |- context [match ?x with _ => _ end] => destruct x eqn:?
  | H : context [match ?x with _ => _ end] |- _ => destruct x eqn:?
  end.

(** Run down the early returns of a guard chain: every branch that ends in a
    contradiction with the hypotheses is closed. *)
Ltac run_guards := repeat (split_case; simplify_eq/=; try done).

(** Turn boolean tests on [Z], [bool_decide] and connectives into propositions. *)
Ltac reflect_bools :=
  repeat match goal with
  | H : bool_decide _ = true |- _ => apply bool_decide_eq_true in H
  | H : bool_decide _ = false |- _ => apply bool_decide_eq_false in H
  | H : negb _ = true |- _ => apply negb_true_iff in H
  | H : negb _ = false |- _ => apply negb_false_iff in H
  | H : (_ && _)%bool = true |- _ => apply andb_true_iff in H as [? ?]
  | H : (_ || _)%bool = false |- _ => apply orb_false_iff in H as [? ?]
  | H : (_ <? _)%Z = true |- _ => apply Z.ltb_lt in H
  | H : (_ <? _)%Z = false |- _ => apply Z.ltb_ge in H
  | H : (_ <=? _)%Z = true |- _ => apply Z.leb_le in H
  | H : (_ <=? _)%Z = false |- _ => apply Z.leb_gt in H
  | H : (_ >=? _)%Z = true |- _ => rewrite Z.geb_leb in H
  | H : (_ >=? _)%Z = false |- _ => rewrite Z.geb_leb in H
  | H : (_ >? _)%Z = true |- _ => rewrite Z.gtb_ltb in H
  | H : (_ >? _)%Z = false |- _ => rewrite Z.gtb_ltb in H
  | H : (_ =? _)%Z = true |- _ => apply Z.eqb_eq in H
  | H : (_ =? _)%Z = false |- _ => apply Z.eqb_neq in H
  end.
