(* ===== verification/Bytes.v ===== *)
(** Byte strings: the parts of Go's [encoding/hex], [strings], [strconv] and
    [crypto/subtle] that the gateway uses. A Go byte is an [ascii]; a Go string
    is a [string]; a [[]byte] is a [list ascii]. *)

From stdpp Require Import base strings list numbers pretty.
From Stdlib Require Import Ascii.
From S2P Require Import GoPrelude.

Abbreviation byte := ascii.
Abbreviation bytes := (list ascii).

Definition bytes_of_string (s : string) : bytes := String.list_ascii_of_string s.
Definition string_of_bytes (b : bytes) : string := String.string_of_list_ascii b.

Lemma string_of_bytes_of_string s : string_of_bytes (bytes_of_string s) = s.
Proof. apply String.string_of_list_ascii_of_string. Qed.
Lemma bytes_of_string_of_bytes b : bytes_of_string (string_of_bytes b) = b.
Proof. apply String.list_ascii_of_string_of_list_ascii. Qed.

Lemma bytes_of_string_app s1 s2 :
  bytes_of_string (s1 +:+ s2) = bytes_of_string s1 ++ bytes_of_string s2.
Proof. induction s1; simpl; [done|]. by rewrite <- IHs1. Qed.

Lemma bytes_of_string_inj s1 s2 : bytes_of_string s1 = bytes_of_string s2 -> s1 = s2.
Proof.
  intros H. rewrite <- (string_of_bytes_of_string s1), H.
  apply string_of_bytes_of_string.
Qed.

(** ** encoding/hex *)

Definition hex_digit (n : N) : byte :=
  (if n <? 10 then ascii_of_N (48 + n) else ascii_of_N (87 + n))%N.

(** [fromHexChar]: both cases are accepted. *)
Definition unhex_digit (c : byte) : option N :=
  let n := N_of_ascii c in
  (if (48 <=? n) && (n <=? 57) then Some (n - 48)
   else if (97 <=? n) && (n <=? 102) then Some (n - 87)
   else if (65 <=? n) && (n <=? 70) then Some (n - 55)
   else None)%N.

Fixpoint hex_encode (b : bytes) : bytes :=
  match b with
  | [] => []
  | c :: b' =>
      let n := N_of_ascii c in
      hex_digit (n / 16) :: hex_digit (n mod 16) :: hex_encode b'
  end.

(** [hex.DecodeString]: [None] on an odd length or a non-hex byte. *)
Fixpoint hex_decode (b : bytes) : option bytes :=
  match b with
  | [] => Some []
  | [_] => None
  | h :: l :: b' =>
      match unhex_digit h, unhex_digit l with
      | Some nh, Some nl =>
          match hex_decode b' with
          | Some r => Some (ascii_of_N (nh * 16 + nl) :: r)
          | None => None
          end
      | _, _ => None
      end
  end.

Lemma N_of_ascii_lt c : (N_of_ascii c < 256)%N.
Proof. apply N_ascii_bounded. Qed.

(** A boolean property of the hex digits is checked on the sixteen of them. *)
Lemma hex_digit_forall (f : byte -> bool) n :
  forallb (fun k => f (hex_digit (N.of_nat k))) (seq 0 16) = true ->
  (n < 16)%N -> f (hex_digit n) = true.
Proof.
  intros Hall Hn. rewrite forallb_forall in Hall.
  specialize (Hall (N.to_nat n)). rewrite N2Nat.id in Hall.
  apply Hall, in_seq. lia.
Qed.

Lemma unhex_hex_digit n : (n < 16)%N -> unhex_digit (hex_digit n) = Some n.
Proof.
  intros Hn. rewrite <- (N2Nat.id n).
  assert (N.to_nat n < 16)%nat as Hk by lia. revert Hk.
  generalize (N.to_nat n) as k. clear n Hn.
  do 16 (intros [|k]; [reflexivity|]; revert k). intros; lia.
Qed.

Lemma nibbles_lt c : (N_of_ascii c / 16 < 16 /\ N_of_ascii c mod 16 < 16)%N.
Proof.
  pose proof (N_of_ascii_lt c). split; [apply N.Div0.div_lt_upper_bound; lia|].
  apply N.mod_lt. lia.
Qed.

Lemma nibbles_recombine c :
  ascii_of_N (N_of_ascii c / 16 * 16 + N_of_ascii c mod 16) = c.
Proof.
  rewrite (N.mul_comm _ 16), <- (N.div_mod (N_of_ascii c) 16) by lia.
  apply ascii_N_embedding.
Qed.

Lemma hex_decode_encode b : hex_decode (hex_encode b) = Some b.
Proof.
  induction b as [|c b IH]; [done|]. destruct (nibbles_lt c) as [Hh Hl]. cbn [hex_encode hex_decode].
  rewrite !unhex_hex_digit, IH by done. by rewrite nibbles_recombine.
Qed.

Lemma length_hex_encode b : length (hex_encode b) = (2 * length b)%nat.
Proof. induction b; simpl; lia. Qed.

Lemma hex_encode_app a b : hex_encode (a ++ b) = hex_encode a ++ hex_encode b.
Proof. induction a; simpl; [done|]. by rewrite IHa. Qed.

#[global] Instance hex_encode_inj : Inj (=) (=) hex_encode.
Proof.
  intros a b H. apply (f_equal hex_decode) in H.
  rewrite !hex_decode_encode in H. congruence.
Qed.

Definition is_hex_lower (c : byte) : bool :=
  let n := N_of_ascii c in
  (((48 <=? n) && (n <=? 57)) || ((97 <=? n) && (n <=? 102)))%N.

Lemma hex_encode_chars b : Forall (fun c => is_hex_lower c = true) (hex_encode b).
Proof.
  induction b as [|c b IH]; [constructor|]. destruct (nibbles_lt c) as [Hh Hl].
  cbn [hex_encode].
  by constructor; [|constructor; [|done]]; apply (hex_digit_forall is_hex_lower).
Qed.

Lemma hex_encode_no c b : is_hex_lower c = false -> c ∉ hex_encode b.
Proof.
  intros Hc Hin. pose proof (hex_encode_chars b) as HF.
  rewrite Forall_forall in HF. rewrite HF in Hc; done.
Qed.

(** ** strings *)

(** [strings.ReplaceAll(s, c, "")] for a one-byte [c]. *)
Definition remove_byte (c : byte) (b : bytes) : bytes :=
  List.filter (fun x => negb (Ascii.eqb x c)) b.

Lemma remove_byte_app c a b : remove_byte c (a ++ b) = remove_byte c a ++ remove_byte c b.
Proof. apply List.filter_app. Qed.

Lemma remove_byte_id c b : c ∉ b -> remove_byte c b = b.
Proof.
  unfold remove_byte. induction b as [|x b IH]; simpl; [done|].
  rewrite not_elem_of_cons. intros [Hne Hb].
  destruct (Ascii.eqb_spec x c); [congruence|]. simpl. by rewrite IH.
Qed.

(** [strings.Contains], as the repository's own [findSubstring] loop. *)
Fixpoint is_prefix (p s : bytes) : bool :=
  match p, s with
  | [], _ => true
  | x :: p', y :: s' => Ascii.eqb x y && is_prefix p' s'
  | _ :: _, [] => false
  end.

Fixpoint contains_bytes (s p : bytes) : bool :=
  is_prefix p s || match s with [] => false | _ :: s' => contains_bytes s' p end.

Lemma is_prefix_spec p s : is_prefix p s = true <-> exists r, s = p ++ r.
Proof.
  revert s; induction p as [|x p IH]; intros [|y s]; simpl; split; try naive_solver.
  - rewrite andb_true_iff, IH, Ascii.eqb_eq. naive_solver.
  - intros [r [= -> ->]]. rewrite Ascii.eqb_refl. apply IH. eauto.
Qed.

Lemma contains_bytes_spec s p :
  contains_bytes s p = true <-> exists l r, s = l ++ p ++ r.
Proof.
  induction s as [|y s IH]; simpl; rewrite orb_true_iff, is_prefix_spec; split.
  - intros [[r Hr]|H]; [|done]. by exists [], r.
  - intros ([|? l] & r & H); [left; eauto|discriminate].
  - intros [[r ->]|(l & r & ->)%IH]; [by exists [], r|]. by exists (y :: l), r.
  - intros ([|z l] & r & H); [left; eauto|]. right. apply IH.
    simplify_eq/=. eauto.
Qed.

Definition string_contains (s p : string) : bool :=
  contains_bytes (bytes_of_string s) (bytes_of_string p).

(** ASCII [strings.ToLower]. *)
Definition lower_byte (c : byte) : byte :=
  let n := N_of_ascii c in
  (if (65 <=? n) && (n <=? 90) then ascii_of_N (n + 32) else c)%N.
Definition to_lower (b : bytes) : bytes := lower_byte <$> b.

(** [strings.Split] at one character. *)
Fixpoint Split (c : byte) (s : bytes) : list bytes :=
  match s with
  | [] => [[]]
  | x :: s =>
      if bool_decide (x = c) then [] :: Split c s
      else match Split c s with p :: ps => (x :: p) :: ps | [] => [[x]] end
  end.

Lemma Split_none c s : c ∉ s -> Split c s = [s].
Proof.
  induction s as [|x s IH]; intros Hc; [done|]. cbn [Split].
  rewrite bool_decide_eq_false_2 by (intros ->; apply Hc; left). rewrite IH; [done|]. intros H. apply Hc. by right.
Qed.

Lemma Split_app c a b : c ∉ a -> Split c (a ++ c :: b) = a :: Split c b.
Proof.
  induction a as [|x a IH]; intros Hc; cbn [app Split]; [by rewrite bool_decide_eq_true_2|].
  rewrite bool_decide_eq_false_2 by (intros ->; apply Hc; left). rewrite IH; [done|]. intros H. apply Hc. by right.
Qed.

(** [strings.SplitN(s, c, 2)], as what is before and after the first [c]. *)
Fixpoint Cut (c : byte) (s : bytes) : option (bytes * bytes) :=
  match s with
  | [] => None
  | x :: s => if bool_decide (x = c) then Some ([], s) else (fun '(a, b) => (x :: a, b)) <$> Cut c s
  end.

Lemma Cut_app c a b : c ∉ a -> Cut c (a ++ c :: b) = Some (a, b).
Proof.
  induction a as [|x a IH]; intros Hc; cbn [app Cut]; [by rewrite bool_decide_eq_true_2|].
  rewrite bool_decide_eq_false_2 by (intros ->; apply Hc; left). rewrite IH; [done|]. intros H. apply Hc. by right.
Qed.

Lemma Cut_Some c s a b : Cut c s = Some (a, b) -> s = a ++ c :: b.
Proof.
  revert a. induction s as [|x s IH]; intros a; cbn [Cut]; [done|]. case_bool_decide as E; [by intros [= <- <-]; rewrite E|].
  destruct (Cut c s) as [[a' b']|]; [|done]. intros [= <- <-]. cbn. f_equal. by apply IH.
Qed.

(** The value of a run of decimal digits. *)
Definition digit_value (c : byte) : option N :=
  let n := N_of_ascii c in if ((48 <=? n) && (n <=? 57))%N then Some (n - 48)%N else None.

Fixpoint dec_from (acc : N) (s : bytes) : N * bytes :=
  match s with
  | [] => (acc, [])
  | c :: s' => match digit_value c with Some d => dec_from (acc * 10 + d)%N s' | None => (acc, s) end
  end.

Lemma digit_value_pretty n : (n < 10)%N -> digit_value (pretty_N_char n) = Some n.
Proof.
  intros Hn. destruct n as [|p]; [done|]. do 4 (try destruct p as [p|p|]; try reflexivity; try (exfalso; lia)).
Qed.

Lemma dec_pretty_go x s : dec_from 0 (bytes_of_string (pretty_N_go x s)) = dec_from x (bytes_of_string s).
Proof.
  revert s. induction (N.lt_wf_0 x) as [x _ IH]. intros s.
  assert (x = 0 \/ 0 < x)%N as [-> |Hx] by lia; [by rewrite pretty_N_go_0|].
  rewrite pretty_N_go_step by done. rewrite IH by by apply N.div_lt.
  cbn [bytes_of_string String.list_ascii_of_string dec_from]. rewrite digit_value_pretty by (apply N.mod_lt; done).
  f_equal. rewrite N.mul_comm. symmetry. by apply N.div_mod.
Qed.

Lemma dec_FormatInt z : 0 <= z -> dec_from 0 (bytes_of_string (pretty z)) = (Z.to_N z, []).
Proof.
  intros Hz. destruct z as [|p|p]; [done| |done].
  change (pretty (Z.pos p)) with (pretty (N.pos p)). unfold pretty, pretty_N. rewrite decide_False by done. 
  by rewrite dec_pretty_go.
Qed.

(** [strings.Join] *)
Fixpoint join (sep : string) (l : list string) : string :=
  match l with
  | [] => ""
  | [s] => s
  | s :: l => s +:+ sep +:+ join sep l
  end.

(** ** crypto/subtle: equal length and equal content. *)
Definition ConstantTimeCompare (a b : bytes) : Z := if bool_decide (a = b) then 1 else 0.

Lemma ConstantTimeCompare_eq a b : ConstantTimeCompare a b = 1 <-> a = b.
Proof. unfold ConstantTimeCompare. case_bool_decide; naive_solver. Qed.

(** ** strconv: decimal integers, from stdpp's [pretty]. *)
Definition FormatInt (z : Z) : bytes := bytes_of_string (pretty z).

Lemma FormatInt_inj z1 z2 : FormatInt z1 = FormatInt z2 -> z1 = z2.
Proof. intros H%bytes_of_string_inj. by apply (inj pretty). Qed.

Lemma pretty_N_char_no c x : c ∉ bytes_of_string "0123456789" -> pretty_N_char x <> c.
Proof.
  intros Hc <-. apply Hc. simpl. rewrite !elem_of_cons. unfold pretty_N_char. repeat case_match; tauto.
Qed.

Lemma pretty_N_go_no c x s :
  c ∉ bytes_of_string "0123456789" -> c ∉ bytes_of_string s -> c ∉ bytes_of_string (pretty_N_go x s).
Proof.
  intros Hc. revert s. induction (N.lt_wf_0 x) as [x _ IH]; intros s Hs.
  assert (x = 0 \/ 0 < x)%N as [->|?] by lia; [by rewrite pretty_N_go_0|].
  rewrite pretty_N_go_step by done. apply IH; [by apply N.div_lt|]. simpl.
  rewrite not_elem_of_cons. split; [|done]. intros E. by apply (pretty_N_char_no c (x `mod` 10)%N).
Qed.

(** A decimal integer has no byte but digits and the sign. *)
Lemma FormatInt_no c z : c ∉ bytes_of_string "-0123456789" -> c ∉ FormatInt z.
Proof.
  intros Hc. simpl in Hc. rewrite not_elem_of_cons in Hc. destruct Hc as [Hd Hc].
  assert (Hn : forall n : N, c ∉ bytes_of_string (pretty n)).
  { intros n. unfold pretty, pretty_N. case_decide.
    - simpl. apply not_elem_of_cons. rewrite !not_elem_of_cons in Hc. split; [tauto|apply not_elem_of_nil].
    - apply pretty_N_go_no; [done|]. simpl. apply not_elem_of_nil. }
  unfold FormatInt, pretty, pretty_Z. destruct z; [|apply Hn|].
  - apply (Hn 0%N).
  - rewrite bytes_of_string_app, not_elem_of_app. split; [|apply Hn]. simpl.
    rewrite not_elem_of_cons. split; [done|apply not_elem_of_nil].
Qed.

(** ** Fields separated by a byte *)

Lemma split_first (c : byte) a b a' b' :
  c ∉ a -> c ∉ a' -> a ++ c :: b = a' ++ c :: b' -> a = a' /\ b = b'.
Proof.
  revert a'. induction a as [|x a IH]; intros [|x' a'] Ha Ha' H; simpl in *; simplify_eq; try done.
  - rewrite not_elem_of_cons in Ha'. tauto.
  - rewrite not_elem_of_cons in Ha. tauto.
  - rewrite not_elem_of_cons in Ha, Ha'. destruct (IH a') as [-> ->]; tauto.
Qed.

Lemma split_last (c : byte) a b a' b' :
  c ∉ b -> c ∉ b' -> a ++ c :: b = a' ++ c :: b' -> a = a' /\ b = b'.
Proof.
  intros Hb Hb' H. apply (f_equal reverse) in H. rewrite !reverse_app, !reverse_cons, <- !app_assoc in H.
  apply split_first in H as [H1 H2].
  - by apply (inj reverse) in H1; apply (inj reverse) in H2.
  - by rewrite elem_of_reverse.
  - by rewrite elem_of_reverse.
Qed.
