(* ===== verification/Uuid.v ===== *)
(** [internal/domain/uuid.go]: the 128-bit identifiers every table, context key
    and Redis key of the gateway is built from. *)

From stdpp Require Import base strings list numbers vector countable.
From Stdlib Require Import Ascii.
From S2P Require Import GoPrelude Bytes.

(** [type UUID [16]byte]; Go's array equality is Leibniz equality here. *)
Abbreviation UUID := (vec byte 16).

(** The zero value [UUID{}]. *)
Definition ZeroUUID : UUID := vreplicate 16 "000"%char.

(** A way to name concrete identifiers in examples: the last byte is [n]. *)
Definition uuid_n (n : N) : UUID :=
  list_to_vec (replicate 15 "000"%char ++ [ascii_of_N n]).

(** [u[6] = (u[6] & 0x0f) | 0x40; u[8] = (u[8] & 0x3f) | 0x80] on sixteen bytes
    read from [crypto/rand]. *)
Definition NewUUID (rnd : UUID) : UUID :=
  let u6 := ascii_of_N (N.lor (N.land (N_of_ascii (rnd !!! 6%fin)) 0x0f) 0x40) in
  let u8 := ascii_of_N (N.lor (N.land (N_of_ascii (rnd !!! 8%fin)) 0x3f) 0x80) in
  vinsert 8%fin u8 (vinsert 6%fin u6 rnd).

Inductive uuid_error :=
| ErrHex                       (* the error of hex.DecodeString *)
| ErrUUIDLength (n : Z).       (* "invalid UUID length: %d" *)

(** [copy(u[:], b)] for a slice that has exactly [n] bytes. *)
Fixpoint copy_n (n : nat) (b : bytes) : option (vec byte n) :=
  match n, b with
  | O, [] => Some [#]
  | S n, c :: b => v ← copy_n n b; Some (c ::: v)
  | _, _ => None
  end.

Definition copy16 : bytes -> option UUID := copy_n 16.

Definition ParseUUID (s : string) : result uuid_error UUID :=
  let s := remove_byte "-" (bytes_of_string s) in
  match hex_decode s with
  | None => Err ErrHex
  | Some b =>
      match copy16 b with
      | None => Err (ErrUUIDLength (Z.of_nat (length b)))
      | Some u => Ok u
      end
  end.

(** [fmt.Sprintf("%x-%x-%x-%x-%x", u[0:4], u[4:6], u[6:8], u[8:10], u[10:16])] *)
Definition uuid_text (u : UUID) : bytes :=
  let b := vec_to_list u in
  let seg i j := hex_encode (take (j - i) (drop i b)) in
  seg 0%nat 4%nat ++ ["-"%char] ++ seg 4%nat 6%nat ++ ["-"%char] ++
  seg 6%nat 8%nat ++ ["-"%char] ++ seg 8%nat 10%nat ++ ["-"%char] ++ seg 10%nat 16%nat.

Definition uuid_String (u : UUID) : string := string_of_bytes (uuid_text u).

Definition IsZero (u : UUID) : bool := bool_decide (u = ZeroUUID).

Definition uuid_Bytes (u : UUID) : bytes := vec_to_list u.

Definition uuid_Equal (u other : UUID) : bool := bool_decide (u = other).

(** [None] is the panic. *)
Definition MustParseUUID (s : string) : option UUID :=
  match ParseUUID s with Ok u => Some u | Err _ => None end.

(** What [encoding/json] makes of a string, and of a text decoded into one. Its
    law is for the characters it copies as they are. *)
Class JsonString := {
  json_Marshal : string -> bytes;
  json_Unmarshal : bytes -> option string;
}.

Definition plain_char (c : byte) : bool := is_hex_lower c || Ascii.eqb c "-".

Class JsonStringLaws `{JsonString} : Prop :=
  json_plain : forall s, forallb plain_char (bytes_of_string s) = true -> json_Unmarshal (json_Marshal s) = Some s.

Inductive unmarshal_error := ErrJSON | ErrUUIDText (e : uuid_error).

Definition MarshalJSON `{JsonString} (u : UUID) : bytes := json_Marshal (uuid_String u).

(** The receiver is assigned only when everything parses. *)
Definition UnmarshalJSON `{JsonString} (data : bytes) (u : UUID) : UUID * option unmarshal_error :=
  match json_Unmarshal data with
  | None => (u, Some ErrJSON)
  | Some s =>
      match ParseUUID s with
      | Err e => (u, Some (ErrUUIDText e))
      | Ok parsed => (parsed, None)
      end
  end.

(** ** Facts *)

Lemma copy_n_vec n (u : vec byte n) : copy_n n (vec_to_list u) = Some u.
Proof. induction u as [|c n u IH]; simpl; [done|]. by rewrite IH. Qed.

Lemma copy_n_Some n b u : copy_n n b = Some u -> vec_to_list u = b.
Proof.
  revert b. induction n as [|n IH]; intros [|c b]; simpl; try done.
  - by intros [= <-].
  - destruct (copy_n n b) as [v|] eqn:E; simpl; [|done]. intros [= <-]. simpl.
    by rewrite (IH _ _ E).
Qed.

Lemma copy16_vec (u : UUID) : copy16 (vec_to_list u) = Some u.
Proof. apply copy_n_vec. Qed.

Lemma copy16_Some b u : copy16 b = Some u -> vec_to_list u = b.
Proof. apply copy_n_Some. Qed.

(** Identifiers are map keys; the encoding goes through the byte list so that
    look-ups evaluate. *)
#[global] Instance UUID_countable : Countable UUID :=
  inj_countable vec_to_list copy16 copy16_vec.

Lemma uuid_segments (b : bytes) :
  length b = 16%nat ->
  take 4 b ++ take 2 (drop 4 b) ++ take 2 (drop 6 b) ++ take 2 (drop 8 b) ++ take 6 (drop 10 b) = b.
Proof.
  intros H. do 16 (destruct b as [|? b]; [done|]). destruct b; [done|]. simpl in H. lia.
Qed.

Lemma remove_hyphens_uuid_text u :
  remove_byte "-" (uuid_text u) = hex_encode (vec_to_list u).
Proof.
  unfold uuid_text. rewrite !remove_byte_app.
  rewrite !(remove_byte_id _ (hex_encode _)) by (by apply hex_encode_no).
  change (remove_byte "-" ["-"%char]) with (@nil byte).
  rewrite !app_nil_l, <- !hex_encode_app.
  f_equal. apply (uuid_segments (vec_to_list u)). apply length_vec_to_list.
Qed.

Lemma ParseUUID_String u : ParseUUID (uuid_String u) = Ok u.
Proof.
  unfold ParseUUID, uuid_String.
  rewrite bytes_of_string_of_bytes, remove_hyphens_uuid_text, hex_decode_encode.
  by rewrite copy16_vec.
Qed.

Lemma uuid_String_nonempty id : uuid_String id <> "".
Proof. intros E. pose proof (ParseUUID_String id) as P. rewrite E in P. discriminate P. Qed.

#[global] Instance uuid_text_inj : Inj (=) (=) uuid_text.
Proof.
  intros u v H. apply (f_equal (remove_byte "-")) in H.
  rewrite !remove_hyphens_uuid_text in H.
  apply (inj hex_encode) in H. by apply vec_to_list_inj2 in H.
Qed.

#[global] Instance uuid_String_inj : Inj (=) (=) uuid_String.
Proof.
  intros u v H. apply (f_equal bytes_of_string) in H. unfold uuid_String in H.
  rewrite !bytes_of_string_of_bytes in H. by apply (inj uuid_text).
Qed.

Lemma uuid_text_no c u : is_hex_lower c = false -> c <> "-"%char -> c ∉ uuid_text u.
Proof.
  intros Hc Hne. unfold uuid_text.
  rewrite !not_elem_of_app, !list_elem_of_singleton.
  repeat split; auto using hex_encode_no.
Qed.

Lemma length_uuid_text u : length (uuid_text u) = 36%nat.
Proof.
  unfold uuid_text. rewrite !length_app, !length_hex_encode, !length_take, !length_drop.
  rewrite length_vec_to_list. reflexivity.
Qed.

(** ** Properties *)

(** The textual form round-trips: [ParseUUID] of [String] is the identity, and
    every string it accepts is, up to hyphens and letter case, sixteen bytes of
    hex, so two accepted strings with the same digits name the same identifier. *)
Theorem uuid_parse_print_roundtrip :
  (forall u, ParseUUID (uuid_String u) = Ok u) /\
  (forall s u, ParseUUID s = Ok u ->
     hex_decode (remove_byte "-" (bytes_of_string s)) = Some (vec_to_list u)) /\
  (forall u v, uuid_String u = uuid_String v -> u = v).
Proof.
  split; [apply ParseUUID_String|split].
  - intros s u. unfold ParseUUID. intros H. run_guards.
    erewrite copy16_Some; done.
  - intros u v. apply (inj uuid_String).
Qed.

Definition version_bits (u : UUID) : N := N.shiftr (N_of_ascii (u !!! 6%fin)) 4.
Definition variant_bits (u : UUID) : N := N.shiftr (N_of_ascii (u !!! 8%fin)) 6.

Lemma byte_forall (f : byte -> bool) c :
  forallb (fun k => f (ascii_of_nat k)) (seq 0 256) = true -> f c = true.
Proof.
  intros Hall. rewrite forallb_forall in Hall.
  specialize (Hall (nat_of_ascii c)). rewrite ascii_nat_embedding in Hall.
  apply Hall, in_seq. pose proof (nat_ascii_bounded c). lia.
Qed.

(** Whatever the random bytes are, a new identifier carries the version-4 and
    RFC 4122 variant bits. *)
Theorem NewUUID_version_variant (rnd : UUID) :
  version_bits (NewUUID rnd) = 4%N /\ variant_bits (NewUUID rnd) = 2%N.
Proof.
  unfold version_bits, variant_bits, NewUUID. split.
  - rewrite vlookup_insert_ne by done. rewrite vlookup_insert.
    generalize (rnd !!! 6%fin). intros c. apply N.eqb_eq.
    apply (byte_forall (fun c => (N.shiftr (N_of_ascii (ascii_of_N
      (N.lor (N.land (N_of_ascii c) 0x0f) 0x40))) 4 =? 4)%N)). reflexivity.
  - rewrite vlookup_insert. generalize (rnd !!! 8%fin). intros c. apply N.eqb_eq.
    apply (byte_forall (fun c => (N.shiftr (N_of_ascii (ascii_of_N
      (N.lor (N.land (N_of_ascii c) 0x3f) 0x80))) 6 =? 2)%N)). reflexivity.
Qed.

(** The JSON forms: an identifier comes back from its own text, only a text that
    decodes to a string [ParseUUID] accepts changes the receiver, and the panic
    of [MustParseUUID] is that of a text which is no identifier. *)
Theorem uuid_json_roundtrip `{JsonStringLaws} (u v : UUID) :
  UnmarshalJSON (MarshalJSON u) v = (u, None) /\
  (forall data w, UnmarshalJSON data v = (w, None) <-> exists s, json_Unmarshal data = Some s /\ ParseUUID s = Ok w) /\
  (forall data w e, UnmarshalJSON data v = (w, Some e) -> w = v) /\
  MustParseUUID (uuid_String u) = Some u.
Proof.
  split_and!.
  - unfold UnmarshalJSON, MarshalJSON. rewrite json_plain; [by rewrite ParseUUID_String|].
    unfold uuid_String. rewrite bytes_of_string_of_bytes. apply forallb_forall. intros c Hc.
    destruct (plain_char c) eqn:E; [done|]. unfold plain_char in E. apply orb_false_iff in E as [E1 E2].
    destruct (uuid_text_no c u E1 ltac:(by intros ->)). by apply list_elem_of_In.
  - intros data w. unfold UnmarshalJSON. destruct (json_Unmarshal data) as [s|].
    + destruct (ParseUUID s) as [x|e] eqn:E.
      * split; [intros [= <-]; eauto|intros (? & [= <-] & H1); rewrite E in H1; by injection H1 as <-].
      * split; [done|intros (? & [= <-] & H1); by rewrite E in H1].
    + split; [done|by intros (? & ? & _)].
  - intros data w e. unfold UnmarshalJSON. destruct (json_Unmarshal data) as [s|]; [|by intros [= <-]].
    destruct (ParseUUID s); [done|by intros [= <-]].
  - unfold MustParseUUID. by rewrite ParseUUID_String.
Qed.

Definition dquote : byte := "034"%char.

(** Quotes around a text that needs no escape. *)
#[local] Instance quoted_strings : JsonString := {
  json_Marshal s := dquote :: bytes_of_string s ++ [dquote];
  json_Unmarshal b :=
    match b with
    | c :: b => if Ascii.eqb c dquote then Some (string_of_bytes (take (length b - 1) b)) else None
    | [] => None
    end;
}.

Lemma uuid_json_roundtrip_witness :
  UnmarshalJSON (MarshalJSON (uuid_n 7)) (uuid_n 1) = (uuid_n 7, None) /\
  UnmarshalJSON (bytes_of_string "12") (uuid_n 1) = (uuid_n 1, Some ErrJSON).
Proof.
  assert (JsonStringLaws) as L.
  { intros s _. cbn. rewrite length_app. cbn. rewrite Nat.add_sub, take_app_length. by rewrite string_of_bytes_of_string. }
  split; [exact (proj1 (uuid_json_roundtrip (uuid_n 7) (uuid_n 1)))|reflexivity].
Defined.
