(* ===== verification/Regex.v ===== *)
(** The three built-in patterns of [internal/adapter/guardrail/local.go] and the
    part of Go's [regexp] they use: leftmost-first search by backtracking, and
    replacement of all matches that do not overlap. Their classes are of ASCII
    characters, so they are matched byte by byte. *)

From stdpp Require Import base strings list numbers.
From Stdlib Require Import Ascii.
From S2P Require Import GoPrelude Bytes.

(** ** Patterns *)

Abbreviation cclass := (byte -> bool).

Inductive re :=
| Chr (f : cclass)
| WordB
| Cat (a b : re)
| Opt (a : re)
| Star (f : cclass)
| LazyStar (f : cclass).

Definition in_range (lo hi : byte) : cclass := fun c => ((N_of_ascii lo <=? N_of_ascii c) && (N_of_ascii c <=? N_of_ascii hi))%N.
Definition is_one_of (l : string) : cclass := fun c => bool_decide (c ∈ bytes_of_string l).

Definition is_digit : cclass := in_range "0" "9".
Definition is_letter : cclass := fun c => in_range "a" "z" c || in_range "A" "Z" c.
Definition is_word : cclass := fun c => is_letter c || is_digit c || is_one_of "_" c.

Definition char (c : byte) : re := Chr (fun x => bool_decide (x = c)).

Fixpoint rep (n : nat) (a tail : re) : re :=
  match n with O => tail | S n => Cat a (rep n a tail) end.

(** [\b]: exactly one side is a word character. *)
Definition word_side (c : option byte) : bool := match c with Some c => is_word c | None => false end.
Definition word_boundary (prev : option byte) (s : bytes) : bool := xorb (word_side prev) (word_side (head s)).

(** ** Matching *)

Section Match.
Context {B : Type}.
Implicit Types (k : option byte -> bytes -> option B).

Definition or_else (a : option B) (b : option B) : option B := match a with Some _ => a | None => b end.

Fixpoint star_greedy (f : cclass) (prev : option byte) (s : bytes) k : option B :=
  match s with
  | [] => k prev []
  | c :: s' => if f c then or_else (star_greedy f (Some c) s' k) (k prev s) else k prev s
  end.

Fixpoint star_lazy (f : cclass) (prev : option byte) (s : bytes) k : option B :=
  match s with
  | [] => k prev []
  | c :: s' => or_else (k prev s) (if f c then star_lazy f (Some c) s' k else None)
  end.

(** The first way, in the order of preference, in which [r] and then [k] match. *)
Fixpoint match_re (r : re) (prev : option byte) (s : bytes) k : option B :=
  match r with
  | Chr f => match s with c :: s' => if f c then k (Some c) s' else None | [] => None end
  | WordB => if word_boundary prev s then k prev s else None
  | Cat a b => match_re a prev s (fun prev s => match_re b prev s k)
  | Opt a => or_else (match_re a prev s k) (k prev s)
  | Star f => star_greedy f prev s k
  | LazyStar f => star_lazy f prev s k
  end.
End Match.

(** The rest of the text after a match here. *)
Definition match_here (r : re) (prev : option byte) (s : bytes) : option bytes := match_re r prev s (fun _ rest => Some rest).

(** [FindStringSubmatch(s)[0]]: the leftmost match. *)
Fixpoint find_from (r : re) (prev : option byte) (s : bytes) : option bytes :=
  match match_here r prev s with
  | Some rest => Some (take (length s - length rest) s)
  | None => match s with [] => None | c :: s' => find_from r (Some c) s' end
  end.

(** [ReplaceAllStringFunc], for a pattern that does not match the empty text;
    [skip] bytes of a match are still to be passed over. *)
Fixpoint replace_from (r : re) (f : bytes -> bytes) (skip : nat) (prev : option byte) (s : bytes) : bytes :=
  match s with
  | [] => []
  | c :: s' =>
      match skip with
      | S skip => replace_from r f skip (Some c) s'
      | O =>
          match match_here r prev s with
          | Some rest => f (take (length s - length rest) s) ++ replace_from r f (length s - length rest - 1) (Some c) s'
          | None => c :: replace_from r f 0 (Some c) s'
          end
      end
  end.

Definition FindString (r : re) (s : bytes) : option bytes := find_from r None s.
Definition ReplaceAllStringFunc (r : re) (f : bytes -> bytes) (s : bytes) : bytes := replace_from r f 0 None s.
Definition ReplaceAllString (r : re) (by_ : bytes) (s : bytes) : bytes := ReplaceAllStringFunc r (fun _ => by_) s.

(** ** The patterns of the source *)

Definition local_part : cclass := fun c => is_letter c || is_digit c || is_one_of "._%+-" c.
Definition domain_part : cclass := fun c => is_letter c || is_digit c || is_one_of ".-" c.
Definition plus (f : cclass) : re := Cat (Chr f) (Star f).

(** [[a-zA-Z0-9._%+-]+@[a-zA-Z0-9.-]+\.[a-zA-Z]{2,}] *)
Definition email_re : re :=
  Cat (plus local_part) (Cat (char "@") (Cat (plus domain_part) (Cat (char ".") (Cat (Chr is_letter) (plus is_letter))))).

(** [\b(?:\d[ -]*?){13,16}\b] *)
Definition card_digit : re := Cat (Chr is_digit) (LazyStar (is_one_of " -")).
Definition credit_card_re : re :=
  Cat WordB (rep 13 card_digit (Cat (Opt (Cat card_digit (Opt (Cat card_digit (Opt card_digit))))) WordB)).

(** [\b\d{3}-\d{2}-\d{4}\b] *)
Definition ssn_re : re :=
  Cat WordB (rep 3 (Chr is_digit) (Cat (char "-") (rep 2 (Chr is_digit) (Cat (char "-") (rep 4 (Chr is_digit) WordB))))).

(** ** What matching means *)

(** [matches r prev s prev' s']: [r] can match from [s] up to [s']. *)
Inductive star_matches (f : cclass) : option byte -> bytes -> option byte -> bytes -> Prop :=
| star_stop prev s : star_matches f prev s prev s
| star_more prev c s prev' s' : f c = true -> star_matches f (Some c) s prev' s' -> star_matches f prev (c :: s) prev' s'.

Inductive matches : re -> option byte -> bytes -> option byte -> bytes -> Prop :=
| m_chr f prev c s : f c = true -> matches (Chr f) prev (c :: s) (Some c) s
| m_wordb prev s : word_boundary prev s = true -> matches WordB prev s prev s
| m_cat a b prev s prev' s' prev'' s'' :
    matches a prev s prev' s' -> matches b prev' s' prev'' s'' -> matches (Cat a b) prev s prev'' s''
| m_opt a prev s prev' s' : matches a prev s prev' s' -> matches (Opt a) prev s prev' s'
| m_skip a prev s : matches (Opt a) prev s prev s
| m_star f prev s prev' s' : star_matches f prev s prev' s' -> matches (Star f) prev s prev' s'
| m_lazy f prev s prev' s' : star_matches f prev s prev' s' -> matches (LazyStar f) prev s prev' s'.

#[export] Hint Constructors star_matches matches : gateway.

Section Correct.
Context {B : Type}.
Implicit Types (k : option byte -> bytes -> option B).

Lemma or_else_some (a b : option B) x : or_else a b = Some x -> a = Some x \/ b = Some x.
Proof. destruct a; auto. Qed.

Lemma star_greedy_sound f prev s k x :
  star_greedy f prev s k = Some x -> exists prev' s', star_matches f prev s prev' s' /\ k prev' s' = Some x.
Proof.
  revert prev. induction s as [|c s IH]; intros prev; cbn [star_greedy]; [eauto with gateway|].
  destruct (f c) eqn:Hf; [|eauto with gateway].
  intros [H|H]%or_else_some; [|eauto with gateway]. destruct (IH _ H) as (p' & s' & H1 & H2). eauto with gateway.
Qed.

Lemma star_lazy_sound f prev s k x :
  star_lazy f prev s k = Some x -> exists prev' s', star_matches f prev s prev' s' /\ k prev' s' = Some x.
Proof.
  revert prev. induction s as [|c s IH]; intros prev; cbn [star_lazy]; [eauto with gateway|].
  intros [H|H]%or_else_some; [eauto with gateway|]. destruct (f c) eqn:Hf; [|done].
  destruct (IH _ H) as (p' & s' & H1 & H2). eauto with gateway.
Qed.

Lemma match_re_sound r prev s k x :
  match_re r prev s k = Some x -> exists prev' s', matches r prev s prev' s' /\ k prev' s' = Some x.
Proof.
  revert prev s k. induction r as [f| |a IHa b IHb|a IHa|f|f]; intros prev s k; cbn [match_re].
  - destruct s as [|c s]; [done|]. destruct (f c) eqn:Hf; [|done]. eauto with gateway.
  - destruct (word_boundary prev s) eqn:Hw; [|done]. eauto with gateway.
  - intros (p' & s' & H1 & H2)%IHa. destruct (IHb _ _ _ H2) as (p'' & s'' & H3 & H4). eauto with gateway.
  - intros [H|H]%or_else_some; [|eauto with gateway]. destruct (IHa _ _ _ H) as (p' & s' & H1 & H2). eauto with gateway.
  - intros (p' & s' & H1 & H2)%star_greedy_sound. eauto with gateway.
  - intros (p' & s' & H1 & H2)%star_lazy_sound. eauto with gateway.
Qed.

Lemma star_greedy_complete f prev s k prev' s' :
  star_matches f prev s prev' s' -> k prev' s' <> None -> star_greedy f prev s k <> None.
Proof.
  induction 1 as [prev s|prev c s prev' s' Hf _ IH]; intros Hk.
  - destruct s as [|c s]; cbn [star_greedy]; [done|]. destruct (f c); [|done]. by destruct (star_greedy _ _ _ _).
  - cbn [star_greedy]. rewrite Hf. specialize (IH Hk). by destruct (star_greedy _ _ _ _).
Qed.

Lemma star_lazy_complete f prev s k prev' s' :
  star_matches f prev s prev' s' -> k prev' s' <> None -> star_lazy f prev s k <> None.
Proof.
  induction 1 as [prev s|prev c s prev' s' Hf _ IH]; intros Hk.
  - destruct s as [|c s]; cbn [star_lazy]; [done|]. by destruct (k prev (c :: s)).
  - cbn [star_lazy]. rewrite Hf. specialize (IH Hk). by destruct (k prev (c :: s)).
Qed.

Lemma match_re_complete r prev s k prev' s' :
  matches r prev s prev' s' -> k prev' s' <> None -> match_re r prev s k <> None.
Proof.
  intros H. revert k. induction H; intros k Hk; cbn [match_re]; auto.
  - by rewrite H.
  - by rewrite H.
  - specialize (IHmatches k Hk). by destruct (match_re _ _ _ _).
  - by destruct (match_re _ _ _ _).
  - by apply (star_greedy_complete _ _ _ _ prev' s').
  - by apply (star_lazy_complete _ _ _ _ prev' s').
Qed.
End Correct.

(** The matcher finds a match here exactly when there is one, and it is one. *)
Lemma match_here_correct r prev s :
  match match_here r prev s with
  | Some rest => exists prev', matches r prev s prev' rest
  | None => forall prev' rest, ~ matches r prev s prev' rest
  end.
Proof.
  destruct (match_here r prev s) as [rest|] eqn:H.
  - apply match_re_sound in H as (p' & s' & H1 & [= ->]). eauto.
  - intros p' rest Hm. by apply (match_re_complete r prev s (fun _ rest => Some rest) p' rest).
Qed.

(** ** Fixed shapes between word boundaries *)

Fixpoint chars (fs : list cclass) : re :=
  match fs with [] => WordB | f :: fs => Cat (Chr f) (chars fs) end.

Fixpoint shape (fs : list cclass) (prev : option byte) (s : bytes) : option bytes :=
  match fs with
  | [] => if word_boundary prev s then Some s else None
  | f :: fs => match s with c :: s' => if f c then shape fs (Some c) s' else None | [] => None end
  end.

Lemma match_re_chars fs prev s : match_re (chars fs) prev s (fun _ rest => Some rest) = shape fs prev s.
Proof.
  revert prev s. induction fs as [|f fs IH]; intros prev s; cbn [chars match_re shape]; [done|].
  destruct s as [|c s]; [done|]. destruct (f c); [apply IH|done].
Qed.

Lemma match_here_chars fs prev s :
  match_here (Cat WordB (chars fs)) prev s = if word_boundary prev s then shape fs prev s else None.
Proof. unfold match_here. cbn [match_re]. by rewrite match_re_chars. Qed.

Lemma shape_rest fs prev s rest : shape fs prev s = Some rest -> exists l, s = l ++ rest /\ Forall2 (fun f c => f c = true) fs l.
Proof.
  revert prev s. induction fs as [|f fs IH]; intros prev s; cbn [shape].
  - destruct (word_boundary prev s); [|done]. intros [= ->]. exists []. by split.
  - destruct s as [|c s]; [done|]. destruct (f c) eqn:Hf; [|done].
    intros (l & -> & Hl)%IH. exists (c :: l). split; [done|by constructor].
Qed.

(** ** Replacing leaves nothing to find *)

Section Masked.
(** A shape whose first and last characters are word characters, and a mask that
    begins and ends with one that none of the shape's classes has, as [X] and [SSN]. *)
Variables (f0 : cclass) (fs : list cclass) (m0 : byte) (mask : bytes).
Hypotheses (Hf0 : forall c, f0 c = true -> is_word c = true)
  (Hlast : forall fl c, list.last (f0 :: fs) = Some fl -> fl c = true -> is_word c = true)
  (Hm0 : is_word m0 = true) (Hm0fs : Forall (fun f => f m0 = false) (f0 :: fs))
  (Hmask : head mask = Some m0) (Hmask' : list.last mask = Some m0)
  (Hmaskf0 : Forall (fun c => f0 c = false) mask).

Abbreviation r := (Cat WordB (chars (f0 :: fs))).
Abbreviation repl := (replace_from r (fun _ => mask)).

(** The character before the point where a match that is being passed over ends. *)
Fixpoint prev_after (skip : nat) (prev : option byte) (s : bytes) : option byte :=
  match skip, s with
  | S skip, c :: s => prev_after skip (Some c) s
  | _, _ => prev
  end.

Lemma repl_here prev s :
  repl 0 prev s = match s with
    | [] => []
    | c :: s' => match match_here r prev s with
        | Some rest => mask ++ repl (length s - length rest - 1) (Some c) s'
        | None => c :: repl 0 (Some c) s'
        end
    end.
Proof. by destruct s. Qed.

Lemma head_app_mask (t : bytes) : head (mask ++ t) = Some m0.
Proof. by destruct mask. Qed.

Lemma match_here_first prev c s : f0 c = false -> match_here r prev (c :: s) = None.
Proof. intros H. rewrite match_here_chars. cbn [shape]. rewrite H. by destruct (word_boundary _ _). Qed.

Lemma match_here_f0 prev c s rest : match_here r prev (c :: s) = Some rest -> f0 c = true.
Proof. destruct (f0 c) eqn:H; [done|]. by rewrite match_here_first. Qed.

Lemma repl_head_side prev s : word_side (head (repl 0 prev s)) = word_side (head s).
Proof.
  rewrite repl_here. destruct s as [|c s]; [done|].
  destruct (match_here r prev (c :: s)) as [rest|] eqn:H; [|done].
  rewrite head_app_mask. cbn [head word_side]. rewrite Hm0. symmetry. apply Hf0. by eapply match_here_f0.
Qed.

(** What has the shape after replacing had it before. *)
Lemma shape_transport gs prev prev' s :
  Forall (fun f => f m0 = false) gs -> word_side prev' = word_side prev ->
  shape gs prev' (repl 0 prev s) <> None -> shape gs prev s <> None.
Proof.
  revert prev prev' s. induction gs as [|g gs IH]; intros prev prev' s Hg Hp; cbn [shape].
  - unfold word_boundary. rewrite repl_head_side, Hp. by destruct (xorb _ _).
  - apply Forall_cons_iff in Hg as [Hgx Hg]. rewrite repl_here. destruct s as [|c s]; [done|].
    destruct (match_here r prev (c :: s)) as [rest|] eqn:H.
    + destruct mask as [|m mask']; [done|]. injection Hmask as ->. cbn [app]. by rewrite Hgx.
    + destruct (g c); [|done]. apply IH; done.
Qed.

Lemma find_past_mask l prev t :
  Forall (fun c => f0 c = false) l -> find_from r prev (l ++ t) = find_from r (prev_after (length l) prev l) t.
Proof.
  revert prev. induction l as [|c l IH]; intros prev Hl; [done|]. apply Forall_cons_iff in Hl as [Hc Hl].
  cbn [app find_from]. rewrite match_here_first by done. by apply IH.
Qed.

Lemma prev_after_last l prev : prev_after (length l) prev l = match list.last l with Some c => Some c | None => prev end.
Proof.
  revert prev. induction l as [|c l IH]; intros prev; [done|]. cbn [length prev_after]. rewrite IH, last_cons.
  by destruct (list.last l).
Qed.

Lemma prev_after_app l t prev : prev_after (length l) prev (l ++ t) = prev_after (length l) prev l.
Proof. revert prev. induction l as [|c l IH]; intros prev; [by destruct t|]. apply IH. Qed.

(** A match ends after a word character. *)
Lemma match_ends_word prev c s rest :
  match_here r prev (c :: s) = Some rest ->
  word_side (prev_after (length (c :: s) - length rest - 1) (Some c) s) = true.
Proof.
  rewrite match_here_chars. destruct (word_boundary prev (c :: s)); [|done]. intros (l & Hl & HF)%shape_rest.
  destruct l as [|c' l]; [by inversion HF|]. cbn [app] in Hl. injection Hl as <- ->.
  replace (length (c :: l ++ rest) - length rest - 1)%nat with (length l) by (cbn [length]; rewrite length_app; lia).
  rewrite prev_after_app, prev_after_last.
  pose proof (Forall2_last _ _ _ HF) as HL. rewrite (last_cons c l) in HL.
  destruct (list.last (f0 :: fs)) as [fl|] eqn:E; [|by rewrite last_None in E].
  destruct (list.last l) as [cl|]; inversion HL; subst; cbn [word_side]; eauto.
Qed.

Lemma find_repl s skip prev prev' :
  (skip <= length s)%nat -> word_side prev' = word_side (prev_after skip prev s) ->
  find_from r prev' (repl skip prev s) = None.
Proof.
  revert skip prev prev'. induction s as [|c s IH]; intros skip prev prev' Hle Hp.
  { cbn [replace_from find_from]. rewrite match_here_chars. cbn [shape]. by destruct (word_boundary _ _). }
  destruct skip as [|skip]; [|cbn [replace_from]; apply IH; cbn in *; [lia|done]].
  cbn [replace_from]. destruct (match_here r prev (c :: s)) as [rest|] eqn:H.
  - rewrite find_past_mask, prev_after_last, Hmask' by done. apply IH; [cbn [length]; lia|].
    cbn [word_side]. rewrite Hm0. symmetry. exact (match_ends_word prev c s rest H).
  - cbn [prev_after] in Hp. cbn [find_from]. rewrite IH by (done || lia).
    assert (match_here r prev' (c :: repl 0 (Some c) s) = None) as ->; [|done].
    rewrite match_here_chars in *. unfold word_boundary in *. cbn [head] in *. rewrite Hp.
    destruct (xorb _ _); [|done]. cbn [shape] in *. destruct (f0 c); [|done].
    destruct (shape fs (Some c) (repl 0 (Some c) s)) eqn:E; [|done].
    exfalso. by apply (shape_transport fs (Some c) (Some c) s); [inversion Hm0fs| |congruence|].
Qed.

Lemma masked_not_found s : FindString r (ReplaceAllString r mask s) = None.
Proof. apply find_repl; [lia|done]. Qed.
End Masked.

Definition ssn_shape : list cclass :=
  [is_digit; is_digit; is_digit; (fun x => bool_decide (x = "-"%char)); is_digit; is_digit; (fun x => bool_decide (x = "-"%char));
   is_digit; is_digit; is_digit; is_digit].

Lemma ssn_re_shape : ssn_re = Cat WordB (chars ssn_shape).
Proof. reflexivity. Qed.

Lemma digit_word c : is_digit c = true -> is_word c = true.
Proof. unfold is_word. intros ->. by rewrite orb_true_r. Qed.

(** Masked numbers leave no number behind. *)
Lemma ssn_masked s : FindString ssn_re (ReplaceAllString ssn_re (bytes_of_string "XXX-XX-XXXX") s) = None.
Proof.
  rewrite ssn_re_shape. apply (masked_not_found is_digit (tail ssn_shape) "X"%char).
  - apply digit_word.
  - intros fl c [= <-]. apply digit_word.
  - reflexivity.
  - repeat constructor.
  - reflexivity.
  - reflexivity.
  - repeat constructor.
Qed.

(** ** Searching *)

(** [r] matches at some place of [s]. *)
Definition occurs (r : re) (s : bytes) : Prop :=
  exists pre suf prev' rest, s = pre ++ suf /\ matches r (list.last pre) suf prev' rest.

Lemma find_from_none r prev s :
  find_from r prev s = None <->
  forall pre suf prev' rest, s = pre ++ suf -> ~ matches r (match list.last pre with Some c => Some c | None => prev end) suf prev' rest.
Proof.
  revert prev. induction s as [|c s IH]; intros prev; cbn [find_from].
  - pose proof (match_here_correct r prev []) as H. destruct (match_here r prev []) as [rest|].
    + split; [done|]. intros Hno. destruct H as [p Hm]. by destruct (Hno [] [] p rest eq_refl).
    + split; [|done]. intros _ [|? ?] suf p rest [=]. subst. apply H.
  - pose proof (match_here_correct r prev (c :: s)) as H. destruct (match_here r prev (c :: s)) as [rest|].
    + split; [done|]. intros Hno. destruct H as [p Hm]. by destruct (Hno [] (c :: s) p rest eq_refl).
    + rewrite IH. split.
      * intros Hno [|c' pre] suf p rest [=]; subst; [apply H|]. rewrite last_cons.
        specialize (Hno pre suf p rest eq_refl). by destruct (list.last pre).
      * intros Hno pre suf p rest ->. specialize (Hno (c :: pre) suf p rest eq_refl). rewrite last_cons in Hno.
        by destruct (list.last pre).
Qed.

Lemma FindString_none r s : FindString r s = None <-> ~ occurs r s.
Proof.
  unfold FindString, occurs. rewrite find_from_none. split.
  - intros Hno (pre & suf & p & rest & -> & Hm). apply (Hno pre suf p rest eq_refl). by destruct (list.last pre).
  - intros Hno pre suf p rest -> Hm. apply Hno. exists pre, suf, p, rest. split; [done|]. by destruct (list.last pre).
Qed.
