(* ===== verification/Password.v ===== *)
(** Password hashes: [internal/adapter/crypto/argon2.go], with the unpadded
    base 64 of [encoding/base64] and the part of [fmt.Sscanf] it uses. The
    Argon2id function itself is third-party code and a parameter. *)

From stdpp Require Import base strings list numbers pretty.
From Stdlib Require Import Ascii.
From S2P Require Import GoPrelude Bytes.
Open Scope Z_scope.

(** ** Base 64 without padding *)

Definition std_alphabet : bytes :=
  bytes_of_string "ABCDEFGHIJKLMNOPQRSTUVWXYZabcdefghijklmnopqrstuvwxyz0123456789+/".

Definition byte_val (c : byte) : Z := Z.of_N (N_of_ascii c).
Definition val_byte (n : Z) : byte := ascii_of_N (Z.to_N n).

Definition digit64 (n : Z) : byte := nth (Z.to_nat n) std_alphabet "A"%char.

Fixpoint index_of (c : byte) (l : bytes) : option Z :=
  match l with
  | [] => None
  | x :: l => if Ascii.eqb x c then Some 0 else Z.succ <$> index_of c l
  end.

Definition value64 (c : byte) : option Z := index_of c std_alphabet.

(** [EncodeToString]: three bytes make four digits, a rest of one or two makes
    two or three. *)
Fixpoint EncodeToString (b : bytes) : bytes :=
  match b with
  | [] => []
  | [x] => let v := byte_val x * 65536 in [digit64 (v / 262144); digit64 (v / 4096 mod 64)]
  | [x; y] =>
      let v := byte_val x * 65536 + byte_val y * 256 in
      [digit64 (v / 262144); digit64 (v / 4096 mod 64); digit64 (v / 64 mod 64)]
  | x :: y :: z :: b =>
      let v := byte_val x * 65536 + byte_val y * 256 + byte_val z in
      [digit64 (v / 262144); digit64 (v / 4096 mod 64); digit64 (v / 64 mod 64); digit64 (v mod 64)] ++ EncodeToString b
  end.

(** The digits' values; a line break is skipped, any other character refused. *)
Fixpoint values64 (s : bytes) : option (list Z) :=
  match s with
  | [] => Some []
  | c :: s =>
      if Ascii.eqb c "010" || Ascii.eqb c "013" then values64 s
      else match value64 c, values64 s with
      | Some v, Some vs => Some (v :: vs)
      | _, _ => None
      end
  end.

(** Bits left over at the end are ignored. *)
Fixpoint bytes_of_values (vs : list Z) : option bytes :=
  match vs with
  | [] => Some []
  | [a] => None
  | [a; b] => let v := a * 262144 + b * 4096 in Some [val_byte (v / 65536)]
  | [a; b; c] => let v := a * 262144 + b * 4096 + c * 64 in Some [val_byte (v / 65536); val_byte (v / 256 mod 256)]
  | a :: b :: c :: d :: vs =>
      let v := a * 262144 + b * 4096 + c * 64 + d in
      (fun rest => val_byte (v / 65536) :: val_byte (v / 256 mod 256) :: val_byte (v mod 256) :: rest) <$> bytes_of_values vs
  end.

Definition DecodeString (s : bytes) : option bytes := values64 s ≫= bytes_of_values.

Lemma byte_val_range c : 0 <= byte_val c < 256.
Proof. unfold byte_val. pose proof (N_of_ascii_lt c). lia. Qed.

Lemma val_byte_val c : val_byte (byte_val c) = c.
Proof. unfold val_byte, byte_val. rewrite N2Z.id. apply ascii_N_embedding. Qed.

Lemma value64_digit64 n : 0 <= n < 64 -> value64 (digit64 n) = Some n.
Proof.
  intros Hn. rewrite <- (Z2Nat.id n) by lia. assert (Z.to_nat n < 64)%nat as Hlt by lia. revert Hlt.
  generalize (Z.to_nat n). clear n Hn. intros n Hn.
  assert (forallb (fun k => bool_decide (value64 (digit64 (Z.of_nat k)) = Some (Z.of_nat k))) (List.seq 0 64) = true) as H by (vm_compute; reflexivity).
  rewrite forallb_forall in H. specialize (H n). rewrite List.in_seq, bool_decide_eq_true in H. apply H. lia.
Qed.

Definition alphabet_plain (c : byte) : bool := negb (Ascii.eqb c "010" || Ascii.eqb c "013").

Lemma digit64_forall (f : byte -> bool) n : 0 <= n < 64 -> forallb f std_alphabet = true -> f (digit64 n) = true.
Proof.
  intros Hn H. rewrite forallb_forall in H. apply H. unfold digit64. apply List.nth_In.
  change (length std_alphabet) with 64%nat. lia.
Qed.

Lemma values64_cons n s : 0 <= n < 64 -> values64 (digit64 n :: s) = (fun vs => n :: vs) <$> values64 s.
Proof.
  intros Hn. cbn [values64]. pose proof (digit64_forall alphabet_plain n Hn eq_refl) as Hp. unfold alphabet_plain in Hp.
  apply negb_true_iff in Hp. rewrite Hp, value64_digit64 by done. by destruct (values64 s).
Qed.

(** ** Groups *)

Lemma digits_range v : 0 <= v < 16777216 ->
  0 <= v / 262144 < 64 /\ 0 <= v / 4096 mod 64 < 64 /\ 0 <= v / 64 mod 64 < 64 /\ 0 <= v mod 64 < 64.
Proof.
  intros Hv. split_and!; try (apply Z.mod_pos_bound; lia); [apply Z.div_pos; lia|apply Z.div_lt_upper_bound; lia].
Qed.

Lemma join2 v : v / 262144 * 262144 + v / 4096 mod 64 * 4096 = v / 4096 * 4096.
Proof.
  replace (v / 262144) with (v / 4096 / 64) by (rewrite Z.div_div by lia; done).
  pose proof (Z.div_mod (v / 4096) 64 ltac:(lia)). lia.
Qed.

Lemma join3 v : v / 262144 * 262144 + v / 4096 mod 64 * 4096 + v / 64 mod 64 * 64 = v / 64 * 64.
Proof.
  rewrite join2. replace (v / 4096) with (v / 64 / 64) by (rewrite Z.div_div by lia; done).
  pose proof (Z.div_mod (v / 64) 64 ltac:(lia)). lia.
Qed.

Lemma join4 v : v / 262144 * 262144 + v / 4096 mod 64 * 4096 + v / 64 mod 64 * 64 + v mod 64 = v.
Proof. rewrite join3. pose proof (Z.div_mod v 64 ltac:(lia)). lia. Qed.

Lemma group_bytes x y z : 0 <= x < 256 -> 0 <= y < 256 -> 0 <= z < 256 ->
  let v := x * 65536 + y * 256 + z in v / 65536 = x /\ v / 256 mod 256 = y /\ v mod 256 = z.
Proof.
  intros Hx Hy Hz. cbn zeta. split_and!.
  - symmetry. apply (Z.div_unique_pos _ _ _ (y * 256 + z)); lia.
  - replace ((x * 65536 + y * 256 + z) / 256) with (x * 256 + y) by (apply (Z.div_unique_pos _ _ _ z); lia).
    symmetry. apply (Z.mod_unique_pos _ _ x); lia.
  - symmetry. apply (Z.mod_unique_pos _ _ (x * 256 + y)); lia.
Qed.

(** What was encoded is what is decoded. *)
Lemma DecodeString_EncodeToString b : DecodeString (EncodeToString b) = Some b.
Proof.
  unfold DecodeString. remember (length b) as n eqn:Hn. revert b Hn.
  induction n as [n IH] using lt_wf_ind. intros b ->. destruct b as [|x [|y [|z b]]]; [done| | |]; pose proof (byte_val_range x) as Hx.
  - destruct (digits_range (byte_val x * 65536) ltac:(lia)) as (R1 & R2 & _).
    cbn [EncodeToString]. rewrite !values64_cons by done. cbn [values64 fmap option_fmap option_map mbind option_bind bytes_of_values].
    rewrite join2. do 2 f_equal. rewrite <- (val_byte_val x) at 2. f_equal.
    replace (byte_val x * 65536) with (byte_val x * 16 * 4096) by lia. rewrite Z.div_mul by lia.
    replace (byte_val x * 16 * 4096) with (byte_val x * 65536) by lia. apply Z.div_mul. lia.
  - pose proof (byte_val_range y) as Hy. set (v := byte_val x * 65536 + byte_val y * 256).
    destruct (digits_range v ltac:(lia)) as (R1 & R2 & R3 & _). destruct (group_bytes (byte_val x) (byte_val y) 0 Hx Hy ltac:(lia)) as (G1 & G2 & _).
    cbn [EncodeToString]. fold v. rewrite !values64_cons by done. cbn [values64 fmap option_fmap option_map mbind option_bind bytes_of_values].
    rewrite join3. replace (v / 64 * 64) with v by (subst v; replace (byte_val x * 65536 + byte_val y * 256)
      with ((byte_val x * 1024 + byte_val y * 4) * 64) by lia; rewrite Z.div_mul by lia; done).
    rewrite Z.add_0_r in G1, G2. fold v in G1, G2. rewrite G1, G2, !val_byte_val. done.
  - pose proof (byte_val_range y) as Hy. pose proof (byte_val_range z) as Hz.
    set (v := byte_val x * 65536 + byte_val y * 256 + byte_val z).
    destruct (digits_range v ltac:(lia)) as (R1 & R2 & R3 & R4). destruct (group_bytes _ _ _ Hx Hy Hz) as (G1 & G2 & G3).
    specialize (IH (length b) ltac:(cbn; lia) b eq_refl). cbn [EncodeToString app]. fold v. fold v in G1, G2, G3.
    rewrite !values64_cons by done. destruct (values64 (EncodeToString b)) as [vs|]; [|done].
    cbn [fmap option_fmap option_map mbind option_bind bytes_of_values] in *. rewrite IH, join4, G1, G2, G3, !val_byte_val. done.
Qed.

(** ** Hashes *)

(** The third-party key derivation: password, salt, iterations, memory, threads
    and the length asked for; [None] is a panic. *)
Class Argon2 := IDKey : bytes -> bytes -> Z -> Z -> Z -> Z -> option bytes.

(** It wants one iteration and one thread, and panics without; a key of at least
    one byte is then as long as asked for. *)
Class Argon2Laws `{Argon2} : Prop := {
  IDKey_key : forall p s t m th len, 1 <= t -> 1 <= th -> 1 <= len ->
    exists key, IDKey p s t m th len = Some key /\ Z.of_nat (length key) = len;
  IDKey_panics : forall p s t m th len, t < 1 \/ th < 1 -> IDKey p s t m th len = None;
}.

Inductive password_error := ErrInvalidHash | ErrInvalidVersion | ErrInvalidPassword.

Definition password_error_text (e : password_error) : string :=
  match e with
  | ErrInvalidHash => "invalid hash format"
  | ErrInvalidVersion => "invalid argon2 version"
  | ErrInvalidPassword => "invalid password"
  end.

(** Memory, iterations and lengths are 32-bit, parallelism 8-bit, all unsigned. *)
Record Argon2idParams := mkParams {
  Memory : Z;
  Iterations : Z;
  Parallelism : Z;
  SaltLength : Z;
  KeyLength : Z;
}.

Definition DefaultParams : Argon2idParams := mkParams 65536 1 4 16 32.

Definition dollar : byte := "$"%char.

(** The text of a hash. *)
Definition phc_text (params : Argon2idParams) (salt hash : bytes) : string :=
  string_of_bytes (bytes_of_string "$argon2id$v=19$m=" ++ FormatInt (Memory params) ++ bytes_of_string ",t=" ++
    FormatInt (Iterations params) ++ bytes_of_string ",p=" ++ FormatInt (Parallelism params) ++ [dollar] ++
    EncodeToString salt ++ [dollar] ++ EncodeToString hash).

(** [HashPassword]: [salt] is what the random source gives. [None] is a panic. *)
Definition argon2_HashPassword `{Argon2} (params : option Argon2idParams) (salt : bytes) (password : string) : option string :=
  let params := default DefaultParams params in
  match IDKey (bytes_of_string password) salt (Iterations params) (Memory params) (Parallelism params) (KeyLength params) with
  | None => None
  | Some hash => Some (phc_text params salt hash)
  end.

(** ASCII blanks; a line feed ends the scan. *)
Fixpoint skip_blanks (s : bytes) : bytes :=
  match s with
  | c :: s' => if bool_decide (c ∈ [" "; "009"; "011"; "012"; "013"]%char) then skip_blanks s' else s
  | [] => []
  end.

(** [fmt.Sscanf(s, "%d", &v)] into an unsigned variable of [w] bits that holds 0:
    without a digit, or out of range, it keeps 0, the error being dropped. *)
Definition scan_uint (w : Z) (s : bytes) : Z :=
  let n := Z.of_N (fst (dec_from 0 (skip_blanks s))) in
  if n <? 2 ^ w then n else 0.

(** One of the [k=v] parameters. *)
Definition scan_param (acc : option (Z * Z * Z)) (p : bytes) : option (Z * Z * Z) :=
  match acc, Split "=" p with
  | Some (m, t, par), [k; v] =>
      if bool_decide (k = bytes_of_string "m") then Some (scan_uint 32 v, t, par)
      else if bool_decide (k = bytes_of_string "t") then Some (m, scan_uint 32 v, par)
      else if bool_decide (k = bytes_of_string "p") then Some (m, t, scan_uint 8 v)
      else acc
  | _, _ => None
  end.

Definition decodePHC (phc : string) : result password_error (Argon2idParams * bytes * bytes) :=
  match Split dollar (bytes_of_string phc) with
  | [_; name; version; params; salt64; hash64] =>
      if negb (bool_decide (name = bytes_of_string "argon2id")) then Err ErrInvalidHash
      else if negb (bool_decide (version = bytes_of_string "v=19")) then Err ErrInvalidVersion
      else
        let paramParts := Split "," params in
        if negb (bool_decide (length paramParts = 3%nat)) then Err ErrInvalidHash
        else match foldl scan_param (Some (0, 0, 0)) paramParts with
        | None => Err ErrInvalidHash
        | Some (memory, iterations, parallelism) =>
            match DecodeString salt64, DecodeString hash64 with
            | Some salt, Some hash =>
                Ok (mkParams memory iterations parallelism (Z.of_nat (length salt)) (Z.of_nat (length hash)), salt, hash)
            | _, _ => Err ErrInvalidHash
            end
        end
  | _ => Err ErrInvalidHash
  end.

(** [Some (Ok tt)] when the password is right; [None] is a panic. *)
Definition argon2_VerifyPassword `{Argon2} (password phcHash : string) : option (result password_error unit) :=
  match decodePHC phcHash with
  | Err e => Some (Err e)
  | Ok (params, salt, hash) =>
      match IDKey (bytes_of_string password) salt (Iterations params) (Memory params) (Parallelism params)
              (Z.of_nat (length hash)) with
      | None => None
      | Some computedHash =>
          if ConstantTimeCompare hash computedHash =? 1 then Some (Ok tt) else Some (Err ErrInvalidPassword)
      end
  end.

(** ** The format is read back *)

(** A decidable fact about closed lists, by evaluation. *)
Ltac decide_closed := apply (bool_decide_eq_true_1 _); vm_compute; reflexivity.

Definition uint (w z : Z) : Prop := 0 <= z < 2 ^ w.

Definition params_ok (p : Argon2idParams) : Prop :=
  uint 32 (Memory p) /\ uint 32 (Iterations p) /\ uint 8 (Parallelism p) /\ uint 32 (KeyLength p).

Lemma scan_uint_FormatInt w z : 0 <= w -> uint w z -> scan_uint w (FormatInt z) = z.
Proof.
  intros Hw [Hz Hlt]. unfold scan_uint.
  assert (skip_blanks (FormatInt z) = FormatInt z) as ->.
  { assert (Forall (fun b => b ∉ FormatInt z) [" "; "009"; "011"; "012"; "013"]%char) as Hno
      by (repeat constructor; apply FormatInt_no; decide_closed).
    destruct (FormatInt z) as [|c s]; [done|]. cbn [skip_blanks]. rewrite bool_decide_eq_false_2; [done|].
    intros Hin. rewrite Forall_forall in Hno. apply (Hno c Hin). left. }
  unfold FormatInt. rewrite dec_FormatInt by done. cbn [fst]. rewrite Z2N.id by done.
  destruct (Z.ltb_spec z (2 ^ w)); lia.
Qed.

Definition not_in_alphabet (c : byte) : bool := forallb (fun x => negb (Ascii.eqb x c)) std_alphabet.

Lemma EncodeToString_no c b : not_in_alphabet c = true -> c ∉ EncodeToString b.
Proof.
  intros Hc. remember (length b) as n eqn:Hn. revert b Hn. induction n as [n IH] using lt_wf_ind. intros b ->.
  assert (forall v, 0 <= v < 64 -> c <> digit64 v) as Hd.
  { intros v Hv Heq. pose proof (digit64_forall (fun x => negb (Ascii.eqb x c)) v Hv Hc) as H.
    rewrite <- Heq, Ascii.eqb_refl in H. done. }
  destruct b as [|x [|y [|z b]]]; cbn [EncodeToString app]; rewrite ?not_elem_of_cons; [apply not_elem_of_nil| | |].
  - pose proof (byte_val_range x). destruct (digits_range (byte_val x * 65536) ltac:(lia)) as (? & ? & _).
    split_and!; auto using not_elem_of_nil.
  - pose proof (byte_val_range x). pose proof (byte_val_range y).
    destruct (digits_range (byte_val x * 65536 + byte_val y * 256) ltac:(lia)) as (? & ? & ? & _).
    split_and!; auto using not_elem_of_nil.
  - pose proof (byte_val_range x). pose proof (byte_val_range y). pose proof (byte_val_range z).
    destruct (digits_range (byte_val x * 65536 + byte_val y * 256 + byte_val z) ltac:(lia)) as (? & ? & ? & ?).
    split_and!; auto. apply (IH (length b)); [cbn; lia|done].
Qed.

Lemma Split_param k z : "="%char <> k -> Split "=" ([k; "="%char] ++ FormatInt z) = [[k]; FormatInt z].
Proof.
  intros Hk. change ([k; "="%char] ++ FormatInt z) with ([k] ++ "="%char :: FormatInt z).
  rewrite Split_app by by rewrite list_elem_of_singleton. rewrite Split_none; [done|]. apply FormatInt_no. decide_closed.
Qed.

Lemma scan_params a b c m t p :
  uint 32 m -> uint 32 t -> uint 8 p ->
  foldl scan_param (Some (a, b, c)) [bytes_of_string "m=" ++ FormatInt m; bytes_of_string "t=" ++ FormatInt t; bytes_of_string "p=" ++ FormatInt p] =
    Some (m, t, p).
Proof.
  intros Hm Ht Hp. cbn [foldl]. unfold scan_param. change (bytes_of_string "m=") with ["m"%char; "="%char].
  change (bytes_of_string "t=") with ["t"%char; "="%char]. change (bytes_of_string "p=") with ["p"%char; "="%char].
  rewrite !Split_param by done. 
  repeat match goal with |- context [bool_decide (?x = ?y)] =>
    let b := eval vm_compute in (bool_decide (x = y)) in change (bool_decide (x = y)) with b; cbn iota end.
  by rewrite !scan_uint_FormatInt by (done || lia).
Qed.

Lemma decodePHC_written m t p salt hash :
  uint 32 m -> uint 32 t -> uint 8 p ->
  forall sl kl,
  decodePHC (phc_text (mkParams m t p sl kl) salt hash) =
  Ok (mkParams m t p (Z.of_nat (length salt)) (Z.of_nat (length hash)), salt, hash).
Proof.
  intros Hm Ht Hp sl kl. unfold decodePHC, phc_text. cbn [Memory Iterations Parallelism]. rewrite bytes_of_string_of_bytes.
  assert (forall z, dollar ∉ FormatInt z) as Hfd by (intros z; apply FormatInt_no; decide_closed).
  assert (forall z, ","%char ∉ FormatInt z) as Hfc by (intros z; apply FormatInt_no; decide_closed).
  assert (forall b, dollar ∉ EncodeToString b) as He by (intros b; by apply EncodeToString_no).
  set (params := bytes_of_string "m=" ++ FormatInt m ++ bytes_of_string ",t=" ++ FormatInt t ++ bytes_of_string ",p=" ++ FormatInt p).
  match goal with |- context [Split dollar ?x] => replace x with
    ([] ++ dollar :: (bytes_of_string "argon2id" ++ dollar :: (bytes_of_string "v=19" ++ dollar :: (params ++ dollar ::
      (EncodeToString salt ++ dollar :: EncodeToString hash))))) by (subst params; unfold dollar; cbn; repeat (rewrite <- app_assoc; cbn); done) end.
  assert (dollar ∉ params) as Hpar.
  { subst params. rewrite !not_elem_of_app. split_and!; auto; decide_closed. }
  rewrite Split_app by apply not_elem_of_nil. rewrite Split_app by (decide_closed).
  rewrite Split_app by (decide_closed). rewrite Split_app by done. rewrite Split_app by done. rewrite Split_none by done.
  rewrite !bool_decide_eq_true_2 by done. cbn [negb].
  assert (Split "," params = [bytes_of_string "m=" ++ FormatInt m; bytes_of_string "t=" ++ FormatInt t; bytes_of_string "p=" ++ FormatInt p]) as ->.
  { subst params. 
    replace (bytes_of_string "m=" ++ FormatInt m ++ bytes_of_string ",t=" ++ FormatInt t ++ bytes_of_string ",p=" ++ FormatInt p)
      with ((bytes_of_string "m=" ++ FormatInt m) ++ ","%char :: ((bytes_of_string "t=" ++ FormatInt t) ++ ","%char :: (bytes_of_string "p=" ++ FormatInt p)))
      by (cbn; repeat (rewrite <- app_assoc; cbn); done).
    assert (forall k z, ","%char ∉ bytes_of_string k -> ","%char ∉ bytes_of_string k ++ FormatInt z) as Hno
      by (intros k z Hk; rewrite not_elem_of_app; by split).
    rewrite Split_app by (apply Hno; decide_closed). rewrite Split_app by (apply Hno; decide_closed).
    by rewrite Split_none by (apply Hno; decide_closed). }
  rewrite bool_decide_eq_true_2 by done. cbn [negb].
  rewrite scan_params by done. by rewrite !DecodeString_EncodeToString.
Qed.

Definition params_key `{Argon2} (p : Argon2idParams) (salt : bytes) (pw : string) : option bytes :=
  IDKey (bytes_of_string pw) salt (Iterations p) (Memory p) (Parallelism p) (KeyLength p).

(** Hashing returns exactly when there is an iteration and a thread (for a key of
    at least a byte), and verifying is then comparing keys. *)
Lemma HashPassword_returns `{Argon2Laws} (params : option Argon2idParams) (salt : bytes) (password : string) :
  let p := default DefaultParams params in
  1 <= Iterations p -> 1 <= Parallelism p -> 1 <= KeyLength p ->
  exists key, params_key p salt password = Some key /\ Z.of_nat (length key) = KeyLength p /\
    argon2_HashPassword params salt password = Some (phc_text p salt key).
Proof.
  cbn zeta. intros Ht Hp Hk. unfold argon2_HashPassword, params_key.
  destruct (IDKey_key (bytes_of_string password) salt _ (Memory (default DefaultParams params)) _ _ Ht Hp Hk) as (key & E & Hl).
  exists key. by rewrite E.
Qed.

Lemma VerifyPassword_text `{Argon2Laws} (p : Argon2idParams) (salt key : bytes) (pw : string) :
  params_ok p -> 1 <= Iterations p -> 1 <= Parallelism p -> 1 <= KeyLength p -> Z.of_nat (length key) = KeyLength p ->
  argon2_VerifyPassword pw (phc_text p salt key) =
    if bool_decide (params_key p salt pw = Some key) then Some (Ok tt) else Some (Err ErrInvalidPassword).
Proof.
  intros (Hm & Ht & Hp & Hk) Ht1 Hp1 Hk1 Hlen. unfold argon2_VerifyPassword, params_key. destruct p as [m t par sl kl].
  rewrite decodePHC_written by done. cbn [Iterations Memory Parallelism KeyLength] in *. rewrite Hlen.
  destruct (IDKey_key (bytes_of_string pw) salt t m par kl Ht1 Hp1 Hk1) as (key' & -> & Hl).
  unfold ConstantTimeCompare. repeat case_bool_decide; cbn; congruence.
Qed.

(** A hash with the default parameters is made, and accepts its password. *)
Lemma default_hash `{Argon2Laws} (salt : bytes) (password : string) :
  exists hash, argon2_HashPassword (Some DefaultParams) salt password = Some hash /\
    argon2_VerifyPassword password hash = Some (Ok tt).
Proof.
  destruct (HashPassword_returns (Some DefaultParams) salt password) as (key & E & Hl & Hh); [cbn; lia..|].
  eexists. split; [exact Hh|]. cbn [default] in *.
  rewrite VerifyPassword_text; [by rewrite bool_decide_eq_true_2|repeat split; vm_compute; congruence|cbn; lia..|done].
Qed.

(** C40: With at least one iteration, one thread and one byte of key, hashing
    returns, and a password is accepted against the hash exactly when its key is the
    one that was stored, so the password that was hashed always is. Without an
    iteration or a thread hashing panics, and so does verifying any password against
    a stored text with such parameters. *)
Theorem password_roundtrip `{Argon2Laws} (params : option Argon2idParams) (salt : bytes) (password password' : string) :
  let p := default DefaultParams params in
  params_ok p ->
  (1 <= Iterations p -> 1 <= Parallelism p -> 1 <= KeyLength p ->
   exists hash, argon2_HashPassword params salt password = Some hash /\
     argon2_VerifyPassword password hash = Some (Ok tt) /\
     (params_key p salt password' = params_key p salt password -> argon2_VerifyPassword password' hash = Some (Ok tt)) /\
     (params_key p salt password' <> params_key p salt password ->
        argon2_VerifyPassword password' hash = Some (Err ErrInvalidPassword))) /\
  (Iterations p = 0 \/ Parallelism p = 0 ->
   argon2_HashPassword params salt password = None /\
   forall key, argon2_VerifyPassword password' (phc_text p salt key) = None).
Proof.
  intros p Hok. split.
  - intros Ht Hp Hk. destruct (HashPassword_returns params salt password Ht Hp Hk) as (key & E & Hl & Hh).
    fold p in E, Hl, Hh. exists (phc_text p salt key). split; [exact Hh|].
    rewrite !VerifyPassword_text by done. rewrite E. split_and!; [by rewrite bool_decide_eq_true_2|..];
      intros; case_bool_decide; congruence.
  - intros Hz. unfold argon2_HashPassword, argon2_VerifyPassword. fold p. rewrite IDKey_panics by lia. split; [done|].
    intros key. destruct Hok as (Hm & Ht & Hp & _). destruct p as [m t par sl kl].
    cbn [Iterations Memory Parallelism KeyLength] in *. rewrite decodePHC_written by done.
    cbn [Iterations Memory Parallelism]. by rewrite IDKey_panics by lia.
Qed.

#[local] Instance toy_argon2 : Argon2 := fun p s t _ th len =>
  if (t <? 1) || (th <? 1) then None else Some (take (Z.to_nat len) (p ++ s ++ replicate (Z.to_nat len) "0"%char)).
#[local] Instance toy_argon2_laws : Argon2Laws.
Proof.
  constructor; intros p s t m th len; unfold IDKey, toy_argon2.
  - intros Ht Hth Hl. rewrite (proj2 (Z.ltb_ge t 1)), (proj2 (Z.ltb_ge th 1)) by lia. eexists. split; [done|].
    rewrite length_take, !length_app, length_replicate. lia.
  - intros Hz. destruct (Z.ltb_spec t 1), (Z.ltb_spec th 1); try done. lia.
Qed.

Lemma password_roundtrip_witness :
  let salt := bytes_of_string "0123456789abcdef" in
  (exists hash, argon2_HashPassword None salt "secret" = Some hash /\
     argon2_VerifyPassword "secret" hash = Some (Ok tt) /\ argon2_VerifyPassword "Secret" hash = Some (Err ErrInvalidPassword)) /\
  argon2_HashPassword None salt "secret" =
    Some "$argon2id$v=19$m=65536,t=1,p=4$MDEyMzQ1Njc4OWFiY2RlZg$c2VjcmV0MDEyMzQ1Njc4OWFiY2RlZjAwMDAwMDAwMDA" /\
  argon2_HashPassword (Some (mkParams 65536 0 4 16 32)) salt "secret" = None.
Proof.
  cbn zeta. split_and!; [|vm_compute; reflexivity|].
  - destruct (proj1 (password_roundtrip None (bytes_of_string "0123456789abcdef") "secret" "Secret"
      ltac:(repeat split; vm_compute; congruence)) ltac:(cbn; lia) ltac:(cbn; lia) ltac:(cbn; lia)) as (hash & H1 & H2 & _ & H3).
    exists hash. split; [exact H1|]. split; [exact H2|]. apply H3. vm_compute. discriminate.
  - apply (password_roundtrip (Some (mkParams 65536 0 4 16 32)) (bytes_of_string "0123456789abcdef") "secret" "Secret");
      [repeat split; vm_compute; congruence|]. left. reflexivity.
Defined.
