(* ===== verification/Errors.v ===== *)
(** Go errors: the sentinel errors of [internal/domain/errors.go],
    [internal/domain/delegation/lifecycle.go], [internal/domain/model/errors.go],
    [internal/domain/tool/errors.go] and [internal/domain/guardrail/errors.go],
    wrapping by [fmt.Errorf("...: %w", err)], and [errors.Is]. *)

From stdpp Require Import base strings list.
From S2P Require Import GoPrelude.

Inductive DomainError :=
| ErrNotFound | ErrConflict | ErrUnauthorized | ErrForbidden | ErrValidation
| ErrRateLimited | ErrGuardrailViolation | ErrTenantMismatch | ErrRLSViolation
| ErrReplayDetected | ErrExpired | ErrInvalidToken | ErrInvalidCredentials
| ErrReviewNotPending | ErrNotImplemented.

Inductive DelegationError :=
| ErrScopeIntersectionEmpty | ErrCrossTenantDelegationProhibited
| ErrDepthLimitExceeded | ErrFanOutLimitExceeded | ErrBudgetExhausted
| ErrCycleDetected | ErrGrantRevokedOrConsumed | ErrInvalidGrantTransition.

Inductive ModelError :=
| ErrProviderUnavailable | ErrProviderTimeout | ErrProviderRateLimited
| ErrProviderAuthFailed | ErrProviderInvalidRequest | ErrNoHealthyProvider.

Inductive ToolError :=
| ErrToolNotFound | ErrToolDefinitionMismatch | ErrToolTimeout
| ErrToolResourceExhausted | ErrToolExecutionFailed | ErrToolNotAllowed
| ErrMaxIterationsExceeded | ErrToolRepository.

Inductive GuardrailError :=
| ErrExternalClassifierUnavailable | ErrClassifierTimeout | ErrClassifierConfig
| ErrCompositeNoClassifiers | ErrCircuitBreakerOpen
| ErrNoClassifiersConfigured | ErrExternalClassifierFailed.

(** A Go [error] value. [EOther] is an [errors.New] made on the spot or an error
    of a driver, known by its text only; [EWrap] is [fmt.Errorf("msg: %w", e)].
    [ESqlNoRows] is [database/sql]'s [ErrNoRows]. [EPanic] is no error value: it
    stands for a panic on its way to the router's [Recoverer]. *)
Inductive error :=
| EDomain (e : DomainError)
| EDelegation (e : DelegationError)
| EModel (e : ModelError)
| ETool (e : ToolError)
| EGuardrail (e : GuardrailError)
| ESqlNoRows
| EPanic
| EOther (msg : string)
| EWrap (msg : string) (e : error).

#[global] Instance DomainError_eq_dec : EqDecision DomainError.
Proof. solve_decision. Defined.
#[global] Instance DelegationError_eq_dec : EqDecision DelegationError.
Proof. solve_decision. Defined.
#[global] Instance ModelError_eq_dec : EqDecision ModelError.
Proof. solve_decision. Defined.
#[global] Instance ToolError_eq_dec : EqDecision ToolError.
Proof. solve_decision. Defined.
#[global] Instance GuardrailError_eq_dec : EqDecision GuardrailError.
Proof. solve_decision. Defined.
#[global] Instance error_eq_dec : EqDecision error.
Proof. solve_decision. Defined.

Coercion EDomain : DomainError >-> error.
Coercion EDelegation : DelegationError >-> error.
Coercion EModel : ModelError >-> error.
Coercion ETool : ToolError >-> error.
Coercion EGuardrail : GuardrailError >-> error.

(** The error a caller answers instead of [e]; a panic it does not see. *)
Definition unless_panic (e answer : error) : error := if bool_decide (e = EPanic) then EPanic else answer.

(** ** Error texts *)

Definition DomainError_text (e : DomainError) : string :=
  match e with
  | ErrNotFound => "resource not found"
  | ErrConflict => "resource conflict"
  | ErrUnauthorized => "unauthorized"
  | ErrForbidden => "forbidden"
  | ErrValidation => "validation failed"
  | ErrRateLimited => "rate limited"
  | ErrGuardrailViolation => "guardrail violation"
  | ErrTenantMismatch => "tenant mismatch"
  | ErrRLSViolation => "RLS violation"
  | ErrReplayDetected => "replay detected"
  | ErrExpired => "expired"
  | ErrInvalidToken => "invalid token"
  | ErrInvalidCredentials => "invalid credentials"
  | ErrReviewNotPending => "review not pending"
  | ErrNotImplemented => "not implemented"
  end.

Definition DelegationError_text (e : DelegationError) : string :=
  match e with
  | ErrScopeIntersectionEmpty => "scope intersection is empty"
  | ErrCrossTenantDelegationProhibited => "cross-tenant delegation is prohibited"
  | ErrDepthLimitExceeded => "delegation depth limit exceeded"
  | ErrFanOutLimitExceeded => "delegation fan-out limit exceeded"
  | ErrBudgetExhausted => "delegation budget exhausted"
  | ErrCycleDetected => "delegation cycle detected"
  | ErrGrantRevokedOrConsumed => "grant is revoked or consumed"
  | ErrInvalidGrantTransition => "invalid grant status transition"
  end.

Definition ModelError_text (e : ModelError) : string :=
  match e with
  | ErrProviderUnavailable => "provider unavailable"
  | ErrProviderTimeout => "provider timeout"
  | ErrProviderRateLimited => "provider rate limited"
  | ErrProviderAuthFailed => "provider authentication failed"
  | ErrProviderInvalidRequest => "provider invalid request"
  | ErrNoHealthyProvider => "no healthy provider available"
  end.

Definition ToolError_text (e : ToolError) : string :=
  match e with
  | ErrToolNotFound => "tool not found"
  | ErrToolDefinitionMismatch => "tool definition mismatch"
  | ErrToolTimeout => "tool execution timeout"
  | ErrToolResourceExhausted => "tool resource exhausted (fuel/memory)"
  | ErrToolExecutionFailed => "tool execution failed"
  | ErrToolNotAllowed => "tool not allowed (HITL rejected)"
  | ErrMaxIterationsExceeded => "max iterations exceeded"
  | ErrToolRepository => "tool repository unavailable"
  end.

Definition GuardrailError_text (e : GuardrailError) : string :=
  match e with
  | ErrExternalClassifierUnavailable => "external classifier unavailable"
  | ErrClassifierTimeout => "classifier request timeout"
  | ErrClassifierConfig => "classifier configuration invalid"
  | ErrCompositeNoClassifiers => "no classifiers configured in composite"
  | ErrCircuitBreakerOpen => "circuit breaker open"
  | ErrNoClassifiersConfigured => "no classifiers configured"
  | ErrExternalClassifierFailed => "external classifier failed"
  end.

(** [err.Error()] *)
Fixpoint Error (e : error) : string :=
  match e with
  | EDomain e => DomainError_text e
  | EDelegation e => DelegationError_text e
  | EModel e => ModelError_text e
  | ETool e => ToolError_text e
  | EGuardrail e => GuardrailError_text e
  | ESqlNoRows => "sql: no rows in result set"
  | EPanic => "panic"
  | EOther msg => msg
  | EWrap msg e => msg +:+ ": " +:+ Error e
  end.

(** [errors.Is(err, target)]: [target] is found by following [%w] wrappings. *)
Fixpoint errors_Is (e target : error) : bool :=
  bool_decide (e = target) ||
  match e with EWrap _ e' => errors_Is e' target | _ => false end.

Lemma errors_Is_unfold e target :
  errors_Is e target =
    (bool_decide (e = target) ||
     match e with EWrap _ e' => errors_Is e' target | _ => false end)%bool.
Proof. by destruct e. Qed.

Lemma errors_Is_refl e : errors_Is e e = true.
Proof. rewrite errors_Is_unfold, bool_decide_eq_true_2; done. Qed.

Lemma errors_Is_wrap msg e target :
  errors_Is e target = true -> errors_Is (EWrap msg e) target = true.
Proof. intros H. rewrite errors_Is_unfold, H. apply orb_true_r. Qed.

(** Wrapping never hides a cause. *)
#[export] Hint Resolve errors_Is_refl errors_Is_wrap : gateway.
