(* ===== verification/Tenancy.v ===== *)
(** [internal/adapter/postgres/db.go] and the row-level-security policies of the
    migrations: which rows a statement sees, and the two ways the repositories
    run their statements.

    A statement runs on a connection. Every tenanted table has the policy
    [tenant_id = current_setting('app.current_tenant', true)::uuid] with FORCE,
    so on a connection whose setting is unset no row is visible and no row can
    be written, unless the database role bypasses row-level security. *)

From stdpp Require Import base gmap strings list.
From S2P Require Import GoPrelude Errors Bytes Uuid.

(** What a statement finds outside its own table: whether the role the pool connects
    with bypasses row-level security, the error the driver reports for an empty
    result (the driver is third-party code), whether the server is reachable at
    all, and the tenants that exist, whose rows the tenant column of every tenanted
    table references. *)
Record DbEnv := mkDbEnv {
  db_bypass_rls : bool;
  db_no_rows : error;
  db_outage : option error;
  db_tenants : UUID -> bool;
}.

(** The tenant setting of the connection a statement runs on. *)
Record Conn := mkConn { conn_tenant : option UUID }.

(** A connection taken from the pool outside any transaction: [set_config] with
    [is_local = true] on another connection does not reach it. *)
Definition pool_conn : Conn := mkConn None.

(** The connection of a transaction after [set_config('app.current_tenant', t, true)]. *)
Definition tx_conn (t : UUID) : Conn := mkConn (Some t).

(** The USING / WITH CHECK predicate, with [NULL = x] not true. *)
Definition rls_visible (env : DbEnv) (c : Conn) (row_tenant : UUID) : bool :=
  db_bypass_rls env || bool_decide (conn_tenant c = Some row_tenant).

(** [timestamptz] keeps microseconds. *)
Definition pg_time (t : Z) : Z := t / 1000 * 1000.

(** What PostgreSQL reports when WITH CHECK refuses a row, and when a unique
    index does. *)
Definition rls_check_error : error :=
  EOther "new row violates row-level security policy".
Definition unique_error : error :=
  EOther "duplicate key value violates unique constraint (SQLSTATE 23505)".

(** What it reports for a row of a tenant that does not exist, and for a CHECK
    constraint. *)
Definition tenant_fk_error : error := EOther "insert or update violates foreign key constraint on tenants".
Definition check_error : error := EOther "new row violates check constraint".

(** [err == sql.ErrNoRows] decides whether an empty result is ErrNotFound. *)
Definition no_rows (env : DbEnv) : error :=
  if bool_decide (db_no_rows env = ESqlNoRows) then ErrNotFound else db_no_rows env.

Section WithTenant.
Context {S A : Type}.

(** A statement on the pool: the error if the server cannot be reached. *)
Definition on_pool (env : DbEnv) (f : S -> S * result error A) (s : S) : S * result error A :=
  match db_outage env with Some e => (s, Err e) | None => f s end.

(** [WithTenant]: a transaction is opened and its tenant is set, but [fn] is
    given only the context, so its statements go through [r.pool] and run, and
    commit, on a connection of their own. *)
Definition WithTenant (env : DbEnv) (tenantID : UUID)
    (fn : Conn -> S -> S * result error A) (s : S) : S * result error A :=
  match db_outage env with
  | Some e => (s, Err e)
  | None => fn pool_conn s
  end.

(** [WithTenantBackground]: the same with a context that no request cancels. *)
Definition WithTenantBackground (env : DbEnv) (tenantID : UUID)
    (fn : Conn -> S -> S * result error A) (s : S) : S * result error A :=
  match db_outage env with
  | Some e => (s, Err e)
  | None => fn pool_conn s
  end.

(** [WithTenantTx]: [fn] runs on the transaction; an error rolls it back. *)
Definition WithTenantTx (env : DbEnv) (tenantID : UUID)
    (fn : Conn -> S -> S * result error A) (s : S) : S * result error A :=
  match db_outage env with
  | Some e => (s, Err e)
  | None =>
      match fn (tx_conn tenantID) s with
      | (s', Ok a) => (s', Ok a)
      | (_, Err e) => (s, Err e)
      end
  end.

(** A failed tenant transaction leaves the database as it was. *)
Lemma WithTenantTx_rollback env t fn s s' e :
  WithTenantTx env t fn s = (s', Err e) -> s' = s.
Proof. unfold WithTenantTx. run_guards; congruence. Qed.
End WithTenant.

Lemma rls_visible_tx env t u :
  db_bypass_rls env = false -> rls_visible env (tx_conn t) u = bool_decide (t = u).
Proof.
  intros Hb. unfold rls_visible. rewrite Hb. simpl.
  apply bool_decide_ext. naive_solver.
Qed.

Lemma rls_visible_pool env u : rls_visible env pool_conn u = db_bypass_rls env.
Proof. unfold rls_visible. simpl. by rewrite orb_false_r. Qed.

Lemma rls_visible_own env t : rls_visible env (tx_conn t) t = true.
Proof.
  unfold rls_visible. rewrite bool_decide_eq_true_2 by done. apply orb_true_r.
Qed.
#[export] Hint Resolve rls_visible_own : gateway.
