(* ===== verification/Delegation.v ===== *)
(** [internal/domain/delegation]: scope sets ([grant.go]), the grant lifecycle
    ([lifecycle.go]) and the validators ([validators.go]). *)

From stdpp Require Import base gmap strings list sorting relations.
From S2P Require Import GoPrelude Errors Bytes Uuid.

(** * Scope sets: grant.go *)
Module Scope.

Abbreviation ScopeSet := (list string).

(** [sort.Strings] sorts by byte-wise lexicographic order. *)
Definition sort_Strings (l : list string) : list string := merge_sort String.le l.

(** The [for _, s := range scopes] loop with its [seen] map. *)
Fixpoint dedup_loop (seen : gset string) (scopes : list string) : list string :=
  match scopes with
  | [] => []
  | s :: rest =>
      if bool_decide (s ∈ seen) then dedup_loop seen rest
      else s :: dedup_loop ({[s]} ∪ seen) rest
  end.

Definition NewScopeSet (scopes : list string) : ScopeSet :=
  match scopes with
  | [] => []
  | _ => sort_Strings (dedup_loop ∅ scopes)
  end.

Definition Intersection (a b : ScopeSet) : result error ScopeSet :=
  match a, b with
  | [], _ | _, [] => Err ErrScopeIntersectionEmpty
  | _, _ =>
      let setB : gset string := list_to_set b in
      match List.filter (fun s => bool_decide (s ∈ setB)) a with
      | [] => Err ErrScopeIntersectionEmpty
      | r => Ok (sort_Strings r)
      end
  end.

(** The order and multiplicity discipline of a scope set. *)
Definition scope_wf (s : ScopeSet) : Prop := StronglySorted String.le s /\ NoDup s.

Lemma sort_Strings_perm l : sort_Strings l ≡ₚ l.
Proof. apply merge_sort_Permutation. Qed.

Lemma sort_Strings_sorted l : StronglySorted String.le (sort_Strings l).
Proof. apply StronglySorted_merge_sort; apply _. Qed.

Lemma elem_of_sort_Strings x l : x ∈ sort_Strings l <-> x ∈ l.
Proof. by rewrite sort_Strings_perm. Qed.

Lemma sort_Strings_wf l : NoDup l -> scope_wf (sort_Strings l).
Proof.
  intros Hl. split; [apply sort_Strings_sorted|]. by rewrite sort_Strings_perm.
Qed.

Lemma elem_of_dedup_loop scopes : forall seen x,
  x ∈ dedup_loop seen scopes <-> x ∈ scopes /\ x ∉ seen.
Proof.
  induction scopes as [|s rest IH]; intros seen x; simpl; [set_solver|].
  case_bool_decide as Hs; [rewrite IH; set_solver|].
  rewrite elem_of_cons, IH. destruct (decide (x = s)); set_solver.
Qed.

Lemma NoDup_dedup_loop scopes : forall seen, NoDup (dedup_loop seen scopes).
Proof.
  induction scopes as [|s rest IH]; intros seen; simpl; [constructor|].
  case_bool_decide; [done|]. constructor; [|done].
  rewrite elem_of_dedup_loop. set_solver.
Qed.

Lemma elem_of_NewScopeSet x scopes : x ∈ NewScopeSet scopes <-> x ∈ scopes.
Proof.
  unfold NewScopeSet. destruct scopes as [|s rest]; [done|].
  rewrite elem_of_sort_Strings, elem_of_dedup_loop. set_solver.
Qed.

Lemma NewScopeSet_wf scopes : scope_wf (NewScopeSet scopes).
Proof.
  unfold NewScopeSet. destruct scopes as [|s rest].
  - split; constructor.
  - apply sort_Strings_wf, NoDup_dedup_loop.
Qed.

(** A well-formed scope set is determined by its members. *)
Lemma scope_wf_ext s t :
  scope_wf s -> scope_wf t -> (forall x, x ∈ s <-> x ∈ t) -> s = t.
Proof.
  intros [Hs Ns] [Ht Nt] Hext.
  apply (StronglySorted_unique String.le); [done|done|].
  by apply NoDup_Permutation.
Qed.

Lemma Intersection_Ok a b r :
  Intersection a b = Ok r -> (forall x, x ∈ r <-> x ∈ a /\ x ∈ b) /\ r <> [].
Proof.
  unfold Intersection. intros H.
  destruct a as [|a0 a]; [done|]. destruct b as [|b0 b]; [done|].
  destruct (List.filter _ _) as [|y ys] eqn:Hf; [done|].
  injection H as <-. split.
  - intros x. rewrite elem_of_sort_Strings, <- Hf, list_elem_filter_bool.
    rewrite bool_decide_eq_true, elem_of_list_to_set. done.
  - intros Hnil. pose proof (sort_Strings_perm (y :: ys)) as Hp. rewrite Hnil in Hp.
    by apply Permutation_nil_cons in Hp.
Qed.

Lemma Intersection_Err a b e :
  Intersection a b = Err e ->
  e = ErrScopeIntersectionEmpty /\ forall x, ~ (x ∈ a /\ x ∈ b).
Proof.
  unfold Intersection. intros H.
  destruct a as [|a0 a]; [naive_solver set_solver|].
  destruct b as [|b0 b]; [naive_solver set_solver|].
  destruct (List.filter _ _) as [|y ys] eqn:Hf; [|done].
  injection H as <-. split; [done|]. intros x [Ha Hb].
  assert (x ∈ List.filter (fun s => bool_decide (s ∈ (list_to_set (b0 :: b) : gset string)))
                (a0 :: a)) as Hin.
  { apply list_elem_filter_bool. rewrite bool_decide_eq_true, elem_of_list_to_set. done. }
  rewrite Hf in Hin. set_solver.
Qed.

Lemma Intersection_wf a b r : scope_wf a -> Intersection a b = Ok r -> scope_wf r.
Proof.
  intros [_ Na]. unfold Intersection. intros H.
  destruct a as [|a0 a]; [done|]. destruct b as [|b0 b]; [done|].
  destruct (List.filter _ _) as [|y ys] eqn:Hf; [done|]. injection H as <-.
  apply sort_Strings_wf. rewrite <- Hf. by apply NoDup_filter_bool.
Qed.

End Scope.
Import Scope.

(** * Grants *)

(** [type GrantStatus string]: the five constants, or any other text a row or a
    client may carry. *)
Inductive GrantStatus :=
| GrantStatusIssued | GrantStatusActive | GrantStatusRevoked
| GrantStatusExpired | GrantStatusConsumed
| GrantStatusOther (s : string).

#[global] Instance GrantStatus_eq_dec : EqDecision GrantStatus.
Proof. solve_decision. Defined.

Record Grant := mkGrant {
  GrantID : UUID;
  ParentGrantID : option UUID;
  ChainID : UUID;
  TenantID : UUID;
  DelegateIdentity : string;
  GrantedScope : ScopeSet;
  RootIntent : string;
  HITLClassification : string;
  Depth : Z;
  Generation : Z;
  ExpiresAt : Z;
  BudgetRemaining : Z;
  Status : GrantStatus;
}.

Definition HasParent (g : Grant) : bool :=
  match ParentGrantID g with Some _ => true | None => false end.

(** [time.Now().After(g.ExpiresAt)], with the clock as an argument. *)
Definition grant_IsExpired (now : Z) (g : Grant) : bool := ExpiresAt g <? now.

Definition EffectiveScope (g : Grant) : ScopeSet := GrantedScope g.

Definition set_Status (g : Grant) (s : GrantStatus) : Grant :=
  mkGrant (GrantID g) (ParentGrantID g) (ChainID g) (TenantID g) (DelegateIdentity g)
    (GrantedScope g) (RootIntent g) (HITLClassification g) (Depth g) (Generation g)
    (ExpiresAt g) (BudgetRemaining g) s.

(** * Lifecycle: lifecycle.go *)
Module Lifecycle.

Definition IsTerminal (s : GrantStatus) : bool :=
  match s with
  | GrantStatusRevoked | GrantStatusExpired | GrantStatusConsumed => true
  | _ => false
  end.

Definition CanTransitionTo (s target : GrantStatus) : bool :=
  if IsTerminal s then false
  else if bool_decide (s = target) then false
  else match s with
       | GrantStatusIssued =>
           bool_decide (target = GrantStatusActive) ||
           bool_decide (target = GrantStatusRevoked) ||
           bool_decide (target = GrantStatusExpired)
       | GrantStatusActive =>
           bool_decide (target = GrantStatusRevoked) ||
           bool_decide (target = GrantStatusExpired) ||
           bool_decide (target = GrantStatusConsumed)
       | _ => false
       end.

Definition ApplyTransition (g : Grant) (target : GrantStatus) : Grant * option error :=
  if negb (CanTransitionTo (Status g) target)
  then (g, Some (ErrInvalidGrantTransition : error))
  else (set_Status g target, None).

(** The documented lifecycle diagram, as a step relation. *)
Inductive lifecycle_step : GrantStatus -> GrantStatus -> Prop :=
| step_activate : lifecycle_step GrantStatusIssued GrantStatusActive
| step_revoke s : s = GrantStatusIssued \/ s = GrantStatusActive ->
    lifecycle_step s GrantStatusRevoked
| step_expire s : s = GrantStatusIssued \/ s = GrantStatusActive ->
    lifecycle_step s GrantStatusExpired
| step_consume : lifecycle_step GrantStatusActive GrantStatusConsumed.

#[local] Hint Constructors lifecycle_step : core.

(** Steps left before a terminal state. *)
Definition rank (s : GrantStatus) : nat :=
  match s with GrantStatusIssued => 2 | GrantStatusActive => 1 | _ => 0 end.

Lemma CanTransitionTo_spec s t : CanTransitionTo s t = true <-> lifecycle_step s t.
Proof.
  split.
  - intros H. unfold CanTransitionTo in H.
    destruct s, t; simpl in H; run_guards; reflect_bools; simplify_eq; eauto.
  - intros H. destruct H as [|s [->| ->]|s [->| ->]|]; reflexivity.
Qed.

Lemma lifecycle_step_rank s t : lifecycle_step s t -> (rank t < rank s)%nat.
Proof. intros [| ? [->| ->]| ? [->| ->]|]; simpl; lia. Qed.

Lemma nsteps_rank n s t : nsteps lifecycle_step n s t -> (n + rank t <= rank s)%nat.
Proof.
  induction 1 as [|n s u t Hsu _ IH]; [lia|].
  apply lifecycle_step_rank in Hsu. lia.
Qed.

(** A run of [ApplyTransition] calls, errors ignored by the caller. *)
Definition apply_all (g : Grant) (targets : list GrantStatus) : Grant :=
  fold_left (fun g t => fst (ApplyTransition g t)) targets g.

Lemma ApplyTransition_rtc g t :
  rtc lifecycle_step (Status g) (Status (fst (ApplyTransition g t))).
Proof.
  unfold ApplyTransition. destruct (CanTransitionTo _ _) eqn:H; simpl.
  - apply rtc_once. by apply CanTransitionTo_spec.
  - apply rtc_refl.
Qed.

Lemma apply_all_rtc targets : forall g,
  rtc lifecycle_step (Status g) (Status (apply_all g targets)).
Proof.
  induction targets as [|t ts IH]; intros g; simpl; [done|].
  etrans; [apply ApplyTransition_rtc|apply IH].
Qed.

Lemma terminal_stuck s t : IsTerminal s = true -> rtc lifecycle_step s t -> t = s.
Proof.
  intros Hs Hrtc. inversion Hrtc as [|? u ? Hstep]; subst; [done|].
  apply CanTransitionTo_spec in Hstep. unfold CanTransitionTo in Hstep.
  by rewrite Hs in Hstep.
Qed.

End Lifecycle.
Import Lifecycle.

(** * Validators: validators.go *)
Module Validators.

Definition defaultMaxDepth : Z := 5.
Definition defaultMaxFanOut : Z := 10.

(** An [error] result with no value: [None] is Go's [nil]. *)
Abbreviation check := (option error).

Definition ValidateScopeIntersection (parentScope grantedScope : ScopeSet) :=
  Intersection parentScope grantedScope.

Definition ValidateDepth (depth maxDepth : Z) : check :=
  let maxDepth := if maxDepth <=? 0 then defaultMaxDepth else maxDepth in
  if depth >=? maxDepth then Some (ErrDepthLimitExceeded : error) else None.

Definition ValidateFanOut (activeChildren maxFanOut : Z) : check :=
  let maxFanOut := if maxFanOut <=? 0 then defaultMaxFanOut else maxFanOut in
  if activeChildren >=? maxFanOut then Some (ErrFanOutLimitExceeded : error) else None.

Definition ValidateBudget (budgetRemaining : Z) : check :=
  if budgetRemaining <=? 0 then Some (ErrBudgetExhausted : error) else None.

Definition ValidateTTL (now : Z) (grant : option Grant) : check :=
  match grant with
  | None => Some (ErrGrantRevokedOrConsumed : error)
  | Some g =>
      if IsTerminal (Status g) then Some (ErrGrantRevokedOrConsumed : error)
      else if ExpiresAt g <? now then Some (ErrGrantRevokedOrConsumed : error)
      else None
  end.

Fixpoint ValidateCycle (delegateID : UUID) (ancestors : list UUID) : check :=
  match ancestors with
  | [] => None
  | ancestor :: rest =>
      if bool_decide (ancestor = delegateID) then Some (ErrCycleDetected : error)
      else ValidateCycle delegateID rest
  end.

Definition ValidateCrossTenant (parentTenantID childTenantID : UUID) : check :=
  if negb (bool_decide (parentTenantID = childTenantID))
  then Some (ErrCrossTenantDelegationProhibited : error) else None.

Definition classificationRank (c : string) : Z :=
  if bool_decide (c = "required") then 3
  else if bool_decide (c = "advisory") then 2
  else if bool_decide (c = "none") then 1
  else 0.

Definition classificationAtLeastAsStrict (parent child : string) : bool :=
  classificationRank child >=? classificationRank parent.

Definition ErrRootIntentMismatch : error :=
  EOther "root intent mismatch: HITL propagation violated".
Definition ErrHITLRelaxed : error :=
  EOther "hitl classification relaxed: HITL propagation violated".

Definition ValidateHITLPropagation (root : option Grant) (child : Grant) : check :=
  match root with
  | None => None
  | Some root =>
      if negb (bool_decide (RootIntent root = RootIntent child)) then Some ErrRootIntentMismatch
      else if negb (classificationAtLeastAsStrict (HITLClassification root) (HITLClassification child))
           then Some ErrHITLRelaxed
      else None
  end.

Definition ValidateChainRevocation (grantGeneration currentChainGeneration : Z) : check :=
  if grantGeneration <? currentChainGeneration
  then Some (ErrGrantRevokedOrConsumed : error) else None.

Lemma ValidateCycle_None d ancestors : ValidateCycle d ancestors = None <-> d ∉ ancestors.
Proof.
  induction ancestors as [|a rest IH]; simpl; [set_solver|].
  rewrite not_elem_of_cons. case_bool_decide; [naive_solver|]. rewrite IH. naive_solver.
Qed.

Lemma ValidateTTL_None now g :
  ValidateTTL now (Some g) = None <-> IsTerminal (Status g) = false /\ now <= ExpiresAt g.
Proof.
  simpl. destruct (IsTerminal _); [naive_solver|].
  destruct (Z.ltb_spec (ExpiresAt g) now); [|naive_solver].
  split; [done|]. intros [_ ?]. lia.
Qed.

Lemma ValidateHITLPropagation_None root child :
  ValidateHITLPropagation (Some root) child = None <->
  RootIntent root = RootIntent child /\
  classificationRank (HITLClassification root) <= classificationRank (HITLClassification child).
Proof.
  simpl. case_bool_decide; simpl; [|naive_solver].
  unfold classificationAtLeastAsStrict. rewrite Z.geb_leb.
  destruct (Z.leb_spec (classificationRank (HITLClassification root))
    (classificationRank (HITLClassification child))); simpl; naive_solver lia.
Qed.

(** HITL propagation composes along a chain of hops. *)
Lemma ValidateHITLPropagation_trans a b c :
  ValidateHITLPropagation (Some a) b = None ->
  ValidateHITLPropagation (Some b) c = None ->
  ValidateHITLPropagation (Some a) c = None.
Proof.
  rewrite !ValidateHITLPropagation_None. intros [? ?] [? ?]. split; [congruence|lia].
Qed.

End Validators.
Import Validators.

(** * Properties *)

(** [NewScopeSet] is canonical: the result is sorted and duplicate-free, has
    exactly the scopes given, and two inputs that list the same scopes in any
    order and multiplicity give the same set. *)
Theorem NewScopeSet_canonical :
  (forall scopes, scope_wf (NewScopeSet scopes) /\
     forall x, x ∈ NewScopeSet scopes <-> x ∈ scopes) /\
  (forall l1 l2, (forall x, x ∈ l1 <-> x ∈ l2) -> NewScopeSet l1 = NewScopeSet l2).
Proof.
  split.
  - intros scopes. split; [apply NewScopeSet_wf|]. intros x. apply elem_of_NewScopeSet.
  - intros l1 l2 H. apply scope_wf_ext; [apply NewScopeSet_wf..|].
    intros x. by rewrite !elem_of_NewScopeSet.
Qed.

(** C39: The scope [ValidateScopeIntersection] computes for one hop is exactly
    [parent ∩ granted]: never wider than either side, never narrower than both, a
    well-formed scope set when the parent is one, and refused precisely when the two
    are disjoint. (The middleware acts on the refusal and discards the set.) *)
Theorem scope_intersection_exact (parent granted : ScopeSet) :
  match ValidateScopeIntersection parent granted with
  | Ok r => (forall x, x ∈ r <-> x ∈ parent /\ x ∈ granted) /\ r <> [] /\
            (scope_wf parent -> scope_wf r)
  | Err e => e = (ErrScopeIntersectionEmpty : error) /\
             forall x, ~ (x ∈ parent /\ x ∈ granted)
  end.
Proof.
  unfold ValidateScopeIntersection. destruct (Intersection parent granted) as [r|e] eqn:H.
  - destruct (Intersection_Ok _ _ _ H). repeat split; try naive_solver;
      intros; by eapply Intersection_wf.
  - by apply Intersection_Err.
Qed.

(** the status changes [ApplyTransition] makes are exactly the edges of the
    documented diagram; a refused one changes nothing; a grant in a terminal
    status keeps it under any run of calls, and no run changes a status more
    than twice. *)
Theorem grant_lifecycle_sound :
  (forall g t, ApplyTransition g t = (set_Status g t, None) /\ lifecycle_step (Status g) t \/
               ApplyTransition g t = (g, Some (ErrInvalidGrantTransition : error)) /\
               ~ lifecycle_step (Status g) t) /\
  (forall g ts, IsTerminal (Status g) = true -> Status (apply_all g ts) = Status g) /\
  (forall g ts, rtc lifecycle_step (Status g) (Status (apply_all g ts))) /\
  (forall n s t, nsteps lifecycle_step n s t -> (n <= 2)%nat).
Proof.
  split; [|split; [|split]].
  - intros g t. unfold ApplyTransition. rewrite <- CanTransitionTo_spec.
    destruct (CanTransitionTo (Status g) t); simpl; [by left|by right].
  - intros g ts H. by apply terminal_stuck, apply_all_rtc.
  - intros g ts. apply apply_all_rtc.
  - intros n s t H. apply nsteps_rank in H. destruct s; simpl in H; lia.
Qed.

(** the classification check is a preorder on hops for the ranks the code
    knows, so a chain that passes hop by hop passes against its root; but the
    middle classification of the database schema ("optional") is unknown to
    [classificationRank] and ranks below "none". *)
Theorem hitl_classification_order :
  (forall a b c, ValidateHITLPropagation (Some a) b = None ->
     ValidateHITLPropagation (Some b) c = None -> ValidateHITLPropagation (Some a) c = None) /\
  classificationRank "none" < classificationRank "advisory" < classificationRank "required" /\
  classificationAtLeastAsStrict "none" "optional" = false /\
  classificationAtLeastAsStrict "optional" "none" = true.
Proof.
  split; [exact ValidateHITLPropagation_trans|].
  repeat split; vm_compute; reflexivity.
Qed.
