(* ===== verification/Http.v ===== *)
(** Requests, responses and the request context the middlewares of
    [internal/middleware] read and extend, with the accessors of [auth.go] and
    [delegation.go].

    A handler is a function of the request and of the world (database, Redis,
    clock, logs); a middleware takes the next handler and gives a handler, as
    [func(http.Handler) http.Handler] does. *)

From stdpp Require Import base gmap strings list pretty.
From S2P Require Import GoPrelude Errors Bytes Uuid Delegation.

(** The access-token claims ([internal/adapter/jwt/token.go]) the middlewares use. *)
Record Claims := mkClaims {
  claim_UserID : string;
  claim_TenantID : string;
  claim_Role : string;
  claim_Scopes : list string;
}.

(** The typed keys of the request context. *)
Record Context := mkContext {
  ClaimsKey : option Claims;
  UserIDKey : option UUID;
  TenantIDKey : option UUID;
  RoleKey : option string;
  ScopesKey : option (list string);
  GrantKey : option Grant;
  RootGrantKey : option Grant;
  AncestorsKey : option (list UUID);
}.

Definition background : Context := mkContext None None None None None None None None.

Record Request := mkRequest {
  Method : string;
  Path : string;
  Authorization : string;    (* "" when the header is absent *)
  ReqBody : string;
  ReqCtx : Context;
}.

Record Response := mkResponse { StatusCode : Z; RespBody : string }.

#[global] Instance Response_eq_dec : EqDecision Response.
Proof. solve_decision. Defined.

Definition Handler (W : Type) : Type := Request -> W -> W * Response.

(** [WithContext] *)
Definition with_ctx (r : Request) (c : Context) : Request :=
  mkRequest (Method r) (Path r) (Authorization r) (ReqBody r) c.

(** ** Context accessors *)

Definition GetUserID (r : Request) : UUID * bool :=
  match UserIDKey (ReqCtx r) with Some u => (u, true) | None => (ZeroUUID, false) end.

Definition GetTenantID (r : Request) : option UUID := TenantIDKey (ReqCtx r).

Definition GetRole (r : Request) : option string := RoleKey (ReqCtx r).

(** [None] is the nil pointer, and the false of the second result. *)
Definition GetClaims (r : Request) : option Claims := ClaimsKey (ReqCtx r).
Definition GetScopes (r : Request) : option (list string) := ScopesKey (ReqCtx r).

Definition GetGrantFromContext (r : Request) : option Grant := GrantKey (ReqCtx r).
Definition GetRootGrantFromContext (r : Request) : option Grant := RootGrantKey (ReqCtx r).
Definition GetAncestorsFromContext (r : Request) : list UUID :=
  default [] (AncestorsKey (ReqCtx r)).
Definition GetParentScopeFromContext (r : Request) : Scope.ScopeSet :=
  match ScopesKey (ReqCtx r) with
  | Some scopes => Scope.NewScopeSet scopes
  | None => []
  end.

(** [delegateID]: the user of the auth context, or the zero UUID. *)
Definition delegateID (r : Request) : UUID := fst (GetUserID r).

Definition set_GrantKey (c : Context) (g : option Grant) : Context :=
  mkContext (ClaimsKey c) (UserIDKey c) (TenantIDKey c) (RoleKey c) (ScopesKey c)
    g (RootGrantKey c) (AncestorsKey c).
Definition set_RootGrantKey (c : Context) (g : option Grant) : Context :=
  mkContext (ClaimsKey c) (UserIDKey c) (TenantIDKey c) (RoleKey c) (ScopesKey c)
    (GrantKey c) g (AncestorsKey c).
Definition set_AncestorsKey (c : Context) (a : option (list UUID)) : Context :=
  mkContext (ClaimsKey c) (UserIDKey c) (TenantIDKey c) (RoleKey c) (ScopesKey c)
    (GrantKey c) (RootGrantKey c) a.
Definition set_TenantIDKey (c : Context) (t : option UUID) : Context :=
  mkContext (ClaimsKey c) (UserIDKey c) t (RoleKey c) (ScopesKey c)
    (GrantKey c) (RootGrantKey c) (AncestorsKey c).

Definition SetGrantInContext (c : Context) (grant : option Grant) : Context :=
  let c := set_GrantKey c grant in
  match grant with
  | Some g => if negb (HasParent g) then set_RootGrantKey c (Some g) else c
  | None => c
  end.

Definition SetAncestorsInContext (c : Context) (ancestors : list UUID) : Context :=
  set_AncestorsKey c (Some ancestors).

(** ** Responses *)

Definition StatusOK : Z := 200.
Definition StatusBadRequest : Z := 400.
Definition StatusUnauthorized : Z := 401.
Definition StatusForbidden : Z := 403.
Definition StatusNotFound : Z := 404.
Definition StatusTooManyRequests : Z := 429.
Definition StatusInternalServerError : Z := 500.

(** The text of an ASCII quote, which string literals here do not contain. *)
Definition quote : string := String (Ascii.ascii_of_nat 34) EmptyString.

Definition WriteError (status : Z) (err : error) : Response :=
  mkResponse status
    ("{" +:+ quote +:+ "error" +:+ quote +:+ ":" +:+ quote +:+ Error err +:+ quote +:+ "}").

(** ** Time *)
Class Clock (W : Type) := time_now : W -> Z.

(** A middleware that only decides: it either answers or passes a request on. *)
Definition gate (W : Type) : Type := Request -> W -> W * (Response + Request).

Definition guard_with {W} (g : gate W) (next : Handler W) : Handler W :=
  fun r w =>
    match g r w with
    | (w', inl resp) => (w', resp)
    | (w', inr r') => next r' w'
    end.
