(* ===== verification/Guardrail.v ===== *)
(** The local guardrail, [internal/adapter/guardrail/local.go], with the data of
    [internal/domain/guardrail.go] and [internal/domain/guardrail/external.go].

    [float64] numbers that are compared only are read as the rationals they are. *)

From stdpp Require Import base strings list numbers pretty.
From Stdlib Require Import Ascii QArith.
From S2P Require Import GoPrelude Bytes Regex Errors Uuid Http.
Open Scope Z_scope.

(** ** Data *)

Inductive GuardrailPhase := GuardrailPhaseInput | GuardrailPhaseOutput.

#[global] Instance GuardrailPhase_eq_dec : EqDecision GuardrailPhase.
Proof. solve_decision. Defined.

Definition phase_text (p : GuardrailPhase) : string :=
  match p with GuardrailPhaseInput => "input" | GuardrailPhaseOutput => "output" end.

Record GuardrailViolation := mkViolation {
  gv_ID : UUID;
  gv_TenantID : UUID;
  gv_RequestID : option UUID;
  gv_Phase : GuardrailPhase;
  gv_Rule : string;
  gv_Severity : string;
  gv_Message : string;
  gv_Context : string;
  gv_CreatedAt : Z;
}.

Definition set_tenant (t : UUID) (v : GuardrailViolation) : GuardrailViolation :=
  mkViolation (gv_ID v) t (gv_RequestID v) (gv_Phase v) (gv_Rule v) (gv_Severity v) (gv_Message v) (gv_Context v) (gv_CreatedAt v).

Record CategoryResult := mkCategory { Category : string; Detected : bool; Confidence : Q; Threshold : Q }.

Record ClassificationResult := mkClassification {
  Violated : bool;
  Categories : list CategoryResult;
  RawResponse : string;
  LatencyMs : Z;
  Provider : string;
  Model : string;
}.

(** ** Configuration *)

Record GuardrailRule := mkRule {
  gr_Name : string;
  gr_Type : string;
  gr_Pattern : string;
  gr_Words : list string;
  gr_Severity : string;
  gr_Phase : string;
}.

Record GuardrailsConfig := mkGuardrailsConfig {
  cfg_Enabled : bool;
  cfg_Email : bool;
  cfg_CreditCard : bool;
  cfg_SSN : bool;
  cfg_InjectionPatterns : list string;
  cfg_MaxInputChars : Z;
  cfg_MaxOutputChars : Z;
  cfg_Rules : list GuardrailRule;
}.

(** Go's Unicode lower-casing, and [regexp.Compile] of a configured pattern: the
    compiled pattern as its [FindStringSubmatch(s)[0]]. *)
Class GoText := {
  ToLower : string -> string;
  regexp_Compile : string -> option (string -> option string);
}.

Definition ascii_lower (s : string) : string := string_of_bytes (to_lower (bytes_of_string s)).

Class GoTextLaws `{GoText} : Prop := {
  lower_ascii : forall s, Forall (fun c => (N_of_ascii c < 128)%N) (bytes_of_string s) -> ToLower s = ascii_lower s;
}.

(** [strings.ReplaceAll] of one character. *)
Definition replace_char (c : byte) (by_ : string) (s : string) : string :=
  string_of_bytes (mjoin ((fun x => if bool_decide (x = c) then bytes_of_string by_ else [x]) <$> bytes_of_string s)).

Definition quote_char : byte := ascii_of_nat 34.
Definition escape_quotes (s : string) : string := replace_char quote_char ("\" +:+ quote) s.

(** [{"key":"value"}], the value as it is. *)
Definition one_field (key value : string) : string :=
  "{" +:+ quote +:+ key +:+ quote +:+ ":" +:+ quote +:+ value +:+ quote +:+ "}".

Definition builtin_injection_patterns : list string :=
  ["ignore previous"; "system prompt"; "you are now"; "DAN"; "jailbreak"; "roleplay"; "forget everything";
   "new instructions"; "ignore all"; "disregard"; "override"; "pretend to be"; "act as"; "you must"; "you will";
   "do anything now"].

Section Local.
Context `{GoText}.
Variable cfg : GuardrailsConfig.

(** A rule with its compiled pattern, if it has one that compiles. *)
Record CompiledRule := mkCompiled { cr_rule : GuardrailRule; cr_Regex : option (string -> option string) }.

Definition compile_rule (rule : GuardrailRule) : CompiledRule :=
  mkCompiled rule
    (if bool_decide (gr_Type rule = "regex") && negb (bool_decide (gr_Pattern rule = "")) then regexp_Compile (gr_Pattern rule) else None).

Definition compileRules : list CompiledRule := map compile_rule (cfg_Rules cfg).

Definition injectionPatterns : list string := builtin_injection_patterns ++ cfg_InjectionPatterns cfg.

(** What [domain.NewUUID] and [domain.Now] give a new violation; its tenant is
    drawn too, until the caller sets it. *)
Variables (id fresh : UUID) (now : Z).

Definition new_violation (phase : GuardrailPhase) (rule severity message context : string) : GuardrailViolation :=
  mkViolation id fresh None phase rule severity message context now.

Definition checkLength (text : string) (phase : GuardrailPhase) (maxLen : Z) : option GuardrailViolation :=
  let len := Z.of_nat (String.length text) in
  if len >? maxLen then
    Some (new_violation phase "length_limit" "critical"
      (phase_text phase +:+ " exceeds maximum length of " +:+ pretty maxLen +:+ " characters")
      ("{" +:+ quote +:+ "length" +:+ quote +:+ ":" +:+ pretty len +:+ "," +:+ quote +:+ "max" +:+ quote +:+ ":" +:+ pretty maxLen +:+ "}"))
  else None.

(** Whether a rule matches, and the context it reports. *)
Definition rule_match (text : string) (rule : CompiledRule) : option string :=
  if bool_decide (gr_Type (cr_rule rule) = "regex") then
    match cr_Regex rule with
    | Some find => match find text with Some m => Some (one_field "matched" (escape_quotes m)) | None => None end
    | None => None
    end
  else if bool_decide (gr_Type (cr_rule rule) = "wordlist") then
    match List.find (fun word => string_contains (ToLower text) (ToLower word)) (gr_Words (cr_rule rule)) with
    | Some word => Some (one_field "matched_word" word)
    | None => None
    end
  else None.

Definition rule_applies (phase : GuardrailPhase) (rule : CompiledRule) : bool :=
  bool_decide (gr_Phase (cr_rule rule) = "both") || bool_decide (gr_Phase (cr_rule rule) = phase_text phase).

Fixpoint check_rules (text : string) (phase : GuardrailPhase) (rules : list CompiledRule) : option GuardrailViolation :=
  match rules with
  | [] => None
  | rule :: rules =>
      if negb (rule_applies phase rule) then check_rules text phase rules
      else match rule_match text rule with
      | Some matchContext =>
          Some (new_violation phase (gr_Name (cr_rule rule)) (gr_Severity (cr_rule rule))
            ("Guardrail rule '" +:+ gr_Name (cr_rule rule) +:+ "' triggered") matchContext)
      | None => check_rules text phase rules
      end
  end.

Definition checkRules (text : string) (phase : GuardrailPhase) : option GuardrailViolation := check_rules text phase compileRules.

Definition pii_severity (phase : GuardrailPhase) : string :=
  match phase with GuardrailPhaseInput => "critical" | GuardrailPhaseOutput => "warn" end.

(** One enabled pattern. *)
Definition check_pattern (enabled : bool) (r : re) (rule label text : string) (phase : GuardrailPhase) : option GuardrailViolation :=
  if enabled then
    match FindString r (bytes_of_string text) with
    | Some m => Some (new_violation phase rule (pii_severity phase) ("PII detected: " +:+ label)
                        (one_field "matched" (escape_quotes (string_of_bytes m))))
    | None => None
    end
  else None.

Definition first_of (a b : option GuardrailViolation) : option GuardrailViolation := match a with Some _ => a | None => b end.

Definition checkPII (text : string) (phase : GuardrailPhase) : option GuardrailViolation :=
  first_of (check_pattern (cfg_Email cfg) email_re "pii.email" "email" text phase)
    (first_of (check_pattern (cfg_CreditCard cfg) credit_card_re "pii.credit_card" "credit card" text phase)
       (check_pattern (cfg_SSN cfg) ssn_re "pii.ssn" "SSN" text phase)).

Definition checkInjection (text : string) (phase : GuardrailPhase) : option GuardrailViolation :=
  match phase with
  | GuardrailPhaseOutput => None
  | GuardrailPhaseInput =>
      match List.find (fun pattern => string_contains (ToLower text) (ToLower pattern)) injectionPatterns with
      | Some pattern =>
          Some (new_violation phase ("injection." +:+ replace_char "-" "_" (replace_char " " "_" pattern)) "critical"
            ("Prompt injection detected: " +:+ pattern) (one_field "pattern" pattern))
      | None => None
      end
  end.

Definition pii_enabled : bool := cfg_Email cfg || cfg_CreditCard cfg || cfg_SSN cfg.

Definition LocalCheckInput (tenantID : UUID) (input : string) : option GuardrailViolation :=
  if negb (cfg_Enabled cfg) then None
  else
    let maxInput := if cfg_MaxInputChars cfg <=? 0 then 100000 else cfg_MaxInputChars cfg in
    set_tenant tenantID <$>
      first_of (checkLength input GuardrailPhaseInput maxInput)
        (first_of (checkRules input GuardrailPhaseInput)
           (first_of (if pii_enabled then checkPII input GuardrailPhaseInput else None)
              (checkInjection input GuardrailPhaseInput))).

Definition LocalCheckOutput (tenantID : UUID) (output : string) : option GuardrailViolation :=
  if negb (cfg_Enabled cfg) then None
  else
    let maxOutput := if cfg_MaxOutputChars cfg <=? 0 then 200000 else cfg_MaxOutputChars cfg in
    set_tenant tenantID <$>
      first_of (checkLength output GuardrailPhaseOutput maxOutput)
        (first_of (checkRules output GuardrailPhaseOutput)
           (if pii_enabled then checkPII output GuardrailPhaseOutput else None)).

Definition mask_email (m : bytes) : bytes :=
  match Split "@" m with
  | [user; host] => take 3 user ++ bytes_of_string "***" ++ bytes_of_string "@" ++ host
  | _ => bytes_of_string "***@***"
  end.

Definition SanitizeOutput (output : string) : string :=
  if negb (cfg_Email cfg) && negb (cfg_CreditCard cfg) && negb (cfg_SSN cfg) then output
  else
    let s := bytes_of_string output in
    let s := if cfg_Email cfg then ReplaceAllStringFunc email_re mask_email s else s in
    let s := if cfg_CreditCard cfg then ReplaceAllString credit_card_re (bytes_of_string "XXXX-XXXX-XXXX-XXXX") s else s in
    let s := if cfg_SSN cfg then ReplaceAllString ssn_re (bytes_of_string "XXX-XX-XXXX") s else s in
    string_of_bytes s.

(** ** As a classifier *)

Definition float_0_9 : Q := 8106479329266893 # 9007199254740992.
Definition float_0_95 : Q := 4278419646001971 # 4503599627370496.
Definition float_0_7 : Q := 3152519739159347 # 4503599627370496.

Definition violationToClassification (v : option GuardrailViolation) (provider : string) : ClassificationResult :=
  match v with
  | None => mkClassification false [] "" 0 provider ""
  | Some v =>
      let severity := if bool_decide (gv_Severity v = "") then "warn" else gv_Severity v in
      let confidence := if bool_decide (severity = "critical") then float_0_95
                        else if bool_decide (severity = "warn") then float_0_7 else float_0_9 in
      mkClassification true [mkCategory (gv_Rule v) true confidence float_0_7] "" 0 provider "local"
  end.

Definition LocalClassifyInput (text : string) : ClassificationResult :=
  violationToClassification (LocalCheckInput fresh text) "local".
Definition LocalClassifyOutput (text : string) : ClassificationResult :=
  violationToClassification (LocalCheckOutput fresh text) "local".
End Local.

(** * What the local rules promise *)

Section Facts.
Context `{GoText}.
Variable cfg : GuardrailsConfig.

Lemma first_of_none a b : first_of a b = None <-> a = None /\ b = None.
Proof. destruct a; naive_solver. Qed.

Lemma checkLength_none id fresh now text phase maxLen :
  checkLength id fresh now text phase maxLen = None <-> Z.of_nat (String.length text) <= maxLen.
Proof. unfold checkLength. destruct (Z.gtb_spec (Z.of_nat (String.length text)) maxLen); split; (done || lia). Qed.

Lemma check_rules_none id fresh now text phase rules :
  check_rules id fresh now text phase rules = None <->
  forall rule, rule ∈ rules -> rule_applies phase rule = true -> rule_match text rule = None.
Proof.
  induction rules as [|rule rules IH]; cbn [check_rules].
  - split; [|done]. intros _ rule []%not_elem_of_nil.
  - setoid_rewrite elem_of_cons. destruct (rule_applies phase rule) eqn:Ha; cbn [negb].
    + destruct (rule_match text rule) eqn:Hm; [split; [done|]; intros Hall; by rewrite Hall in Hm; eauto|].
      rewrite IH. naive_solver.
    + rewrite IH. naive_solver congruence.
Qed.

Lemma check_pattern_none id fresh now enabled r rule label text phase :
  check_pattern id fresh now enabled r rule label text phase = None <->
  (enabled = true -> ~ occurs r (bytes_of_string text)).
Proof.
  unfold check_pattern. destruct enabled; [|naive_solver]. rewrite <- FindString_none.
  destruct (FindString r (bytes_of_string text)); naive_solver.
Qed.

Lemma checkPII_none id fresh now text phase :
  checkPII cfg id fresh now text phase = None <->
  (cfg_Email cfg = true -> ~ occurs email_re (bytes_of_string text)) /\
  (cfg_CreditCard cfg = true -> ~ occurs credit_card_re (bytes_of_string text)) /\
  (cfg_SSN cfg = true -> ~ occurs ssn_re (bytes_of_string text)).
Proof. unfold checkPII. by rewrite !first_of_none, !check_pattern_none. Qed.

(** The test of the caller is implied by the tests inside. *)
Lemma checkPII_guarded id fresh now text phase :
  (if pii_enabled cfg then checkPII cfg id fresh now text phase else None) = checkPII cfg id fresh now text phase.
Proof.
  unfold pii_enabled, checkPII, check_pattern.
  by destruct (cfg_Email cfg), (cfg_CreditCard cfg), (cfg_SSN cfg).
Qed.

Lemma checkInjection_none id fresh now text :
  checkInjection cfg id fresh now text GuardrailPhaseInput = None <->
  forall pattern, pattern ∈ injectionPatterns cfg ->
    ~ exists l r, bytes_of_string (ToLower text) = l ++ bytes_of_string (ToLower pattern) ++ r.
Proof.
  unfold checkInjection.
  destruct (List.find _ _) as [p|] eqn:Hf.
  - apply List.find_some in Hf as [Hin Hc]. split; [done|]. intros Hno. exfalso.
    apply list_elem_of_In in Hin. apply (Hno p Hin). by apply contains_bytes_spec.
  - split; [|done]. intros _ p Hin Hc. apply list_elem_of_In in Hin.
    apply (List.find_none _ _ Hf) in Hin. unfold string_contains in Hin.
    apply contains_bytes_spec in Hc. congruence.
Qed.
End Facts.

(** C29: The local guardrail lets an input through exactly when it is switched off,
    or the input is not too long, no rule of the input phase matches, no enabled
    pattern of personal data occurs anywhere in it, and no injection pattern
    occurs in it, case aside. *)
Theorem local_input_allowed_exactly `{GoText} (cfg : GuardrailsConfig) (id fresh tenantID : UUID) (now : Z) (input : string) :
  LocalCheckInput cfg id fresh now tenantID input = None <->
  cfg_Enabled cfg = false \/
  (Z.of_nat (String.length input) <= (if cfg_MaxInputChars cfg <=? 0 then 100000 else cfg_MaxInputChars cfg) /\
   (forall rule, rule ∈ compileRules cfg -> rule_applies GuardrailPhaseInput rule = true -> rule_match input rule = None) /\
   ((cfg_Email cfg = true -> ~ occurs email_re (bytes_of_string input)) /\
    (cfg_CreditCard cfg = true -> ~ occurs credit_card_re (bytes_of_string input)) /\
    (cfg_SSN cfg = true -> ~ occurs ssn_re (bytes_of_string input))) /\
   (forall pattern, pattern ∈ injectionPatterns cfg ->
      ~ exists l r, bytes_of_string (ToLower input) = l ++ bytes_of_string (ToLower pattern) ++ r)).
Proof.
  unfold LocalCheckInput. destruct (cfg_Enabled cfg); cbn [negb]; [|naive_solver].
  rewrite fmap_None, !first_of_none, checkPII_guarded, checkPII_none, checkInjection_none, checkLength_none.
  unfold checkRules. rewrite check_rules_none. naive_solver.
Qed.

(** When social-security numbers are masked, the sanitised text has none left:
    the pattern is found nowhere in it, so checking it again does not report one. *)
Theorem sanitized_output_has_no_ssn (cfg : GuardrailsConfig) (output : string) (id fresh : UUID) (now : Z) (v : GuardrailViolation) :
  cfg_SSN cfg = true ->
  ~ occurs ssn_re (bytes_of_string (SanitizeOutput cfg output)) /\
  (checkPII cfg id fresh now (SanitizeOutput cfg output) GuardrailPhaseOutput = Some v -> gv_Rule v <> "pii.ssn").
Proof.
  intros Hssn. assert (FindString ssn_re (bytes_of_string (SanitizeOutput cfg output)) = None) as Hno.
  { unfold SanitizeOutput. rewrite Hssn. rewrite andb_false_r, bytes_of_string_of_bytes. apply ssn_masked. }
  split; [by apply FindString_none|]. unfold checkPII, check_pattern. rewrite Hno, Hssn.
  destruct (cfg_Email cfg), (cfg_CreditCard cfg); cbn [first_of];
    repeat match goal with |- context [FindString ?r ?s] => destruct (FindString r s); cbn [first_of] end;
    intros [= <-]; done.
Qed.

(** A masked address can leave another one behind. *)
Lemma sanitized_output_keeps_email :
  let cfg := mkGuardrailsConfig true true true true [] 0 0 [] in
  SanitizeOutput cfg "a@b.co@c.com" = "a***@b.co@c.com" /\
  FindString email_re (bytes_of_string (SanitizeOutput cfg "a@b.co@c.com")) = Some (bytes_of_string "b.co@c.com").
Proof. split; vm_compute; reflexivity. Qed.

(** Rules of the documented types [pii] and [injection] never match. *)
Lemma pii_rules_never_match `{GoText} text rule :
  gr_Type (cr_rule rule) = "pii" \/ gr_Type (cr_rule rule) = "injection" -> rule_match text rule = None.
Proof. unfold rule_match. by intros [-> | ->]. Qed.

Lemma sanitized_output_has_no_ssn_witness :
  let cfg := mkGuardrailsConfig true true true true [] 0 0 [] in
  SanitizeOutput cfg "ssn 123-45-6789, joe.doe@example.com" = "ssn XXX-XX-XXXX, joe***@example.com" /\
  ~ occurs ssn_re (bytes_of_string (SanitizeOutput cfg "ssn 123-45-6789, joe.doe@example.com")).
Proof.
  split; [vm_compute; reflexivity|].
  apply (sanitized_output_has_no_ssn (mkGuardrailsConfig true true true true [] 0 0 [])
    "ssn 123-45-6789, joe.doe@example.com" ZeroUUID ZeroUUID 0
    (mkViolation ZeroUUID ZeroUUID None GuardrailPhaseInput "" "" "" "" 0)). reflexivity.
Defined.
