(* ===== verification/CompositeGuardrail.v ===== *)
(** The composite guardrail and its adapter, [internal/adapter/guardrail/composite.go],
    with the configuration of [internal/domain/guardrail/external.go]. *)

From stdpp Require Import base gmap strings list numbers pretty.
From Stdlib Require Import Ascii QArith Qround Qabs.
From S2P Require Import GoPrelude Bytes Regex Errors Uuid Http Guardrail.
Open Scope Z_scope.

(** ** Data *)

Record CompositeConfig := mkComposite {
  Mode : string;
  FailBehavior : string;
  MergeLogic : string;
  ParallelBudgetMs : Z;
  SendContentExternal : bool;
  Thresholds : option (gmap string Q);
}.

Definition default_thresholds : gmap string Q :=
  list_to_map [("sexual", float_0_7); ("hate", 3602879701896397 # 4503599627370496); ("violence", float_0_7);
               ("self-harm", float_0_9); ("harassment", float_0_7)].

Definition DefaultCompositeConfig : CompositeConfig :=
  mkComposite "sequential" "fallback_local" "any_violation" 500 true (Some default_thresholds).

(** The constructor's defaults. *)
Definition NewCompositeGuardrail (config : CompositeConfig) : CompositeConfig :=
  mkComposite
    (if bool_decide (Mode config = "") then "sequential" else Mode config)
    (if bool_decide (FailBehavior config = "") then "fallback_local" else FailBehavior config)
    (if bool_decide (MergeLogic config = "") then "any_violation" else MergeLogic config)
    (if ParallelBudgetMs config =? 0 then 500 else ParallelBudgetMs config)
    (SendContentExternal config)
    (Some (default default_thresholds (Thresholds config))).

(** The interface of a classifier; [W] is the world its calls act on. *)
Record ExternalClassifier (W : Type) := mkClassifier {
  ClassifyInput : string -> W -> W * result error ClassificationResult;
  ClassifyOutput : string -> W -> W * result error ClassificationResult;
  HealthCheck : W -> W * option error;
  Close : option error;
}.
Arguments mkClassifier {_} _ _ _ _.
Arguments ClassifyInput {_} _ _ _.
Arguments ClassifyOutput {_} _ _ _.
Arguments HealthCheck {_} _ _.
Arguments Close {_} _.

(** The local guardrail as one. What it draws for a violation does not show in a
    classification. *)
Definition local_classifier `{GoText} {W} (cfg : GuardrailsConfig) : ExternalClassifier W :=
  mkClassifier (fun text w => (w, Ok (LocalClassifyInput cfg ZeroUUID ZeroUUID 0 text)))
               (fun text w => (w, Ok (LocalClassifyOutput cfg ZeroUUID ZeroUUID 0 text))) (fun w => (w, None)) None.

(** ** Merging *)

Record categoryInfo := mkInfo {
  ci_category : string;
  ci_detections : list CategoryResult;
  ci_hasLocal : bool;
  ci_hasExt : bool;
}.

Definition zero_category : CategoryResult := mkCategory "" false 0 0.
Definition more_confident (a b : CategoryResult) : bool := negb (Qle_bool (Confidence a) (Confidence b)).

Fixpoint add_category (is_local : bool) (cat : CategoryResult) (infos : list categoryInfo) : list categoryInfo :=
  match infos with
  | [] => [mkInfo (Category cat) [cat] is_local (negb is_local)]
  | info :: infos =>
      if bool_decide (ci_category info = Category cat) then
        mkInfo (ci_category info) (ci_detections info ++ [cat]) (is_local || ci_hasLocal info) (negb is_local || ci_hasExt info) :: infos
      else info :: add_category is_local cat infos
  end.

Definition category_infos (local ext : list CategoryResult) : list categoryInfo :=
  foldl (fun infos cat => add_category false cat infos) (foldl (fun infos cat => add_category true cat infos) [] local) ext.

Definition keep_best (best det : CategoryResult) : CategoryResult :=
  if bool_decide (Category best = "") || more_confident det best then det else best.

(** The best of the detections that detected. *)
Definition best_detected (dets : list CategoryResult) : CategoryResult :=
  foldl (fun best det => if Detected det then keep_best best det else best) zero_category dets.

(** The weighted branch's maximum, starting at -1. *)
Definition weighted_best (dets : list CategoryResult) : Q * CategoryResult :=
  foldl (fun '(m, best) det => if Detected det && negb (Qle_bool (Confidence det) m) then (Confidence det, det) else (m, best))
    ((-1 # 1), zero_category) dets.

Section Merge.
Variable config : CompositeConfig.

Definition decide_category (localRan extRan : bool) (info : categoryInfo) : bool * CategoryResult :=
  let dets := ci_detections info in
  if bool_decide (MergeLogic config = "any_violation") then (existsb Detected dets, best_detected dets)
  else if bool_decide (MergeLogic config = "all_violation") then
    (forallb Detected dets && negb (localRan && negb (ci_hasLocal info)) && negb (extRan && negb (ci_hasExt info)), best_detected dets)
  else if bool_decide (MergeLogic config = "weighted") then
    let '(m, best) := weighted_best dets in (Qle_bool 0 m, best)
  else (false, best_detected dets).

(** The first pass over the map, and the second. *)
Fixpoint merge_detected (localRan extRan : bool) (infos : list categoryInfo) : list CategoryResult :=
  match infos with
  | [] => []
  | info :: infos =>
      let '(detected, best) := decide_category localRan extRan info in
      (if detected then [best] else []) ++ merge_detected localRan extRan infos
  end.

Definition best_of (dets : list CategoryResult) : CategoryResult :=
  match dets with
  | [] => zero_category
  | det :: dets => foldl (fun best det => if more_confident det best then det else best) det (det :: dets)
  end.

Fixpoint merge_rest (infos : list categoryInfo) (cats : list CategoryResult) : list CategoryResult :=
  match infos with
  | [] => cats
  | info :: infos =>
      merge_rest infos
        (match ci_detections info with
         | [] => cats
         | dets => if existsb (fun c => bool_decide (Category c = ci_category info)) cats then cats else cats ++ [best_of dets]
         end)
  end.

(** The two loops visit the map in orders of their own. *)
Variables order1 order2 : list categoryInfo -> list categoryInfo.

Definition mergeResults (local ext : ClassificationResult) : ClassificationResult :=
  let infos := category_infos (Categories local) (Categories ext) in
  let localRan := negb (bool_decide (Provider local = "")) in
  let extRan := negb (bool_decide (Provider ext = "")) in
  let detected := merge_detected localRan extRan (order1 infos) in
  mkClassification (negb (bool_decide (detected = []))) (merge_rest (order2 infos) detected) "" 0 "" "".
End Merge.

(** ** Classification *)

Definition set_provider (p : string) (r : ClassificationResult) : ClassificationResult :=
  mkClassification (Violated r) (Categories r) (RawResponse r) (LatencyMs r) p (Model r).
Definition set_latency (ms : Z) (r : ClassificationResult) : ClassificationResult :=
  mkClassification (Violated r) (Categories r) (RawResponse r) ms (Provider r) (Model r).

Section Composite.
Context {W : Type}.
Variables (local external : option (ExternalClassifier W)) (config : CompositeConfig).
Variables (order1 order2 : list categoryInfo -> list categoryInfo) (latency : Z).

(** One classifier's call: [None] when it is not called, else its answer. *)
Definition run_classifier (c : option (ExternalClassifier W)) (text : string) (isInput : bool) (w : W)
    : W * option (result error ClassificationResult) :=
  match c with
  | None => (w, None)
  | Some c => let '(w, r) := (if isInput then ClassifyInput c text w else ClassifyOutput c text w) in (w, Some r)
  end.

Definition open_result : ClassificationResult := mkClassification false [] "" 0 "composite" "".

Definition classify (text : string) (isInput : bool) (w : W) : W * result error ClassificationResult :=
  let '(w, localRes) := run_classifier local text isInput w in
  let '(w, extRes) := run_classifier (if SendContentExternal config then external else None) text isInput w in
  let unavailable : result error ClassificationResult := Err (EGuardrail ErrExternalClassifierUnavailable) in
  let merged :=
    match localRes, extRes with
    | Some (Ok l), Some (Ok e) => Ok (set_provider "composite" (mergeResults config order1 order2 l e))
    | Some (Ok l), Some (Err _) =>
        if bool_decide (FailBehavior config = "fail_open") then Ok open_result
        else if bool_decide (FailBehavior config = "fail_closed") then unavailable
        else Ok (set_provider "composite" l)
    | Some (Ok l), None => Ok (set_provider "composite" l)
    | _, Some (Ok e) => Ok (set_provider "composite" e)
    | _, Some (Err _) =>
        if bool_decide (FailBehavior config = "fail_open") then Ok open_result else unavailable
    | _, None => Err (EGuardrail ErrNoClassifiersConfigured)
    end in
  (w, match merged with Ok r => Ok (set_latency latency r) | Err e => Err e end).

(** [fmt]'s list of errors. *)
Definition print_errors (errs : list string) : string := "[" +:+ join " " errs +:+ "]".

(** One classifier's call, and its error under its label. *)
Definition failures (label : string) (c : option (ExternalClassifier W)) (f : ExternalClassifier W -> W -> W * option error) (w : W)
    : W * list string :=
  match c with
  | Some c => match f c w with (w, Some e) => (w, [label +:+ Error e]) | (w, None) => (w, []) end
  | None => (w, [])
  end.

Definition composite_HealthCheck (w : W) : W * option error :=
  let '(w, errs1) := failures "local: " local HealthCheck w in
  let '(w, errs2) := failures "external: " external HealthCheck w in
  (w, match errs1 ++ errs2 with
      | [] => None
      | errs => Some (EOther ("health check failed: " +:+ print_errors errs))
      end).

Definition composite_Close (w : W) : option error :=
  let close c w := (w, Close c) in
  match snd (failures "" local close w) ++ snd (failures "" external close w) with
  | [] => None
  | errs => Some (EOther ("close failed: " +:+ print_errors errs))
  end.

(** ** The adapter *)

(** [%.2f] *)
Definition round_half_even (q : Q) : Z :=
  let f := Qfloor q in
  match Qcompare (q - inject_Z f) (1 # 2) with
  | Lt => f
  | Gt => f + 1
  | Eq => if Z.even f then f else f + 1
  end.

Definition format_2f (q : Q) : string :=
  let n := round_half_even (Qabs.Qabs q * 100)%Q in
  let cents := n mod 100 in
  (if Qle_bool 0 q then "" else "-") +:+ pretty (n / 100) +:+ "." +:+ (if cents <? 10 then "0" else "") +:+ pretty cents.

Definition best_violation (cats : list CategoryResult) : CategoryResult :=
  foldl (fun best cat => if Detected cat && more_confident cat best then cat else best) zero_category cats.

Definition classificationToViolation (id : UUID) (now : Z) (tenantID : UUID) (result : ClassificationResult) (phase : GuardrailPhase)
    : option GuardrailViolation :=
  if negb (Violated result) || bool_decide (Categories result = []) then None
  else
    let bestCat := best_violation (Categories result) in
    if bool_decide (Category bestCat = "") then None
    else
      let severity := if Qle_bool (Threshold bestCat) (Confidence bestCat) then "critical" else "warn" in
      let field k v := quote +:+ k +:+ quote +:+ ":" +:+ v in
      Some (mkViolation id tenantID None phase (Category bestCat) severity
        ("External classifier '" +:+ Provider result +:+ "' detected violation: " +:+ Category bestCat)
        ("{" +:+ join "," [field "category" (quote +:+ Category bestCat +:+ quote); field "confidence" (format_2f (Confidence bestCat));
           field "threshold" (format_2f (Threshold bestCat)); field "provider" (quote +:+ Provider result +:+ quote)] +:+ "}") now).

Definition adapter_check (id : UUID) (now : Z) (phase : GuardrailPhase) (tenantID : UUID) (text : string) (w : W)
    : W * result error (option GuardrailViolation) :=
  match classify text (bool_decide (phase = GuardrailPhaseInput)) w with
  | (w, Err e) => (w, Err e)
  | (w, Ok r) => (w, Ok (classificationToViolation id now tenantID r phase))
  end.

Definition adapter_CheckInput (id : UUID) (now : Z) := adapter_check id now GuardrailPhaseInput.
Definition adapter_CheckOutput (id : UUID) (now : Z) := adapter_check id now GuardrailPhaseOutput.
End Composite.

(** * Merging against a reference *)

Definition has_category (k : string) (cats : list CategoryResult) : bool := existsb (fun c => bool_decide (Category c = k)) cats.
Definition of_category (k : string) (cats : list CategoryResult) : list CategoryResult := List.filter (fun c => bool_decide (Category c = k)) cats.

(** What the map holds for a category. *)
Definition info_of (local ext : list CategoryResult) (k : string) : categoryInfo :=
  mkInfo k (of_category k local ++ of_category k ext) (has_category k local) (has_category k ext).

Lemma of_category_snoc k l c : of_category k (l ++ [c]) = of_category k l ++ (if bool_decide (Category c = k) then [c] else []).
Proof. unfold of_category. rewrite List.filter_app. cbn. by destruct (bool_decide (Category c = k)). Qed.

Lemma has_category_snoc k l c : has_category k (l ++ [c]) = has_category k l || bool_decide (Category c = k).
Proof. unfold has_category. rewrite existsb_app. cbn. by rewrite orb_false_r. Qed.

Lemma of_category_none k l : has_category k l = false -> of_category k l = [].
Proof.
  induction l as [|c l IH]; [done|]. cbn. unfold of_category. cbn.
  destruct (bool_decide (Category c = k)); [done|]. apply IH.
Qed.

(** The keys of the map are the categories seen, each once. *)
Record info_keys (local ext : list CategoryResult) (ks : list string) : Prop := {
  ik_nodup : NoDup ks;
  ik_seen : forall k, k ∈ ks <-> has_category k (local ++ ext) = true;
}.

Lemma has_category_app k l l' : has_category k (l ++ l') = has_category k l || has_category k l'.
Proof. apply existsb_app. Qed.

(** [add_category] on the map of [info_of], for either list. *)
Lemma add_category_infos is_local cat local ext ks :
  (is_local = true -> ext = []) -> NoDup ks ->
  (Category cat ∉ ks -> has_category (Category cat) (local ++ ext) = false) ->
  let local' := if is_local then local ++ [cat] else local in
  let ext' := if is_local then ext else ext ++ [cat] in
  add_category is_local cat (info_of local ext <$> ks) =
    info_of local' ext' <$> (if bool_decide (Category cat ∈ ks) then ks else ks ++ [Category cat]).
Proof.
  intros He Hnd Hnew. cbn zeta.
  assert (forall k, k <> Category cat ->
    info_of (if is_local then local ++ [cat] else local) (if is_local then ext else ext ++ [cat]) k = info_of local ext k) as Hother.
  { intros k Hk. unfold info_of. destruct is_local; rewrite of_category_snoc, has_category_snoc, bool_decide_eq_false_2 by done;
      by rewrite orb_false_r, ?app_nil_r. }
  assert (forall k, k = Category cat ->
    info_of (if is_local then local ++ [cat] else local) (if is_local then ext else ext ++ [cat]) k =
      mkInfo k (ci_detections (info_of local ext k) ++ [cat]) (is_local || ci_hasLocal (info_of local ext k))
        (negb is_local || ci_hasExt (info_of local ext k))) as Hsame.
  { intros k ->. unfold info_of. cbn [ci_detections ci_hasLocal ci_hasExt]. destruct is_local.
    - rewrite (He eq_refl), of_category_snoc, has_category_snoc, bool_decide_eq_true_2 by done. cbn.
      by rewrite !app_nil_r, orb_true_r.
    - rewrite of_category_snoc, has_category_snoc, bool_decide_eq_true_2 by done. cbn. by rewrite orb_true_r, app_assoc. }
  clear He. induction ks as [|k ks IH]; cbn [fmap list_fmap add_category].
  - rewrite bool_decide_eq_false_2 by apply not_elem_of_nil. cbn [app fmap list_fmap]. rewrite Hsame by done.
    specialize (Hnew (not_elem_of_nil _)). rewrite has_category_app in Hnew. apply orb_false_iff in Hnew as [Hl Hx].
    unfold info_of. cbn [ci_detections ci_hasLocal ci_hasExt]. rewrite !of_category_none, Hl, Hx by done.
    by destruct is_local.
  - apply NoDup_cons in Hnd as [Hk Hnd]. cbn [ci_category info_of]. destruct (decide (k = Category cat)) as [Heq|Hne].
    + rewrite bool_decide_eq_true_2, (bool_decide_eq_true_2 (Category cat ∈ _)) by (done || set_solver).
      cbn [fmap list_fmap]. rewrite Hsame by done. f_equal. apply list_fmap_ext. intros i k' Hk'. symmetry. apply Hother.
      intros ->. apply Hk. rewrite Heq. by apply list_elem_of_lookup_2 in Hk'.
    + rewrite bool_decide_eq_false_2 by done. rewrite IH; [|done|intros Hn; apply Hnew; set_solver].
      rewrite (bool_decide_ext (Category cat ∈ k :: ks) (Category cat ∈ ks)) by set_solver.
      destruct (bool_decide (Category cat ∈ ks)); cbn [app fmap list_fmap]; by rewrite Hother.
Qed.

Lemma info_keys_snoc (is_local : bool) cat local ext ks :
  info_keys local ext ks ->
  info_keys (if is_local then local ++ [cat] else local) (if is_local then ext else ext ++ [cat])
    (if bool_decide (Category cat ∈ ks) then ks else ks ++ [Category cat]).
Proof.
  intros [Hnd Hseen]. split.
  - case_bool_decide as Hin; [done|]. apply NoDup_app. split_and!; [done|set_solver|apply NoDup_singleton].
  - intros k. assert (has_category k ((if is_local then local ++ [cat] else local) ++ (if is_local then ext else ext ++ [cat]))
      = has_category k (local ++ ext) || bool_decide (Category cat = k)) as ->.
    { destruct is_local; rewrite !has_category_app; change (has_category k [cat]) with (bool_decide (Category cat = k) || false);
        by destruct (has_category k local), (has_category k ext), (bool_decide _). }
    rewrite orb_true_iff, bool_decide_eq_true, <- Hseen. case_bool_decide as Hin.
    + split; [by left|]. intros [?| <-]; done.
    + rewrite elem_of_app, list_elem_of_singleton. naive_solver.
Qed.

Lemma infos_fold (is_local : bool) cats local ext ks :
  (is_local = true -> ext = []) -> info_keys local ext ks ->
  exists ks', foldl (fun infos cat => add_category is_local cat infos) (info_of local ext <$> ks) cats =
      info_of (if is_local then local ++ cats else local) (if is_local then ext else ext ++ cats) <$> ks' /\
    info_keys (if is_local then local ++ cats else local) (if is_local then ext else ext ++ cats) ks'.
Proof.
  revert local ext ks. induction cats as [|cat cats IH]; intros local ext ks He Hk.
  - exists ks. rewrite !app_nil_r. by destruct is_local.
  - cbn [foldl]. rewrite add_category_infos; [|done|apply Hk|].
    + pose proof (info_keys_snoc is_local cat local ext ks Hk) as Hk'.
      destruct (IH (if is_local then local ++ [cat] else local) (if is_local then ext else ext ++ [cat]) _
        ltac:(destruct is_local; [done|by intros]) Hk') as (ks' & E & Hks'). exists ks'. revert E Hks'.
      destruct is_local; rewrite <- app_assoc; by intros -> ?.
    + intros Hn. apply not_true_is_false. by rewrite <- (ik_seen _ _ _ Hk).
Qed.

Lemma category_infos_spec local ext :
  exists ks, category_infos local ext = info_of local ext <$> ks /\ info_keys local ext ks.
Proof.
  unfold category_infos.
  destruct (infos_fold true local [] [] [] (fun _ => eq_refl)) as (ks & E & Hk).
  { split; [constructor|]. intros k. split; [by intros ?%not_elem_of_nil|done]. }
  cbn [app] in E, Hk. change (info_of [] [] <$> []) with (@nil categoryInfo) in E. rewrite E.
  destruct (infos_fold false ext local [] ks ltac:(done) Hk) as (ks' & E' & Hk'). cbn [app] in *. eauto.
Qed.

(** ** The reference *)

Definition merge_reference (logic : string) (local ext : ClassificationResult) : bool :=
  let cats := Categories local ++ Categories ext in
  if bool_decide (logic = "any_violation") then existsb Detected cats
  else if bool_decide (logic = "all_violation") then
    existsb (fun c =>
      forallb Detected (of_category (Category c) cats) &&
      (bool_decide (Provider local = "") || has_category (Category c) (Categories local)) &&
      (bool_decide (Provider ext = "") || has_category (Category c) (Categories ext))) cats
  else if bool_decide (logic = "weighted") then existsb (fun c => Detected c && Qle_bool 0 (Confidence c)) cats
  else false.

Lemma merge_detected_none config localRan extRan infos :
  merge_detected config localRan extRan infos = [] <->
  existsb (fun info => fst (decide_category config localRan extRan info)) infos = false.
Proof.
  induction infos as [|info infos IH]; [done|]. cbn [merge_detected existsb].
  destruct (decide_category config localRan extRan info) as [[|] best]; cbn [fst orb app]; [done|apply IH].
Qed.

Lemma existsb_ext {A} (f g : A -> bool) l : (forall x, f x = g x) -> existsb f l = existsb g l.
Proof. intros H. induction l as [|x l IH]; [done|]. cbn. by rewrite H, IH. Qed.

Lemma existsb_Permutation {A} (f : A -> bool) l l' : Permutation l l' -> existsb f l = existsb f l'.
Proof.
  intros H. apply eq_true_iff_eq. rewrite !existsb_exists. split; intros (x & Hx & Hf); exists x; split; try done;
    [by rewrite <- H|by rewrite H].
Qed.

Lemma weighted_best_ge m best dets :
  Qle_bool 0 (fst (foldl (fun '(m, best) det => if Detected det && negb (Qle_bool (Confidence det) m) then (Confidence det, det) else (m, best))
    (m, best) dets)) = Qle_bool 0 m || existsb (fun c => Detected c && Qle_bool 0 (Confidence c)) dets.
Proof.
  revert m best. induction dets as [|d dets IH]; intros m best; cbn [foldl existsb fst]; [by rewrite orb_false_r|].
  destruct (Detected d); cbn [andb orb]; [|by rewrite IH].
  destruct (Qle_bool (Confidence d) m) eqn:E; cbn [negb]; rewrite IH; clear IH;
    destruct (Qle_bool 0 m) eqn:E0, (Qle_bool 0 (Confidence d)) eqn:E1; cbn [orb]; try done; exfalso.
  - apply Qle_bool_iff in E, E1. assert (0 <= m)%Q as H%Qle_bool_iff by (by eapply Qle_trans); congruence.
  - apply Qle_bool_iff in E0. assert (~ 0 <= Confidence d)%Q as H1 by (rewrite <- Qle_bool_iff; congruence).
    assert (~ Confidence d <= m)%Q as H2 by (rewrite <- Qle_bool_iff; congruence).
    apply H2. apply Qlt_le_weak. apply Qnot_le_lt in H1. by eapply Qlt_le_trans.
Qed.

(** One test over the map's keys, from one over the categories. *)
Lemma existsb_keys (f : categoryInfo -> bool) local ext ks :
  info_keys local ext ks ->
  existsb f (info_of local ext <$> ks) = existsb (fun c => f (info_of local ext (Category c))) (local ++ ext).
Proof.
  intros [_ Hseen]. apply eq_true_iff_eq. rewrite !existsb_exists. split.
  - intros (info & Hin & Hf). apply list_elem_of_In, list_elem_of_fmap in Hin as (k & -> & Hk).
    apply Hseen in Hk. unfold has_category in Hk. apply existsb_exists in Hk as (c & Hc & Heq%bool_decide_eq_true).
    exists c. by rewrite Heq.
  - intros (c & Hin & Hf). exists (info_of local ext (Category c)). split; [|done].
    apply list_elem_of_In, list_elem_of_fmap_2. apply Hseen. apply existsb_exists. exists c. split; [done|by apply bool_decide_eq_true].
Qed.

Lemma existsb_of_category (f : CategoryResult -> bool) cats :
  existsb (fun c => existsb f (of_category (Category c) cats)) cats = existsb f cats.
Proof.
  apply eq_true_iff_eq. rewrite !existsb_exists. setoid_rewrite existsb_exists. unfold of_category.
  setoid_rewrite List.filter_In. split.
  - intros (c & _ & d & (Hd & _) & Hf). eauto.
  - intros (d & Hd & Hf). exists d. split; [done|]. exists d. split_and!; try done. by apply bool_decide_eq_true.
Qed.

Lemma of_category_app k l l' : of_category k (l ++ l') = of_category k l ++ of_category k l'.
Proof. apply List.filter_app. Qed.

Lemma mergeResults_violated config order1 order2 local ext :
  (forall l, Permutation (order1 l) l) ->
  Violated (mergeResults config order1 order2 local ext) = merge_reference (MergeLogic config) local ext.
Proof.
  intros Hperm. unfold mergeResults. cbn [Violated].
  destruct (category_infos_spec (Categories local) (Categories ext)) as (ks & -> & Hks).
  set (lr := negb (bool_decide (Provider local = ""))). set (er := negb (bool_decide (Provider ext = ""))).
  transitivity (existsb (fun info => fst (decide_category config lr er info)) (info_of (Categories local) (Categories ext) <$> ks)).
  { rewrite <- (existsb_Permutation _ _ _ (Hperm (info_of (Categories local) (Categories ext) <$> ks))).
    case_bool_decide as E; [symmetry; by apply merge_detected_none|].
    symmetry. apply not_false_is_true. by rewrite <- merge_detected_none. }
  rewrite existsb_keys by done. unfold merge_reference, decide_category. cbn [info_of ci_detections ci_hasLocal ci_hasExt].
  destruct (bool_decide (MergeLogic config = "any_violation")); [|destruct (bool_decide (MergeLogic config = "all_violation"));
    [|destruct (bool_decide (MergeLogic config = "weighted"))]]; cbn [fst].
  - rewrite <- (existsb_of_category Detected). apply existsb_ext. intros c. by rewrite of_category_app.
  - apply existsb_ext. intros c. rewrite <- of_category_app. unfold lr, er.
    by destruct (bool_decide (Provider local = "")), (bool_decide (Provider ext = "")),
      (has_category (Category c) (Categories local)), (has_category (Category c) (Categories ext)).
  - rewrite <- (existsb_of_category (fun c => Detected c && Qle_bool 0 (Confidence c))). apply existsb_ext. intros c.
    rewrite <- of_category_app.
    pose proof (weighted_best_ge (-1 # 1) zero_category (of_category (Category c) (Categories local ++ Categories ext))) as Hw.
    unfold weighted_best. destruct (foldl _ _ _) as [m best]. cbn [fst] in *. by rewrite Hw.
  - by induction (Categories local ++ Categories ext).
Qed.

(** C28: Merging two classifications decides a violation as the configured logic
    says, in whatever order the map is visited: any detection; a category detected
    by every classifier that ran; a detection of confidence at least zero. Any
    other text as the logic decides that nothing is ever a violation. *)
Theorem merge_decides (config : CompositeConfig) (order1 order2 : list categoryInfo -> list categoryInfo)
    (local ext : ClassificationResult) :
  (forall l, Permutation (order1 l) l) ->
  Violated (mergeResults config order1 order2 local ext) = merge_reference (MergeLogic config) local ext /\
  (MergeLogic config <> "any_violation" -> MergeLogic config <> "all_violation" -> MergeLogic config <> "weighted" ->
   Violated (mergeResults config order1 order2 local ext) = false).
Proof.
  intros Hperm. rewrite mergeResults_violated by done. split; [done|]. intros H1 H2 H3.
  unfold merge_reference. by rewrite !bool_decide_eq_false_2.
Qed.

(** * From a detection to a violation *)

Definition named (cats : list CategoryResult) : Prop := forall c, c ∈ cats -> Category c <> "".

Lemma more_confident_le a b : more_confident a b = false -> (Confidence a <= Confidence b)%Q.
Proof. unfold more_confident. rewrite negb_false_iff. apply Qle_bool_iff. Qed.

Lemma more_confident_lt a b : more_confident a b = true -> (Confidence b < Confidence a)%Q.
Proof.
  unfold more_confident. rewrite negb_true_iff. intros H. apply Qnot_le_lt. rewrite <- Qle_bool_iff. congruence.
Qed.

Lemma best_detected_fold dets best :
  named dets ->
  let r := foldl (fun best det => if Detected det then keep_best best det else best) best dets in
  (r = best \/ (r ∈ dets /\ Detected r = true)) /\
  (Category best <> "" -> (Confidence best <= Confidence r)%Q) /\
  (forall c, c ∈ dets -> Detected c = true -> Category r <> "" /\ (Confidence c <= Confidence r)%Q).
Proof.
  revert best. induction dets as [|d dets IH]; intros best Hn; cbn [foldl].
  { split_and!; [by left|intros; apply Qle_refl|by intros c ?%not_elem_of_nil]. }
  assert (named dets) as Hn' by (intros c Hc; apply Hn; set_solver).
  assert (Category d <> "") as Hd by (apply Hn; set_solver).
  destruct (Detected d) eqn:Hdet.
  - specialize (IH (keep_best best d) Hn'). cbn zeta in IH. destruct IH as (H1 & H2 & H3).
    assert (Category (keep_best best d) <> "" /\ (Confidence d <= Confidence (keep_best best d))%Q /\
      (Category best <> "" -> (Confidence best <= Confidence (keep_best best d))%Q)) as (K1 & K2 & K3).
    { unfold keep_best. case_bool_decide as Hc; cbn [orb]; [split_and!; [done|apply Qle_refl|done]|].
      destruct (more_confident d best) eqn:Hm; split_and!; try done; try (intros; apply Qle_refl).
      - intros _. by apply Qlt_le_weak, more_confident_lt.
      - by apply more_confident_le. }
    assert (keep_best best d = best \/ keep_best best d = d) as K4 by (unfold keep_best; destruct (_ || _); auto).
    specialize (H2 K1). split_and!.
    + destruct H1 as [-> |[H1 ?]]; [|right; split; [set_solver|done]]. destruct K4 as [-> | ->]; [by left|right; split; [set_solver|done]].
    + intros Hb. eapply Qle_trans; [by apply K3|done].
    + intros c [-> |Hc]%elem_of_cons Hcd; [|by apply H3]. split; [|by eapply Qle_trans].
      destruct H1 as [-> |[H1 _]]; [done|by apply Hn'].
  - specialize (IH best Hn'). cbn zeta in IH. destruct IH as (H1 & H2 & H3). split_and!.
    + destruct H1 as [|[? ?]]; [by left|right; split; [set_solver|done]].
    + done.
    + intros c [-> |Hc]%elem_of_cons Hcd; [congruence|by apply H3].
Qed.

Lemma best_detected_spec dets c :
  named dets -> c ∈ dets -> Detected c = true ->
  best_detected dets ∈ dets /\ Detected (best_detected dets) = true /\ (Confidence c <= Confidence (best_detected dets))%Q.
Proof.
  intros Hn Hc Hd. destruct (best_detected_fold dets zero_category Hn) as (H1 & _ & H3).
  unfold best_detected. destruct (H3 c Hc Hd) as [Hne Hle]. destruct H1 as [E|[H1 H1']]; [|done]. by rewrite E in Hne.
Qed.

Lemma best_of_fold (dets all : list CategoryResult) best :
  best ∈ all -> (forall d, d ∈ dets -> d ∈ all) ->
  foldl (fun best det => if more_confident det best then det else best) best dets ∈ all.
Proof.
  revert best. induction dets as [|x dets IH]; intros best Hb Hl; cbn [foldl]; [done|]. apply IH; [|set_solver].
  destruct (more_confident x best); [set_solver|done].
Qed.

Lemma best_of_elem det dets : best_of (det :: dets) ∈ det :: dets.
Proof. apply best_of_fold; [set_solver|done]. Qed.

Lemma merge_rest_elem infos cats c :
  c ∈ merge_rest infos cats -> c ∈ cats \/ exists info, info ∈ infos /\ c ∈ ci_detections info.
Proof.
  revert cats. induction infos as [|info infos IH]; intros cats; cbn [merge_rest]; [by left|].
  intros [Hc|(i & Hi & Hc)]%IH; [|right; exists i; set_solver].
  destruct (ci_detections info) as [|det dets] eqn:E; [by left|].
  destruct (existsb _ cats); [by left|]. apply elem_of_app in Hc as [Hc|Hc%list_elem_of_singleton]; [by left|].
  right. exists info. split; [set_solver|]. rewrite E, Hc. apply best_of_elem.
Qed.

Lemma merge_rest_keeps infos cats c : c ∈ cats -> c ∈ merge_rest infos cats.
Proof.
  revert cats. induction infos as [|info infos IH]; intros cats Hc; cbn [merge_rest]; [done|]. apply IH.
  destruct (ci_detections info); [done|]. destruct (existsb _ _); set_solver.
Qed.

Lemma best_violation_spec cats c :
  named cats -> c ∈ cats -> Detected c = true -> (0 < Confidence c)%Q -> best_violation cats ∈ cats.
Proof.
  intros Hn Hc Hd Hpos. unfold best_violation.
  assert (forall best, let r := foldl (fun best cat => if Detected cat && more_confident cat best then cat else best) best cats in
    (r = best \/ r ∈ cats) /\ (Confidence best <= Confidence r)%Q /\ (Confidence c <= Confidence r)%Q) as Hgen.
  { clear Hpos Hn. induction cats as [|x cats IH]; [by apply not_elem_of_nil in Hc|]. intros best. cbn [foldl].
    assert (forall l best', let r := foldl (fun best cat => if Detected cat && more_confident cat best then cat else best) best' l in
      (r = best' \/ r ∈ l) /\ (Confidence best' <= Confidence r)%Q) as Hmono.
    { clear. induction l as [|y l IHl]; intros best'; cbn [foldl]; [split; [by left|apply Qle_refl]|].
      destruct (Detected y && more_confident y best') eqn:E.
      - destruct (IHl y) as [H1 H2]. apply andb_true_iff in E as [_ E%more_confident_lt].
        split; [set_solver|]. eapply Qle_trans; [by apply Qlt_le_weak|done].
      - destruct (IHl best') as [H1 H2]. split; [set_solver|done]. }
    apply elem_of_cons in Hc as [<- |Hc].
    - rewrite Hd. cbn [andb]. destruct (more_confident c best) eqn:E.
      + destruct (Hmono cats c) as [H1 H2]. split_and!; [set_solver| |done].
        eapply Qle_trans; [by apply Qlt_le_weak, more_confident_lt|done].
      + destruct (Hmono cats best) as [H1 H2]. split_and!; [set_solver|done|]. eapply Qle_trans; [by apply more_confident_le|done].
    - destruct (Detected x && more_confident x best) eqn:E.
      + destruct (IH Hc x) as (H1 & H2 & H3). apply andb_true_iff in E as [_ E%more_confident_lt].
        split_and!; [set_solver| |done]. eapply Qle_trans; [by apply Qlt_le_weak|done].
      + destruct (IH Hc best) as (H1 & H2 & H3). split_and!; [set_solver|done|done]. }
  destruct (Hgen zero_category) as (H1 & _ & H3). destruct H1 as [E|?]; [|done]. rewrite E in H3.
  exfalso. apply (Qlt_not_le _ _ Hpos). exact H3.
Qed.

Lemma classification_reports id now t r phase c :
  Violated r = true -> named (Categories r) -> c ∈ Categories r -> Detected c = true -> (0 < Confidence c)%Q ->
  exists v, classificationToViolation id now t r phase = Some v /\ gv_Phase v = phase /\ gv_TenantID v = t /\
    exists best, best ∈ Categories r /\ gv_Rule v = Category best /\
      gv_Severity v = (if Qle_bool (Threshold best) (Confidence best) then "critical" else "warn").
Proof.
  intros Hv Hn Hc Hd Hpos. unfold classificationToViolation. rewrite Hv, bool_decide_eq_false_2
    by (intros E; rewrite E in Hc; by apply not_elem_of_nil in Hc). cbn [negb orb].
  pose proof (best_violation_spec _ c Hn Hc Hd Hpos) as Hb. rewrite bool_decide_eq_false_2 by by apply Hn.
  eexists. split; [done|]. cbn. eauto 6.
Qed.

Lemma merge_detected_elem config lr er infos x :
  x ∈ merge_detected config lr er infos <-> exists info, info ∈ infos /\ decide_category config lr er info = (true, x).
Proof.
  induction infos as [|i infos IH]; cbn [merge_detected].
  - split; [by intros ?%not_elem_of_nil|by intros (? & ?%not_elem_of_nil & _)].
  - destruct (decide_category config lr er i) as [det best] eqn:E. rewrite elem_of_app, IH. setoid_rewrite elem_of_cons.
    destruct det; rewrite ?list_elem_of_singleton.
    + split; [intros [-> |(j & ? & ?)]; eauto|]. intros (j & [-> |Hj] & Hd); [left; congruence|right; eauto].
    + split; [intros [?%not_elem_of_nil|(j & ? & ?)]; [done|eauto]|]. intros (j & [-> |Hj] & Hd); [congruence|right; eauto].
Qed.

Lemma info_detections local ext k x :
  x ∈ ci_detections (info_of local ext k) <-> x ∈ local ++ ext /\ Category x = k.
Proof.
  cbn [ci_detections info_of]. rewrite <- of_category_app. unfold of_category.
  by rewrite !list_elem_of_In, List.filter_In, bool_decide_eq_true.
Qed.

Section MergeAny.
Variables (config : CompositeConfig) (order1 order2 : list categoryInfo -> list categoryInfo) (local ext : ClassificationResult).
Hypotheses (Hl : MergeLogic config = "any_violation") (Hp1 : forall l, Permutation (order1 l) l)
  (Hp2 : forall l, Permutation (order2 l) l) (Hn : named (Categories local ++ Categories ext)).

Lemma decide_any lr er info b best :
  decide_category config lr er info = (b, best) -> b = existsb Detected (ci_detections info) /\ best = best_detected (ci_detections info).
Proof. unfold decide_category. rewrite Hl. cbn. by intros [= <- <-]. Qed.

(** The merge keeps categories, it makes none. *)
Lemma merge_any_elem x : x ∈ Categories (mergeResults config order1 order2 local ext) -> x ∈ Categories local ++ Categories ext.
Proof.
  unfold mergeResults. cbn [Categories]. destruct (category_infos_spec (Categories local) (Categories ext)) as (ks & -> & _).
  intros [(info & Hi & [Hex ->]%decide_any)%merge_detected_elem|(info & Hi & Hx)]%merge_rest_elem.
  - rewrite Hp1 in Hi. apply list_elem_of_fmap in Hi as (k & -> & _). symmetry in Hex.
    apply existsb_exists in Hex as (d & Hd1%list_elem_of_In & Hd2).
    assert (named (ci_detections (info_of (Categories local) (Categories ext) k))) as Hnk
      by (intros y [Hy _]%info_detections; by apply Hn).
    destruct (best_detected_spec _ d Hnk Hd1 Hd2) as ([Hb _]%info_detections & _). exact Hb.
  - rewrite Hp2 in Hi. apply list_elem_of_fmap in Hi as (k & -> & _). by apply info_detections in Hx as [Hx _].
Qed.

Lemma merge_any_named : named (Categories (mergeResults config order1 order2 local ext)).
Proof. intros x Hx. by apply Hn, merge_any_elem. Qed.

(** Any detection survives the default merge, or a more confident one of its category. *)
Lemma merge_any_keeps c :
  c ∈ Categories local ++ Categories ext -> Detected c = true ->
  let r := mergeResults config order1 order2 local ext in
  Violated r = true /\ exists best, best ∈ Categories r /\ Detected best = true /\ (Confidence c <= Confidence best)%Q.
Proof.
  intros Hc Hd. cbn zeta. split.
  - rewrite mergeResults_violated by done. unfold merge_reference. rewrite Hl. cbn. apply existsb_exists.
    exists c. split; [by apply list_elem_of_In|done].
  - unfold mergeResults. cbn [Categories]. destruct (category_infos_spec (Categories local) (Categories ext)) as (ks & -> & Hks).
    set (info := info_of (Categories local) (Categories ext) (Category c)).
    assert (c ∈ ci_detections info) as Hcin by by apply info_detections.
    assert (named (ci_detections info)) as Hnin by (intros x [Hx _]%info_detections; by apply Hn).
    destruct (best_detected_spec _ c Hnin Hcin Hd) as (_ & B2 & B3).
    exists (best_detected (ci_detections info)). split; [|done]. apply merge_rest_keeps, merge_detected_elem. exists info. split.
    + rewrite Hp1. apply list_elem_of_fmap_2, (ik_seen _ _ _ Hks), existsb_exists. exists c.
      split; [by apply list_elem_of_In|by apply bool_decide_eq_true].
    + unfold decide_category. rewrite Hl. cbn. f_equal. apply existsb_exists. exists c. split; [by apply list_elem_of_In|done].
Qed.
End MergeAny.

(** ** Local violations *)

Section LocalViolations.
Context `{GoText}.
Variable cfg : GuardrailsConfig.

(** A violation's rule and severity do not depend on what is drawn for it. *)
Definition drawn_apart (v : option GuardrailViolation) : option (string * string) := (fun v => (gv_Rule v, gv_Severity v)) <$> v.

Lemma check_rules_drawn id fresh now id' fresh' now' text phase rules :
  drawn_apart (check_rules id fresh now text phase rules) = drawn_apart (check_rules id' fresh' now' text phase rules).
Proof.
  induction rules as [|rule rules IH]; [done|]. cbn [check_rules]. destruct (negb _); [done|]. by destruct (rule_match _ _).
Qed.

Lemma first_of_drawn a b a' b' :
  drawn_apart a = drawn_apart a' -> drawn_apart b = drawn_apart b' -> drawn_apart (first_of a b) = drawn_apart (first_of a' b').
Proof. destruct a, a'; naive_solver. Qed.

Lemma LocalCheckInput_drawn id fresh now t id' fresh' now' t' text :
  drawn_apart (LocalCheckInput cfg id fresh now t text) = drawn_apart (LocalCheckInput cfg id' fresh' now' t' text).
Proof.
  unfold LocalCheckInput. destruct (negb (cfg_Enabled cfg)); [done|].
  assert (forall u o, drawn_apart (set_tenant u <$> o) = drawn_apart o) as Hset by by intros u [].
  rewrite !Hset.
  rewrite !checkPII_guarded. repeat apply first_of_drawn.
  - unfold checkLength. by destruct (_ >? _).
  - apply check_rules_drawn.
  - unfold check_pattern. destruct (cfg_Email cfg); [|done]. by destruct (FindString _ _).
  - unfold check_pattern. destruct (cfg_CreditCard cfg); [|done]. by destruct (FindString _ _).
  - unfold check_pattern. destruct (cfg_SSN cfg); [|done]. by destruct (FindString _ _).
  - unfold checkInjection. by destruct (List.find _ _).
Qed.

(** What a local violation is as a classification. *)
Lemma local_classification text id fresh now t v :
  LocalCheckInput cfg id fresh now t text = Some v ->
  exists cat, LocalClassifyInput cfg ZeroUUID ZeroUUID 0 text = mkClassification true [cat] "" 0 "local" "local" /\
    Category cat = gv_Rule v /\ Detected cat = true /\ (0 < Confidence cat)%Q /\ Qle_bool (Threshold cat) (Confidence cat) = true.
Proof.
  intros Hv. pose proof (LocalCheckInput_drawn id fresh now t ZeroUUID ZeroUUID 0 ZeroUUID text) as Hd. rewrite Hv in Hd.
  unfold LocalClassifyInput. destruct (LocalCheckInput cfg ZeroUUID ZeroUUID 0 ZeroUUID text) as [v'|]; [|done].
  injection Hd as Hr _. unfold violationToClassification. eexists. split; [done|]. cbn [Category Detected Confidence Threshold].
  split; [done|]. split; [done|]. repeat case_bool_decide; split; reflexivity.
Qed.
End LocalViolations.

(** What the external classifier must do on a text for the local verdict to
    stand: be absent, or answer with named categories, or fail under the default
    behaviour. *)
Definition external_harmless {W} (external : option (ExternalClassifier W)) (config : CompositeConfig) (text : string) (w : W) : Prop :=
  match snd (run_classifier (if SendContentExternal config then external else None) text true w) with
  | None => True
  | Some (Ok e) => named (Categories e)
  | Some (Err _) => FailBehavior config <> "fail_open" /\ FailBehavior config <> "fail_closed"
  end.

(** Under the default merge, an input the local rules refuse under a named rule is
    refused by the composite, whatever named categories the external classifier
    answers, and also when it fails under the default behaviour. *)
Theorem local_violation_stands `{GoText} {W} (cfg : GuardrailsConfig) (external : option (ExternalClassifier W))
    (config : CompositeConfig) (order1 order2 : list categoryInfo -> list categoryInfo) (latency now now' : Z)
    (id id' fresh t t' : UUID) (text : string) (v : GuardrailViolation) (w : W) :
  (forall l, Permutation (order1 l) l) -> (forall l, Permutation (order2 l) l) ->
  MergeLogic config = "any_violation" -> external_harmless external config text w ->
  LocalCheckInput cfg id fresh now t text = Some v -> gv_Rule v <> "" ->
  exists w' v', adapter_CheckInput (Some (local_classifier cfg)) external config order1 order2 latency id' now' t' text w = (w', Ok (Some v'))
    /\ gv_TenantID v' = t' /\ gv_Phase v' = GuardrailPhaseInput.
Proof.
  intros Hp1 Hp2 Hl Hext Hv Hne. destruct (local_classification cfg text id fresh now t v Hv) as (cat & Hcls & Hcat & Hdet & Hpos & _).
  assert (Category cat <> "") as Hcn by by rewrite Hcat.
  assert (forall r best, Violated r = true -> named (Categories r) -> best ∈ Categories r -> Detected best = true -> (Confidence cat <= Confidence best)%Q ->
    exists v', classificationToViolation id' now' t' (set_latency latency (set_provider "composite" r)) GuardrailPhaseInput = Some v' /\
      gv_TenantID v' = t' /\ gv_Phase v' = GuardrailPhaseInput) as Hrep.
  { intros r best Hr1 Hr2 Hb1 Hb2 Hb3.
    destruct (classification_reports id' now' t' (set_latency latency (set_provider "composite" r)) GuardrailPhaseInput best)
      as (v' & E & H1 & H2 & _); try done; [by eapply Qlt_le_trans|]. eauto. }
  assert (exists v', classificationToViolation id' now' t' (set_latency latency (set_provider "composite"
      (mkClassification true [cat] "" 0 "local" "local"))) GuardrailPhaseInput = Some v' /\ gv_TenantID v' = t' /\ gv_Phase v' = GuardrailPhaseInput) as Hlocal.
  { apply (Hrep _ cat); try done; [by intros x ->%list_elem_of_singleton|by apply list_elem_of_singleton|apply Qle_refl]. }
  unfold adapter_CheckInput, adapter_check, classify. rewrite bool_decide_eq_true_2 by done. unfold external_harmless in Hext.
  cbn [run_classifier local_classifier ClassifyInput]. rewrite Hcls.
  destruct (run_classifier _ text true w) as [w' [[e|err]|]]; cbn [snd] in Hext.
  - pose (l := mkClassification true [cat] "" 0 "local" "local"). fold l.
    assert (named (Categories l ++ Categories e)) as Hn by (intros x; cbn; intros [-> |Hx]%elem_of_cons; [done|by apply Hext]).
    destruct (merge_any_keeps config order1 order2 l e Hl Hp1 Hn cat ltac:(cbn; apply elem_of_cons; by left) Hdet) as (M1 & best & M2 & M3 & M4).
    destruct (Hrep _ best M1 (merge_any_named config order1 order2 l e Hl Hp1 Hp2 Hn) M2 M3 M4) as (v' & -> & ?). eauto.
  - destruct Hext as [Ho Hc]. rewrite !bool_decide_eq_false_2 by done. destruct Hlocal as (v' & -> & ?). eauto.
  - destruct Hlocal as (v' & -> & ?). eauto.
Qed.

(** * Witnesses *)

#[local] Instance ascii_text : GoText := { ToLower := ascii_lower; regexp_Compile := fun _ => None }.

Definition ex_guardrails : GuardrailsConfig := mkGuardrailsConfig true true false true [] 0 0 [].
Definition ex_composite (fail merge : string) : CompositeConfig := mkComposite "" fail merge 0 true None.

(** An external classifier that finds nothing, and one that fails. *)
Definition quiet_classifier {W} : ExternalClassifier W :=
  mkClassifier (fun _ w => (w, Ok (mkClassification false [mkCategory "hate" false (1 # 10) (8 # 10)] "" 3 "openai" "m")))
    (fun _ w => (w, Ok (mkClassification false [] "" 3 "openai" "m"))) (fun w => (w, None)) None.
Definition failing_classifier {W} : ExternalClassifier W :=
  mkClassifier (fun _ w => (w, Err (EOther "timeout"))) (fun _ w => (w, Err (EOther "timeout"))) (fun w => (w, None)) None.

Definition ex_local : ClassificationResult := LocalClassifyInput ex_guardrails ZeroUUID ZeroUUID 0 "my SSN is 123-45-6789".

Lemma merge_decides_witness :
  let ext := mkClassification false [mkCategory "hate" false (1 # 10) (8 # 10)] "" 3 "openai" "m" in
  Violated (mergeResults (ex_composite "" "any_violation") (@rev categoryInfo) (@rev categoryInfo) ex_local ext) = true /\
  Violated (mergeResults (ex_composite "" "all_violation") (@rev categoryInfo) (@rev categoryInfo) ex_local ext) = false /\
  Violated (mergeResults (ex_composite "" "majority") (@rev categoryInfo) (@rev categoryInfo) ex_local ext) = false.
Proof.
  assert (forall l : list categoryInfo, Permutation (rev l) l) as Hp by (intros; symmetry; apply Permutation_rev).
  cbn zeta. split; [|split].
  - rewrite (proj1 (merge_decides _ (@rev categoryInfo) (@rev categoryInfo) ex_local _ Hp)). vm_compute. reflexivity.
  - rewrite (proj1 (merge_decides _ (@rev categoryInfo) (@rev categoryInfo) ex_local _ Hp)). vm_compute. reflexivity.
  - apply (merge_decides _ (@rev categoryInfo) (@rev categoryInfo) ex_local _ Hp); discriminate.
Defined.

Lemma local_violation_stands_witness :
  exists v', adapter_CheckInput (Some (local_classifier ex_guardrails)) (Some failing_classifier)
      (NewCompositeGuardrail (ex_composite "" "")) id id 5 (uuid_n 7) 0 (uuid_n 1) "my SSN is 123-45-6789" tt = (tt, Ok (Some v')) /\
    gv_TenantID v' = uuid_n 1.
Proof.
  destruct (LocalCheckInput ex_guardrails ZeroUUID ZeroUUID 0 ZeroUUID "my SSN is 123-45-6789") as [v|] eqn:E;
    [|vm_compute in E; discriminate].
  assert (gv_Rule v <> "") as Hne by (intros Hr; apply (f_equal (fmap gv_Rule)) in E; cbn in E; rewrite Hr in E; vm_compute in E; discriminate).
  destruct (local_violation_stands ex_guardrails (Some failing_classifier) (NewCompositeGuardrail (ex_composite "" "")) id id 5 0 0
    ZeroUUID (uuid_n 7) ZeroUUID ZeroUUID (uuid_n 1) "my SSN is 123-45-6789" v tt) as ([] & v' & H1 & H2 & _);
    [done|done|reflexivity|cbn; split; discriminate|exact E|exact Hne|]. eauto.
Defined.
