(* ===== verification/ClassifierClient.v ===== *)
(** The HTTP client of the external classifiers,
    [internal/adapter/guardrail/external/http_client.go]: its circuit breaker, as
    a function and as steps that interleave, and its retries. *)

From stdpp Require Import base strings list numbers.
From S2P Require Import GoPrelude Bytes Errors.
Open Scope Z_scope.

Definition ErrBreakerOpen : error := EOther "circuit breaker open".
Definition ErrMaxRetriesExceeded : error := EOther "max retries exceeded".

(** ** Configuration ([internal/config/config.go]); durations are nanoseconds *)

Definition Millisecond : Z := 1000000.
Definition Second : Z := 1000 * Millisecond.

Record RetryConfig := mkRetry { MaxAttempts : Z; Backoff : Z }.
Record CircuitBreakerConfig := mkBreakerConfig { FailureThreshold : Z; Window : Z; ResetTimeout : Z }.

Record HTTPClientConfig := mkClientConfig {
  hc_Timeout : Z;
  hc_Retry : RetryConfig;
  hc_CircuitBreaker : CircuitBreakerConfig;
}.

Definition DefaultRetryConfig : RetryConfig := mkRetry 2 (500 * Millisecond).
Definition DefaultCircuitBreakerConfig : CircuitBreakerConfig := mkBreakerConfig 5 (30 * Second) (60 * Second).
Definition DefaultHTTPClientConfig : HTTPClientConfig :=
  mkClientConfig (5 * Second) DefaultRetryConfig DefaultCircuitBreakerConfig.

(** ** The circuit breaker *)

Inductive CircuitBreakerState := CircuitBreakerClosed | CircuitBreakerOpen | CircuitBreakerHalfOpen.

#[global] Instance CircuitBreakerState_eq_dec : EqDecision CircuitBreakerState.
Proof. solve_decision. Defined.

Definition state_String (s : CircuitBreakerState) : string :=
  match s with
  | CircuitBreakerClosed => "closed"
  | CircuitBreakerOpen => "open"
  | CircuitBreakerHalfOpen => "half_open"
  end.

(** [lastFailureTime] is [None] for the zero time. *)
Record CircuitBreaker := mkBreaker {
  state : CircuitBreakerState;
  failureCount : Z;
  lastFailureTime : option Z;
  config : CircuitBreakerConfig;
  successesInHalfOpen : Z;
}.

Definition NewCircuitBreaker (cfg : CircuitBreakerConfig) : CircuitBreaker :=
  mkBreaker CircuitBreakerClosed 0 None cfg 0.

(** [time.Since]; since the zero time it saturates. *)
Definition since (now : Z) (t : option Z) : Z := match t with Some t => now - t | None => 2 ^ 63 - 1 end.

Definition reset_elapsed (now : Z) (cb : CircuitBreaker) : bool :=
  ResetTimeout (config cb) <=? since now (lastFailureTime cb).

(** [allowRequest] gives the read lock back to take the write lock, and takes the
    read lock again before it answers: three critical sections. The first answers
    at once, or asks for the second. *)
Definition allow_read (now : Z) (cb : CircuitBreaker) : option bool :=
  match state cb with
  | CircuitBreakerClosed => Some true
  | CircuitBreakerOpen => if reset_elapsed now cb then None else Some false
  | CircuitBreakerHalfOpen => Some true
  end.

Definition allow_upgrade (now : Z) (cb : CircuitBreaker) : CircuitBreaker :=
  if bool_decide (state cb = CircuitBreakerOpen) && reset_elapsed now cb
  then mkBreaker CircuitBreakerHalfOpen (failureCount cb) (lastFailureTime cb) (config cb) 0 else cb.

Definition allow_reread (cb : CircuitBreaker) : bool := bool_decide (state cb = CircuitBreakerHalfOpen).

Definition allowRequest (now now' : Z) (cb : CircuitBreaker) : CircuitBreaker * bool :=
  match allow_read now cb with
  | Some allowed => (cb, allowed)
  | None => let cb := allow_upgrade now' cb in (cb, allow_reread cb)
  end.

Definition recordResult (now : Z) (err : option error) (cb : CircuitBreaker) : CircuitBreaker :=
  match err with
  | Some _ =>
      let count := int64_wrap (failureCount cb + 1) in
      let next :=
        if bool_decide (state cb = CircuitBreakerHalfOpen) then CircuitBreakerOpen
        else if count >=? FailureThreshold (config cb) then CircuitBreakerOpen
        else state cb in
      mkBreaker next count (Some now) (config cb) (successesInHalfOpen cb)
  | None =>
      if bool_decide (state cb = CircuitBreakerHalfOpen) then
        let successes := int64_wrap (successesInHalfOpen cb + 1) in
        if successes >=? 2 then mkBreaker CircuitBreakerClosed 0 (lastFailureTime cb) (config cb) successes
        else mkBreaker (state cb) (failureCount cb) (lastFailureTime cb) (config cb) successes
      else if bool_decide (state cb = CircuitBreakerClosed) then
        mkBreaker (state cb) 0 (lastFailureTime cb) (config cb) (successesInHalfOpen cb)
      else cb
  end.

(** ** Executions that interleave

    The program counter of one [Execute] call: before the first section, before
    the second, before the third, about to call its function and record what it
    returned, and returned. *)
Inductive exec_pc := ECall | EUpgrade | EReread | ERun | EDone (r : option error).

Definition exec_step (now : Z) (outcome : option error) (pc : exec_pc) (cb : CircuitBreaker) : CircuitBreaker * exec_pc :=
  match pc with
  | ECall =>
      (cb, match allow_read now cb with
           | Some true => ERun
           | Some false => EDone (Some ErrBreakerOpen)
           | None => EUpgrade
           end)
  | EUpgrade => (allow_upgrade now cb, EReread)
  | EReread => (cb, if allow_reread cb then ERun else EDone (Some ErrBreakerOpen))
  | ERun => (recordResult now outcome cb, EDone outcome)
  | EDone r => (cb, EDone r)
  end.

(** A schedule says which call moves next and what the clock then reads. *)
Fixpoint exec_run (outcome : nat -> option error) (schedule : list (nat * Z)) (cb : CircuitBreaker) (pcs : list exec_pc)
    : CircuitBreaker * list exec_pc :=
  match schedule with
  | [] => (cb, pcs)
  | (i, now) :: schedule =>
      match pcs !! i with
      | Some pc =>
          let '(cb, pc) := exec_step now (outcome i) pc cb in
          exec_run outcome schedule cb (<[i := pc]> pcs)
      | None => exec_run outcome schedule cb pcs
      end
  end.

(** ** The network *)

Record http_request := mkHttpRequest {
  hr_Method : string;
  hr_URL : string;
  hr_Header : list (string * string);
  hr_Body : bytes;
}.
Record http_response := mkHttpResponse { hr_StatusCode : Z; hr_RespBody : string }.

(** The clock; [http.Client.Do] under the client's timeout, which reads some of
    the body's unread bytes and answers; a wait that the caller's context may cut
    short, with the context's error. *)
Class ClassifierNet (W : Type) := {
  net_now : W -> Z;
  net_Do : Z -> http_request -> bytes -> W -> W * (nat * result error http_response);
  net_wait : Z -> W -> W * option error;
}.

Record GuardrailHTTPClient := mkClient { client_Timeout : Z; retryConfig : RetryConfig }.

(** A client keeps its breaker; what it acts on is the breaker and the network. *)
Definition world (W : Type) : Type := CircuitBreaker * W.

Definition NewGuardrailHTTPClient (cfg : HTTPClientConfig) : GuardrailHTTPClient * CircuitBreaker :=
  (mkClient (hc_Timeout cfg) (hc_Retry cfg), NewCircuitBreaker (hc_CircuitBreaker cfg)).

Section Client.
Context {W : Type} `{ClassifierNet W}.

Definition Execute (fn : W -> W * option error) (w : world W) : world W * option error :=
  let '(cb, w) := w in
  let '(cb, allowed) := allowRequest (net_now w) (net_now w) cb in
  if negb allowed then ((cb, w), Some ErrBreakerOpen)
  else let '(w, err) := fn w in ((recordResult (net_now w) err cb, w), err).

Variable c : GuardrailHTTPClient.

(** [func() error { return nil }]: what the client has its breaker execute. *)
Definition checked (w : W) : W * option error := (w, None).

(** Every attempt sends the same request value, whose body is one reader: an
    attempt finds what the ones before it left unread. *)
Fixpoint attempts (n : nat) (attempt : Z) (req : http_request) (unread : bytes) (w : world W)
    : world W * result error http_response :=
  match n with
  | O => (w, Err ErrMaxRetriesExceeded)
  | S n =>
      match Execute checked w with
      | (w, Some err) => (w, Err err)
      | ((cb, w), None) =>
          let '(w, (nread, r)) := net_Do (client_Timeout c) req unread w in
          let unread := drop nread unread in
          match r with
          | Ok resp =>
              if (500 <=? hr_StatusCode resp) && (hr_StatusCode resp <? 600) && (attempt <? MaxAttempts (retryConfig c))
              then attempts n (attempt + 1) req unread (cb, w)
              else ((cb, w), Ok resp)
          | Err err =>
              if attempt =? MaxAttempts (retryConfig c) then ((cb, w), Err (EWrap "max retries exceeded" err))
              else match net_wait (Backoff (retryConfig c)) w with
                   | (w, Some err) => ((cb, w), Err err)
                   | (w, None) => attempts n (attempt + 1) req unread (cb, w)
                   end
          end
      end
  end.

(** The loop runs while [attempt <= MaxAttempts]. *)
Definition Do (req : http_request) (w : world W) : world W * result error http_response :=
  attempts (Z.to_nat (MaxAttempts (retryConfig c) + 1)) 0 req (hr_Body req) w.

Definition client_Close : option error := None.
End Client.
Arguments Do {_ _} _ _ _.

(** ** Requests that interleave

    The program counter of one [Do] call: inside its breaker's [Execute], about to
    send, waiting to try again, and returned. *)
Inductive do_pc :=
| DCheck (attempt : Z) (pc : exec_pc)
| DSend (attempt : Z)
| DWait (attempt : Z)
| DDone (r : result error http_response).

(** The loop condition. *)
Definition do_enter (c : GuardrailHTTPClient) (attempt : Z) : do_pc :=
  if attempt <=? MaxAttempts (retryConfig c) then DCheck attempt ECall else DDone (Err ErrMaxRetriesExceeded).

(** [answer] is what the network answers to this call's next request, [waited]
    how its next wait ends. *)
Definition do_step (c : GuardrailHTTPClient) (now : Z) (answer : result error http_response) (waited : option error)
    (pc : do_pc) (cb : CircuitBreaker) : CircuitBreaker * do_pc :=
  match pc with
  | DCheck attempt pc =>
      let '(cb, pc) := exec_step now (snd (checked tt)) pc cb in
      (cb, match pc with
           | EDone None => DSend attempt
           | EDone (Some err) => DDone (Err err)
           | pc => DCheck attempt pc
           end)
  | DSend attempt =>
      (cb, match answer with
           | Ok resp =>
               if (500 <=? hr_StatusCode resp) && (hr_StatusCode resp <? 600) && (attempt <? MaxAttempts (retryConfig c))
               then do_enter c (attempt + 1) else DDone (Ok resp)
           | Err err =>
               if attempt =? MaxAttempts (retryConfig c) then DDone (Err (EWrap "max retries exceeded" err)) else DWait attempt
           end)
  | DWait attempt => (cb, match waited with Some err => DDone (Err err) | None => do_enter c (attempt + 1) end)
  | DDone r => (cb, DDone r)
  end.

Record do_move := mkMove { mv_call : nat; mv_now : Z; mv_answer : result error http_response; mv_waited : option error }.

Fixpoint do_run (c : GuardrailHTTPClient) (schedule : list do_move) (cb : CircuitBreaker) (pcs : list do_pc)
    : CircuitBreaker * list do_pc :=
  match schedule with
  | [] => (cb, pcs)
  | m :: schedule =>
      match pcs !! mv_call m with
      | Some pc =>
          let '(cb, pc) := do_step c (mv_now m) (mv_answer m) (mv_waited m) pc cb in
          do_run c schedule cb (<[mv_call m := pc]> pcs)
      | None => do_run c schedule cb pcs
      end
  end.

(** * The breaker *)

(** Sections run one after the other are the sequential call. *)
Lemma exec_steps_Execute {W} `{ClassifierNet W} (r : option error) (cb : CircuitBreaker) (w : W) :
  let t := net_now w in
  exec_run (fun _ => r) [(0%nat, t); (0%nat, t); (0%nat, t); (0%nat, t)] cb [ECall] =
    (fst (fst (Execute (fun w => (w, r)) (cb, w))), [EDone (snd (Execute (fun w => (w, r)) (cb, w)))]).
Proof.
  cbn [exec_run lookup list_lookup exec_step insert list_insert]. unfold Execute, allowRequest.
  destruct (allow_read (net_now w) cb) as [[]|]; cbn; [done..|]. by destruct (allow_reread _).
Qed.

(** A quiet breaker: closed, with no failure counted. *)
Definition quiet (cb : CircuitBreaker) : Prop := state cb = CircuitBreakerClosed /\ failureCount cb = 0.

Lemma quiet_allowed now now' cb : quiet cb -> allowRequest now now' cb = (cb, true).
Proof. intros [Hs _]. unfold allowRequest, allow_read. by rewrite Hs. Qed.

Lemma quiet_recorded now cb : quiet cb -> recordResult now None cb = cb.
Proof. intros [Hs Hf]. unfold recordResult. destruct cb. cbn in *. by subst. Qed.

(** Where a call that finds the breaker quiet can be in it. *)
Definition unhurt (pc : do_pc) : Prop :=
  match pc with DCheck _ pc => pc = ECall \/ pc = ERun | _ => True end.

Lemma do_enter_unhurt c attempt : unhurt (do_enter c attempt).
Proof. unfold do_enter. destruct (_ <=? _); cbn; auto. Qed.

Lemma do_step_quiet c now answer waited pc cb :
  quiet cb -> unhurt pc -> exists pc', do_step c now answer waited pc cb = (cb, pc') /\ unhurt pc'.
Proof.
  intros Hq Hpc. pose proof (do_enter_unhurt c). destruct pc as [attempt pc|attempt|attempt|r]; cbn [do_step].
  - destruct Hpc as [-> | ->]; cbn [exec_step checked snd].
    + unfold allow_read. rewrite (proj1 Hq). eexists. split; [done|]. by right.
    + rewrite quiet_recorded by done. by eexists.
  - eexists. split; [done|]. repeat case_match; done.
  - eexists. split; [done|]. by destruct waited.
  - by eexists.
Qed.

Lemma do_run_quiet c schedule cb pcs : quiet cb -> Forall unhurt pcs -> fst (do_run c schedule cb pcs) = cb.
Proof.
  intros Hq. induction schedule as [|m schedule IH] in pcs |- *; intros Hl; cbn [do_run]; [done|].
  destruct (pcs !! mv_call m) as [pc|] eqn:E; [|by apply IH].
  destruct (do_step_quiet c (mv_now m) (mv_answer m) (mv_waited m) pc cb Hq) as (pc' & -> & Hpc'); [by eapply Forall_lookup_1|].
  apply IH. by apply Forall_insert.
Qed.

Lemma do_run_app c s1 s2 cb pcs :
  do_run c (s1 ++ s2) cb pcs = do_run c s2 (fst (do_run c s1 cb pcs)) (snd (do_run c s1 cb pcs)).
Proof.
  induction s1 as [|m s1 IH] in cb, pcs |- *; [done|]. cbn [app do_run].
  destruct (pcs !! mv_call m); [|apply IH]. destruct (do_step _ _ _ _ _ _). apply IH.
Qed.

(** Failing executions one after the other, each at its clock reading. *)
Fixpoint failing (err : error) (times : list Z) (cb : CircuitBreaker) : CircuitBreaker :=
  match times with
  | [] => cb
  | now :: times =>
      let '(cb, allowed) := allowRequest now now cb in
      failing err times (if allowed then recordResult now (Some err) cb else cb)
  end.

Lemma failing_open err times cb : state cb = CircuitBreakerOpen -> state (failing err times cb) = CircuitBreakerOpen.
Proof.
  revert cb. induction times as [|now times IH]; intros cb Hs; cbn [failing]; [done|].
  unfold allowRequest, allow_read. rewrite Hs. destruct (reset_elapsed now cb) eqn:E; [|by apply IH].
  unfold allow_upgrade. rewrite bool_decide_eq_true_2, E by done. cbn. by apply IH.
Qed.

Lemma failing_closed err times cb :
  state cb = CircuitBreakerClosed -> 0 <= failureCount cb < FailureThreshold (config cb) ->
  FailureThreshold (config cb) < 2 ^ 63 ->
  state (failing err times cb) =
    (if FailureThreshold (config cb) <=? failureCount cb + Z.of_nat (length times) then CircuitBreakerOpen else CircuitBreakerClosed).
Proof.
  revert cb. induction times as [|now times IH]; intros cb Hs Hf Ht; cbn [failing length].
  - rewrite Hs. destruct (Z.leb_spec (FailureThreshold (config cb)) (failureCount cb + Z.of_nat 0)); [lia|done].
  - unfold allowRequest, allow_read. rewrite Hs. unfold recordResult. rewrite Hs. cbn [bool_decide].
    rewrite int64_wrap_id by (unfold is_int64; lia). rewrite bool_decide_eq_false_2 by done. rewrite Z.geb_leb.
    destruct (Z.leb_spec (FailureThreshold (config cb)) (failureCount cb + 1)).
    + rewrite failing_open by done. by destruct (Z.leb_spec (FailureThreshold (config cb)) (failureCount cb + Z.of_nat (S (length times)))); [|lia].
    + rewrite IH by (cbn; done || lia). cbn [config failureCount].
      replace (failureCount cb + 1 + Z.of_nat (length times)) with (failureCount cb + Z.of_nat (S (length times))) by lia. done.
Qed.

Section Steps.
Context {W : Type} `{ClassifierNet W}.
Variable c : GuardrailHTTPClient.

(** Steps taken one after the other are the call. *)
Lemma do_steps_checked attempt cb (w : W) :
  exists schedule, do_run c schedule cb [DCheck attempt ECall] =
    let '((cb, _), r) := Execute checked (cb, w) in (cb, [match r with Some err => DDone (Err err) | None => DSend attempt end]).
Proof.
  set (m := mkMove 0 (net_now w) (Err ErrBreakerOpen) None). unfold Execute, allowRequest.
  destruct (allow_read (net_now w) cb) as [[]|] eqn:E.
  - exists [m; m]. cbn -[recordResult]. by rewrite E.
  - exists [m]. cbn. by rewrite E.
  - destruct (allow_reread (allow_upgrade (net_now w) cb)) eqn:E2.
    + exists [m; m; m; m]. cbn -[recordResult allow_upgrade allow_reread]. rewrite E. cbn -[recordResult allow_upgrade allow_reread]. by rewrite E2.
    + exists [m; m; m]. cbn -[allow_upgrade allow_reread]. rewrite E. cbn -[allow_upgrade allow_reread]. by rewrite E2.
Qed.

Lemma do_steps_attempts n attempt req unread cb (w : W) :
  Z.of_nat n = Z.max 0 (MaxAttempts (retryConfig c) + 1 - attempt) ->
  exists schedule, do_run c schedule cb [do_enter c attempt] =
    let '((cb, _), r) := attempts c n attempt req unread (cb, w) in (cb, [DDone r]).
Proof.
  induction n as [|n IH] in attempt, unread, cb, w |- *; intros Hn; unfold do_enter.
  { destruct (Z.leb_spec attempt (MaxAttempts (retryConfig c))); [lia|]. by exists []. }
  destruct (Z.leb_spec attempt (MaxAttempts (retryConfig c))); [|lia].
  destruct (do_steps_checked attempt cb w) as [s1 H1]. cbn [attempts].
  destruct (Execute checked (cb, w)) as [[cb1 w1] [err|]]; [by exists s1|].
  destruct (net_Do (client_Timeout c) req unread w1) as [w2 [nread answer]] eqn:Ea.
  assert (forall waited s2 pcs, do_run c s2 cb1 [snd (do_step c 0 answer waited (DSend attempt) cb1)] = pcs ->
    exists s, do_run c s cb [DCheck attempt ECall] = pcs) as Hsend.
  { intros waited s2 pcs H2. exists (s1 ++ mkMove 0 0 answer waited :: s2). by rewrite do_run_app, H1. }
  destruct answer as [resp|err]; cbn [do_step snd] in Hsend.
  - destruct ((500 <=? hr_StatusCode resp) && (hr_StatusCode resp <? 600) && _).
    + destruct (IH (attempt + 1) (drop nread unread) cb1 w2 ltac:(lia)) as [s2 H2]. by eapply (Hsend None s2).
    + by eapply (Hsend None []).
  - destruct (attempt =? _) ; [by eapply (Hsend None [])|].
    destruct (net_wait (Backoff (retryConfig c)) w2) as [w3 [err'|]] eqn:Ew.
    + by eapply (Hsend None [mkMove 0 0 (Err err) (Some err')]).
    + destruct (IH (attempt + 1) (drop nread unread) cb1 w3 ltac:(lia)) as [s2 H2].
      by eapply (Hsend None (mkMove 0 0 (Err err) None :: s2)).
Qed.

Lemma do_steps_Do req cb (w : W) :
  exists schedule, do_run c schedule cb [do_enter c 0] = let '((cb, _), r) := Do c req (cb, w) in (cb, [DDone r]).
Proof. apply do_steps_attempts. lia. Qed.
End Steps.

(** C33: Executions that fail, one after the other, open the breaker exactly at its
    threshold. But the client has it execute a function that cannot fail, and sends
    outside of it: whatever its requests are answered, one request after the other
    or any number of them interleaved, with any clock, the breaker stays as it was
    made, and as it was made it refuses no call. *)
Theorem breaker_never_opens (c : GuardrailHTTPClient) (cfg : CircuitBreakerConfig) :
  (forall err times, 0 < FailureThreshold cfg < 2 ^ 63 ->
     state (failing err times (NewCircuitBreaker cfg)) = CircuitBreakerOpen <-> FailureThreshold cfg <= Z.of_nat (length times)) /\
  (forall W (net : ClassifierNet W) (req : http_request) (w : W), fst (fst (Do c req (NewCircuitBreaker cfg, w))) = NewCircuitBreaker cfg) /\
  (forall schedule n, fst (do_run c schedule (NewCircuitBreaker cfg) (replicate n (do_enter c 0))) = NewCircuitBreaker cfg) /\
  (forall now now', allowRequest now now' (NewCircuitBreaker cfg) = (NewCircuitBreaker cfg, true)).
Proof.
  assert (quiet (NewCircuitBreaker cfg)) as Hq by done. split_and!.
  - intros err times Ht. rewrite failing_closed by (cbn; done || lia). cbn [NewCircuitBreaker config failureCount].
    destruct (Z.leb_spec (FailureThreshold cfg) (0 + Z.of_nat (length times))); naive_solver lia.
  - intros W net req w. destruct (do_steps_Do c req (NewCircuitBreaker cfg) w) as [schedule Hs].
    destruct (Do c req _) as [[cb w'] r]. apply (f_equal fst) in Hs. cbn [fst] in *. rewrite <- Hs.
    apply do_run_quiet; [done|]. by apply Forall_singleton, do_enter_unhurt.
  - intros schedule n. apply do_run_quiet; [done|]. apply Forall_replicate, do_enter_unhurt.
  - intros. by apply quiet_allowed.
Qed.

(** * The retries *)

(** A call of the network: the unread bytes it was given, how many it read, and
    its answer. *)
Record call := mkCall { call_unread : bytes; call_read : nat; call_answer : result error http_response }.

(** A network that writes its calls down. *)
#[local] Instance recording {W} `{ClassifierNet W} : ClassifierNet (W * list call) := {
  net_now := fun w => net_now (fst w);
  net_Do := fun timeout req unread w =>
    let '(w', (nread, r)) := net_Do timeout req unread (fst w) in ((w', snd w ++ [mkCall unread nread r]), (nread, r));
  net_wait := fun d w => let '(w', e) := net_wait d (fst w) in ((w', snd w), e);
}.

Definition server_error (r : result error http_response) : bool :=
  match r with Ok resp => (500 <=? hr_StatusCode resp) && (hr_StatusCode resp <? 600) | Err _ => false end.

Definition retried (r : result error http_response) : bool :=
  match r with Ok _ => server_error r | Err _ => true end.

(** Every call is given what the one before it left. *)
Fixpoint continues (unread : bytes) (log : list call) : Prop :=
  match log with
  | [] => True
  | x :: log => call_unread x = unread /\ continues (drop (call_read x) unread) log
  end.

(** The calls before the last one are the ones to retry. *)
Fixpoint retried_but_last (log : list call) : Prop :=
  match log with
  | [] | [_] => True
  | x :: log => retried (call_answer x) = true /\ retried_but_last log
  end.

(** How the last call's answer becomes the client's, [left] attempts remaining. *)
Definition final_answer (left : Z) (x : call) (r : result error http_response) : Prop :=
  match call_answer x with
  | Ok resp => r = Ok resp /\ (server_error (Ok resp) = true -> left = 0)
  | Err e => if left =? 0 then r = Err (EWrap "max retries exceeded" e) else exists e', r = Err e'
  end.

Lemma continues_emptied unread log : unread = [] -> continues unread log -> forall x, x ∈ log -> call_unread x = [].
Proof.
  revert unread. induction log as [|y log IH]; intros unread Hu Hc x; [by intros ?%elem_of_nil|].
  destruct Hc as [Hy Hc]. intros [-> |Hx]%elem_of_cons; [congruence|].
  eapply IH; [|done|done]. subst. by rewrite drop_nil.
Qed.

(** After a call that read all it was given, the rest send nothing. *)
Lemma continues_after unread log i j x y :
  continues unread log -> log !! i = Some x -> log !! j = Some y -> (i < j)%nat ->
  (length (call_unread x) <= call_read x)%nat -> call_unread y = [].
Proof.
  revert unread i j. induction log as [|z log IH]; intros unread i j Hc Hi Hj Hij Hread; [done|]. destruct Hc as [Hz Hc].
  destruct j as [|j]; [lia|]. cbn in Hj. destruct i as [|i].
  - injection Hi as ->. eapply continues_emptied; [|exact Hc|by eapply list_elem_of_lookup_2].
    apply drop_ge. rewrite Hz in Hread. lia.
  - eapply IH; [exact Hc|exact Hi|exact Hj|lia|done].
Qed.

Section Attempts.
Context {W : Type} `{ClassifierNet W}.
Variable c : GuardrailHTTPClient.
Notation Max := (MaxAttempts (retryConfig c)).

Lemma attempts_step n attempt req unread cb (w : W) (log : list call) :
  quiet cb ->
  attempts c (S n) attempt req unread (cb, (w, log)) =
    let '(w, (nread, r)) := net_Do (client_Timeout c) req unread w in
    let log := log ++ [mkCall unread nread r] in
    match r with
    | Ok resp =>
        if server_error r && (attempt <? Max) then attempts c n (attempt + 1) req (drop nread unread) (cb, (w, log))
        else ((cb, (w, log)), Ok resp)
    | Err err =>
        if attempt =? Max then ((cb, (w, log)), Err (EWrap "max retries exceeded" err))
        else match net_wait (Backoff (retryConfig c)) w with
             | (w, Some err) => ((cb, (w, log)), Err err)
             | (w, None) => attempts c n (attempt + 1) req (drop nread unread) (cb, (w, log))
             end
    end.
Proof.
  intros Hq. cbn [attempts]. unfold Execute, checked. rewrite quiet_allowed, quiet_recorded by done. cbn [negb net_Do net_wait recording fst snd].
  destruct (net_Do _ req unread w) as [w1 [nread [resp|err]]]; [done|]. cbn [fst snd].
  destruct (attempt =? Max); [done|]. by destruct (net_wait _ w1) as [w2 [e|]].
Qed.

Lemma attempts_log n attempt req unread cb (w : W) log :
  quiet cb -> Z.of_nat (S n) = Max + 1 - attempt ->
  exists w' new x r, attempts c (S n) attempt req unread (cb, (w, log)) = ((cb, (w', log ++ new ++ [x])), r) /\
    (length new <= n)%nat /\ continues unread (new ++ [x]) /\ retried_but_last (new ++ [x]) /\
    final_answer (Z.of_nat n - Z.of_nat (length new)) x r.
Proof.
  revert attempt unread w log. induction n as [|n IH]; intros attempt unread w log Hq Hn.
  all: rewrite attempts_step by done; destruct (net_Do (client_Timeout c) req unread w) as [w1 [nread [resp|err]]]; cbn zeta.
  - assert (attempt <? Max = false) as -> by (apply Z.ltb_ge; lia). rewrite andb_false_r.
    exists w1, [], (mkCall unread nread (Ok resp)), (Ok resp). cbn. split_and!; done || lia.
  - assert (attempt =? Max = true) as -> by (apply Z.eqb_eq; lia).
    exists w1, [], (mkCall unread nread (Err err)), (Err (EWrap "max retries exceeded" err)). cbn. split_and!; done || lia.
  - assert (attempt <? Max = true) as -> by (apply Z.ltb_lt; lia). rewrite andb_true_r.
    destruct (server_error (Ok resp)) eqn:E.
    + destruct (IH (attempt + 1) (drop nread unread) w1 (log ++ [mkCall unread nread (Ok resp)]) Hq ltac:(lia))
        as (w' & new & x & r & Hrun & Hlen & Hc & Hr & Hf). rewrite Hrun.
      exists w', (mkCall unread nread (Ok resp) :: new), x, r. split; [by rewrite <- app_assoc|].
      cbn [length]. split_and!; [lia|by cbn|destruct new; by cbn|].
      by replace (Z.of_nat (S n) - Z.of_nat (S (length new))) with (Z.of_nat n - Z.of_nat (length new)) by lia.
    + exists w1, [], (mkCall unread nread (Ok resp)), (Ok resp). cbn -[Z.of_nat]. split_and!; try done; try lia. cbn in E. by rewrite E.
  - assert (attempt =? Max = false) as -> by (apply Z.eqb_neq; lia).
    destruct (net_wait (Backoff (retryConfig c)) w1) as [w2 [e|]].
    + exists w2, [], (mkCall unread nread (Err err)), (Err e). cbn -[Z.of_nat]. split_and!; try done; try lia.
      unfold final_answer. cbn -[Z.of_nat]. destruct (Z.eqb_spec (Z.of_nat (S n) - Z.of_nat 0) 0); [lia|eauto].
    + destruct (IH (attempt + 1) (drop nread unread) w2 (log ++ [mkCall unread nread (Err err)]) Hq ltac:(lia))
        as (w' & new & x & r & Hrun & Hlen & Hc & Hr & Hf). rewrite Hrun.
      exists w', (mkCall unread nread (Err err) :: new), x, r. split; [by rewrite <- app_assoc|].
      cbn [length]. split_and!; [lia|by cbn|destruct new; by cbn|].
      by replace (Z.of_nat (S n) - Z.of_nat (S (length new))) with (Z.of_nat n - Z.of_nat (length new)) by lia.
Qed.

(** C32: A request makes at most one call more than the configured retries (none when
    the configuration is negative), retries only errors and server errors, and
    answers with what the last call answered, a server error only when nothing
    was left to try. But all the calls share one body: after a call that read it
    whole, every retry sends an empty one. *)
Theorem client_attempts (req : http_request) (cb : CircuitBreaker) (w : W) :
  quiet cb ->
  exists w' log r, Do c req (cb, (w, [])) = ((cb, (w', log)), r) /\
    (Max < 0 -> log = [] /\ r = Err ErrMaxRetriesExceeded) /\
    (0 <= Max -> exists calls x, log = calls ++ [x] /\ Z.of_nat (length log) <= Max + 1 /\
                   final_answer (Max + 1 - Z.of_nat (length log)) x r) /\
    continues (hr_Body req) log /\ retried_but_last log /\
    (forall i j x y, log !! i = Some x -> log !! j = Some y -> (i < j)%nat ->
       (length (call_unread x) <= call_read x)%nat -> call_unread y = []).
Proof.
  intros Hq. unfold Do. destruct (Z.to_nat (Max + 1)) as [|n] eqn:En.
  - exists w, [], (Err ErrMaxRetriesExceeded). split; [done|]. split_and!; try done. lia.
  - destruct (attempts_log n 0 req (hr_Body req) cb w [] Hq ltac:(lia)) as (w' & new & x & r & -> & Hlen & Hc & Hr & Hf).
    exists w', (new ++ [x]), r. split; [done|]. split_and!; [lia| |done|done|].
    + intros _. exists new, x. rewrite length_app. cbn [length]. split_and!; [done|lia|].
      by replace (Max + 1 - Z.of_nat (length new + 1)) with (Z.of_nat n - Z.of_nat (length new)) by lia.
    + intros i j y z Hi Hj Hij Hread. exact (continues_after _ _ i j y z Hc Hi Hj Hij Hread).
Qed.
End Attempts.

(** * Witnesses *)

(** A service that reads each request whole and answers with the codes of a list. *)
#[local] Instance scripted : ClassifierNet (list Z) := {
  net_now := fun _ => 0;
  net_Do := fun _ _ unread codes =>
    match codes with
    | [] => ([], (length unread, Err (EOther "connection refused")))
    | code :: codes => (codes, (length unread, Ok (mkHttpResponse code "{}")))
    end;
  net_wait := fun _ w => (w, None);
}.

Definition ex_client (n : Z) : GuardrailHTTPClient := mkClient (5 * Second) (mkRetry n Millisecond).
Definition ex_post : http_request := mkHttpRequest "POST" "https://api.openai.com/v1/moderations" [] (bytes_of_string "hi").
Definition ex_breaker : CircuitBreaker := NewCircuitBreaker DefaultCircuitBreakerConfig.

(** The retry after a 503 is answered 200, but it sent an empty body. *)
Example retry_sends_nothing :
  snd (snd (fst (Do (W := list Z * list call) (ex_client 2) ex_post (ex_breaker, ([503; 200], []))))) =
    [mkCall (bytes_of_string "hi") 2 (Ok (mkHttpResponse 503 "{}")); mkCall [] 0 (Ok (mkHttpResponse 200 "{}"))].
Proof. vm_compute. reflexivity. Qed.

Lemma client_attempts_witness :
  exists w' log r, Do (W := list Z * list call) (ex_client 2) ex_post (ex_breaker, ([503; 200], [])) = ((ex_breaker, (w', log)), r) /\
    continues (bytes_of_string "hi") log /\ length log = 2%nat.
Proof.
  destruct (client_attempts (ex_client 2) ex_post ex_breaker [503; 200] ltac:(split; reflexivity)) as (w' & log & r & E & _ & _ & Hc & _).
  exists w', log, r. split; [exact E|]. split; [exact Hc|].
  pose proof (f_equal (fun x => snd (snd (fst x))) E) as El. cbn [fst snd] in El. rewrite <- El. vm_compute. reflexivity.
Defined.

(** Five failed executions open the default breaker; two interleaved requests that
    find no server do not. *)
Lemma breaker_never_opens_witness :
  let cfg := DefaultCircuitBreakerConfig in
  let m i := mkMove i 7 (Err (EOther "connection refused")) None in
  state (failing (EOther "timeout") [1; 2; 3; 4; 5] (NewCircuitBreaker cfg)) = CircuitBreakerOpen /\
  fst (do_run (ex_client 0) [m 0%nat; m 1%nat; m 0%nat; m 1%nat; m 1%nat; m 0%nat] (NewCircuitBreaker cfg)
    (replicate 2 (do_enter (ex_client 0) 0))) = NewCircuitBreaker cfg.
Proof.
  cbn zeta. split.
  - apply (proj1 (breaker_never_opens (ex_client 0) DefaultCircuitBreakerConfig)); cbn; lia.
  - apply (breaker_never_opens (ex_client 0) DefaultCircuitBreakerConfig).
Defined.
