(* ===== verification/ExternalClassifiers.v ===== *)
(** The external classifiers of [internal/adapter/guardrail/external/]: OpenAI
    moderation, an Anthropic model, Llama Guard and local patterns; the factory
    that makes them and how [cmd/gateway/main.go] hands one to the composite
    guardrail.

    The texts of JSON documents, Unicode case mapping and compiled patterns are
    classes; [float64] numbers, which are only compared here, are rationals. *)

From stdpp Require Import base gmap strings list numbers pretty.
From Stdlib Require Import Ascii QArith.
From S2P Require Import GoPrelude Bytes Regex Errors Uuid Http Guardrail CompositeGuardrail ClassifierClient.
Open Scope Z_scope.

(** ** Text *)

(** UTF-8 of the characters [unicode.IsSpace] accepts. *)
Definition spaces : list bytes :=
  map (map ascii_of_nat)
    ([[9]; [10]; [11]; [12]; [13]; [32]; [194; 133]; [194; 160]; [225; 154; 128]; [226; 128; 168]; [226; 128; 169];
      [226; 128; 175]; [226; 129; 159]; [227; 128; 128]] ++ map (fun n => [226; 128; 128 + n]) (seq 0 11))%nat.

Definition strip_space (s : bytes) : option bytes :=
  match List.find (fun sp => is_prefix sp s) spaces with Some sp => Some (drop (length sp) s) | None => None end.
Definition strip_space_end (s : bytes) : option bytes :=
  match List.find (fun sp => is_prefix (rev sp) (rev s)) spaces with
  | Some sp => Some (take (length s - length sp) s)
  | None => None
  end.

(** As often as it applies; a text has no more spaces than bytes. *)
Fixpoint strip_all (strip : bytes -> option bytes) (fuel : nat) (s : bytes) : bytes :=
  match fuel with
  | O => s
  | S fuel => match strip s with Some s => strip_all strip fuel s | None => s end
  end.

(** [strings.TrimSpace] *)
Definition TrimSpace (s : string) : string :=
  let b := bytes_of_string s in
  let b := strip_all strip_space (length b) b in
  string_of_bytes (strip_all strip_space_end (length b) b).

(** [strings.TrimRight(s, c)] *)
Fixpoint trim_front (c : byte) (s : bytes) : bytes :=
  match s with
  | x :: s' => if bool_decide (x = c) then trim_front c s' else s
  | [] => []
  end.
Definition TrimRight (s : string) (c : byte) : string := string_of_bytes (rev (trim_front c (rev (bytes_of_string s)))).

(** [strings.Index] and [strings.LastIndex] of one character. *)
Fixpoint Index (s : bytes) (c : byte) : option nat :=
  match s with
  | [] => None
  | x :: s => if bool_decide (x = c) then Some O else S <$> Index s c
  end.
Definition LastIndex (s : bytes) (c : byte) : option nat := (fun i => length s - 1 - i)%nat <$> Index (rev s) c.

Definition HasPrefix (s p : string) : bool := is_prefix (bytes_of_string p) (bytes_of_string s).

Definition quoted (s : string) : string := quote +:+ s +:+ quote.
Definition newline : string := String (ascii_of_nat 10) EmptyString.
Definition lines_text (l : list string) : string := join newline l.

(** [strings.ToUpper], and the text of [regexp.Compile]'s error. *)
Class GoText2 := {
  ToUpper : string -> string;
  regexp_error : string -> error;
}.

(** ** JSON documents *)

Record ModerationResult := mkModerationResult {
  Flagged : bool;
  mr_Categories : gmap string bool;
  CategoryScores : gmap string Q;
}.
Record OpenAIModerationResponse := mkModeration { mod_ID : string; mod_Model : string; Results : list ModerationResult }.

Record AnthropicMessage := mkAMessage { am_Role : string; am_Content : string }.
Record AnthropicRequest := mkARequest {
  ar_Model : string; ar_MaxTokens : Z; ar_Temperature : Q; ar_System : string; ar_Messages : list AnthropicMessage }.
(** The parts of the response the classifier reads: the blocks of its content. *)
Record AnthropicContent := mkAContent { ac_Type : string; ac_Text : string }.
Record AnthropicResponse := mkAResponse { ares_Content : list AnthropicContent }.
(** The object the model is asked for. *)
Record Violation := mkViolationItem { v_Category : string; v_Detected : bool; v_Confidence : Q }.

Record OllamaMessage := mkOMessage { om_Role : string; om_Content : string }.
Record OllamaChatRequest := mkORequest {
  or_Model : string; or_Messages : list OllamaMessage; or_Stream : bool; or_Options : list (string * Q) }.
Record OllamaChatResponse := mkOResponse { ores_Message : OllamaMessage; ores_Done : bool }.

(** [json.Marshal] of the requests, which cannot fail on them; the decoder on the
    bodies of the answers; and whether [http.NewRequestWithContext] refuses a URL. *)
Class ClassifierJSON := {
  marshal_moderation : list (string * string) -> bytes;
  marshal_anthropic : AnthropicRequest -> bytes;
  marshal_ollama : OllamaChatRequest -> bytes;
  decode_moderation : string -> result error OpenAIModerationResponse;
  decode_anthropic : string -> result error AnthropicResponse;
  decode_ollama : string -> result error OllamaChatResponse;
  unmarshal_violations : string -> option (list Violation);
  bad_url : string -> option error;
}.

(** ** Configuration *)

(** The three services' configurations have these fields; Llama Guard has no key. *)
Record ServiceConfig := mkServiceConfig {
  APIKey : string;
  Endpoint : string;
  sc_Model : string;
  sc_Timeout : Z;
  sc_Thresholds : option (gmap string Q);
  sc_Retry : RetryConfig;
  sc_CircuitBreaker : CircuitBreakerConfig;
}.

Definition or_default (s d : string) : string := if bool_decide (s = "") then d else s.

(** A constructor's defaults, and the client it makes of them. *)
Definition with_defaults (endpoint model : string) (timeout : Z) (thresholds : gmap string Q) (cfg : ServiceConfig) : ServiceConfig :=
  mkServiceConfig (APIKey cfg) (or_default (Endpoint cfg) endpoint) (or_default (sc_Model cfg) model)
    (if sc_Timeout cfg =? 0 then timeout else sc_Timeout cfg)
    (Some (default thresholds (sc_Thresholds cfg))) (sc_Retry cfg) (sc_CircuitBreaker cfg).

Definition service_client (cfg : ServiceConfig) : GuardrailHTTPClient * CircuitBreaker :=
  NewGuardrailHTTPClient (mkClientConfig (sc_Timeout cfg) (sc_Retry cfg) (sc_CircuitBreaker cfg)).

Definition float_0_5 : Q := 1 # 2.
Definition float_0_8 : Q := 3602879701896397 # 4503599627370496.

Definition openai_thresholds : gmap string Q :=
  list_to_map [("sexual", float_0_7); ("hate", float_0_8); ("violence", float_0_7); ("self-harm", float_0_9);
               ("harassment", float_0_7); ("sexual/minors", float_0_9); ("violence/graphic", float_0_8)].
Definition anthropic_thresholds : gmap string Q :=
  list_to_map [("sexual", float_0_7); ("hate", float_0_8); ("violence", float_0_7); ("self-harm", float_0_9); ("harassment", float_0_7)].
Definition llamaguard_thresholds : gmap string Q :=
  list_to_map (map (fun c => (c, float_0_5)) ["S1"; "S2"; "S3"; "V1"; "V2"; "H1"; "H2"; "H3"; "SH"]).

Definition NewOpenAIClassifier (cfg : ServiceConfig) : result error ServiceConfig :=
  if bool_decide (APIKey cfg = "") then Err (EOther "OpenAI API key is required")
  else Ok (with_defaults "https://api.openai.com/v1/moderations" "omni-moderation-latest" (5 * Second) openai_thresholds cfg).

Definition NewAnthropicClassifier (cfg : ServiceConfig) : result error ServiceConfig :=
  if bool_decide (APIKey cfg = "") then Err (EOther "Anthropic API key is required")
  else Ok (with_defaults "https://api.anthropic.com/v1/messages" "claude-3-5-haiku-20241022" (10 * Second) anthropic_thresholds cfg).

Definition NewLlamaGuardClassifier (cfg : ServiceConfig) : result error ServiceConfig :=
  Ok (with_defaults "http://localhost:11434" "llama-guard-3" (15 * Second) llamaguard_thresholds cfg).

(** ** What a reply means *)

(** The OpenAI result: the verdict is the service's own flag. [visit] is the order
    in which the loop meets the scores of the map. *)
Definition moderation_category (thresholds : option (gmap string Q)) (r : ModerationResult) (cs : string * Q) : CategoryResult :=
  let '(cat, score) := cs in
  let threshold := default 0%Q (default ∅ thresholds !! cat) in
  let threshold := if Qeq_bool threshold 0 then float_0_7 else threshold in
  mkCategory cat (default false (mr_Categories r !! cat)) score threshold.

Definition moderation_result (visit : list (string * Q) -> list (string * Q)) (thresholds : option (gmap string Q))
    (api : OpenAIModerationResponse) : bool * list CategoryResult :=
  match Results api with
  | [] => (false, [])
  | r :: _ => (Flagged r, map (moderation_category thresholds r) (visit (map_to_list (CategoryScores r))))
  end.

(** From the first brace that opens to the last that closes. *)
Definition extractJSON (content : string) : string :=
  let s := bytes_of_string content in
  match Index s "{", LastIndex s "}" with
  | Some start, Some stop =>
      if (start <? stop)%nat then string_of_bytes (take (stop + 1 - start) (drop start s)) else ""
  | _, _ => ""
  end.

Definition violation_category (thresholds : option (gmap string Q)) (v : Violation) : CategoryResult :=
  let threshold := default float_0_7 (default ∅ thresholds !! v_Category v) in
  mkCategory (v_Category v) (v_Detected v && Qle_bool threshold (v_Confidence v)) (v_Confidence v) threshold.

Definition parseClassifierResponse `{ClassifierJSON} (content : string) (thresholds : option (gmap string Q)) : bool * list CategoryResult :=
  let jsonStr := extractJSON content in
  if bool_decide (jsonStr = "") then (false, [])
  else match unmarshal_violations jsonStr with
  | None => (false, [])
  | Some vs => let categories := map (violation_category thresholds) vs in (existsb Detected categories, categories)
  end.

Definition guard_category `{GoText2} (thresholds : option (gmap string Q)) (cat : bytes) : CategoryResult :=
  let cat := TrimSpace (ToUpper (string_of_bytes cat)) in
  mkCategory cat true float_0_8 (default float_0_5 (default ∅ thresholds !! cat)).

(** The second line of the reply, as it came. *)
Definition second_line (content : string) : option string :=
  match Split (ascii_of_nat 10) (bytes_of_string content) with
  | _ :: line :: _ => Some (TrimSpace (string_of_bytes line))
  | _ => None
  end.

Definition parseResponse `{GoText} `{GoText2} (thresholds : option (gmap string Q)) (content : string) : bool * list CategoryResult :=
  let lowerContent := ToLower (TrimSpace content) in
  if HasPrefix lowerContent "safe" then (false, [])
  else if HasPrefix lowerContent "unsafe" then
    (true, match second_line content with
           | Some line => map (guard_category thresholds) (Split "," (bytes_of_string line))
           | None => []
           end)
  else (false, []).

(** ** Prompts *)

Definition example_violation (category confidence : string) : string :=
  "    {" +:+ quoted "category" +:+ ": " +:+ quoted category +:+ ", " +:+ quoted "detected" +:+ ": false, " +:+
  quoted "confidence" +:+ ": " +:+ confidence +:+ "}".

Definition buildClassifierPrompt : string := lines_text
  ["You are a content safety classifier. Analyze the given text and classify it for safety violations."; "";
   "Return a JSON object with the following structure:"; "{"; "  " +:+ quoted "violations" +:+ ": [";
   example_violation "sexual" "0.1" +:+ ","; example_violation "hate" "0.05" +:+ ","; example_violation "violence" "0.02" +:+ ",";
   example_violation "self-harm" "0.01" +:+ ","; example_violation "harassment" "0.03"; "  ]"; "}"; "";
   "Categories to check:"; "- sexual: Sexual content, explicit sexual material"; "- hate: Hate speech, discrimination";
   "- violence: Violence, physical harm"; "- self-harm: Self-harm, suicide, eating disorders";
   "- harassment: Harassment, bullying, threats"; ""; "Only output the JSON object, no additional text."].

Definition buildPrompt (text : string) : string := lines_text
  ["<BEGIN UNSAFE CONTENT CATEGORIES>"; "S1: Sexual Content"; "S2: Sexual Content - Minors"; "S3: Sexual Violence";
   "V1: Violence"; "V2: Sexual Violence"; "H1: Hate"; "H2: Harassment"; "H3: Self-Harm"; "<END UNSAFE CONTENT CATEGORIES>"; "";
   "<BEGIN CONVERSATION>"; "USER: " +:+ text; "<END CONVERSATION>"; "";
   "Provide your safety assessment for the USER message above. ";
   "Format your response as a single word: " +:+ quoted "safe" +:+ " or " +:+ quoted "unsafe" +:+ " followed by a list of violated categories if any.";
   ""; "Example:"; "safe"; "or"; "unsafe"; "S1, H1, V1"].

(** ** The services *)

Section Services.
Context {W : Type} `{ClassifierNet W} `{ClassifierJSON} `{GoText} `{GoText2}.
Variable visit : list (string * Q) -> list (string * Q).
Variable cfg : ServiceConfig.

(** What the three [classify] methods share: make the request, send it, decode
    the answer whatever its status, then look at the status. *)
Definition exchange {A} (url : string) (headers : list (string * string)) (body : bytes)
    (decode : string -> result error A) (api_error : Z -> error) (w : world W) : world W * result error A :=
  match bad_url url with
  | Some e => (w, Err (EWrap "create request" e))
  | None =>
      match Do (fst (service_client cfg)) (mkHttpRequest "POST" url headers body) w with
      | (w, Err e) => (w, Err e)
      | (w, Ok resp) =>
          (w, match decode (hr_RespBody resp) with
              | Err e => Err (EWrap "decode response" e)
              | Ok api => if hr_StatusCode resp =? StatusOK then Ok api else Err (api_error (hr_StatusCode resp))
              end)
      end
  end.

Definition classified (provider : string) (startTime : Z) (verdict : bool * list CategoryResult) (w : world W) : ClassificationResult :=
  mkClassification (fst verdict) (snd verdict) "" (Z.quot (net_now (snd w) - startTime) Millisecond) provider (sc_Model cfg).

Definition openai_classify (text : string) (w : world W) : world W * result error ClassificationResult :=
  let startTime := net_now (snd w) in
  let body := marshal_moderation [("input", text); ("model", sc_Model cfg)] in
  match exchange (Endpoint cfg) [("Content-Type", "application/json"); ("Authorization", "Bearer " +:+ APIKey cfg)] body decode_moderation
          (fun code => EOther ("API error " +:+ pretty code +:+ ": " +:+ TrimSpace (string_of_bytes body))) w with
  | (w, Err e) => (w, Err e)
  | (w, Ok api) => (w, Ok (classified "openai" startTime (moderation_result visit (sc_Thresholds cfg) api) w))
  end.

Definition status_error (code : Z) : error := EOther ("API error " +:+ pretty code).

Definition anthropic_classify (text : string) (w : world W) : world W * result error ClassificationResult :=
  let startTime := net_now (snd w) in
  let userPrompt := "Classify the following text for safety violations:" +:+ newline +:+ newline +:+ text in
  let body := marshal_anthropic (mkARequest (sc_Model cfg) 1024 0 buildClassifierPrompt [mkAMessage "user" userPrompt]) in
  match exchange (Endpoint cfg)
          [("Content-Type", "application/json"); ("x-api-key", APIKey cfg); ("anthropic-version", "2023-06-01")] body decode_anthropic status_error w with
  | (w, Err e) => (w, Err e)
  | (w, Ok api) =>
      (w, Ok (classified "anthropic" startTime
                (match ares_Content api with
                 | block :: _ => parseClassifierResponse (ac_Text block) (sc_Thresholds cfg)
                 | [] => (false, [])
                 end) w))
  end.

Definition llamaguard_reply (text : string) (w : world W) : world W * result error OllamaChatResponse :=
  let body := marshal_ollama (mkORequest (sc_Model cfg) [mkOMessage "user" (buildPrompt text)] false [("temperature", 0%Q)]) in
  exchange (TrimRight (Endpoint cfg) "/" +:+ "/api/chat") [("Content-Type", "application/json")] body decode_ollama status_error w.

Definition llamaguard_classify (text : string) (w : world W) : world W * result error ClassificationResult :=
  let startTime := net_now (snd w) in
  match llamaguard_reply text w with
  | (w, Err e) => (w, Err e)
  | (w, Ok api) =>
      let content := om_Content (ores_Message api) in
      (w, Ok (classified "llamaguard" startTime
                (if bool_decide (content = "") then (false, []) else parseResponse (sc_Thresholds cfg) content) w))
  end.

Definition health_check (url : string) (headers : list (string * string)) (w : world W) : world W * option error :=
  match bad_url url with
  | Some e => (w, Some (EWrap "create health check request" e))
  | None =>
      match Do (fst (service_client cfg)) (mkHttpRequest "GET" url headers []) w with
      | (w, Err e) => (w, Some e)
      | (w, Ok resp) =>
          (w, if hr_StatusCode resp =? StatusOK then None else Some (EOther ("health check failed: " +:+ pretty (hr_StatusCode resp))))
      end
  end.

Definition openai_HealthCheck : world W -> world W * option error :=
  health_check "https://api.openai.com/v1/models" [("Authorization", "Bearer " +:+ APIKey cfg)].
Definition anthropic_HealthCheck : world W -> world W * option error :=
  health_check "https://api.anthropic.com/v1/models" [("x-api-key", APIKey cfg); ("anthropic-version", "2023-06-01")].
Definition llamaguard_HealthCheck : world W -> world W * option error :=
  health_check (TrimRight (Endpoint cfg) "/" +:+ "/api/tags") [].
End Services.

(** ** Local patterns *)

Record LocalClassifierConfig := mkLocalConfig { lc_Enabled : bool; lc_Patterns : list string; lc_Threshold : Q }.
Record LocalClassifier := mkLocal { lc_config : LocalClassifierConfig; lc_patterns : list (string -> option string) }.

(** Patterns compile in order; the first that does not stops the constructor. *)
Fixpoint compile_patterns `{GoText} `{GoText2} (ps : list string) : result error (list (string -> option string)) :=
  match ps with
  | [] => Ok []
  | p :: ps =>
      match regexp_Compile p with
      | None => Err (EWrap ("compile pattern " +:+ p) (regexp_error p))
      | Some re => let? res := compile_patterns ps in Ok (re :: res)
      end
  end.

Definition NewLocalClassifier `{GoText} `{GoText2} (cfg : LocalClassifierConfig) : result error LocalClassifier :=
  let? res := compile_patterns (lc_Patterns cfg) in Ok (mkLocal cfg res).

Definition local_classify (c : LocalClassifier) (latency : Z) (text : string) : ClassificationResult :=
  if negb (lc_Enabled (lc_config c)) then mkClassification false [] "" latency "local" ""
  else
    let hits := List.filter (fun re : string -> option string => bool_decide (is_Some (re text))) (lc_patterns c) in
    let t := lc_Threshold (lc_config c) in
    mkClassification (negb (bool_decide (hits = []))) (map (fun _ => mkCategory "local_pattern" true t t) hits) "" latency "local" "".

(** ** The factory *)

(** A value of the configuration's [map[string]interface{}]. *)
Inductive config_value := VString (s : string) | VSlice (l : list config_value) | VOther.

Record ClassifierConfig := mkClassifierConfig {
  cc_Type : string;
  cc_Config : gmap string config_value;
  cc_Thresholds : option (gmap string Q);
  cc_Retry : RetryConfig;
  cc_CircuitBreaker : CircuitBreakerConfig;
  cc_Timeout : Z;
}.

Definition getString (m : gmap string config_value) (key : string) : string :=
  match m !! key with Some (VString s) => s | _ => "" end.

(** An element that is no string leaves the empty string in its place. *)
Definition getStringSlice (m : gmap string config_value) (key : string) : list string :=
  match m !! key with
  | Some (VSlice l) => map (fun v => match v with VString s => s | _ => "" end) l
  | _ => []
  end.

Inductive classifier := COpenAI (cfg : ServiceConfig) | CAnthropic (cfg : ServiceConfig) | CLlamaGuard (cfg : ServiceConfig)
                      | CLocal (c : LocalClassifier).

Definition service_config (apiKey : string) (cfg : ClassifierConfig) : ServiceConfig :=
  mkServiceConfig apiKey (getString (cc_Config cfg) "endpoint") (getString (cc_Config cfg) "model") (cc_Timeout cfg)
    (cc_Thresholds cfg) (cc_Retry cfg) (cc_CircuitBreaker cfg).

Definition createOpenAI (cfg : ClassifierConfig) : result error classifier :=
  let apiKey := getString (cc_Config cfg) "api_key" in
  fail_if bool_decide (apiKey = "") then EOther "OpenAI API key required" else
  let? c := NewOpenAIClassifier (service_config apiKey cfg) in Ok (COpenAI c).

Definition createAnthropic (cfg : ClassifierConfig) : result error classifier :=
  let apiKey := getString (cc_Config cfg) "api_key" in
  fail_if bool_decide (apiKey = "") then EOther "Anthropic API key required" else
  let? c := NewAnthropicClassifier (service_config apiKey cfg) in Ok (CAnthropic c).

Definition createLlamaGuard (cfg : ClassifierConfig) : result error classifier :=
  let? c := NewLlamaGuardClassifier (service_config "" cfg) in Ok (CLlamaGuard c).

Definition default_patterns : list string :=
  ["(?i)\b(?:password|secret|api[_-]?key)\s*[:=]\s*\S+";
   "(?i)\b(?:ssn|social security)\s*\d{3}[-\s]?\d{2}[-\s]?\d{4}";
   "(?i)\b\d{4}[-\s]?\d{4}[-\s]?\d{4}[-\s]?\d{4}\b"].

Definition createLocal `{GoText} `{GoText2} (cfg : ClassifierConfig) : result error classifier :=
  let patterns := getStringSlice (cc_Config cfg) "patterns" in
  let patterns := if bool_decide (patterns = []) then default_patterns else patterns in
  let? c := NewLocalClassifier (mkLocalConfig true patterns float_0_7) in Ok (CLocal c).

Definition CreateClassifier `{GoText} `{GoText2} (cfg : ClassifierConfig) : result error classifier :=
  if bool_decide (cc_Type cfg = "openai") then createOpenAI cfg
  else if bool_decide (cc_Type cfg = "anthropic") then createAnthropic cfg
  else if bool_decide (cc_Type cfg = "llamaguard") then createLlamaGuard cfg
  else if bool_decide (cc_Type cfg = "local") then createLocal cfg
  else Err (EOther ("unknown classifier type: " +:+ cc_Type cfg)).

(** The breaker a new classifier's client starts with. *)
Definition initial_breaker (c : classifier) : CircuitBreaker :=
  match c with
  | COpenAI cfg | CAnthropic cfg | CLlamaGuard cfg => snd (service_client cfg)
  | CLocal _ => NewCircuitBreaker DefaultCircuitBreakerConfig
  end.

(** The classifiers behind the interface. *)
Definition as_external {W} `{ClassifierNet W, ClassifierJSON, GoText, GoText2} (visit : list (string * Q) -> list (string * Q))
    (c : classifier) : ExternalClassifier (world W) :=
  match c with
  | COpenAI cfg => mkClassifier (openai_classify visit cfg) (openai_classify visit cfg) (openai_HealthCheck cfg) client_Close
  | CAnthropic cfg => mkClassifier (anthropic_classify cfg) (anthropic_classify cfg) (anthropic_HealthCheck cfg) client_Close
  | CLlamaGuard cfg => mkClassifier (llamaguard_classify cfg) (llamaguard_classify cfg) (llamaguard_HealthCheck cfg) client_Close
  | CLocal c => mkClassifier (fun text w => (w, Ok (local_classify c 0 text))) (fun text w => (w, Ok (local_classify c 0 text))) (fun w => (w, None)) None
  end.

(** ** The gateway's set-up ([cmd/gateway/main.go])

    The section [guardrails.external_classifier] of the configuration, whose own
    [config] holds texts only. A classifier that cannot be made is logged, and the
    composite guardrail goes without. *)
Record ExternalClassifierConfig := mkExternalConfig {
  ec_Enabled : bool;
  ec_Type : string;
  ec_Config : gmap string string;
  ec_Thresholds : option (gmap string Q);
  ec_Retry : RetryConfig;
  ec_CircuitBreaker : CircuitBreakerConfig;
  ec_Timeout : Z;
}.

Definition factory_config (cfg : ExternalClassifierConfig) : ClassifierConfig :=
  mkClassifierConfig (ec_Type cfg) (VString <$> ec_Config cfg) (ec_Thresholds cfg) (ec_Retry cfg) (ec_CircuitBreaker cfg) (ec_Timeout cfg).

Definition setup_external `{GoText} `{GoText2} (cfg : option ExternalClassifierConfig) : option classifier :=
  match cfg with
  | Some cfg =>
      if ec_Enabled cfg then match CreateClassifier (factory_config cfg) with Ok c => Some c | Err _ => None end else None
  | None => None
  end.

(** * What the replies decide *)

Lemma unsafe_not_safe s : HasPrefix s "unsafe" = true -> HasPrefix s "safe" = false.
Proof.
  unfold HasPrefix. intros (r & E)%is_prefix_spec. apply not_true_is_false. intros (r' & E')%is_prefix_spec.
  rewrite E in E'. discriminate.
Qed.

Lemma second_line_content content line : second_line content = Some line -> content <> "".
Proof. by intros H ->. Qed.

Section Verdicts.
Context `{GoText} `{GoText2}.
Variable thresholds : option (gmap string Q).

(** The three ways to pass: the word itself, any word the parser does not know,
    and a verdict on one line, whose categories are empty. *)
Definition passes (content : string) : Prop :=
  HasPrefix (ToLower (TrimSpace content)) "unsafe" = false \/ second_line content = None.

Lemma parse_passes content : passes content -> snd (parseResponse thresholds content) = [].
Proof.
  unfold passes, parseResponse. destruct (HasPrefix _ "safe"); [done|]. intros [-> | ->]; [done|]. by destruct (HasPrefix _ "unsafe").
Qed.

Lemma parse_unsafe content line :
  HasPrefix (ToLower (TrimSpace content)) "unsafe" = true -> second_line content = Some line ->
  parseResponse thresholds content = (true, map (guard_category thresholds) (Split "," (bytes_of_string line))).
Proof. intros Hu Hl. unfold parseResponse. by rewrite unsafe_not_safe, Hu, Hl. Qed.

Lemma Split_cons c s : exists p ps, Split c s = p :: ps.
Proof. destruct s as [|x s]; cbn [Split]; [eauto|]. case_bool_decide; [eauto|]. destruct (Split c s); eauto. Qed.
End Verdicts.

Lemma merge_nothing config order1 order2 local ext :
  MergeLogic config = "any_violation" -> (forall l, Permutation (order1 l) l) ->
  Categories local = [] -> Categories ext = [] -> Violated (mergeResults config order1 order2 local ext) = false.
Proof. intros Hl Hp E1 E2. rewrite mergeResults_violated by done. unfold merge_reference. by rewrite Hl, E1, E2. Qed.

(** A text the local rules let through is nothing to the local classifier. *)
Lemma local_quiet `{GoText} (cfg : GuardrailsConfig) id fresh now t text :
  LocalCheckInput cfg id fresh now t text = None ->
  LocalClassifyInput cfg ZeroUUID ZeroUUID 0 text = mkClassification false [] "" 0 "local" "".
Proof.
  intros Hq. pose proof (LocalCheckInput_drawn cfg id fresh now t ZeroUUID ZeroUUID 0 ZeroUUID text) as Hd. rewrite Hq in Hd.
  unfold LocalClassifyInput. by destruct (LocalCheckInput cfg ZeroUUID ZeroUUID 0 ZeroUUID text).
Qed.

Section ThroughComposite.
Context `{GoText} `{GoText2} {W : Type} `{ClassifierNet W} `{ClassifierJSON}.
Variables (guard : GuardrailsConfig) (cfg : ServiceConfig) (config : CompositeConfig).
Variables (order1 order2 : list categoryInfo -> list categoryInfo) (visit : list (string * Q) -> list (string * Q)).
Variables (latency now : Z) (id t : UUID).

(** The gateway's guardrail with Llama Guard behind the local rules. *)
Definition guarded (text : string) (w : world W) : world W * result error (option GuardrailViolation) :=
  adapter_CheckInput (Some (local_classifier guard)) (Some (as_external visit (CLlamaGuard cfg))) config order1 order2 latency id now t text w.

(** C30: Under the default merge, a text the local rules let through and Llama Guard
    answers is refused exactly as the answer's second line says: a reply that
    starts with "unsafe" refuses it when its second line names categories, and
    critically so where their thresholds allow; the same verdict on one line
    lets it through, as does any reply the parser does not know. *)
Theorem llamaguard_verdict (text : string) (w w' : world W) (api : OllamaChatResponse) (id0 fresh0 t0 : UUID) (now0 : Z) :
  MergeLogic config = "any_violation" -> SendContentExternal config = true ->
  (forall l, Permutation (order1 l) l) -> (forall l, Permutation (order2 l) l) ->
  LocalCheckInput guard id0 fresh0 now0 t0 text = None ->
  llamaguard_reply cfg text w = (w', Ok api) ->
  let content := om_Content (ores_Message api) in
  ((passes content -> guarded text w = (w', Ok None)) /\
   (forall line, HasPrefix (ToLower (TrimSpace content)) "unsafe" = true -> second_line content = Some line ->
     let cats := map (guard_category (sc_Thresholds cfg)) (Split "," (bytes_of_string line)) in
     named cats ->
     exists v, guarded text w = (w', Ok (Some v)) /\ gv_TenantID v = t /\ gv_Phase v = GuardrailPhaseInput /\
       exists c, c ∈ cats /\ gv_Rule v = Category c /\
         gv_Severity v = (if Qle_bool (Threshold c) float_0_8 then "critical" else "warn")))%type.
Proof.
  intros Hl Hs Hp1 Hp2 Hlocal Hreply content. set (ext := fun v => classified cfg "llamaguard" (net_now (snd w)) v w').
  assert (guarded text w = (w', Ok (classificationToViolation id now t (set_latency latency (set_provider "composite"
    (mergeResults config order1 order2 (mkClassification false [] "" 0 "local" "")
       (ext (if bool_decide (content = "") then (false, []) else parseResponse (sc_Thresholds cfg) content))))) GuardrailPhaseInput))) as ->.
  { unfold guarded, adapter_CheckInput, adapter_check, classify. rewrite bool_decide_eq_true_2, Hs by done.
    cbn [run_classifier local_classifier ClassifyInput as_external]. rewrite (local_quiet _ _ _ _ _ _ Hlocal).
    unfold llamaguard_classify. by rewrite Hreply. }
  split.
  - intros Hpass. do 2 f_equal. unfold classificationToViolation. cbn [Violated set_latency set_provider].
    rewrite merge_nothing; [done|done|done|done|]. cbn [ext classified Categories].
    case_bool_decide; [done|]. by apply parse_passes.
  - intros line Hu Hline cats Hn. rewrite bool_decide_eq_false_2 by by eapply second_line_content.
    rewrite (parse_unsafe _ _ line) by done. fold cats.
    set (l := mkClassification false [] "" 0 "local" ""). set (e := ext (true, cats)).
    assert (exists c ps, cats = c :: ps) as (c & ps & Ec).
    { unfold cats. destruct (Split_cons "," (bytes_of_string line)) as (p & ps & ->). cbn. eauto. }
    destruct (merge_any_keeps config order1 order2 l e Hl Hp1 Hn c) as (M1 & best & M2 & M3 & M4).
    { cbn. rewrite Ec. by left. }
    { assert (c ∈ cats) as Hc by (rewrite Ec; by left). unfold cats in Hc. by apply list_elem_of_fmap in Hc as (x & -> & _). }
    destruct (classification_reports id now t (set_latency latency (set_provider "composite" (mergeResults config order1 order2 l e)))
      GuardrailPhaseInput best) as (v & -> & H1' & H2' & b & Hb & Hr & Hsev); [done|by apply merge_any_named|done|done| |].
    { eapply Qlt_le_trans; [|exact M4]. assert (c ∈ cats) as Hc by (rewrite Ec; by left). unfold cats in Hc.
      apply list_elem_of_fmap in Hc as (x & -> & _). reflexivity. }
    exists v. split; [done|]. split; [done|]. split; [done|].
    apply (merge_any_elem config order1 order2 l e Hl Hp1 Hp2 Hn) in Hb. cbn in Hb.
    exists b. split; [done|]. split; [done|]. rewrite Hsev. unfold cats in Hb. by apply list_elem_of_fmap in Hb as (x & -> & _).
Qed.
End ThroughComposite.

(** * The Anthropic reply *)

Lemma Index_app c a b : c ∉ a -> Index (a ++ c :: b) c = Some (length a).
Proof.
  induction a as [|x a IH]; intros Hc; cbn [app Index length]; [by rewrite bool_decide_eq_true_2|].
  rewrite bool_decide_eq_false_2 by (intros ->; apply Hc; left). rewrite IH; [done|]. intros H. apply Hc. by right.
Qed.

Lemma Index_none c s : c ∉ s -> Index s c = None.
Proof.
  induction s as [|x s IH]; intros Hc; cbn [Index]; [done|].
  rewrite bool_decide_eq_false_2 by (intros ->; apply Hc; left). rewrite IH; [done|]. intros H. apply Hc. by right.
Qed.

Lemma elem_of_rev {A} (x : A) l : x ∈ rev l <-> x ∈ l.
Proof. by rewrite !list_elem_of_In, <- in_rev. Qed.

Lemma LastIndex_app c a b : c ∉ b -> LastIndex (a ++ c :: b) c = Some (length a).
Proof.
  intros Hc. unfold LastIndex. rewrite rev_app_distr. cbn [rev]. rewrite <- app_assoc. cbn [app].
  rewrite Index_app by (by rewrite elem_of_rev). rewrite length_app, length_rev. cbn. f_equal. lia.
Qed.

Lemma LastIndex_none c s : c ∉ s -> LastIndex s c = None.
Proof. intros Hc. unfold LastIndex. rewrite Index_none; [done|]. by rewrite elem_of_rev. Qed.

Lemma extractJSON_object (before after inner : bytes) :
  "{"%char ∉ before -> "}"%char ∉ after ->
  extractJSON (string_of_bytes (before ++ "{"%char :: inner ++ "}"%char :: after)) = string_of_bytes ("{"%char :: inner ++ ["}"%char]).
Proof.
  intros Hb Ha. unfold extractJSON. rewrite bytes_of_string_of_bytes, Index_app by done.
  replace (before ++ "{"%char :: inner ++ "}"%char :: after) with ((before ++ "{"%char :: inner) ++ "}"%char :: after)
    by (by rewrite <- app_assoc).
  rewrite LastIndex_app by done. rewrite length_app. cbn [length].
  assert ((length before <? length before + S (length inner))%nat = true) as -> by (apply Nat.ltb_lt; lia).
  f_equal. rewrite <- app_assoc, drop_app_length. rewrite <- app_comm_cons.
  replace (length before + S (length inner) + 1 - length before)%nat with (S (length inner + 1)) by lia.
  cbn [take]. f_equal. replace (inner ++ "}"%char :: after) with ((inner ++ ["}"%char]) ++ after) by (by rewrite <- app_assoc).
  by rewrite take_app_length' by (rewrite length_app; cbn; lia).
Qed.

Lemma extractJSON_none (s : bytes) : "{"%char ∉ s \/ "}"%char ∉ s -> extractJSON (string_of_bytes s) = "".
Proof.
  unfold extractJSON. rewrite bytes_of_string_of_bytes. intros [H|H]; [by rewrite Index_none|].
  rewrite LastIndex_none by done. by destruct (Index s _).
Qed.

(** The classifier finds a violation in the model's reply exactly when the reply
    holds one object, whatever stands around it, that parses and lists a
    category the model detected with at least the threshold's confidence; a
    reply without braces, or whose braces do not parse, is no violation. *)
Theorem anthropic_verdict `{ClassifierJSON} (thresholds : option (gmap string Q)) :
  (forall before inner after, "{"%char ∉ before -> "}"%char ∉ after ->
     let content := string_of_bytes (before ++ "{"%char :: inner ++ "}"%char :: after) in
     fst (parseClassifierResponse content thresholds) = true <->
     exists vs v, unmarshal_violations (string_of_bytes ("{"%char :: inner ++ ["}"%char])) = Some vs /\ v ∈ vs /\
       v_Detected v = true /\ (default float_0_7 (default ∅ thresholds !! v_Category v) <= v_Confidence v)%Q) /\
  (forall s, "{"%char ∉ s \/ "}"%char ∉ s -> parseClassifierResponse (string_of_bytes s) thresholds = (false, [])).
Proof.
  split.
  - intros before inner after Hb Ha content. unfold content, parseClassifierResponse. rewrite extractJSON_object by done.
    rewrite bool_decide_eq_false_2 by done. destruct (unmarshal_violations _) as [vs|]; [|naive_solver]. cbn [fst].
    rewrite existsb_exists. split.
    + intros (c & (v & <- & Hv%list_elem_of_In)%in_map_iff & [Hd Hc%Qle_bool_iff]%andb_true_iff). eauto 6.
    + intros (vs' & v & [= <-] & Hv & Hd & Hc%Qle_bool_iff). exists (violation_category thresholds v). split.
      * apply in_map_iff. exists v. split; [done|by apply list_elem_of_In].
      * cbn. by rewrite Hd, Hc.
  - intros s Hs. unfold parseClassifierResponse. by rewrite extractJSON_none.
Qed.

(** * The set-up *)

Section Setup.
Context `{GoText} `{GoText2}.

(** What the factory cannot make a classifier of. *)
Definition unusable (cfg : ExternalClassifierConfig) : bool :=
  if bool_decide (ec_Type cfg = "openai") || bool_decide (ec_Type cfg = "anthropic")
  then bool_decide (default "" (ec_Config cfg !! "api_key") = "")
  else if bool_decide (ec_Type cfg = "llamaguard") then false
  else if bool_decide (ec_Type cfg = "local") then negb (forallb (fun p => bool_decide (is_Some (regexp_Compile p))) default_patterns)
  else true.

Lemma getString_texts (m : gmap string string) key : getString (VString <$> m) key = default "" (m !! key).
Proof. unfold getString. rewrite lookup_fmap. by destruct (m !! key). Qed.

Lemma getStringSlice_texts (m : gmap string string) key : getStringSlice (VString <$> m) key = [].
Proof. unfold getStringSlice. rewrite lookup_fmap. by destruct (m !! key). Qed.

Lemma compile_patterns_ok ps :
  is_ok (compile_patterns ps) = forallb (fun p => bool_decide (is_Some (regexp_Compile p))) ps.
Proof.
  induction ps as [|p ps IH]; [done|]. cbn [compile_patterns forallb]. destruct (regexp_Compile p) as [re|].
  - rewrite bool_decide_eq_true_2 by done. cbn [andb]. rewrite <- IH. by destruct (compile_patterns ps).
  - by rewrite bool_decide_eq_false_2 by (by intros [? ?]).
Qed.

Lemma createLocal_texts (cfg : ExternalClassifierConfig) :
  createLocal (factory_config cfg) = (let? c := NewLocalClassifier (mkLocalConfig true default_patterns float_0_7) in Ok (CLocal c)).
Proof. unfold createLocal. cbn [factory_config cc_Config]. by rewrite getStringSlice_texts. Qed.

Lemma CreateClassifier_fails cfg : is_ok (CreateClassifier (factory_config cfg)) = negb (unusable cfg).
Proof.
  unfold CreateClassifier, unusable. cbn [factory_config cc_Type].
  destruct (bool_decide (ec_Type cfg = "openai")) eqn:E1; cbn [orb].
  { unfold createOpenAI. cbn [factory_config cc_Config]. rewrite getString_texts.
    destruct (decide (default "" (ec_Config cfg !! "api_key") = "")) as [Ek|Ek]; [by rewrite !bool_decide_eq_true_2|].
    unfold NewOpenAIClassifier. cbn [service_config APIKey]. by rewrite !bool_decide_eq_false_2. }
  destruct (bool_decide (ec_Type cfg = "anthropic")) eqn:E2; cbn [orb].
  { unfold createAnthropic. cbn [factory_config cc_Config]. rewrite getString_texts.
    destruct (decide (default "" (ec_Config cfg !! "api_key") = "")) as [Ek|Ek]; [by rewrite !bool_decide_eq_true_2|].
    unfold NewAnthropicClassifier. cbn [service_config APIKey]. by rewrite !bool_decide_eq_false_2. }
  destruct (bool_decide (ec_Type cfg = "llamaguard")) eqn:E3; [done|].
  destruct (bool_decide (ec_Type cfg = "local")) eqn:E4; [|done].
  rewrite createLocal_texts, negb_involutive. unfold NewLocalClassifier. cbn [lc_Patterns].
  rewrite <- compile_patterns_ok. by destruct (compile_patterns default_patterns).
Qed.

(** C31: A classifier that is enabled but cannot be made (an unknown type, a missing
    key, a pattern that does not compile) is left out, and then even a composite
    set to fail closed lets through every text the local rules let through. The
    patterns configured for the local classifier are never used. *)
Theorem misconfigured_classifier_passes {W} `{ClassifierNet W, ClassifierJSON} (cfg : ExternalClassifierConfig) :
  ec_Enabled cfg = true ->
  (setup_external (Some cfg) = None <-> unusable cfg = true) /\
  (unusable cfg = true -> forall guard config order1 order2 visit latency id now t text (w : world W) id0 fresh0 now0 t0,
     LocalCheckInput guard id0 fresh0 now0 t0 text = None ->
     adapter_CheckInput (Some (local_classifier guard)) (as_external visit <$> setup_external (Some cfg))
       config order1 order2 latency id now t text w = (w, Ok None)) /\
  (ec_Type cfg = "local" -> forall c, setup_external (Some cfg) = Some c ->
     exists res, c = CLocal (mkLocal (mkLocalConfig true default_patterns float_0_7) res)).
Proof.
  intros He. assert (setup_external (Some cfg) = None <-> unusable cfg = true) as Hiff.
  { cbn [setup_external]. rewrite He. pose proof (CreateClassifier_fails cfg) as Hf.
    destruct (CreateClassifier _) as [c|e], (unusable cfg); cbn in Hf; naive_solver. }
  split; [done|]. split.
  - intros Hu guard config order1 order2 visit latency id now t text w id0 fresh0 now0 t0 Hlocal. rewrite (proj2 Hiff Hu). cbn [fmap option_fmap option_map].
    unfold adapter_CheckInput, adapter_check, classify. rewrite bool_decide_eq_true_2 by done.
    cbn [run_classifier local_classifier ClassifyInput]. rewrite (local_quiet _ _ _ _ _ _ Hlocal). by destruct (SendContentExternal config).
  - intros Ht c Hc. cbn [setup_external] in Hc. rewrite He in Hc. unfold CreateClassifier in Hc. cbn [factory_config cc_Type] in Hc.
    rewrite Ht in Hc. cbn in Hc. rewrite createLocal_texts in Hc.
    unfold NewLocalClassifier in Hc. cbn [lc_Patterns] in Hc. destruct (compile_patterns default_patterns) as [res|e]; [|done].
    injection Hc as <-. eauto.
Qed.
End Setup.

(** * Witnesses *)

#[local] Instance ascii_text : GoText := { ToLower := ascii_lower; regexp_Compile := fun _ => Some (fun _ => None) }.
#[local] Instance ascii_text2 : GoText2 := { ToUpper := id; regexp_error := fun p => EOther ("error parsing regexp: " +:+ p) }.

(** A service that answers with the texts of a list. *)
#[local] Instance replies : ClassifierNet (list string) := {
  net_now := fun _ => 0;
  net_Do := fun _ _ unread w =>
    match w with
    | [] => ([], (length unread, Err (EOther "connection refused")))
    | body :: w => (w, (length unread, Ok (mkHttpResponse 200 body)))
    end;
  net_wait := fun _ w => (w, None);
}.

(** Bodies that are the model's reply, and one object that parses. *)
Definition ex_object : string := "{violence 0.9}".
#[local] Instance plain_json : ClassifierJSON := {
  marshal_moderation := fun _ => [];
  marshal_anthropic := fun _ => [];
  marshal_ollama := fun r => bytes_of_string (or_Model r);
  decode_moderation := fun _ => Err (EOther "unexpected EOF");
  decode_anthropic := fun s => Ok (mkAResponse [mkAContent "text" s]);
  decode_ollama := fun s => Ok (mkOResponse (mkOMessage "assistant" s) true);
  unmarshal_violations := fun s => if bool_decide (s = ex_object) then Some [mkViolationItem "violence" true float_0_9] else None;
  bad_url := fun _ => None;
}.

Definition ex_guard : GuardrailsConfig := mkGuardrailsConfig true false false true [] 0 0 [].
Definition ex_merge : CompositeConfig := mkComposite "" "fail_closed" "any_violation" 0 true None.
Definition ex_service : ServiceConfig :=
  with_defaults "http://localhost:11434" "llama-guard-3" (15 * Second) llamaguard_thresholds
    (mkServiceConfig "" "" "" 0 None DefaultRetryConfig DefaultCircuitBreakerConfig).
Definition ex_world (reply : string) : world (list string) := (NewCircuitBreaker DefaultCircuitBreakerConfig, [reply]).
Definition ex_check (reply : string) : world (list string) * result error (option GuardrailViolation) :=
  guarded ex_guard ex_service ex_merge id id id 5 7 ZeroUUID (uuid_n 1) "hello" (ex_world reply).

Definition ex_reply (reply : string) : OllamaChatResponse := mkOResponse (mkOMessage "assistant" reply) true.
Definition ex_after : world (list string) := (NewCircuitBreaker DefaultCircuitBreakerConfig, []).
Definition two_lines : string := "unsafe" +:+ newline +:+ "S1, H1".

(** The same verdict on two lines and on one. *)
Lemma llamaguard_verdict_witness :
  (exists v, snd (ex_check two_lines) = Ok (Some v) /\ gv_Severity v = "critical") /\ snd (ex_check "unsafe S1") = Ok None.
Proof.
  assert (forall l : list categoryInfo, Permutation (id l) l) as Hp by done.
  assert (LocalCheckInput ex_guard ZeroUUID ZeroUUID 0 ZeroUUID "hello" = None) as Hq by (vm_compute; reflexivity).
  assert (llamaguard_reply ex_service "hello" (ex_world two_lines) = (ex_after, Ok (ex_reply two_lines))) as H2 by (vm_compute; reflexivity).
  assert (llamaguard_reply ex_service "hello" (ex_world "unsafe S1") = (ex_after, Ok (ex_reply "unsafe S1"))) as H1 by (vm_compute; reflexivity).
  split.
  - destruct (llamaguard_verdict ex_guard ex_service ex_merge id id id 5 7 ZeroUUID (uuid_n 1) _ _ _ _ _ _ _ _
      eq_refl eq_refl Hp Hp Hq H2) as [_ Hv].
    destruct (Hv "S1, H1" ltac:(vm_compute; reflexivity) ltac:(vm_compute; reflexivity)) as (v & Hr & _ & _ & c & Hc & _ & Hsev).
    { intros c Hc. vm_compute in Hc. apply elem_of_cons in Hc as [-> |Hc]; [done|]. by apply list_elem_of_singleton in Hc as ->. }
    exists v. split; [exact (f_equal snd Hr)|]. rewrite Hsev. vm_compute in Hc.
    apply elem_of_cons in Hc as [-> |Hc]; [reflexivity|]. apply list_elem_of_singleton in Hc as ->. reflexivity.
  - destruct (llamaguard_verdict ex_guard ex_service ex_merge id id id 5 7 ZeroUUID (uuid_n 1) _ _ _ _ _ _ _ _
      eq_refl eq_refl Hp Hp Hq H1) as [Hv _].
    exact (f_equal snd (Hv (or_intror eq_refl))).
Defined.

Lemma anthropic_verdict_witness :
  let reply := string_of_bytes (bytes_of_string "Here it is: " ++ "{"%char :: bytes_of_string "violence 0.9" ++ "}"%char :: bytes_of_string ".") in
  fst (parseClassifierResponse reply None) = true.
Proof.
  cbn zeta. apply (proj1 (anthropic_verdict None)).
  - vm_compute. intros H. repeat (apply elem_of_cons in H as [H|H]; [discriminate|]). by apply elem_of_nil in H.
  - vm_compute. intros H. repeat (apply elem_of_cons in H as [H|H]; [discriminate|]). by apply elem_of_nil in H.
  - exists [mkViolationItem "violence" true float_0_9], (mkViolationItem "violence" true float_0_9).
    split; [vm_compute; reflexivity|]. split; [by left|]. split; [done|]. apply Qle_bool_iff. vm_compute. reflexivity.
Defined.

Definition ex_external : ExternalClassifierConfig :=
  mkExternalConfig true "openai" ∅ None DefaultRetryConfig DefaultCircuitBreakerConfig 0.

Lemma misconfigured_classifier_passes_witness :
  setup_external (Some ex_external) = None /\
  snd (adapter_CheckInput (Some (local_classifier ex_guard)) (as_external id <$> setup_external (Some ex_external))
    ex_merge id id 5 ZeroUUID 7 (uuid_n 1) "hello" (ex_world "unsafe")) = Ok None.
Proof.
  destruct (misconfigured_classifier_passes (W := list string) ex_external eq_refl) as (Hiff & Hpass & _).
  split; [apply Hiff; vm_compute; reflexivity|].
  assert (LocalCheckInput ex_guard ZeroUUID ZeroUUID 0 ZeroUUID "hello" = None) as Hq by (vm_compute; reflexivity).
  exact (f_equal snd (Hpass ltac:(vm_compute; reflexivity) ex_guard ex_merge id id id 5 ZeroUUID 7 (uuid_n 1) "hello"
    (ex_world "unsafe") _ _ _ _ Hq)).
Defined.
