(* ===== verification/Quota.v ===== *)
(** Quotas: [internal/domain/quota.go], [internal/adapter/postgres/quota_repository.go]
    with [queries/quota.sql], [internal/usecase/quota/quota.go], the resolver of
    [internal/adapter/redis/ratelimit.go] and [internal/api/handlers/admin_quotas.go]. *)

From stdpp Require Import base gmap strings list sorting numbers.
From S2P Require Import GoPrelude Errors Bytes Uuid Tenancy Http.

(** ** Data *)

Inductive BucketType := BucketTypeRequests | BucketTypeTokens | BucketTypeToolExecs | BucketTypeOther (s : string).

#[global] Instance BucketType_eq_dec : EqDecision BucketType.
Proof. solve_decision. Defined.

Definition bucket_text (b : BucketType) : string :=
  match b with
  | BucketTypeRequests => "requests"
  | BucketTypeTokens => "tokens"
  | BucketTypeToolExecs => "tool_execs"
  | BucketTypeOther s => s
  end.

(** A quota; as a row, its numbers are 32-bit. *)
Record Quota := mkQuota {
  qt_ID : UUID;
  qt_TenantID : UUID;
  qt_Scope : string;
  qt_ScopeID : UUID;
  qt_RequestsPerMin : Z;
  qt_TokensPerMin : Z;
  qt_ToolExecsPerMin : Z;
  qt_CreatedAt : Z;
  qt_UpdatedAt : Z;
}.

Definition DefaultQuotas : Quota := mkQuota ZeroUUID ZeroUUID "" ZeroUUID 60 10000 30 0 0.

(** The unique index is on (tenant, scope, scope_id). *)
Abbreviation quota_key := (UUID * string * UUID)%type.
Abbreviation QuotaTable := (gmap (UUID * string * UUID) Quota).

(** ** The repository *)

Section Repository.
Variable env : DbEnv.

Definition scope_check (s : string) : bool :=
  bool_decide (s = "tenant") || bool_decide (s = "user") || bool_decide (s = "role").

(** [Create]: [id] is drawn by the database. *)
Definition quota_Create (now : Z) (id tenantID : UUID) (q : Quota) : QuotaTable -> QuotaTable * result error Quota :=
  WithTenant env tenantID (fun c tbl =>
    let row := mkQuota id tenantID (qt_Scope q) (qt_ScopeID q) (int32_wrap (qt_RequestsPerMin q))
                 (int32_wrap (qt_TokensPerMin q)) (int32_wrap (qt_ToolExecsPerMin q)) (pg_time now) (pg_time now) in
    if negb (rls_visible env c tenantID) then (tbl, Err rls_check_error)
    else if negb (scope_check (qt_Scope q)) then (tbl, Err check_error)
    else match tbl !! (tenantID, qt_Scope q, qt_ScopeID q) with
    | Some _ => (tbl, Err unique_error)
    | None =>
        if negb (db_tenants env tenantID) then (tbl, Err tenant_fk_error) else
        (<[(tenantID, qt_Scope q, qt_ScopeID q) := row]> tbl,
         Ok (mkQuota id tenantID (qt_Scope q) (qt_ScopeID q) (qt_RequestsPerMin q) (qt_TokensPerMin q)
               (qt_ToolExecsPerMin q) (pg_time now) (pg_time now)))
    end).

Definition quota_GetByScope (tenantID : UUID) (scope : string) (scopeID : UUID) : QuotaTable -> QuotaTable * result error Quota :=
  WithTenantBackground env tenantID (fun c tbl =>
    match tbl !! (tenantID, scope, scopeID) with
    | Some q => if rls_visible env c tenantID then (tbl, Ok q) else (tbl, Err (no_rows env))
    | None => (tbl, Err (no_rows env))
    end).

(** [ORDER BY scope, scope_id] *)
Definition quota_le (a b : Quota) : Prop :=
  qt_Scope a <> qt_Scope b /\ String.le (qt_Scope a) (qt_Scope b) \/
  qt_Scope a = qt_Scope b /\ String.le (string_of_bytes (vec_to_list (qt_ScopeID a))) (string_of_bytes (vec_to_list (qt_ScopeID b))).

#[global] Instance quota_le_dec a b : Decision (quota_le a b).
Proof. unfold quota_le. apply _. Defined.

Definition quota_ListByTenant (tenantID : UUID) : QuotaTable -> QuotaTable * result error (list Quota) :=
  WithTenantBackground env tenantID (fun c tbl =>
    (tbl, Ok (merge_sort quota_le
      (List.filter (fun q => rls_visible env c (qt_TenantID q) && bool_decide (qt_TenantID q = tenantID))
        (map snd (map_to_list tbl)))))).

Definition quota_Update (now : Z) (tenantID : UUID) (q : Quota) : QuotaTable -> QuotaTable * result error Quota :=
  WithTenant env tenantID (fun c tbl =>
    match tbl !! (tenantID, qt_Scope q, qt_ScopeID q) with
    | Some old =>
        if negb (rls_visible env c tenantID) then (tbl, Err (db_no_rows env))
        else
          (<[(tenantID, qt_Scope q, qt_ScopeID q) :=
               mkQuota (qt_ID old) tenantID (qt_Scope q) (qt_ScopeID q) (int32_wrap (qt_RequestsPerMin q))
                 (int32_wrap (qt_TokensPerMin q)) (int32_wrap (qt_ToolExecsPerMin q)) (qt_CreatedAt old) (pg_time now)]> tbl,
           Ok (mkQuota (qt_ID q) (qt_TenantID q) (qt_Scope q) (qt_ScopeID q) (qt_RequestsPerMin q) (qt_TokensPerMin q)
                 (qt_ToolExecsPerMin q) (qt_CreatedAt q) (pg_time now)))
    | None => (tbl, Err (db_no_rows env))
    end).

Definition quota_Delete (tenantID : UUID) (scope : string) (scopeID : UUID) : QuotaTable -> QuotaTable * result error unit :=
  WithTenant env tenantID (fun c tbl =>
    if rls_visible env c tenantID then (delete (tenantID, scope, scopeID) tbl, Ok tt) else (tbl, Ok tt)).

(** ** The use case *)

Record QuotaInput := mkQuotaInput {
  qi_TenantID : UUID;
  qi_Scope : string;
  qi_ScopeID : UUID;
  qi_RequestsPerMin : Z;
  qi_TokensPerMin : Z;
  qi_ToolExecsPerMin : Z;
}.

Definition uc_Create (now : Z) (id : UUID) (input : QuotaInput) (tbl : QuotaTable) : QuotaTable * result error Quota :=
  match quota_GetByScope (qi_TenantID input) (qi_Scope input) (qi_ScopeID input) tbl with
  | (tbl, Ok _) => (tbl, Err (ErrConflict : error))
  | (tbl, Err _) =>
      quota_Create now id (qi_TenantID input)
        (mkQuota ZeroUUID (qi_TenantID input) (qi_Scope input) (qi_ScopeID input) (qi_RequestsPerMin input)
           (qi_TokensPerMin input) (qi_ToolExecsPerMin input) now now) tbl
  end.

Definition uc_GetByScope (tenantID : UUID) (scope : string) (scopeID : UUID) : QuotaTable -> QuotaTable * result error Quota := quota_GetByScope tenantID scope scopeID.
Definition uc_ListByTenant (tenantID : UUID) : QuotaTable -> QuotaTable * result error (list Quota) := quota_ListByTenant tenantID.
Definition uc_Delete (tenantID : UUID) (scope : string) (scopeID : UUID) : QuotaTable -> QuotaTable * result error unit := quota_Delete tenantID scope scopeID.

Definition uc_Update (now : Z) (input : QuotaInput) (tbl : QuotaTable) : QuotaTable * result error Quota :=
  match quota_GetByScope (qi_TenantID input) (qi_Scope input) (qi_ScopeID input) tbl with
  | (tbl, Err e) => (tbl, Err e)
  | (tbl, Ok q) =>
      quota_Update now (qi_TenantID input)
        (mkQuota (qt_ID q) (qt_TenantID q) (qt_Scope q) (qt_ScopeID q) (qi_RequestsPerMin input)
           (qi_TokensPerMin input) (qi_ToolExecsPerMin input) (qt_CreatedAt q) now) tbl
  end.

(** ** The effective limit *)

Definition getBucketLimit (q : Quota) (b : BucketType) : Z :=
  match b with
  | BucketTypeRequests => qt_RequestsPerMin q
  | BucketTypeTokens => qt_TokensPerMin q
  | BucketTypeToolExecs => qt_ToolExecsPerMin q
  | BucketTypeOther _ => 0
  end.

(** One of the three look-ups: whatever goes wrong, the maximum so far stays. *)
Definition raise_limit (tenantID : UUID) (scope : string) (scopeID : UUID) (b : BucketType) (tbl : QuotaTable) (maxLimit : Z) : Z :=
  match quota_GetByScope tenantID scope scopeID tbl with
  | (_, Ok q) => if getBucketLimit q b >? maxLimit then getBucketLimit q b else maxLimit
  | (_, Err _) => maxLimit
  end.

Definition time_Minute : Z := 60 * 1000000000.

Definition GetEffectiveLimit (tenantID userID roleID : UUID) (b : BucketType) (tbl : QuotaTable) : result error (Z * Z) :=
  let maxLimit := raise_limit tenantID "tenant" ZeroUUID b tbl 0 in
  let maxLimit := if negb (IsZero userID) then raise_limit tenantID "user" userID b tbl maxLimit else maxLimit in
  let maxLimit := if negb (IsZero roleID) then raise_limit tenantID "role" roleID b tbl maxLimit else maxLimit in
  let maxLimit := if maxLimit =? 0 then getBucketLimit DefaultQuotas b else maxLimit in
  Ok (maxLimit, time_Minute).

(** ** The admin handlers *)

Definition StatusCreated : Z := 201.
Definition StatusNoContent : Z := 204.
Definition StatusConflict : Z := 409.

(** [writeError] of the admin handlers. *)
Definition admin_status (err : error) : Z :=
  if bool_decide (err = (ErrNotFound : error)) then StatusNotFound
  else if bool_decide (err = (ErrConflict : error)) then StatusConflict
  else if bool_decide (err = (ErrValidation : error)) then StatusBadRequest
  else if bool_decide (err = (ErrUnauthorized : error)) then StatusUnauthorized
  else if bool_decide (err = (ErrForbidden : error)) then StatusForbidden
  else StatusInternalServerError.

(** The body of a create or update request; [None] when it does not decode. *)
Record QuotaBody := mkQuotaBody {
  qb_Scope : string;
  qb_ScopeID : string;
  qb_RequestsPerMin : Z;
  qb_TokensPerMin : Z;
  qb_ToolExecsPerMin : Z;
}.

Definition limits_positive (b : QuotaBody) : bool :=
  negb ((qb_RequestsPerMin b <=? 0) || (qb_TokensPerMin b <=? 0) || (qb_ToolExecsPerMin b <=? 0)).

Definition admin_CreateQuota (now : Z) (id : UUID) (tenantID : option UUID) (body : option QuotaBody) (tbl : QuotaTable)
    : QuotaTable * Z :=
  match tenantID with
  | None => (tbl, admin_status ErrUnauthorized)
  | Some t =>
      match body with
      | None => (tbl, admin_status ErrValidation)
      | Some b =>
          match ParseUUID (qb_ScopeID b) with
          | Err _ => (tbl, admin_status ErrValidation)
          | Ok scopeID =>
              if negb (limits_positive b) then (tbl, admin_status ErrValidation)
              else match uc_Create now id (mkQuotaInput t (qb_Scope b) scopeID (qb_RequestsPerMin b)
                                           (qb_TokensPerMin b) (qb_ToolExecsPerMin b)) tbl with
              | (tbl, Err e) => (tbl, admin_status e)
              | (tbl, Ok _) => (tbl, StatusCreated)
              end
          end
      end
  end.

(** [chi.URLParam]: "" for a name the route has no parameter of. *)
Definition URLParam (params : list (string * string)) (name : string) : string :=
  match List.find (fun p => bool_decide (fst p = name)) params with Some p => snd p | None => "" end.

(** The three handlers of the route [/{id}], which has that parameter only. *)
Definition quota_route (id : string) : list (string * string) := [("id", id)].

Definition scope_of_route (params : list (string * string)) : result error UUID :=
  let scopeIDStr := URLParam params "scope_id" in
  if bool_decide (scopeIDStr = "") then Err (ErrValidation : error)
  else match ParseUUID scopeIDStr with Ok u => Ok u | Err _ => Err (ErrValidation : error) end.

Definition admin_GetQuota (tenantID : option UUID) (params : list (string * string)) (tbl : QuotaTable) : QuotaTable * Z :=
  match tenantID with
  | None => (tbl, admin_status ErrUnauthorized)
  | Some t =>
      match scope_of_route params with
      | Err e => (tbl, admin_status e)
      | Ok scopeID =>
          match uc_GetByScope t (URLParam params "id") scopeID tbl with
          | (tbl, Err e) => (tbl, admin_status e)
          | (tbl, Ok _) => (tbl, StatusOK)
          end
      end
  end.

Definition admin_ListQuotas (tenantID : option UUID) (tbl : QuotaTable) : QuotaTable * (Z * list Quota) :=
  match tenantID with
  | None => (tbl, (admin_status ErrUnauthorized, []))
  | Some t =>
      match uc_ListByTenant t tbl with
      | (tbl, Err e) => (tbl, (admin_status e, []))
      | (tbl, Ok quotas) => (tbl, (StatusOK, quotas))
      end
  end.

Definition admin_UpdateQuota (now : Z) (tenantID : option UUID) (params : list (string * string)) (body : option QuotaBody)
    (tbl : QuotaTable) : QuotaTable * Z :=
  match tenantID with
  | None => (tbl, admin_status ErrUnauthorized)
  | Some t =>
      match scope_of_route params with
      | Err e => (tbl, admin_status e)
      | Ok scopeID =>
          match body with
          | None => (tbl, admin_status ErrValidation)
          | Some b =>
              if negb (limits_positive b) then (tbl, admin_status ErrValidation)
              else match uc_Update now (mkQuotaInput t (URLParam params "id") scopeID (qb_RequestsPerMin b)
                                         (qb_TokensPerMin b) (qb_ToolExecsPerMin b)) tbl with
              | (tbl, Err e) => (tbl, admin_status e)
              | (tbl, Ok _) => (tbl, StatusOK)
              end
          end
      end
  end.

Definition admin_DeleteQuota (tenantID : option UUID) (params : list (string * string)) (tbl : QuotaTable) : QuotaTable * Z :=
  match tenantID with
  | None => (tbl, admin_status ErrUnauthorized)
  | Some t =>
      match scope_of_route params with
      | Err e => (tbl, admin_status e)
      | Ok scopeID =>
          match uc_Delete t (URLParam params "id") scopeID tbl with
          | (tbl, Err e) => (tbl, admin_status e)
          | (tbl, Ok _) => (tbl, StatusNoContent)
          end
      end
  end.
End Repository.

(** * Facts *)

(** The database answers, and shows the tenant's rows. *)
Definition quotas_visible (env : DbEnv) : Prop := db_outage env = None /\ db_bypass_rls env = true.

Lemma GetByScope_visible env t scope sid tbl :
  quotas_visible env ->
  quota_GetByScope env t scope sid tbl =
    (tbl, match tbl !! (t, scope, sid) with Some q => Ok q | None => Err (no_rows env) end).
Proof.
  intros [Ho Hb]. unfold quota_GetByScope, WithTenantBackground. rewrite Ho, rls_visible_pool, Hb.
  by destruct (tbl !! _).
Qed.

Lemma GetByScope_tbl env t scope sid tbl : fst (quota_GetByScope env t scope sid tbl) = tbl.
Proof.
  unfold quota_GetByScope, WithTenantBackground. destruct (db_outage env); [done|].
  destruct (tbl !! _); [|done]. by destruct (rls_visible _ _ _).
Qed.

(** The reference: the largest limit among the rows that exist, or the default if
    none is positive. *)
Definition quota_keys (t userID roleID : UUID) : list quota_key :=
  (t, "tenant", ZeroUUID) :: (if IsZero userID then [] else [(t, "user", userID)]) ++
  (if IsZero roleID then [] else [(t, "role", roleID)]).

Definition reference_limit (t userID roleID : UUID) (b : BucketType) (tbl : QuotaTable) : Z :=
  let m := foldr Z.max 0 (map (fun q => getBucketLimit q b) (omap (fun k => tbl !! k) (quota_keys t userID roleID))) in
  if m =? 0 then getBucketLimit DefaultQuotas b else m.

Lemma raise_limit_visible env t scope sid b tbl m :
  quotas_visible env ->
  raise_limit env t scope sid b tbl m =
    match tbl !! (t, scope, sid) with Some q => Z.max (getBucketLimit q b) m | None => m end.
Proof.
  intros Hv. unfold raise_limit. rewrite GetByScope_visible by done.
  destruct (tbl !! _) as [q|]; [|done]. destruct (Z.gtb_spec (getBucketLimit q b) m); lia.
Qed.

Lemma effective_limit_eq (env : DbEnv) (t userID roleID : UUID) (b : BucketType) (tbl : QuotaTable) :
  quotas_visible env ->
  GetEffectiveLimit env t userID roleID b tbl = Ok (reference_limit t userID roleID b tbl, time_Minute).
Proof.
  intros Hv. unfold GetEffectiveLimit, reference_limit. rewrite !raise_limit_visible by done. f_equal. f_equal.
  match goal with |- (if ?a =? 0 then _ else _) = (if ?b =? 0 then _ else _) => assert (a = b) as -> end; [|done].
  unfold quota_keys.
  destruct (IsZero userID), (IsZero roleID); cbn [negb app omap list_omap];
    generalize (tbl !! (t, "tenant", ZeroUUID)) (tbl !! (t, "user", userID)) (tbl !! (t, "role", roleID));
    intros [q1|] [q2|] [q3|]; cbn [map foldr]; lia.
Qed.

(** The resolver answers the largest of the limits set for the tenant (under
    the zero scope id), the user and the role, or the default when none is
    positive; the window is a minute. *)
Theorem effective_limit_reference (env : DbEnv) (t userID roleID : UUID) (b : BucketType) (tbl : QuotaTable) :
  quotas_visible env ->
  GetEffectiveLimit env t userID roleID b tbl = Ok (reference_limit t userID roleID b tbl, time_Minute).
Proof. apply effective_limit_eq. Qed.

Lemma effective_limit_reference_witness :
  GetEffectiveLimit (mkDbEnv true ESqlNoRows None (fun _ => true)) (uuid_n 1) (uuid_n 3) ZeroUUID BucketTypeTokens
    {[(uuid_n 1, "user", uuid_n 3) := mkQuota (uuid_n 9) (uuid_n 1) "user" (uuid_n 3) 5 70000 5 0 0]}
  = Ok (70000, time_Minute).
Proof.
  etrans; [apply effective_limit_reference; split; reflexivity|]. vm_compute. reflexivity.
Defined.

(** The scope id of a tenant quota is documented, and required by the create
    handler, to be given; only the zero id is ever looked up. *)
Lemma tenant_quota_not_found (t sid userID roleID : UUID) (b : BucketType) (tbl : QuotaTable) (q : Quota) :
  sid <> ZeroUUID ->
  reference_limit t userID roleID b (<[(t, "tenant", sid) := q]> tbl) = reference_limit t userID roleID b tbl.
Proof.
  intros Hs. unfold reference_limit, quota_keys.
  destruct (IsZero userID), (IsZero roleID); cbn [app omap list_omap];
    rewrite ?lookup_insert_ne by congruence; done.
Qed.

(** What an administrator sets by the documented form of a tenant quota (scope
    "tenant", scope id the tenant's) is stored, truncated to 32 bits, and does not
    change the effective limit of any request of the tenant. *)
Theorem tenant_quota_has_no_effect (env : DbEnv) (now : Z) (id t userID roleID : UUID) (body : QuotaBody)
    (b : BucketType) (tbl : QuotaTable) :
  quotas_visible env -> db_tenants env t = true -> t <> ZeroUUID ->
  qb_Scope body = "tenant" -> ParseUUID (qb_ScopeID body) = Ok t -> limits_positive body = true ->
  tbl !! (t, "tenant", t) = None ->
  let '(tbl', status) := admin_CreateQuota env now id (Some t) (Some body) tbl in
  status = StatusCreated /\
  (fun q => (qt_RequestsPerMin q, qt_TokensPerMin q, qt_ToolExecsPerMin q)) <$> tbl' !! (t, "tenant", t) =
    Some (int32_wrap (qb_RequestsPerMin body), int32_wrap (qb_TokensPerMin body), int32_wrap (qb_ToolExecsPerMin body)) /\
  GetEffectiveLimit env t userID roleID b tbl' = GetEffectiveLimit env t userID roleID b tbl.
Proof.
  intros Hv Htenant Ht Hscope Hparse Hpos Hnone. pose proof Hv as [Ho Hb].
  unfold admin_CreateQuota, uc_Create. rewrite Hparse, Hpos. cbn [negb qi_TenantID qi_Scope qi_ScopeID].
  rewrite GetByScope_visible, Hscope, Hnone by done.
  unfold quota_Create, WithTenant. rewrite Ho, rls_visible_pool, Hb. cbn [negb qt_Scope qt_ScopeID].
  change (scope_check "tenant") with true. rewrite Htenant. cbn [negb]. rewrite Hnone. split; [done|]. split.
  - by rewrite lookup_insert_eq.
  - rewrite !effective_limit_eq by done. by rewrite tenant_quota_not_found.
Qed.

(** The routes that read, change or delete one quota declare only the
    parameter [id] and their handlers ask for [scope_id]: every such request of a
    tenant is answered 400 and changes nothing. *)
Theorem quota_item_routes_refuse (env : DbEnv) (now : Z) (t : UUID) (id : string) (body : option QuotaBody) (tbl : QuotaTable) :
  admin_GetQuota env (Some t) (quota_route id) tbl = (tbl, 400) /\
  admin_UpdateQuota env now (Some t) (quota_route id) body tbl = (tbl, 400) /\
  admin_DeleteQuota env (Some t) (quota_route id) tbl = (tbl, 400).
Proof. repeat split. Qed.

Lemma tenant_quota_has_no_effect_witness :
  let body := mkQuotaBody "tenant" (uuid_String (uuid_n 1)) 500 (2 ^ 32) 500 in
  let env := mkDbEnv true ESqlNoRows None (fun _ => true) in
  let '(tbl', status) := admin_CreateQuota env 0 (uuid_n 9) (Some (uuid_n 1)) (Some body) ∅ in
  status = 201 /\ GetEffectiveLimit env (uuid_n 1) (uuid_n 3) ZeroUUID BucketTypeRequests tbl' = Ok (60, time_Minute).
Proof.
  cbn zeta.
  assert (uuid_n 1 <> ZeroUUID) as Hne by (apply (bool_decide_eq_false_1 _); vm_compute; reflexivity).
  assert (ParseUUID (uuid_String (uuid_n 1)) = Ok (uuid_n 1)) as Hp by (vm_compute; reflexivity).
  pose proof (tenant_quota_has_no_effect (mkDbEnv true ESqlNoRows None (fun _ => true)) 0 (uuid_n 9) (uuid_n 1) (uuid_n 3) ZeroUUID
    (mkQuotaBody "tenant" (uuid_String (uuid_n 1)) 500 (2 ^ 32) 500) BucketTypeRequests ∅
    (conj eq_refl eq_refl) eq_refl Hne eq_refl Hp eq_refl (lookup_empty _)) as H.
  destruct (admin_CreateQuota _ _ _ _ _ _) as [tbl' status]. destruct H as (H1 & _ & H2).
  split; [exact H1|]. rewrite H2. vm_compute. reflexivity.
Defined.
