(* ===== verification/RateLimit.v ===== *)
(** Rate limiting: [internal/domain/ratelimit.go], the script and limiter of
    [internal/adapter/redis/ratelimit.go] and the middleware of
    [internal/middleware/ratelimit.go].

    The script's Lua numbers are read as rationals. Its doubles carry integers up
    to 2^53 exactly, so the two agree whenever the limit divides the window in
    milliseconds, as the default limits do; otherwise they differ by rounding. *)

From stdpp Require Import base gmap strings list numbers pretty.
From Stdlib Require Import QArith Qround Lqa.
From S2P Require Import GoPrelude Errors Bytes Uuid Tenancy Delegation Http Quota.
Open Scope Z_scope.

(** ** Keys, costs, results *)

Record RateLimitKey := mkKey { rk_Bucket : BucketType; rk_Scope : string; rk_ID : UUID }.

Definition key_String (k : RateLimitKey) : string :=
  "rl:" +:+ bucket_text (rk_Bucket k) +:+ ":" +:+ rk_Scope k +:+ ":" +:+ uuid_String (rk_ID k).

Record RateLimitCost := mkCost { rc_Requests : Z; rc_Tokens : Z; rc_ToolExecs : Z }.

(** Times in nanoseconds; the zero time is year 1. *)
Record RateLimitResult := mkResult { Allowed : bool; Remaining : Z; ResetAt : Z; RetryAfter : Z }.

Definition zero_time : Z := -62135596800 * 1000000000.
Definition zero_result : RateLimitResult := mkResult false 0 zero_time 0.

(** ** The script *)

(** Each tat with the millisecond its key expires after. *)
Abbreviation RateStore := (gmap string (Q * Z)).

Definition lua_max (a b : Q) : Q := if Qle_bool a b then b else a.

(** A number in a reply is truncated to an integer. *)
Definition reply_int (q : Q) : Z := Z.quot (Qnum q) (Zpos (Qden q)).

Definition live_tat (now_ms : Z) (key : string) (store : RateStore) : option Q :=
  match store !! key with
  | Some (tat, expires) => if now_ms <=? expires then Some tat else None
  | None => None
  end.

Record gcra_reply := mkReply { gr_allowed : Z; gr_remaining : Z; gr_retry_after : Z; gr_reset_at : Z }.

(** [redis_us] is the server's clock in microseconds. *)
Definition gcraLuaScript (key : string) (limit window cost now redis_us : Z) (store : RateStore) : RateStore * gcra_reply :=
  let limit := if limit <=? 0 then 1000000 else limit in
  let window := if window <=? 0 then 60 else window in
  let cost := if cost <=? 0 then 1 else cost in
  let now := (if now <=? 0 then redis_us # 1000 else inject_Z now)%Q in
  let redis_ms := redis_us / 1000 in
  let ttl := inject_Z (window * 1000) in
  let emission_interval := (ttl / inject_Z limit)%Q in
  let tat_key := key +:+ ":tat" in
  let tat := default now (live_tat redis_ms tat_key store) in
  let new_tat := Qred (lua_max tat now + emission_interval * inject_Z cost)%Q in
  let reset_at := reply_int (now + ttl)%Q in
  if Qle_bool (new_tat - now) (ttl + emission_interval) then
    let px_ttl := Qfloor (ttl + emission_interval)%Q in
    let remaining := Qfloor ((ttl - (new_tat - now)) / emission_interval)%Q in
    let remaining := if remaining <? 0 then 0 else remaining in
    let remaining := if remaining >? limit then limit else remaining in
    (<[tat_key := (new_tat, redis_ms + px_ttl)]> store, mkReply 1 remaining 0 reset_at)
  else (store, mkReply 0 0 (reply_int (new_tat - now - ttl)%Q) reset_at).

(** ** The limiter *)

Definition MaxInt32 : Z := 2 ^ 31 - 1.

Section Limiter.
(** Whether the limiter lets requests pass when Redis fails, and that failure. *)
Variables (failOpen : bool) (outage : option error).

(** [now] in nanoseconds. *)
Definition allowWithCost (now redis_us : Z) (key : RateLimitKey) (cost limit window : Z) (store : RateStore)
    : RateStore * result error RateLimitResult :=
  if limit <=? 0 then (store, Ok (mkResult true MaxInt32 (now + window) 0))
  else match outage with
  | Some e =>
      if failOpen then (store, Ok (mkResult true limit (now + window) 0)) else (store, Err e)
  | None =>
      let windowSec := Z.quot window 1000000000 in
      let '(store, rep) := gcraLuaScript (key_String key) limit windowSec cost (now / 1000000) redis_us store in
      (store, Ok (mkResult (gr_allowed rep =? 1) (gr_remaining rep) (gr_reset_at rep * 1000000) (gr_retry_after rep * 1000000)))
  end.

Definition bucket_cost (b : BucketType) (cost : RateLimitCost) : Z :=
  let n := match b with
           | BucketTypeRequests => rc_Requests cost
           | BucketTypeTokens => rc_Tokens cost
           | BucketTypeToolExecs => rc_ToolExecs cost
           | BucketTypeOther _ => 1
           end in
  if n <=? 0 then 1 else n.

Definition Allow (now redis_us : Z) (key : RateLimitKey) (cost : RateLimitCost) (limit window : Z) (store : RateStore)
    : RateStore * result error RateLimitResult :=
  allowWithCost now redis_us key (bucket_cost (rk_Bucket key) cost) limit window store.

Definition AllowN (now redis_us : Z) (key : RateLimitKey) (n limit window : Z) (store : RateStore)
    : RateStore * result error RateLimitResult :=
  allowWithCost now redis_us key n limit window store.
End Limiter.

(** ** The middleware *)

(** The two interfaces the middleware is given, and the clock. *)
Class RateLimitPorts (W : Type) := {
  limiter_Allow : RateLimitKey -> RateLimitCost -> Z -> Z -> W -> W * result error RateLimitResult;
  resolve_limit : UUID -> UUID -> UUID -> BucketType -> W -> result error (Z * Z);
  rl_now : W -> Z;
}.

Record bucketConfig := mkBucket { bc_Type : BucketType; bc_limit : Z; bc_window : Z; bc_result : RateLimitResult }.

Definition set_result (b : bucketConfig) (r : RateLimitResult) : bucketConfig := mkBucket (bc_Type b) (bc_limit b) (bc_window b) r.

Definition bucketHeaderPrefix (b : BucketType) : string :=
  match b with
  | BucketTypeRequests => "X-RateLimit-Limit-Requests"
  | BucketTypeTokens => "X-RateLimit-Limit-Tokens"
  | BucketTypeToolExecs => "X-RateLimit-Limit-ToolExecs"
  | BucketTypeOther _ => "X-RateLimit-Limit"
  end.

Abbreviation headers := (list (string * string)).

Definition setRateLimitHeaders (buckets : list bucketConfig) : headers :=
  concat (map (fun b =>
    let prefix := bucketHeaderPrefix (bc_Type b) in
    [(prefix +:+ "Limit", pretty (bc_limit b)); (prefix +:+ "Remaining", pretty (Remaining (bc_result b)));
     (prefix +:+ "Reset", pretty (ResetAt (bc_result b) / 1000000000))]) buckets).

Definition estimateTokenCost (r : Request) : Z := 1000.

Definition all_buckets : list BucketType := [BucketTypeRequests; BucketTypeTokens; BucketTypeToolExecs].

Section Middleware.
Context {W : Type} `{RateLimitPorts W}.
Variable failOpen : bool.

(** The first loop: the limit of each bucket; [None] is the early answer. *)
Fixpoint resolve_buckets (tenantID userID : UUID) (bs : list BucketType) (w : W) : option (list bucketConfig) :=
  match bs with
  | [] => Some []
  | b :: bs =>
      match resolve_limit tenantID userID ZeroUUID b w with
      | Err _ =>
          if negb failOpen then None
          else (fun l => mkBucket b 10000 time_Minute zero_result :: l) <$> resolve_buckets tenantID userID bs w
      | Ok (limit, window) => (fun l => mkBucket b limit window zero_result :: l) <$> resolve_buckets tenantID userID bs w
      end
  end.

Inductive bucket_verdict :=
| AllAllowed (buckets : list bucketConfig)
| Exhausted (buckets : list bucketConfig) (r : RateLimitResult)
| LimiterFailed.

(** The second loop, [done] being the buckets already checked. *)
Fixpoint check_buckets (tenantID : UUID) (cost : RateLimitCost) (done todo : list bucketConfig) (w : W) : W * bucket_verdict :=
  match todo with
  | [] => (w, AllAllowed done)
  | b :: todo =>
      let '(w, res) := limiter_Allow (mkKey (bc_Type b) "tenant" tenantID) cost (bc_limit b) (bc_window b) w in
      match (match res with
             | Ok r => Some r
             | Err _ => if negb failOpen then None else Some (mkResult true (bc_limit b) (rl_now w + bc_window b) 0)
             end) with
      | None => (w, LimiterFailed)
      | Some r =>
          if negb (Allowed r) then (w, Exhausted (done ++ set_result b r :: todo) r)
          else check_buckets tenantID cost (done ++ [set_result b r]) todo w
      end
  end.

(** What goes back or on: the headers, and an answer or the request. *)
Definition rate_limit_gate (r : Request) (w : W) : W * (headers * (Response + Request)) :=
  match GetTenantID r with
  | None => if failOpen then (w, ([], inr r)) else (w, ([], inl (WriteError StatusUnauthorized ErrUnauthorized)))
  | Some tenantID =>
      let '(userID, _) := GetUserID r in
      let cost := mkCost 1 (estimateTokenCost r) 0 in
      match resolve_buckets tenantID userID all_buckets w with
      | None => (w, ([], inl (WriteError StatusInternalServerError ErrRateLimited)))
      | Some buckets =>
          match check_buckets tenantID cost [] buckets w with
          | (w, LimiterFailed) => (w, ([], inl (WriteError StatusInternalServerError ErrRateLimited)))
          | (w, Exhausted bs res) =>
              (w, (setRateLimitHeaders bs ++ [("Retry-After", pretty (Z.quot (RetryAfter res) 1000000000))],
                   inl (WriteError StatusTooManyRequests ErrRateLimited)))
          | (w, AllAllowed bs) => (w, (setRateLimitHeaders bs, inr r))
          end
      end
  end.
End Middleware.

(** The middleware over Redis and the quota table. *)
Record RateWorld := mkRateWorld { rlw_store : RateStore; rlw_quotas : QuotaTable; rlw_now : Z }.

#[export] Instance redis_rate_limit (failOpen : bool) (outage : option error) (env : DbEnv) : RateLimitPorts RateWorld := {
  limiter_Allow k c limit window w :=
    let '(store, res) := Allow failOpen outage (rlw_now w) (rlw_now w / 1000) k c limit window (rlw_store w) in
    (mkRateWorld store (rlw_quotas w) (rlw_now w), res);
  resolve_limit t u r b w := GetEffectiveLimit env t u r b (rlw_quotas w);
  rl_now := rlw_now;
}.

(** * The script in integers

    When the limit divides the window, the emission interval is a whole number [k]
    of milliseconds and every quantity of the script is an integer. *)

Lemma Qred_inject z : Qred (inject_Z z) = inject_Z z.
Proof. destruct z as [|[]|[]]; reflexivity. Qed.

Lemma Qred_int (q : Q) (z : Z) : (q == inject_Z z)%Q -> Qred q = inject_Z z.
Proof. intros E. rewrite <- (Qred_inject z). by apply Qred_complete. Qed.

Lemma Qfloor_int (q : Q) (z : Z) : (q == inject_Z z)%Q -> Qfloor q = z.
Proof. intros E. rewrite E. apply Qfloor_Z. Qed.

Lemma lua_max_int a b : lua_max (inject_Z a) (inject_Z b) = inject_Z (Z.max a b).
Proof.
  unfold lua_max. destruct (Qle_bool (inject_Z a) (inject_Z b)) eqn:E.
  - apply Qle_bool_iff in E. rewrite <- Zle_Qle in E. by rewrite Z.max_r.
  - assert (b <= a) by (apply Z.lt_le_incl, Z.nle_gt; intros Hle; rewrite Zle_Qle in Hle;
      apply Qle_bool_iff in Hle; congruence). by rewrite Z.max_l.
Qed.

Lemma Qle_bool_int (p q : Q) (a b : Z) :
  (p == inject_Z a)%Q -> (q == inject_Z b)%Q -> Qle_bool p q = (a <=? b).
Proof.
  intros Ha Hb. apply eq_true_iff_eq. rewrite Qle_bool_iff, Z.leb_le, Ha, Hb, Zle_Qle. reflexivity.
Qed.

(** [floor(a / k)] *)
Lemma Qfloor_div (p q : Q) (a k : Z) :
  0 < k -> (p == inject_Z a)%Q -> (q == inject_Z k)%Q -> Qfloor (p / q)%Q = a / k.
Proof.
  intros Hk Hp Hq. rewrite Hp, Hq. unfold Qdiv, Qinv, inject_Z. cbn [Qnum Qden].
  destruct k as [|k|k]; try lia. unfold Qmult, Qfloor. cbn [Qnum Qden]. by rewrite Z.mul_1_r.
Qed.

Section Exact.
Variables (key : string) (limit window k : Z).
Hypotheses (Hlimit : 0 < limit) (Hwindow : 0 < window) (Hk : window * 1000 = k * limit).

Abbreviation tk := (key +:+ ":tat").

Lemma k_pos : 0 < k.
Proof. nia. Qed.

Lemma emission_int : (inject_Z (window * 1000) / inject_Z limit == inject_Z k)%Q.
Proof.
  rewrite Hk, inject_Z_mult. unfold Qdiv. rewrite <- Qmult_assoc, Qmult_inv_r; [apply Qmult_1_r|].
  unfold Qeq. cbn. lia.
Qed.

(** Stored numbers are whole, and not beyond the expiry of their key. *)
Definition entry_ok (store : RateStore) : Prop :=
  forall tat e, store !! tk = Some (tat, e) -> exists z, tat = inject_Z z /\ z <= e.

(** The theoretical arrival time a request at [now] starts from. *)
Definition phase (store : RateStore) (now : Z) : Z :=
  match store !! tk with
  | Some (tat, e) => if now <=? e then Z.max (Qnum tat) now else now
  | None => now
  end.

Lemma lua_phase store now :
  entry_ok store ->
  lua_max (default (inject_Z now) (live_tat now tk store)) (inject_Z now) = inject_Z (phase store now).
Proof.
  intros Hok. unfold live_tat, phase. destruct (store !! tk) as [[tat e]|] eqn:Hs; cbn [default].
  - destruct (Hok _ _ Hs) as (z & -> & _). destruct (now <=? e); cbn [default].
    + apply lua_max_int.
    + rewrite lua_max_int. by rewrite Z.max_id.
  - rewrite lua_max_int. by rewrite Z.max_id.
Qed.

(** The integer reading of the script, for one clock. *)
Definition gcra_int (cost now : Z) (store : RateStore) : RateStore * gcra_reply :=
  let new_tat := phase store now + k * cost in
  if new_tat - now <=? window * 1000 + k then
    (<[tk := (inject_Z new_tat, now + (window * 1000 + k))]> store,
     mkReply 1 (Z.min limit (Z.max 0 ((window * 1000 - (new_tat - now)) / k))) 0 (now + window * 1000))
  else (store, mkReply 0 0 (new_tat - now - window * 1000) (now + window * 1000)).

Lemma reply_int_int q z : (q == inject_Z z)%Q -> Qden q = 1%positive -> reply_int q = z.
Proof.
  intros E Hd. unfold reply_int. rewrite Hd, Z.quot_1_r. unfold Qeq in E. rewrite Hd in E. cbn in E. lia.
Qed.

Lemma script_exact cost now redis_us store :
  0 < cost -> 0 < now -> redis_us / 1000 = now -> entry_ok store ->
  gcraLuaScript key limit window cost now redis_us store = gcra_int cost now store.
Proof.
  intros Hc Hn Hus Hok. unfold gcraLuaScript, gcra_int.
  replace (limit <=? 0) with false by (symmetry; apply Z.leb_gt; lia).
  replace (window <=? 0) with false by (symmetry; apply Z.leb_gt; lia).
  replace (cost <=? 0) with false by (symmetry; apply Z.leb_gt; lia).
  replace (now <=? 0) with false by (symmetry; apply Z.leb_gt; lia).
  rewrite Hus, lua_phase by done. set (ph := phase store now).
  assert (Hnew : Qred (inject_Z ph + inject_Z (window * 1000) / inject_Z limit * inject_Z cost)%Q = inject_Z (ph + k * cost)).
  { apply Qred_int. rewrite emission_int, <- inject_Z_mult, <- inject_Z_plus. reflexivity. }
  rewrite Hnew. set (nt := ph + k * cost).
  assert (Hd : (inject_Z nt - inject_Z now == inject_Z (nt - now))%Q).
  { unfold Qminus. rewrite <- inject_Z_opp, <- inject_Z_plus. reflexivity. }
  assert (Hs : (inject_Z (window * 1000) + inject_Z (window * 1000) / inject_Z limit == inject_Z (window * 1000 + k))%Q).
  { rewrite emission_int, <- inject_Z_plus. reflexivity. }
  rewrite (Qle_bool_int _ _ _ _ Hd Hs), (Qfloor_int _ _ Hs).
  assert (Hr : reply_int (inject_Z now + inject_Z (window * 1000))%Q = now + window * 1000).
  { apply reply_int_int; [by rewrite <- inject_Z_plus|done]. }
  rewrite Hr. destruct (nt - now <=? window * 1000 + k).
  - f_equal. f_equal.
    rewrite (Qfloor_div _ _ (window * 1000 - (nt - now)) k k_pos); [|rewrite Hd; unfold Qminus;
      rewrite <- inject_Z_opp, <- inject_Z_plus; reflexivity|apply emission_int].
    generalize ((window * 1000 - (nt - now)) / k). intros r.
    destruct (Z.ltb_spec r 0), (Z.gtb_spec (if r <? 0 then 0 else r) limit); try lia;
      repeat match goal with |- context [?a >? ?b] => destruct (Z.gtb_spec a b) end; lia.
  - f_equal. f_equal. apply reply_int_int; [|done].
    rewrite Hd. unfold Qminus. rewrite <- inject_Z_opp, <- inject_Z_plus. reflexivity.
Qed.

(** ** Phases *)

Lemma phase_ge store now : now <= phase store now.
Proof. unfold phase. destruct (store !! tk) as [[tat e]|]; [destruct (now <=? e)|]; lia. Qed.

Lemma phase_later store now now' :
  entry_ok store -> now <= now' -> phase store now' = Z.max (phase store now) now'.
Proof.
  intros Hok Hle. unfold phase. destruct (store !! tk) as [[tat e]|] eqn:Hs; [|lia].
  destruct (Hok _ _ Hs) as (z & -> & Hz). cbn [inject_Z Qnum].
  destruct (Z.leb_spec now e), (Z.leb_spec now' e); lia.
Qed.

Definition admits (cost now : Z) (store : RateStore) : bool := phase store now + k * cost - now <=? window * 1000 + k.

Lemma gcra_int_allowed cost now store :
  gr_allowed (snd (gcra_int cost now store)) = if admits cost now store then 1 else 0.
Proof. unfold gcra_int, admits. by destruct (_ <=? _). Qed.

Lemma gcra_int_ok cost now store :
  entry_ok store -> entry_ok (fst (gcra_int cost now store)).
Proof.
  intros Hok. unfold gcra_int. destruct (Z.leb_spec (phase store now + k * cost - now) (window * 1000 + k)); [|done].
  intros tat e. cbn [fst]. rewrite lookup_insert_eq. intros [= <- <-]. eexists. split; [done|]. lia.
Qed.

Lemma gcra_int_phase cost now now' store :
  0 < cost -> entry_ok store -> now <= now' ->
  phase (fst (gcra_int cost now store)) now' =
    if admits cost now store then Z.max (phase store now + k * cost) now' else Z.max (phase store now) now'.
Proof.
  intros Hc Hok Hle. unfold gcra_int, admits.
  destruct (Z.leb_spec (phase store now + k * cost - now) (window * 1000 + k)) as [Hb|Hb]; cbn [fst].
  - unfold phase at 1. rewrite lookup_insert_eq. cbn [inject_Z Qnum].
    destruct (Z.leb_spec now' (now + (window * 1000 + k))); lia.
  - by apply phase_later.
Qed.

(** ** Runs of requests, each a time in milliseconds and a cost *)

Fixpoint gcra_run (events : list (Z * Z)) (store : RateStore) : list bool :=
  match events with
  | [] => []
  | (now, cost) :: events =>
      let '(store, rep) := gcraLuaScript key limit window cost now (now * 1000) store in
      (gr_allowed rep =? 1) :: gcra_run events store
  end.

(** Times do not go back, and costs are positive. *)
Fixpoint ordered (from : Z) (events : list (Z * Z)) : Prop :=
  match events with
  | [] => True
  | (now, cost) :: events => from <= now /\ 0 < now /\ 0 < cost /\ ordered now events
  end.

(** The reference: a bucket of at most [limit + 1] requests' worth of credit, one
    millisecond of credit coming back each millisecond and [k] of it spent per
    unit of cost. *)
Record CreditBucket := mkCredit { cb_credit : Z; cb_last : Z }.

Definition capacity : Z := (limit + 1) * k.

Definition refill (now : Z) (b : CreditBucket) : CreditBucket :=
  mkCredit (Z.min capacity (cb_credit b + (now - cb_last b))) now.

Definition spend (now cost : Z) (b : CreditBucket) : CreditBucket * bool :=
  let b := refill now b in
  if cost * k <=? cb_credit b then (mkCredit (cb_credit b - cost * k) now, true) else (b, false).

Fixpoint bucket_run (events : list (Z * Z)) (b : CreditBucket) : list bool :=
  match events with
  | [] => []
  | (now, cost) :: events => let '(b, ok) := spend now cost b in ok :: bucket_run events b
  end.

(** The simulation: the stored time says how much credit is missing. *)
Definition simulates (store : RateStore) (b : CreditBucket) : Prop :=
  entry_ok store /\ phase store (cb_last b) = cb_last b + (capacity - cb_credit b) /\ cb_credit b <= capacity.

Lemma capacity_eq : capacity = window * 1000 + k.
Proof. unfold capacity. lia. Qed.

Lemma simulation_step store b now cost :
  simulates store b -> cb_last b <= now -> 0 < now -> 0 < cost ->
  let '(store', rep) := gcraLuaScript key limit window cost now (now * 1000) store in
  let '(b', ok) := spend now cost b in
  simulates store' b' /\ (gr_allowed rep =? 1) = ok /\ cb_last b' = now.
Proof.
  intros (Hok & Hp & Hcap) Hle Hn Hc. rewrite script_exact by (done || apply Z.div_mul; lia).
  pose proof (gcra_int_allowed cost now store) as Ha. pose proof (gcra_int_ok cost now store Hok) as Hok'.
  pose proof (gcra_int_phase cost now now store Hc Hok ltac:(lia)) as Hph.
  destruct (gcra_int cost now store) as [store' rep]. cbn [fst snd] in *.
  rewrite (phase_later store (cb_last b) now Hok Hle), Hp in Hph. unfold admits in *.
  rewrite (phase_later store (cb_last b) now Hok Hle), Hp, <- capacity_eq in *.
  pose proof k_pos as Hkp. unfold spend, refill. cbn [cb_credit cb_last].
  destruct (Z.leb_spec (Z.max (cb_last b + (capacity - cb_credit b)) now + k * cost - now) capacity),
           (Z.leb_spec (cost * k) (Z.min capacity (cb_credit b + (now - cb_last b)))); try nia.
  - split; [|split; [by rewrite Ha|done]]. split; [done|]. cbn [cb_credit cb_last]. split; nia.
  - split; [|split; [by rewrite Ha|done]]. split; [done|]. cbn [cb_credit cb_last]. split; nia.
Qed.

Lemma simulation_run events store b :
  simulates store b -> ordered (cb_last b) events -> gcra_run events store = bucket_run events b.
Proof.
  revert store b. induction events as [|[now cost] events IH]; intros store b Hs Ho; [done|].
  destruct Ho as (Hle & Hn & Hc & Ho). cbn [gcra_run bucket_run].
  pose proof (simulation_step store b now cost Hs Hle Hn Hc) as Hstep.
  destruct (gcraLuaScript _ _ _ _ _ _ _) as [store' rep], (spend now cost b) as [b' ok].
  destruct Hstep as (Hs' & -> & Hl). f_equal. apply IH; [done|]. by rewrite Hl.
Qed.

(** The cost let through. *)
Fixpoint admitted (events : list (Z * Z)) (flags : list bool) : Z :=
  match events, flags with
  | (_, cost) :: events, ok :: flags => (if ok then cost else 0) + admitted events flags
  | _, _ => 0
  end.

Fixpoint last_time (from : Z) (events : list (Z * Z)) : Z :=
  match events with
  | [] => from
  | (now, _) :: events => last_time now events
  end.

Lemma last_time_ge from events : ordered from events -> from <= last_time from events.
Proof.
  revert from. induction events as [|[now cost] events IH]; intros from; [cbn; lia|].
  intros (Hle & _ & _ & Ho). cbn [last_time]. specialize (IH now Ho). lia.
Qed.

Lemma bucket_bound events b :
  ordered (cb_last b) events -> 0 <= cb_credit b <= capacity ->
  k * admitted events (bucket_run events b) <= cb_credit b + (last_time (cb_last b) events - cb_last b).
Proof.
  revert b. induction events as [|[now cost] events IH]; intros b Ho Hb; [cbn; lia|].
  destruct Ho as (Hle & Hn & Hc & Ho). cbn [last_time]. cbn [bucket_run].
  pose proof k_pos as Hkp. unfold spend, refill. cbn [cb_credit cb_last].
  destruct (Z.leb_spec (cost * k) (Z.min capacity (cb_credit b + (now - cb_last b)))) as [Hok|Hok];
    cbn [admitted]; rewrite Z.mul_add_distr_l.
  - pose proof (IH (mkCredit (Z.min capacity (cb_credit b + (now - cb_last b)) - cost * k) now) Ho) as IHb.
    cbn [cb_credit cb_last] in IHb. nia.
  - pose proof (IH (mkCredit (Z.min capacity (cb_credit b + (now - cb_last b))) now) Ho) as IHb.
    cbn [cb_credit cb_last] in IHb. nia.
Qed.

Lemma simulates_empty from : simulates ∅ (mkCredit capacity from).
Proof.
  split; [|split].
  - intros tat e. rewrite lookup_empty. done.
  - unfold phase. rewrite lookup_empty. cbn [cb_credit cb_last]. lia.
  - cbn [cb_credit]. lia.
Qed.

Lemma run_fresh from events :
  ordered from events -> gcra_run events ∅ = bucket_run events (mkCredit capacity from).
Proof. intros Ho. apply simulation_run; [apply simulates_empty|done]. Qed.

Lemma bucket_burst n t c :
  0 < t -> Z.of_nat n * k <= c <= capacity ->
  admitted (replicate n (t, 1)) (bucket_run (replicate n (t, 1)) (mkCredit c t)) = Z.of_nat n.
Proof.
  intros Ht. pose proof k_pos as Hkp. revert c. induction n as [|n IH]; intros c Hc; [done|].
  cbn [replicate bucket_run]. unfold spend, refill. cbn [cb_credit cb_last].
  destruct (Z.leb_spec (1 * k) (Z.min capacity (c + (t - t)))); [|nia].
  cbn [admitted]. rewrite IH; nia.
Qed.

Lemma ordered_replicate n t : 0 < t -> ordered t (replicate n (t, 1)).
Proof. intros Ht. induction n; cbn; [done|]. split_and!; [lia..|done]. Qed.
End Exact.

(** * What the limiter promises *)

(** C34: The script refines a token bucket that holds [limit + 1] requests, one more
    than the limit, and regains them at [limit] per window: from an empty store or
    a full bucket, over any sequence of requests at non-decreasing times, both let
    the same requests through (for limits that divide the window). *)
Theorem gcra_refines_token_bucket (key : string) (limit window k from : Z) (events : list (Z * Z)) :
  0 < limit -> 0 < window -> window * 1000 = k * limit -> ordered from events ->
  gcra_run key limit window events ∅ = bucket_run limit k events (mkCredit (capacity limit k) from).
Proof. intros. by apply (run_fresh key limit window k). Qed.

(** Over any stretch of time, from a fresh key, at most [limit + 1] requests
    plus [limit] per elapsed window get through; and a burst of [limit + 1] at one
    instant does get through, one more than the limit. *)
Theorem gcra_admission_bound (key : string) (limit window k from : Z) (events : list (Z * Z)) :
  0 < limit -> 0 < window -> window * 1000 = k * limit -> ordered from events -> 0 < from ->
  k * admitted events (gcra_run key limit window events ∅) <= (limit + 1) * k + (last_time from events - from) /\
  let burst := replicate (Z.to_nat (limit + 1)) (from, 1) in
  admitted burst (gcra_run key limit window burst ∅) = limit + 1.
Proof.
  intros Hl Hw Hk Ho Hf. assert (0 < k) as Hkp by nia. split.
  - rewrite (run_fresh key limit window k Hl Hw Hk from events Ho).
    pose proof (bucket_bound limit window k Hl Hw Hk events (mkCredit (capacity limit k) from) Ho) as Hb.
    cbn [cb_credit cb_last] in Hb. apply Hb. unfold capacity. nia.
  - cbn zeta. rewrite (run_fresh key limit window k Hl Hw Hk from) by by apply ordered_replicate.
    rewrite (bucket_burst limit window k Hl Hw Hk) by (unfold capacity; lia). lia.
Qed.

(** ** Requests that cost more than the bucket holds *)

Lemma gcra_oversized key limit window cost now redis_us store :
  0 < limit -> 0 < window -> limit + 1 < cost ->
  exists rep, gcraLuaScript key limit window cost now redis_us store = (store, rep) /\ gr_allowed rep = 0.
Proof.
  intros Hl Hw Hc. unfold gcraLuaScript.
  replace (limit <=? 0) with false by (symmetry; apply Z.leb_gt; lia).
  replace (window <=? 0) with false by (symmetry; apply Z.leb_gt; lia).
  replace (cost <=? 0) with false by (symmetry; apply Z.leb_gt; lia).
  set (nw := (if now <=? 0 then redis_us # 1000 else inject_Z now)%Q).
  set (tat := default nw _). set (ei := (inject_Z (window * 1000) / inject_Z limit)%Q).
  match goal with |- context [if ?b then _ else _] => assert (b = false) as -> end; [|by eexists].
  apply not_true_is_false. rewrite Qle_bool_iff, Qred_correct.
  assert (inject_Z (window * 1000) == ei * inject_Z limit)%Q as Hei.
  { unfold ei, Qdiv. rewrite <- Qmult_assoc, (Qmult_comm (/ _)), Qmult_inv_r, Qmult_1_r; [reflexivity|].
    unfold Qeq. cbn. lia. }
  assert (0 < ei)%Q as Hpos.
  { assert (0 < inject_Z limit)%Q as Hl' by (rewrite <- (Zlt_Qlt 0); lia).
    assert (0 < inject_Z (window * 1000))%Q as Hw' by (rewrite <- (Zlt_Qlt 0); lia). nra. }
  assert (inject_Z limit + 1 + 1 <= inject_Z cost)%Q as Hcost.
  { change 1%Q with (inject_Z 1). rewrite <- !inject_Z_plus, <- Zle_Qle. lia. }
  assert (nw <= lua_max tat nw)%Q as Hmax.
  { unfold lua_max. destruct (Qle_bool tat nw) eqn:E; [lra|].
    destruct (Qlt_le_dec nw tat) as [Hlt|Hle]; [lra|]. apply Qle_bool_iff in Hle. congruence. }
  clearbody tat nw ei. nra.
Qed.

(** * The middleware over Redis *)

Section Gate.
Variables (env : DbEnv) (failOpen : bool).
Hypothesis Hv : quotas_visible env.

#[local] Instance ports : RateLimitPorts RateWorld := redis_rate_limit failOpen None env.

Definition limit_of (t u : UUID) (b : BucketType) (tbl : QuotaTable) : Z := reference_limit t u ZeroUUID b tbl.

Definition tenant_key (b : BucketType) (t : UUID) : string := key_String (mkKey b "tenant" t).

Lemma resolve_all t u bs w :
  resolve_buckets failOpen t u bs w =
    Some (map (fun b => mkBucket b (limit_of t u b (rlw_quotas w)) time_Minute zero_result) bs).
Proof.
  induction bs as [|b bs IH]; [done|]. cbn [resolve_buckets resolve_limit ports redis_rate_limit].
  rewrite effective_limit_eq by done. by rewrite IH.
Qed.

(** One bucket's check: the script on the bucket's own key. *)
Lemma Allow_script t b cost limit w :
  0 < limit -> 
  limiter_Allow (mkKey b "tenant" t) cost limit time_Minute w =
    let '(store, rep) := gcraLuaScript (tenant_key b t) limit 60 (bucket_cost b cost) (rlw_now w / 1000000)
                           (rlw_now w / 1000) (rlw_store w) in
    (mkRateWorld store (rlw_quotas w) (rlw_now w),
     Ok (mkResult (gr_allowed rep =? 1) (gr_remaining rep) (gr_reset_at rep * 1000000) (gr_retry_after rep * 1000000))).
Proof.
  intros Hl. cbn [limiter_Allow ports redis_rate_limit]. unfold Allow, allowWithCost.
  replace (limit <=? 0) with false by (symmetry; apply Z.leb_gt; lia). cbn [rk_Bucket].
  change (Z.quot time_Minute 1000000000) with 60. unfold tenant_key. by destruct (gcraLuaScript _ _ _ _ _ _ _).
Qed.

Lemma limit_of_pos t u b tbl : b ∈ all_buckets -> 0 < limit_of t u b tbl.
Proof.
  intros Hb. unfold limit_of, reference_limit.
  assert (forall l, 0 <= foldr Z.max 0 l) as Hm by (induction l; cbn; lia).
  specialize (Hm (map (fun q => getBucketLimit q b) (omap (fun k => tbl !! k) (quota_keys t u ZeroUUID)))).
  destruct (Z.eqb_spec (foldr Z.max 0 (map (fun q => getBucketLimit q b) (omap (fun k => tbl !! k) (quota_keys t u ZeroUUID)))) 0);
    [|lia]. set_unfold in Hb. by destruct_or?; subst b.
Qed.

Lemma tenant_key_tat_inj b b' t : b ∈ all_buckets -> b' ∈ all_buckets -> b <> b' -> tenant_key b t +:+ ":tat" <> tenant_key b' t +:+ ":tat".
Proof. intros Hb Hb' Hne. set_unfold in Hb. set_unfold in Hb'. by destruct_or?; subst b b'. Qed.

Lemma script_other_key key key' limit window cost now us store :
  key' <> key +:+ ":tat" -> fst (gcraLuaScript key limit window cost now us store) !! key' = store !! key'.
Proof.
  intros Hne. unfold gcraLuaScript. destruct (Qle_bool _ _); cbn [fst]; [|done]. by rewrite lookup_insert_ne.
Qed.

Lemma script_refused key limit window cost now us store store' rep :
  gcraLuaScript key limit window cost now us store = (store', rep) -> (gr_allowed rep =? 1) = false -> store' = store.
Proof. unfold gcraLuaScript. destruct (Qle_bool _ _); intros [= <- <-]; done. Qed.

(** One request of a tenant, seen from the key of its tool-execution bucket: it
    goes on only when that bucket's script, run once at cost one, lets it. *)
Lemma gate_tool_key t r w :
  GetTenantID r = Some t ->
  let lim := limit_of t (fst (GetUserID r)) BucketTypeToolExecs (rlw_quotas w) in
  let tat := tenant_key BucketTypeToolExecs t +:+ ":tat" in
  let '(w', (_, out)) := rate_limit_gate failOpen r w in
  rlw_quotas w' = rlw_quotas w /\
  match out with
  | inl _ => rlw_store w' !! tat = rlw_store w !! tat
  | inr r' => r' = r /\ exists store rep, store !! tat = rlw_store w !! tat /\ (gr_allowed rep =? 1) = true /\
      gcraLuaScript (tenant_key BucketTypeToolExecs t) lim 60 1 (rlw_now w / 1000000) (rlw_now w / 1000) store = (rlw_store w', rep)
  end.
Proof.
  intros Ht. cbn zeta. unfold rate_limit_gate. rewrite Ht. destruct (GetUserID r) as [u has]. rewrite resolve_all.
  cbn [map all_buckets fst check_buckets bc_Type bc_limit bc_window].
  assert (forall b, b ∈ all_buckets -> b <> BucketTypeToolExecs ->
    tenant_key BucketTypeToolExecs t +:+ ":tat" <> tenant_key b t +:+ ":tat") as Hne.
  { intros b Hb Hb'. apply tenant_key_tat_inj; [|done..]. unfold all_buckets. set_solver. }
  pose proof (Hne BucketTypeRequests ltac:(unfold all_buckets; set_solver) ltac:(done)) as H1.
  pose proof (Hne BucketTypeTokens ltac:(unfold all_buckets; set_solver) ltac:(done)) as H2. clear Hne.
  rewrite Allow_script by (apply limit_of_pos; unfold all_buckets; set_solver).
  match goal with |- context [gcraLuaScript ?a ?b ?c ?d ?e ?f ?g] =>
    pose proof (script_other_key a _ b c d e f g H1) as E1; destruct (gcraLuaScript a b c d e f g) as [s1 r1] eqn:S1 end.
  cbn [fst Allowed] in *. destruct (gr_allowed r1 =? 1) eqn:A1; cbn [negb]; [|by rewrite (script_refused _ _ _ _ _ _ _ _ _ S1 A1)].
  rewrite Allow_script by (apply limit_of_pos; unfold all_buckets; set_solver). cbn [rlw_store rlw_quotas rlw_now].
  match goal with |- context [gcraLuaScript ?a ?b ?c ?d ?e ?f ?g] =>
    pose proof (script_other_key a _ b c d e f g H2) as E2; destruct (gcraLuaScript a b c d e f g) as [s2 r2] eqn:S2 end.
  cbn [fst Allowed] in *. destruct (gr_allowed r2 =? 1) eqn:A2; cbn [negb]; [|by rewrite (script_refused _ _ _ _ _ _ _ _ _ S2 A2)].
  rewrite Allow_script by (apply limit_of_pos; unfold all_buckets; set_solver). cbn [rlw_store rlw_quotas rlw_now].
  match goal with |- context [gcraLuaScript ?a ?b ?c ?d ?e ?f ?g] => destruct (gcraLuaScript a b c d e f g) as [s3 r3] eqn:S3 end.
  cbn [fst Allowed]. destruct (gr_allowed r3 =? 1) eqn:A3; cbn [negb rlw_quotas rlw_store].
  - split; [done|]. split; [done|]. exists s2, r3. split; [congruence|]. by split.
  - rewrite (script_refused _ _ _ _ _ _ _ _ _ S3 A3). split; [done|congruence].
Qed.

(** Requests of one tenant and user, each at a time in nanoseconds; which went on. *)
Fixpoint gate_run (tbl : QuotaTable) (reqs : list (Z * Request)) (store : RateStore) : list bool :=
  match reqs with
  | [] => []
  | (now, r) :: reqs =>
      let '(w, (_, out)) := rate_limit_gate failOpen r (mkRateWorld store tbl now) in
      (if out then false else true) :: gate_run tbl reqs (rlw_store w)
  end.

Fixpoint from_caller (t u : UUID) (from_ms : Z) (reqs : list (Z * Request)) : Prop :=
  match reqs with
  | [] => True
  | (now, r) :: reqs =>
      from_ms <= now / 1000000 /\ GetTenantID r = Some t /\ fst (GetUserID r) = u /\ from_caller t u (now / 1000000) reqs
  end.

Definition forwarded (flags : list bool) : Z := Z.of_nat (length (List.filter id flags)).

Fixpoint last_ms (from : Z) (reqs : list (Z * Request)) : Z :=
  match reqs with [] => from | (now, _) :: reqs => last_ms (now / 1000000) reqs end.

Lemma last_ms_ge t u from reqs : from_caller t u from reqs -> from <= last_ms from reqs.
Proof.
  revert from. induction reqs as [|[now r] reqs IH]; intros from; [cbn; lia|].
  intros (Hle & _ & _ & Ho). cbn [last_ms]. specialize (IH _ Ho). lia.
Qed.

Lemma from_caller_earlier t u from from' reqs : from <= from' -> from_caller t u from' reqs -> from_caller t u from reqs.
Proof. intros Hle. destruct reqs as [|[now r] reqs]; [done|]. intros (Hle' & Ho). split; [lia|done]. Qed.

Lemma simulates_same key limit k store store' b :
  store' !! (key +:+ ":tat") = store !! (key +:+ ":tat") -> simulates key limit k store b -> simulates key limit k store' b.
Proof. intros E. unfold simulates, entry_ok, phase. by rewrite E. Qed.

Lemma gate_run_bound t u tbl k reqs store b :
  let lim := limit_of t u BucketTypeToolExecs tbl in
  60 * 1000 = k * lim -> 0 < cb_last b ->
  simulates (tenant_key BucketTypeToolExecs t) lim k store b -> 0 <= cb_credit b ->
  from_caller t u (cb_last b) reqs ->
  k * forwarded (gate_run tbl reqs store) <= cb_credit b + (last_ms (cb_last b) reqs - cb_last b).
Proof.
  cbn zeta. intros Hk. assert (0 < limit_of t u BucketTypeToolExecs tbl) as Hl by (apply limit_of_pos; unfold all_buckets; set_solver).
  assert (0 < k) as Hkp by nia.
  revert store b. induction reqs as [|[now r] reqs IH]; intros store b Hpos Hs Hc Ho.
  { cbn [gate_run last_ms]. change (forwarded []) with 0. lia. }
  destruct Ho as (Hle & Ht & Hu & Ho). pose proof (last_ms_ge t u _ _ Ho) as Hlast. cbn [gate_run last_ms].
  pose proof (gate_tool_key t r (mkRateWorld store tbl now) Ht) as Hg. cbn zeta in Hg.
  destruct (rate_limit_gate failOpen r (mkRateWorld store tbl now)) as [w' [hs [resp|r']]]; cbn [rlw_quotas rlw_store rlw_now] in Hg.
  - destruct Hg as [_ Hsame]. change (forwarded (false :: ?l)) with (forwarded l).
    pose proof (IH (rlw_store w') b Hpos (simulates_same _ _ _ _ _ _ Hsame Hs) Hc (from_caller_earlier _ _ _ _ _ Hle Ho)).
    destruct reqs as [|[now' r''] reqs]; cbn [last_ms] in *; lia.
  - destruct Hg as (_ & _ & st & rep & Hst & Hal & Hscript). rewrite Hu in Hscript.
    pose proof (simulation_step _ _ 60 k Hl ltac:(lia) Hk st b (now / 1000000) 1
      (simulates_same _ _ _ _ _ _ Hst Hs) Hle ltac:(lia) ltac:(lia)) as Hstep.
    assert (gcraLuaScript (tenant_key BucketTypeToolExecs t) (limit_of t u BucketTypeToolExecs tbl) 60 1 (now / 1000000)
      (now / 1000000 * 1000) st = (rlw_store w', rep)) as Hscript'.
    { assert (entry_ok (tenant_key BucketTypeToolExecs t) st) as Hok
        by apply (simulates_same _ _ _ _ _ _ Hst Hs).
      rewrite <- Hscript. rewrite !(script_exact _ _ 60 k); try done; try lia.
      - rewrite Z.div_div by lia. done.
      - apply Z.div_mul. lia. }
    rewrite Hscript' in Hstep. destruct (spend (limit_of t u BucketTypeToolExecs tbl) k (now / 1000000) 1 b) as [b' ok] eqn:Hsp.
    destruct Hstep as (Hs' & Hok & Hl'). rewrite Hal in Hok. subst ok.
    assert (cb_credit b' = Z.min (capacity (limit_of t u BucketTypeToolExecs tbl) k) (cb_credit b + (now / 1000000 - cb_last b)) - 1 * k
      /\ 0 <= cb_credit b') as [Hcr Hcr'].
    { revert Hsp. unfold spend, refill. cbn [cb_credit]. destruct (Z.leb_spec (1 * k)
        (Z.min (capacity (limit_of t u BucketTypeToolExecs tbl) k) (cb_credit b + (now / 1000000 - cb_last b)))); intros [= <-].
      cbn [cb_credit]. lia. }
    pose proof (IH (rlw_store w') b' ltac:(lia) Hs' Hcr' ltac:(by rewrite Hl')) as IHb. rewrite Hl' in IHb.
    change (forwarded (true :: ?l)) with (Z.of_nat (S (length (List.filter id l)))). unfold forwarded in IHb. nia.
Qed.
End Gate.

(** ** What the middleware lets through *)

(** The middleware charges every request one tool execution, so the bound of
    the tool-execution bucket is a bound on all requests: from an empty store, the
    requests of a tenant's user that go on are at most that limit plus one, plus
    that limit per elapsed minute, whatever the limit on requests. *)
Theorem requests_bounded_by_tool_bucket (env : DbEnv) (failOpen : bool) (t u : UUID) (tbl : QuotaTable) (k from : Z)
    (reqs : list (Z * Request)) :
  quotas_visible env -> 60 * 1000 = k * limit_of t u BucketTypeToolExecs tbl -> 0 < from -> from_caller t u from reqs ->
  k * forwarded (gate_run env failOpen tbl reqs ∅) <=
    (limit_of t u BucketTypeToolExecs tbl + 1) * k + (last_ms from reqs - from).
Proof.
  intros Hv Hk Hf Ho. set (b := mkCredit (capacity (limit_of t u BucketTypeToolExecs tbl) k) from).
  assert (0 < limit_of t u BucketTypeToolExecs tbl) by (apply limit_of_pos; unfold all_buckets; set_solver).
  change ((limit_of t u BucketTypeToolExecs tbl + 1) * k) with (cb_credit b). change from with (cb_last b).
  apply (gate_run_bound env failOpen Hv t u tbl k reqs); try done; [|cbn; unfold capacity; nia].
  apply simulates_empty. 
Qed.

(** A token limit below 999 shuts the tenant out: each request is charged 1000
    tokens, and the answer is 429, whatever has been used, with the buckets'
    limits in the headers and the token bucket's stored time unchanged. *)
Theorem small_token_limit_refuses (env : DbEnv) (failOpen : bool) (t : UUID) (r : Request) (w : RateWorld) :
  quotas_visible env -> GetTenantID r = Some t -> limit_of t (fst (GetUserID r)) BucketTypeTokens (rlw_quotas w) < 999 ->
  let '(w', (hs, out)) := @rate_limit_gate _ (ports env failOpen) failOpen r w in
  out = inl (WriteError StatusTooManyRequests ErrRateLimited) /\ hs <> [] /\
  rlw_store w' !! (tenant_key BucketTypeTokens t +:+ ":tat") = rlw_store w !! (tenant_key BucketTypeTokens t +:+ ":tat").
Proof.
  intros Hv Ht Hl. unfold rate_limit_gate. rewrite Ht. destruct (GetUserID r) as [u has]. rewrite resolve_all by done.
  cbn [map all_buckets fst check_buckets bc_Type bc_limit bc_window] in *.
  assert (tenant_key BucketTypeTokens t +:+ ":tat" <> tenant_key BucketTypeRequests t +:+ ":tat") as H1
    by (apply tenant_key_tat_inj; [unfold all_buckets; set_solver..|done]).
  rewrite Allow_script by (done || apply limit_of_pos; unfold all_buckets; set_solver).
  match goal with |- context [gcraLuaScript ?a ?b ?c ?d ?e ?f ?g] =>
    pose proof (script_other_key a _ b c d e f g H1) as E1; destruct (gcraLuaScript a b c d e f g) as [s1 r1] eqn:S1 end.
  cbn [fst Allowed] in *. destruct (gr_allowed r1 =? 1) eqn:A1; cbn [negb rlw_store]; [|done].
  rewrite Allow_script by (done || apply limit_of_pos; unfold all_buckets; set_solver). cbn [rlw_store rlw_quotas rlw_now].
  match goal with |- context [gcraLuaScript ?a ?b ?c ?d ?e ?f ?g] =>
    destruct (gcra_oversized a b c d e f g ltac:(apply limit_of_pos; unfold all_buckets; set_solver) ltac:(lia))
      as (rep & -> & ->); [change (limit_of t u BucketTypeTokens (rlw_quotas w) + 1 < 1000); lia|] end.
  cbn [Z.eqb negb Allowed rlw_store]. done.
Qed.

(** * Witnesses *)

Lemma gcra_refines_token_bucket_witness :
  gcra_run "k" 30 60 [(5000, 30); (5000, 1); (5000, 1); (6999, 1); (7000, 1)] ∅ = [true; true; false; false; true].
Proof.
  etrans; [apply (gcra_refines_token_bucket "k" 30 60 2000 5000); try lia; cbn; lia|]. vm_compute. reflexivity.
Defined.

Lemma gcra_admission_bound_witness :
  2000 * admitted [(5000, 30); (5000, 1); (7000, 1)] (gcra_run "k" 30 60 [(5000, 30); (5000, 1); (7000, 1)] ∅) <= 64000.
Proof.
  apply (gcra_admission_bound "k" 30 60 2000 5000 [(5000, 30); (5000, 1); (7000, 1)]); try lia. cbn. lia.
Defined.

Definition caller_request : Request :=
  mkRequest "POST" "/v1/chat/completions" "" "{}" (mkContext None (Some (uuid_n 3)) (Some (uuid_n 1)) None None None None None).

(** Forty requests at one instant, under the default limits: thirty-one go on,
    although sixty requests a minute are allowed. *)
Lemma requests_bounded_by_tool_bucket_witness :
  let env := mkDbEnv true ESqlNoRows None (fun _ => true) in
  let big := mkQuota (uuid_n 9) (uuid_n 1) "tenant" ZeroUUID 60 100000 30 0 0 in
  let tbl := {[(uuid_n 1, "tenant", ZeroUUID) := big]} in
  let n := forwarded (gate_run env false tbl (replicate 40 (5000000000, caller_request)) ∅) in
  n = 31 /\ 2000 * n <= 62000.
Proof.
  cbn zeta. split; [vm_compute; reflexivity|].
  eapply Z.le_trans; [apply (requests_bounded_by_tool_bucket (mkDbEnv true ESqlNoRows None (fun _ => true)) false (uuid_n 1) (uuid_n 3)
    _ 2000 5000)|].
  - split; reflexivity.
  - vm_compute. reflexivity.
  - lia.
  - repeat (split; [apply (bool_decide_eq_true_1 _); vm_compute; reflexivity|]); exact I.
  - vm_compute. discriminate.
Defined.

Lemma small_token_limit_refuses_witness :
  let env := mkDbEnv true ESqlNoRows None (fun _ => true) in
  let tbl := {[(uuid_n 1, "user", uuid_n 3) := mkQuota (uuid_n 9) (uuid_n 1) "user" (uuid_n 3) 60 500 30 0 0]} in
  snd (snd (@rate_limit_gate _ (ports env true) true caller_request (mkRateWorld ∅ tbl 5000000000))) =
    inl (WriteError 429 ErrRateLimited).
Proof.
  cbn zeta.
  pose proof (small_token_limit_refuses (mkDbEnv true ESqlNoRows None (fun _ => true)) true (uuid_n 1) caller_request
    (mkRateWorld ∅ {[(uuid_n 1, "user", uuid_n 3) := mkQuota (uuid_n 9) (uuid_n 1) "user" (uuid_n 3) 60 500 30 0 0]} 5000000000)
    ltac:(split; reflexivity) eq_refl ltac:(vm_compute; reflexivity)) as H.
  destruct (rate_limit_gate _ _ _) as [w' [hs out]]. apply H.
Defined.
