(* ===== verification/DelegationMW.v ===== *)
(** [internal/middleware/delegation.go]: the delegation middleware, stated
    against the two ports it is configured with. *)

From stdpp Require Import base gmap strings list.
From S2P Require Import GoPrelude Errors Bytes Uuid Delegation Http.
Import Scope Lifecycle Validators.

(** ** Ports *)

(** [DelegationRepository]: reads of the grant table. *)
Class DelegationRepository (W : Type) := {
  CountActiveChildren : UUID -> UUID -> W -> result error Z;
  GetChainGeneration : UUID -> UUID -> W -> result error Z;
}.

(** [DelegationBudgetDecrementor]: the atomic decrement. *)
Class DelegationBudgetDecrementor (W : Type) := {
  DecrementBudget : UUID -> Z -> W -> W * result error Z;
}.

Record DelegationConfig := mkDelegationConfig {
  cfg_has_Repository : bool;   (* [cfg.Repository != nil] *)
  cfg_has_BudgetDec : bool;    (* [cfg.BudgetDec != nil] *)
  cfg_MaxDepth : Z;
  cfg_MaxFanOut : Z;
  cfg_FailOpen : bool;
}.

Section Middleware.
Context {W : Type} `{Clock W, DelegationRepository W, DelegationBudgetDecrementor W}.

(** Step 9: decrement the pool, unless the grant claims no budget at all. *)
Definition budget_step (cfg : DelegationConfig) (grant : Grant) (w : W) : W * option Response :=
  if BudgetRemaining grant >? 0 then
    match DecrementBudget (ChainID grant) 1 w with
    | (w', Err _) =>
        if negb (cfg_FailOpen cfg)
        then (w', Some (WriteError StatusForbidden ErrBudgetExhausted))
        else (w', None)
    | (w', Ok remaining) =>
        if remaining <? 0 then (w', Some (WriteError StatusForbidden ErrBudgetExhausted))
        else (w', None)
    end
  else (w, None).

(** Steps 6 and 8 are skipped when the repository fails. *)
Definition chain_revoked (tenantID : UUID) (grant : Grant) (w : W) : bool :=
  match GetChainGeneration tenantID (ChainID grant) w with
  | Ok currentGen =>
      match ValidateChainRevocation (Generation grant) currentGen with
      | Some _ => true | None => false
      end
  | Err _ => false
  end.

Definition fan_out_exceeded (cfg : DelegationConfig) (tenantID : UUID) (grant : Grant) (w : W) : bool :=
  if HasParent grant then
    match CountActiveChildren tenantID (GrantID grant) w with
    | Ok activeChildren =>
        match ValidateFanOut activeChildren (cfg_MaxFanOut cfg) with
        | Some _ => true | None => false
        end
    | Err _ => false
    end
  else false.

Definition scope_refused (r : Request) (grant : Grant) : bool :=
  match GetParentScopeFromContext r with
  | [] => false
  | parentScope => negb (is_ok (ValidateScopeIntersection parentScope (GrantedScope grant)))
  end.

(** The context handed on once every validation passed. *)
Definition delegated_ctx (r : Request) (grant : Grant) : Context :=
  let ctx := set_GrantKey (ReqCtx r) (Some grant) in
  let ctx := match GetRootGrantFromContext r with
             | Some root => set_RootGrantKey ctx (Some root)
             | None => ctx
             end in
  set_AncestorsKey ctx (Some (GetAncestorsFromContext r ++ [delegateID r])).

(** The checks before the budget, in the order of the code; the first failing
    one gives the response. *)
Definition validate_grant (cfg : DelegationConfig) (tenantID : UUID) (grant : Grant)
    (r : Request) (w : W) : option Response :=
  let reject (e : error) := Some (WriteError StatusForbidden e) in
  if negb (bool_decide (TenantID grant = tenantID)) then reject ErrCrossTenantDelegationProhibited
  else match ValidateTTL (time_now w) (Some grant) with Some _ => reject ErrGrantRevokedOrConsumed | None =>
  if scope_refused r grant then reject ErrScopeIntersectionEmpty
  else match ValidateDepth (Depth grant) (cfg_MaxDepth cfg) with Some _ => reject ErrDepthLimitExceeded | None =>
  match ValidateCrossTenant tenantID (TenantID grant) with
  | Some _ => reject ErrCrossTenantDelegationProhibited | None =>
  match ValidateCycle (delegateID r) (GetAncestorsFromContext r) with Some _ => reject ErrCycleDetected | None =>
  if chain_revoked tenantID grant w then reject ErrGrantRevokedOrConsumed
  else match ValidateHITLPropagation (GetRootGrantFromContext r) grant with Some e => reject e | None =>
  if fan_out_exceeded cfg tenantID grant w then reject ErrFanOutLimitExceeded
  else None
  end end end end end.

Definition delegation_gate (cfg : DelegationConfig) : gate W := fun r w =>
  match GetTenantID r with
  | None => (w, inr r)
  | Some tenantID =>
      match GetGrantFromContext r with
      | None => (w, inr r)
      | Some grant =>
          match validate_grant cfg tenantID grant r w with
          | Some resp => (w, inl resp)
          | None =>
              match budget_step cfg grant w with
              | (w', Some resp) => (w', inl resp)
              | (w', None) => (w', inr (with_ctx r (delegated_ctx r grant)))
              end
          end
      end
  end.

(** [NewDelegation]: building the middleware panics without its dependencies. *)
Definition NewDelegation (cfg : DelegationConfig) : result string (Handler W -> Handler W) :=
  if negb (cfg_has_BudgetDec cfg) then
    Err "delegation middleware: BudgetDec is required — cannot create middleware without budget enforcement"
  else if negb (cfg_has_Repository cfg) then
    Err "delegation middleware: Repository is required — cannot create middleware without chain generation checks"
  else Ok (guard_with (delegation_gate cfg)).

(** ** What an admitted grant satisfies *)

Record admissible (cfg : DelegationConfig) (t : UUID) (g : Grant) (r : Request) (w : W) : Prop := {
  adm_tenant : TenantID g = t;
  adm_live : IsTerminal (Status g) = false;
  adm_ttl : time_now w <= ExpiresAt g;
  adm_scope : GetParentScopeFromContext r = [] \/
              exists x, x ∈ GetParentScopeFromContext r /\ x ∈ GrantedScope g;
  adm_depth : Depth g < (if cfg_MaxDepth cfg <=? 0 then 5 else cfg_MaxDepth cfg);
  adm_acyclic : delegateID r ∉ GetAncestorsFromContext r;
  adm_generation : forall n, GetChainGeneration t (ChainID g) w = Ok n -> n <= Generation g;
  adm_hitl : forall root, GetRootGrantFromContext r = Some root ->
               RootIntent root = RootIntent g /\
               classificationRank (HITLClassification root) <= classificationRank (HITLClassification g);
  adm_fanout : HasParent g = true -> forall n, CountActiveChildren t (GrantID g) w = Ok n ->
               n < (if cfg_MaxFanOut cfg <=? 0 then 10 else cfg_MaxFanOut cfg);
}.

Lemma ValidateDepth_None d m :
  ValidateDepth d m = None <-> d < (if m <=? 0 then 5 else m).
Proof.
  unfold ValidateDepth, defaultMaxDepth. rewrite Z.geb_leb.
  destruct (Z.leb_spec (if m <=? 0 then 5 else m) d); naive_solver lia.
Qed.

Lemma ValidateFanOut_None n m :
  ValidateFanOut n m = None <-> n < (if m <=? 0 then 10 else m).
Proof.
  unfold ValidateFanOut, defaultMaxFanOut. rewrite Z.geb_leb.
  destruct (Z.leb_spec (if m <=? 0 then 10 else m) n); naive_solver lia.
Qed.

Lemma scope_refused_false r g :
  scope_refused r g = false <->
  GetParentScopeFromContext r = [] \/
  exists x, x ∈ GetParentScopeFromContext r /\ x ∈ GrantedScope g.
Proof.
  unfold scope_refused, ValidateScopeIntersection.
  destruct (GetParentScopeFromContext r) as [|p ps]; [naive_solver|].
  destruct (Intersection (p :: ps) (GrantedScope g)) as [s|e] eqn:Hi; simpl.
  - apply Intersection_Ok in Hi as [Hs Hne]. destruct s as [|x s]; [done|].
    split; [|done]. intros _. right. exists x. apply Hs. set_solver.
  - apply Intersection_Err in Hi as [_ Hdisj]. naive_solver.
Qed.

Lemma chain_revoked_false t g w :
  chain_revoked t g w = false <->
  forall n, GetChainGeneration t (ChainID g) w = Ok n -> n <= Generation g.
Proof.
  unfold chain_revoked, ValidateChainRevocation.
  destruct (GetChainGeneration t (ChainID g) w) as [n|e]; [|naive_solver].
  destruct (Z.ltb_spec (Generation g) n); split; try naive_solver lia.
  intros Hn. specialize (Hn n eq_refl). lia.
Qed.

Lemma fan_out_exceeded_false cfg t g w :
  fan_out_exceeded cfg t g w = false <->
  (HasParent g = true -> forall n, CountActiveChildren t (GrantID g) w = Ok n ->
     n < (if cfg_MaxFanOut cfg <=? 0 then 10 else cfg_MaxFanOut cfg)).
Proof.
  unfold fan_out_exceeded. destruct (HasParent g); [|naive_solver].
  destruct (CountActiveChildren t (GrantID g) w) as [n|e]; [|naive_solver].
  destruct (ValidateFanOut n (cfg_MaxFanOut cfg)) eqn:Hf; split; try naive_solver.
  - intros Hn. specialize (Hn eq_refl n eq_refl). apply ValidateFanOut_None in Hn. congruence.
  - intros _ _ m [= <-]. by apply ValidateFanOut_None.
Qed.

Lemma hitl_None r g :
  ValidateHITLPropagation (GetRootGrantFromContext r) g = None <->
  forall root, GetRootGrantFromContext r = Some root ->
    RootIntent root = RootIntent g /\
    classificationRank (HITLClassification root) <= classificationRank (HITLClassification g).
Proof.
  destruct (GetRootGrantFromContext r) as [root|]; [|naive_solver].
  rewrite ValidateHITLPropagation_None. naive_solver.
Qed.

(** The guard chain passes exactly the admissible grants. *)
Lemma validate_grant_None cfg t g r w :
  validate_grant cfg t g r w = None <-> admissible cfg t g r w.
Proof.
  unfold validate_grant, ValidateCrossTenant. split.
  - intros Hv.
    destruct (bool_decide (TenantID g = t)) eqn:Ht; [|done]. apply bool_decide_eq_true in Ht.
    destruct (ValidateTTL _ _) eqn:Httl; [done|]. apply ValidateTTL_None in Httl as [? ?].
    destruct (scope_refused r g) eqn:Hs; [done|]. apply scope_refused_false in Hs.
    destruct (ValidateDepth _ _) eqn:Hd; [done|]. apply ValidateDepth_None in Hd.
    rewrite (bool_decide_eq_true_2 (t = TenantID g)) in Hv by done.
    destruct (ValidateCycle _ _) eqn:Hc; [done|]. apply ValidateCycle_None in Hc.
    destruct (chain_revoked t g w) eqn:Hg; [done|]. rewrite chain_revoked_false in Hg.
    destruct (ValidateHITLPropagation _ _) eqn:Hh; [done|]. rewrite hitl_None in Hh.
    destruct (fan_out_exceeded cfg t g w) eqn:Hf; [done|]. rewrite fan_out_exceeded_false in Hf.
    by constructor.
  - intros [Ht Hl Httl Hs Hd Hc Hg Hh Hf].
    rewrite (bool_decide_eq_true_2 (TenantID g = t)) by done.
    rewrite (proj2 (ValidateTTL_None _ _)) by done.
    rewrite (proj2 (scope_refused_false _ _)) by done.
    rewrite (proj2 (ValidateDepth_None _ _)) by done.
    rewrite (bool_decide_eq_true_2 (t = TenantID g)) by done.
    rewrite (proj2 (ValidateCycle_None _ _)) by done.
    rewrite (proj2 (chain_revoked_false _ _ _)) by done.
    rewrite (proj2 (hitl_None _ _)) by done.
    by rewrite (proj2 (fan_out_exceeded_false _ _ _ _)).
Qed.

Lemma validate_grant_403 cfg t g r w resp :
  validate_grant cfg t g r w = Some resp -> StatusCode resp = StatusForbidden.
Proof. unfold validate_grant. intros Hv. run_guards. Qed.

End Middleware.

(** * Properties *)

(** C6: what the middleware does with every request. Without a tenant or without a
    grant it calls the next handler on the same request. With a grant it either
    answers 403 without calling the next handler, or the grant is admissible
    (same tenant, live and unexpired, within the depth and fan-out limits,
    acyclic, not behind the chain generation, HITL not relaxed) and the budget
    step let it through; an admissible grant is stopped by nothing but the
    budget step. *)
Theorem delegation_middleware_decides {W} `{Clock W, DelegationRepository W, DelegationBudgetDecrementor W}
    (cfg : DelegationConfig) (mw : Handler W -> Handler W) (next : Handler W) r w :
  NewDelegation cfg = Ok mw ->
  match GetTenantID r, GetGrantFromContext r with
  | Some t, Some g =>
      (~ admissible cfg t g r w /\
       exists resp, mw next r w = (w, resp) /\ StatusCode resp = StatusForbidden) \/
      (admissible cfg t g r w /\
       ((exists w' resp, budget_step cfg g w = (w', Some resp) /\ mw next r w = (w', resp)) \/
        (exists w', budget_step cfg g w = (w', None) /\
           mw next r w = next (with_ctx r (delegated_ctx r g)) w')))
  | _, _ => mw next r w = next r w
  end.
Proof.
  unfold NewDelegation. intros Hmw.
  destruct (cfg_has_BudgetDec cfg); [|done]. destruct (cfg_has_Repository cfg); [|done].
  injection Hmw as <-.
  unfold guard_with, delegation_gate.
  destruct (GetTenantID r) as [t|]; [|done]. destruct (GetGrantFromContext r) as [g|]; [|done].
  destruct (validate_grant cfg t g r w) as [resp|] eqn:Hv.
  - left. split; [|exists resp; eauto using validate_grant_403].
    intros Ha%validate_grant_None. congruence.
  - right. apply validate_grant_None in Hv. split; [done|].
    destruct (budget_step cfg g w) as [w' [resp|]] eqn:Hb; eauto.
Qed.

(** the middleware cannot be built without its budget and repository ports. *)
Theorem delegation_requires_ports {W} `{Clock W, DelegationRepository W, DelegationBudgetDecrementor W} cfg :
  (exists mw, NewDelegation (W := W) cfg = Ok mw) <->
  cfg_has_BudgetDec cfg = true /\ cfg_has_Repository cfg = true.
Proof.
  unfold NewDelegation.
  destruct (cfg_has_BudgetDec cfg), (cfg_has_Repository cfg); simpl; split; try naive_solver.
Qed.
