(* ===== verification/DelegationStore.v ===== *)
(** The implementations behind the delegation middleware's ports:
    [internal/adapter/postgres/delegation_repository.go] on the
    [delegation_grants] table, and [internal/adapter/redis/delegation_budget.go]
    on the Redis budget pools; and what the middleware guarantees on top of them. *)

From stdpp Require Import base gmap strings list sorting.
From S2P Require Import GoPrelude Errors Bytes Uuid Tenancy Delegation Http DelegationMW.
Import Scope Lifecycle Validators.

(** * The grant table *)

(** [string(status)] and [GrantStatus(text)]. *)
Definition status_text (s : GrantStatus) : string :=
  match s with
  | GrantStatusIssued => "issued"
  | GrantStatusActive => "active"
  | GrantStatusRevoked => "revoked"
  | GrantStatusExpired => "expired"
  | GrantStatusConsumed => "consumed"
  | GrantStatusOther s => s
  end.

Definition status_of_text (s : string) : GrantStatus :=
  if bool_decide (s = "issued") then GrantStatusIssued
  else if bool_decide (s = "active") then GrantStatusActive
  else if bool_decide (s = "revoked") then GrantStatusRevoked
  else if bool_decide (s = "expired") then GrantStatusExpired
  else if bool_decide (s = "consumed") then GrantStatusConsumed
  else GrantStatusOther s.

(** A row; [row_GrantedScope] is the jsonb array, [None] for SQL NULL. *)
Record delegationGrantRow := mkRow {
  row_ID : UUID;
  row_ParentGrantID : option UUID;
  row_ChainID : UUID;
  row_TenantID : UUID;
  row_DelegateIdentity : string;
  row_GrantedScope : option (list string);
  row_RootIntent : string;
  row_HITLClassification : string;
  row_Depth : Z;
  row_Generation : Z;
  row_ExpiresAt : Z;
  row_BudgetRemaining : Z;
  row_Status : string;
}.

Definition grantToInsertParams (g : Grant) : delegationGrantRow :=
  mkRow (GrantID g) (ParentGrantID g) (ChainID g) (TenantID g) (DelegateIdentity g)
    (match GrantedScope g with [] => None | s => Some s end)
    (RootIntent g) (HITLClassification g)
    (int32_wrap (Depth g)) (int32_wrap (Generation g)) (ExpiresAt g)
    (int32_wrap (BudgetRemaining g)) (status_text (Status g)).

Definition rowToGrant (row : delegationGrantRow) : Grant :=
  mkGrant (row_ID row) (row_ParentGrantID row) (row_ChainID row) (row_TenantID row)
    (row_DelegateIdentity row) (default [] (row_GrantedScope row)) (row_RootIntent row)
    (row_HITLClassification row) (row_Depth row) (row_Generation row) (row_ExpiresAt row)
    (row_BudgetRemaining row) (status_of_text (row_Status row)).

Definition set_row_Status (row : delegationGrantRow) (s : string) : delegationGrantRow :=
  mkRow (row_ID row) (row_ParentGrantID row) (row_ChainID row) (row_TenantID row)
    (row_DelegateIdentity row) (row_GrantedScope row) (row_RootIntent row)
    (row_HITLClassification row) (row_Depth row) (row_Generation row) (row_ExpiresAt row)
    (row_BudgetRemaining row) s.

(** The primary key is [(id, tenant_id)]. *)
Abbreviation GrantTable := (gmap (UUID * UUID) delegationGrantRow).

(** The NOT NULL and CHECK constraints of migration 0015. *)
Definition status_check (s : string) : bool :=
  bool_decide (s ∈ ["issued"; "active"; "revoked"; "expired"; "consumed"]).
Definition row_constraints (row : delegationGrantRow) : bool :=
  bool_decide (is_Some (row_GrantedScope row)) &&
  bool_decide (row_HITLClassification row ∈ ["none"; "optional"; "required"]) &&
  (0 <=? row_Depth row) && (0 <=? row_BudgetRemaining row) && status_check (row_Status row).
Definition constraint_error : error := EOther "new row violates check constraint".

(** [mapDelegationError] on a non-nil error. *)
Definition mapDelegationError (err : error) : error :=
  if string_contains (Error err) "unique_violation" || string_contains (Error err) "duplicate key"
  then ErrConflict : error else err.

Section Repository.
Variable env : DbEnv.

(** The rows a statement on connection [c] sees. *)
Definition visible (c : Conn) (tbl : GrantTable) : GrantTable :=
  map_select (fun row => rls_visible env c (row_TenantID row)) tbl.

(** [SELECT COUNT], the number of visible rows satisfying the WHERE clause. *)
Definition count_where (c : Conn) (p : delegationGrantRow -> bool) (tbl : GrantTable) : Z :=
  Z.of_nat (map_count p (visible c tbl)).

(** [UPDATE ... SET status = s WHERE p], on visible rows; also the rows affected. *)
Definition update_where (c : Conn) (p : delegationGrantRow -> bool) (s : string) (tbl : GrantTable)
    : GrantTable * Z :=
  ((fun row => if rls_visible env c (row_TenantID row) && p row then set_row_Status row s else row) <$> tbl,
   count_where c p tbl).

Definition Create (grant : Grant) : GrantTable -> GrantTable * result error unit :=
  WithTenant env (TenantID grant) (fun c tbl =>
    let params := grantToInsertParams grant in
    let key := (row_ID params, row_TenantID params) in
    if negb (rls_visible env c (row_TenantID params))
    then (tbl, Err (mapDelegationError rls_check_error))
    else if negb (row_constraints params) then (tbl, Err (mapDelegationError constraint_error))
    else match tbl !! key with
         | Some _ => (tbl, Err (mapDelegationError unique_error))
         | None =>
             if negb (db_tenants env (row_TenantID params)) then (tbl, Err (mapDelegationError tenant_fk_error))
             else (<[key := params]> tbl, Ok tt)
         end).

Definition GetByID (tenantID grantID : UUID) : GrantTable -> GrantTable * result error Grant :=
  WithTenant env tenantID (fun c tbl =>
    match visible c tbl !! (grantID, tenantID) with
    | Some row => (tbl, Ok (rowToGrant row))
    | None =>
        if bool_decide (db_no_rows env = ESqlNoRows) then (tbl, Err (ErrNotFound : error))
        else (tbl, Err (mapDelegationError (db_no_rows env)))
    end).

Definition by_id (tenantID grantID : UUID) (row : delegationGrantRow) : bool :=
  bool_decide (row_TenantID row = tenantID) && bool_decide (row_ID row = grantID).

Definition UpdateStatus (tenantID grantID : UUID) (status : GrantStatus)
    : GrantTable -> GrantTable * result error unit :=
  WithTenant env tenantID (fun c tbl =>
    let '(tbl', affected) := update_where c (by_id tenantID grantID) (status_text status) tbl in
    if affected =? 0 then (tbl, Err (ErrNotFound : error))
    else if negb (status_check (status_text status)) then (tbl, Err (mapDelegationError constraint_error))
    else (tbl', Ok tt)).

Definition active_child (tenantID parentGrantID : UUID) (row : delegationGrantRow) : bool :=
  bool_decide (row_TenantID row = tenantID) &&
  bool_decide (row_ParentGrantID row = Some parentGrantID) &&
  bool_decide (row_Status row = "active").

Definition repo_CountActiveChildren (tenantID parentGrantID : UUID) : GrantTable -> GrantTable * result error Z :=
  WithTenant env tenantID (fun c tbl =>
    (tbl, Ok (count_where c (active_child tenantID parentGrantID) tbl))).

Definition in_chain_with (status : string) (tenantID chainID : UUID) (row : delegationGrantRow) : bool :=
  bool_decide (row_TenantID row = tenantID) && bool_decide (row_ChainID row = chainID) &&
  bool_decide (row_Status row = status).

Definition repo_GetChainGeneration (tenantID chainID : UUID) : GrantTable -> GrantTable * result error Z :=
  WithTenant env tenantID (fun c tbl =>
    (tbl, Ok (count_where c (in_chain_with "revoked" tenantID chainID) tbl))).

(** [ORDER BY depth ASC]; PostgreSQL leaves the order of equal depths open and
    the model keeps the table's. *)
Definition depth_le (a b : delegationGrantRow) : Prop := row_Depth a <= row_Depth b.
#[global] Instance depth_le_dec : RelDecision depth_le.
Proof. intros a b. unfold depth_le. apply _. Defined.

Definition ListByChain (tenantID chainID : UUID) : GrantTable -> GrantTable * result error (list Grant) :=
  WithTenant env tenantID (fun c tbl =>
    (tbl, Ok (rowToGrant <$> merge_sort depth_le
      (List.filter (fun row => bool_decide (row_TenantID row = tenantID) &&
                               bool_decide (row_ChainID row = chainID))
         (snd <$> map_to_list (visible c tbl)))))).

Definition RevokeByChain (tenantID chainID : UUID) : GrantTable -> GrantTable * result error unit :=
  WithTenant env tenantID (fun c tbl =>
    (fst (update_where c (in_chain_with "active" tenantID chainID) "revoked" tbl), Ok tt)).
End Repository.

Arguments update_where : simpl never.
Arguments count_where : simpl never.

(** * The budget pools in Redis *)

(** The decimal text a pool key holds, as its number: the script reads and
    writes integers only, and Lua's doubles carry them exactly up to 2^53. *)
Abbreviation RedisStore := (gmap string Z).

Definition budgetKey (chainID : UUID) : string := "delegation:budget:" +:+ uuid_String chainID.

(** [budgetDecrementLuaScript]; Redis runs it atomically. *)
Definition budgetDecrementLuaScript (key : string) (amount : Z) (store : RedisStore) : RedisStore * Z :=
  let amount := if amount <=? 0 then 1 else amount in
  match store !! key with
  | None => (store, -1)
  | Some current =>
      if current <? amount then (store, -1)
      else (<[key := current - amount]> store, current - amount)
  end.

Section Budget.
(** [Some e] when Redis cannot be reached. *)
Variable outage : option error.

Definition InitBudget (chainID : UUID) (budget : Z) (store : RedisStore) : RedisStore * result error unit :=
  match outage with
  | Some e => (store, Err (EWrap "init budget" e))
  | None => (<[budgetKey chainID := budget]> store, Ok tt)
  end.

Definition redis_DecrementBudget (chainID : UUID) (amount : Z) (store : RedisStore) : RedisStore * result error Z :=
  let amount := if amount <=? 0 then 1 else amount in
  match outage with
  | Some e => (store, Err (EWrap "decrement budget" e))
  | None =>
      let '(store', result) := budgetDecrementLuaScript (budgetKey chainID) amount store in
      if result <? 0 then (store', Err (ErrBudgetExhausted : error)) else (store', Ok result)
  end.
End Budget.

(** * The world of the delegation middleware *)

Record DelegationWorld := mkDW {
  dw_now : Z;
  dw_grants : GrantTable;
  dw_redis : RedisStore;
  dw_env : DbEnv;
  dw_redis_outage : option error;
}.

Definition set_redis (w : DelegationWorld) (s : RedisStore) : DelegationWorld :=
  mkDW (dw_now w) (dw_grants w) s (dw_env w) (dw_redis_outage w).
Definition set_grants (w : DelegationWorld) (t : GrantTable) : DelegationWorld :=
  mkDW (dw_now w) t (dw_redis w) (dw_env w) (dw_redis_outage w).

#[global] Instance DW_clock : Clock DelegationWorld := dw_now.
#[global] Instance DW_repository : DelegationRepository DelegationWorld := {
  CountActiveChildren t g w := snd (repo_CountActiveChildren (dw_env w) t g (dw_grants w));
  GetChainGeneration t c w := snd (repo_GetChainGeneration (dw_env w) t c (dw_grants w));
}.
#[global] Instance DW_budget : DelegationBudgetDecrementor DelegationWorld := {
  DecrementBudget c n w :=
    let '(s, r) := redis_DecrementBudget (dw_redis_outage w) c n (dw_redis w) in (set_redis w s, r);
}.

(** * Lemmas *)

Lemma budgetKey_inj c d : budgetKey c = budgetKey d -> c = d.
Proof. unfold budgetKey. intros H%(inj (String.append _)). by apply (inj uuid_String). Qed.

(** A decrement either takes its amount off a sufficient pool or changes nothing. *)
Lemma decrement_cases o c n s :
  let a := if n <=? 0 then 1 else n in
  (exists cur, s !! budgetKey c = Some cur /\ a <= cur /\
     redis_DecrementBudget o c n s = (<[budgetKey c := cur - a]> s, Ok (cur - a))) \/
  (exists e, redis_DecrementBudget o c n s = (s, Err e)).
Proof.
  intros a. unfold redis_DecrementBudget. destruct o as [e|]; [eauto|].
  assert (0 < a) as Ha. { unfold a. destruct (Z.leb_spec n 0); lia. }
  fold a. unfold budgetDecrementLuaScript. destruct (Z.leb_spec a 0); [lia|].
  destruct (s !! budgetKey c) as [cur|] eqn:Hs; [|simpl; eauto].
  destruct (Z.ltb_spec cur a); [simpl; eauto|].
  destruct (Z.ltb_spec (cur - a) 0); [lia|]. left. exists cur. eauto.
Qed.

(** Any interleaving of clients' decrements is a sequence of script runs; the
    list collects what was granted to whom. *)
Fixpoint drain (o : option error) (ops : list (UUID * Z)) (s : RedisStore) : RedisStore * list (UUID * Z) :=
  match ops with
  | [] => (s, [])
  | (c, n) :: rest =>
      match redis_DecrementBudget o c n s with
      | (s', Ok _) =>
          let '(s'', g) := drain o rest s' in (s'', (c, if n <=? 0 then 1 else n) :: g)
      | (s', Err _) => drain o rest s'
      end
  end.

Definition granted_to (c : UUID) (l : list (UUID * Z)) : Z :=
  fold_right (fun '(d, n) acc => (if bool_decide (d = c) then n else 0) + acc) 0 l.

Lemma drain_conserves o ops : forall s c cur,
  s !! budgetKey c = Some cur -> 0 <= cur ->
  exists rest, fst (drain o ops s) !! budgetKey c = Some rest /\ 0 <= rest /\
    rest + granted_to c (snd (drain o ops s)) = cur.
Proof.
  induction ops as [|[d n] ops IH]; intros s c cur Hs Hcur; simpl.
  { exists cur. split; [done|]. simpl. lia. }
  destruct (decrement_cases o d n s) as [(k & Hk & Hle & ->)|[e ->]]; [|by apply IH].
  set (a := if n <=? 0 then 1 else n) in *.
  destruct (decide (d = c)) as [->|Hne].
  - rewrite Hs in Hk. injection Hk as <-.
    destruct (IH (<[budgetKey c := cur - a]> s) c (cur - a)) as (rest & ? & ? & ?);
      [by simplify_map_eq|lia|].
    destruct (drain o ops _) as [s'' g] eqn:E. simpl in *. exists rest.
    rewrite bool_decide_eq_true_2 by done. split; [done|]. lia.
  - assert (budgetKey d <> budgetKey c) by (intros ?%budgetKey_inj; done).
    destruct (IH (<[budgetKey d := k - a]> s) c cur) as (rest & ? & ? & ?);
      [by rewrite lookup_insert_ne|done|].
    destruct (drain o ops _) as [s'' g] eqn:E. simpl in *. exists rest.
    rewrite bool_decide_eq_false_2 by done. split; [done|]. lia.
Qed.

Lemma drain_uninitialised o ops : forall s c,
  s !! budgetKey c = None ->
  fst (drain o ops s) !! budgetKey c = None /\ granted_to c (snd (drain o ops s)) = 0.
Proof.
  induction ops as [|[d n] ops IH]; intros s c Hs; simpl; [done|].
  destruct (decrement_cases o d n s) as [(k & Hk & Hle & ->)|[e ->]]; [|by apply IH].
  assert (d <> c) as Hne by congruence.
  assert (budgetKey d <> budgetKey c) by (intros ?%budgetKey_inj; done).
  set (a := if n <=? 0 then 1 else n) in *.
  destruct (IH (<[budgetKey d := k - a]> s) c) as [? ?]; [by rewrite lookup_insert_ne|].
  destruct (drain o ops _) as [s'' g] eqn:E. simpl in *.
  rewrite bool_decide_eq_false_2 by done. split; [done|lia].
Qed.

(** ** Serving a sequence of requests *)

(** The requests the middleware passes on, in order. *)
Fixpoint serve (cfg : DelegationConfig) (reqs : list Request) (w : DelegationWorld)
    : DelegationWorld * list Request :=
  match reqs with
  | [] => (w, [])
  | r :: rest =>
      match delegation_gate cfg r w with
      | (w', inl _) => serve cfg rest w'
      | (w', inr _) => let '(w'', ok) := serve cfg rest w' in (w'', r :: ok)
      end
  end.

(** A request that must draw on the pool of chain [c]. *)
Definition draws_on (c : UUID) (r : Request) : bool :=
  match GetTenantID r, GetGrantFromContext r with
  | Some _, Some g => bool_decide (ChainID g = c) && (BudgetRemaining g >? 0)
  | _, _ => false
  end.

(** One unit is drawn; or none, and then the answer is the configuration's. *)
Lemma budget_step_cases cfg g w :
  (BudgetRemaining g <= 0 /\ budget_step cfg g w = (w, None)) \/
  (0 < BudgetRemaining g /\ exists cur, dw_redis w !! budgetKey (ChainID g) = Some cur /\ 1 <= cur /\
     budget_step cfg g w = (set_redis w (<[budgetKey (ChainID g) := cur - 1]> (dw_redis w)), None)) \/
  (0 < BudgetRemaining g /\ exists w' resp, dw_redis w' = dw_redis w /\ budget_step cfg g w = (w', resp) /\
     (resp = None <-> cfg_FailOpen cfg = true)).
Proof.
  unfold budget_step. rewrite Z.gtb_ltb.
  destruct (Z.ltb_spec 0 (BudgetRemaining g)); [|left; split; [lia|done]]. right.
  simpl. destruct (decrement_cases (dw_redis_outage w) (ChainID g) 1 (dw_redis w))
    as [(cur & Hcur & Hle & ->)|[e ->]]; simpl in *.
  - left. split; [done|]. exists cur. destruct (Z.ltb_spec (cur - 1) 0); [lia|]. eauto.
  - right. split; [done|]. destruct (cfg_FailOpen cfg); simpl; (eexists _, _; split; [|split; [reflexivity|]]; done).
Qed.

(** The units a request admitted or refused has to account for. *)
Definition due (c : UUID) (r : Request) (out : Response + Request) : Z :=
  match out with inr _ => if draws_on c r then 1 else 0 | inl _ => 0 end.

(** One request against the pool of one chain. *)
Lemma gate_pool cfg r w c cur :
  dw_redis w !! budgetKey c = Some cur -> 0 <= cur ->
  exists w' out rest, delegation_gate cfg r w = (w', out) /\ dw_redis w' !! budgetKey c = Some rest /\
    0 <= rest <= cur /\ cur - rest <= due c r out /\ (cfg_FailOpen cfg = false -> rest = cur - due c r out).
Proof.
  intros Hcur Hpos. unfold delegation_gate, due, draws_on.
  assert (Hkeep : forall n, 0 <= n -> (cfg_FailOpen cfg = false -> n = 0) ->
    0 <= cur <= cur /\ cur - cur <= n /\ (cfg_FailOpen cfg = false -> cur = cur - n)).
  { intros n Hn Hn0. split; [lia|]. split; [lia|]. intros Ho. rewrite (Hn0 Ho). lia. }
  destruct (GetTenantID r) as [t|]; [|eexists _, _, cur; split; [done|]; split; [done|]; lia].
  destruct (GetGrantFromContext r) as [g|]; [|eexists _, _, cur; split; [done|]; split; [done|]; lia].
  destruct (validate_grant cfg t g r w); [eexists _, _, cur; split; [done|]; split; [done|]; lia|].
  destruct (budget_step_cases cfg g w)
    as [[Hb ->]|[(Hb & k & Hk & Hle & ->)|(Hb & w' & resp & Hr & -> & Hresp)]]; rewrite Z.gtb_ltb.
  - eexists _, _, cur. split; [done|]. split; [done|].
    destruct (Z.ltb_spec 0 (BudgetRemaining g)); [lia|]. rewrite andb_false_r. lia.
  - destruct (Z.ltb_spec 0 (BudgetRemaining g)); [|lia]. rewrite andb_true_r. case_bool_decide as Hc.
    + subst c. rewrite Hcur in Hk. injection Hk as <-.
      eexists _, _, (cur - 1). split; [done|]. simpl. rewrite lookup_insert_eq. split; [done|]. lia.
    + eexists _, _, cur. split; [done|]. simpl.
      rewrite lookup_insert_ne by (intros ?%budgetKey_inj; done). split; [done|]. lia.
  - destruct resp as [resp|]; (eexists _, _, cur; split; [done|]; rewrite Hr; split; [done|]); [lia|].
    apply Hkeep; [by destruct (_ && _)|]. rewrite (proj1 Hresp eq_refl). done.
Qed.

Lemma serve_pool cfg reqs : forall w c cur,
  dw_redis w !! budgetKey c = Some cur -> 0 <= cur ->
  let n := Z.of_nat (length (List.filter (draws_on c) (snd (serve cfg reqs w)))) in
  exists rest, dw_redis (fst (serve cfg reqs w)) !! budgetKey c = Some rest /\ 0 <= rest <= cur /\
    cur - rest <= n /\ (cfg_FailOpen cfg = false -> rest + n = cur).
Proof.
  induction reqs as [|r reqs IH]; intros w c cur Hcur Hpos; simpl.
  { exists cur. simpl. split; [done|lia]. }
  destruct (gate_pool cfg r w c cur Hcur Hpos) as (w' & out & k & -> & Hk & Hk0 & Hdue & Hkeq).
  destruct (IH w' c k Hk ltac:(lia)) as (rest & ? & ? & ? & Hsum).
  destruct out as [resp|r']; simpl in Hdue, Hkeq; 
    [exists rest; split; [done|]; split; [lia|]; split; [lia|]; intros E; specialize (Hsum E); specialize (Hkeq E); lia|].
  destruct (serve cfg reqs w') as [w'' ok]. simpl in *. exists rest. split; [done|]. split; [lia|].
  destruct (draws_on c r); simpl in *; (split; [lia|]); intros E; specialize (Hsum E); specialize (Hkeq E); lia.
Qed.

(** ** Counting rows *)

Lemma count_where_spec env c p tbl :
  count_where env c p tbl =
  Z.of_nat (map_count (fun row => rls_visible env c (row_TenantID row) && p row) tbl).
Proof. unfold count_where, visible, map_count. by rewrite map_select_select. Qed.

Lemma count_where_zero env c p tbl :
  count_where env c p tbl = 0 <->
  forall k row, tbl !! k = Some row -> rls_visible env c (row_TenantID row) && p row = false.
Proof. rewrite count_where_spec, <- map_count_zero. lia. Qed.

(** Revoking adds the chain's active rows to its revoked ones. *)
Lemma revoked_after_revoke env c t ch tbl :
  count_where env c (in_chain_with "revoked" t ch)
    (fst (update_where env c (in_chain_with "active" t ch) "revoked" tbl)) =
  count_where env c (in_chain_with "revoked" t ch) tbl +
  count_where env c (in_chain_with "active" t ch) tbl.
Proof.
  rewrite !count_where_spec. unfold update_where. simpl. rewrite map_count_fmap, <- Nat2Z.inj_add. f_equal.
  rewrite <- map_count_orb.
  - apply map_count_ext. intros k row _.
    destruct (rls_visible env c (row_TenantID row)) eqn:Hv; simpl.
    + destruct (in_chain_with "active" t ch row) eqn:Ha; simpl; rewrite Hv; simpl;
        [|by rewrite orb_false_r].
      rewrite orb_true_r. unfold in_chain_with in *. simpl. reflect_bools.
      by rewrite !bool_decide_eq_true_2.
    + by rewrite Hv.
  - unfold in_chain_with. intros row ? ?. reflect_bools. congruence.
Qed.

(** With no visible active row there is nothing to revoke. *)
Lemma update_where_none env c p s tbl :
  count_where env c p tbl = 0 -> fst (update_where env c p s tbl) = tbl.
Proof.
  rewrite count_where_zero. intros Hz. unfold update_where. simpl. apply map_eq. intros k.
  rewrite lookup_fmap. destruct (tbl !! k) as [row|] eqn:Hk; [|done].
  simpl. by rewrite (Hz k row Hk).
Qed.

(** On a pool connection row-level security hides every row. *)
Lemma count_where_pool env p tbl :
  db_bypass_rls env = false -> count_where env pool_conn p tbl = 0.
Proof.
  intros Hb. apply count_where_zero. intros k row _. by rewrite rls_visible_pool, Hb.
Qed.

(** A status with a text of the schema is one of the five constants. *)
Definition known_status (s : GrantStatus) : bool :=
  match s with GrantStatusOther _ => false | _ => true end.

Lemma rowToGrant_params g :
  known_status (Status g) = true ->
  is_int32 (Depth g) -> is_int32 (Generation g) -> is_int32 (BudgetRemaining g) ->
  rowToGrant (grantToInsertParams g) = g.
Proof.
  intros Hst Hd Hg Hb. destruct g as [gid pid ch t di sc ri hc d gen ex bud st].
  unfold rowToGrant, grantToInsertParams. simpl in *. rewrite !int32_wrap_id by done.
  f_equal; [by destruct sc|]. by destruct st.
Qed.

(** * Properties *)

(** conservation of a chain's budget pool. Whatever decrements any number of
    clients issue, in any order and with any amounts, and whether or not Redis
    answers, the pool stays non-negative and the amounts granted on the chain
    add up to exactly what left the pool; a chain whose pool was never
    initialised is granted nothing. *)
Theorem budget_pool_conservation (o : option error) (ops : list (UUID * Z)) (s : RedisStore) (c : UUID) :
  match s !! budgetKey c with
  | Some cur => 0 <= cur ->
      exists rest, fst (drain o ops s) !! budgetKey c = Some rest /\ 0 <= rest /\
        rest + granted_to c (snd (drain o ops s)) = cur
  | None => fst (drain o ops s) !! budgetKey c = None /\ granted_to c (snd (drain o ops s)) = 0
  end.
Proof.
  destruct (s !! budgetKey c) as [cur|] eqn:Hs.
  - intros Hcur. by apply drain_conserves.
  - by apply drain_uninitialised.
Qed.

Lemma unbudgeted_passes cfg r w t g :
  GetTenantID r = Some t -> GetGrantFromContext r = Some g ->
  BudgetRemaining g <= 0 -> admissible cfg t g r w ->
  delegation_gate cfg r w = (w, inr (with_ctx r (delegated_ctx r g))).
Proof.
  intros Ht Hg Hb Ha. unfold delegation_gate. rewrite Ht, Hg.
  rewrite (proj2 (validate_grant_None _ _ _ _ _)) by done.
  unfold budget_step. rewrite Z.gtb_ltb.
  destruct (Z.ltb_spec 0 (BudgetRemaining g)); [lia|done].
Qed.

(** C1: A chain's pool over any sequence of requests, of any tenants and chains. A
    request draws on it when its grant belongs to the chain and itself states a
    positive budget. Configured to fail closed, the middleware admits exactly as
    many drawing requests as units leave the pool, which never goes below zero.
    Configured to fail open it refuses none for its budget, and no more units leave
    than drawing requests are admitted. In both, a grant that states no positive
    budget is admitted, if it is admissible, without a look at the pool: the
    statement in the grant is trusted that far. *)
Theorem delegation_budget_enforced cfg reqs w c cur :
  dw_redis w !! budgetKey c = Some cur -> 0 <= cur ->
  let admitted := snd (serve cfg reqs w) in
  let drawn := Z.of_nat (length (List.filter (draws_on c) admitted)) in
  (exists rest, dw_redis (fst (serve cfg reqs w)) !! budgetKey c = Some rest /\ 0 <= rest <= cur /\
    cur - rest <= drawn /\ (cfg_FailOpen cfg = false -> rest + drawn = cur)) /\
  (cfg_FailOpen cfg = true -> forall g w, snd (budget_step cfg g w) = None) /\
  (forall r w t g, GetTenantID r = Some t -> GetGrantFromContext r = Some g ->
    BudgetRemaining g <= 0 -> admissible cfg t g r w ->
    delegation_gate cfg r w = (w, inr (with_ctx r (delegated_ctx r g)))).
Proof.
  intros Hcur Hpos. split; [by apply serve_pool|]. split; [|intros *; apply unbudgeted_passes].
  intros Ho g w'. destruct (budget_step_cases cfg g w') as [[_ ->]|[(_ & k & _ & _ & ->)|(_ & w2 & resp & _ & -> & Hr)]]; [done..|].
  by apply Hr.
Qed.

(** the pool is consulted only when the grant itself claims a positive budget:
    an admissible grant that states a non-positive [BudgetRemaining] is passed on
    by a fail-closed middleware even when its chain's pool is empty or Redis is
    down. *)
Theorem unbudgeted_grant_bypasses_pool cfg r w t g :
  GetTenantID r = Some t -> GetGrantFromContext r = Some g ->
  BudgetRemaining g <= 0 -> admissible cfg t g r w ->
  delegation_gate cfg r w = (w, inr (with_ctx r (delegated_ctx r g))).
Proof. apply unbudgeted_passes. Qed.

(** chain revocation. When the repository's statements see the table,
    [RevokeByChain] on a chain with an active grant raises its generation above
    every grant issued so far, so from then on the middleware answers 403 to any
    grant of that chain whose generation is not newer; on a chain whose grants
    are all still only issued it changes nothing. *)
Theorem chain_revocation (cfg : DelegationConfig) (env : DbEnv) (tbl : GrantTable) (t ch : UUID) :
  db_bypass_rls env = true -> db_outage env = None ->
  let gen := count_where env pool_conn (in_chain_with "revoked" t ch) tbl in
  let tbl' := fst (RevokeByChain env t ch tbl) in
  snd (repo_GetChainGeneration env t ch tbl) = Ok gen /\
  (0 < count_where env pool_conn (in_chain_with "active" t ch) tbl ->
   forall now s o r g, GetTenantID r = Some t -> GetGrantFromContext r = Some g ->
     ChainID g = ch -> Generation g <= gen ->
     exists resp, delegation_gate cfg r (mkDW now tbl' s env o) = (mkDW now tbl' s env o, inl resp) /\
       StatusCode resp = StatusForbidden) /\
  (count_where env pool_conn (in_chain_with "active" t ch) tbl = 0 -> tbl' = tbl).
Proof.
  intros Hb Ho gen tbl'. unfold tbl', RevokeByChain, repo_GetChainGeneration, WithTenant.
  rewrite Ho. split; [done|]. split; [|apply update_where_none].
  intros Hact now s o r g Ht Hg Hch Hgen. unfold delegation_gate. rewrite Ht, Hg.
  destruct (validate_grant cfg t g r _) as [resp|] eqn:Hv.
  - exists resp. split; [done|]. by eapply validate_grant_403.
  - exfalso. apply validate_grant_None in Hv as [_ _ _ _ _ _ Hnew _ _].
    assert (GetChainGeneration t (ChainID g)
      (mkDW now (fst (update_where env pool_conn (in_chain_with "active" t ch) "revoked" tbl)) s env o) =
      Ok (gen + count_where env pool_conn (in_chain_with "active" t ch) tbl)) as Hg'.
    { unfold gen. rewrite <- revoked_after_revoke, Hch. simpl.
      unfold repo_GetChainGeneration, WithTenant. by rewrite Ho. }
    specialize (Hnew _ Hg'). lia.
Qed.

(** every statement of the delegation repository goes through the pool, so with
    row-level security in force (a role that does not bypass it) it sees no row:
    the chain generation and the number of active children read as zero whatever
    the table holds, no grant can be read or created, and a revocation changes
    nothing. *)
Theorem delegation_repo_blind_under_rls (env : DbEnv) (tbl : GrantTable) (t c : UUID) (g : Grant) :
  db_bypass_rls env = false -> db_outage env = None ->
  snd (repo_GetChainGeneration env t c tbl) = Ok 0 /\
  snd (repo_CountActiveChildren env t c tbl) = Ok 0 /\
  fst (RevokeByChain env t c tbl) = tbl /\
  is_ok (snd (GetByID env t c tbl)) = false /\
  Create env g tbl = (tbl, Err rls_check_error).
Proof.
  intros Hb Ho.
  unfold repo_GetChainGeneration, repo_CountActiveChildren, RevokeByChain, GetByID, Create, WithTenant.
  rewrite Ho. simpl. rewrite !count_where_pool by done.
  split; [done|]. split; [done|].
  split; [by apply update_where_none, count_where_pool|]. split.
  - destruct (visible env pool_conn tbl !! (c, t)) as [row|] eqn:Hr; [|by case_bool_decide].
    apply map_select_lookup in Hr as [_ Hr]. rewrite rls_visible_pool in Hr. congruence.
  - rewrite rls_visible_pool, Hb. reflexivity.
Qed.

(** storing a grant and reading it back gives the grant, when the role sees the
    row, its tenant exists, its numbers fit 32 bits and its scope, status and classification are
    ones the schema accepts; a second [Create] with the same key is a conflict. *)
Theorem grant_store_roundtrip (env : DbEnv) (tbl : GrantTable) (g : Grant) :
  db_bypass_rls env = true -> db_outage env = None -> db_tenants env (TenantID g) = true ->
  tbl !! (GrantID g, TenantID g) = None ->
  row_constraints (grantToInsertParams g) = true -> known_status (Status g) = true ->
  is_int32 (Depth g) -> is_int32 (Generation g) -> is_int32 (BudgetRemaining g) ->
  exists tbl', Create env g tbl = (tbl', Ok tt) /\
    snd (GetByID env (TenantID g) (GrantID g) tbl') = Ok g /\
    Create env g tbl' = (tbl', Err (ErrConflict : error)).
Proof.
  intros Hb Ho Htn Hnone Hrow Hst Hd Hg Hbud. unfold Create, GetByID, WithTenant. rewrite Ho.
  rewrite rls_visible_pool, Hb, Hrow. simpl. rewrite Hnone, Htn.
  eexists. split; [reflexivity|]. rewrite lookup_insert_eq. split; [|reflexivity].
  assert (visible env pool_conn (<[(GrantID g, TenantID g) := grantToInsertParams g]> tbl)
    !! (GrantID g, TenantID g) = Some (grantToInsertParams g)) as ->.
  { apply map_select_lookup. rewrite lookup_insert_eq, rls_visible_pool. done. }
  simpl. f_equal. by apply rowToGrant_params.
Qed.

(** ** Concrete instances *)

Definition ex_tenant : UUID := uuid_n 1.
Definition ex_chain : UUID := uuid_n 2.
Definition ex_user : UUID := uuid_n 3.

Definition ex_grant (budget gen : Z) (st : GrantStatus) : Grant :=
  mkGrant (uuid_n 4) None ex_chain ex_tenant "agent-b" ["read:data"; "write:data"] "summarise"
    "none" 1 gen 1000 budget st.

Definition ex_cfg : DelegationConfig := mkDelegationConfig true true 5 10 false.
Definition ex_env (bypass : bool) : DbEnv := mkDbEnv bypass (EOther "no rows in result set") None (fun _ => true).

(** A request of [ex_user], who holds only ["read:data"], presenting a grant. *)
Definition ex_request (g : Grant) : Request :=
  mkRequest "POST" "/v1/chat/completions" "" "" (SetGrantInContext
    (mkContext None (Some ex_user) (Some ex_tenant) None (Some ["read:data"]) None None None) (Some g)).

Definition ex_table : GrantTable :=
  {[ (uuid_n 4, ex_tenant) := grantToInsertParams (ex_grant 3 0 GrantStatusActive) ]}.
Definition ex_world (pool : Z) : DelegationWorld :=
  mkDW 10 ex_table {[ budgetKey ex_chain := pool ]} (ex_env true) None.

Definition next_ok : Handler DelegationWorld := fun _ w => (w, mkResponse StatusOK "").

Lemma ex_generation_le gen pool :
  0 <= gen -> forall n, GetChainGeneration ex_tenant ex_chain (ex_world pool) = Ok n -> n <= gen.
Proof.
  intros Hgen n. enough (GetChainGeneration ex_tenant ex_chain (ex_world pool) = Ok 0) as -> by congruence.
  vm_compute. reflexivity.
Qed.

Lemma ex_admissible budget gen st pool :
  IsTerminal st = false -> 0 <= gen ->
  admissible ex_cfg ex_tenant (ex_grant budget gen st) (ex_request (ex_grant budget gen st)) (ex_world pool).
Proof.
  intros Hst Hgen. constructor.
  - reflexivity.
  - exact Hst.
  - vm_compute. discriminate.
  - right. exists "read:data". vm_compute. split; repeat constructor.
  - reflexivity.
  - vm_compute. intros H. inversion H.
  - apply ex_generation_le, Hgen.
  - intros root H. injection H as <-. split; [reflexivity|apply Z.le_refl].
  - intros H. destruct (Bool.diff_false_true H).
Qed.

(** A budget claim of zero, an empty pool, and still admitted. *)
Lemma ex_unbudgeted_admitted :
  let g := ex_grant 0 0 GrantStatusActive in
  delegation_gate ex_cfg (ex_request g) (ex_world 0) =
    (ex_world 0, inr (with_ctx (ex_request g) (delegated_ctx (ex_request g) g))).
Proof. vm_compute. reflexivity. Qed.

Lemma delegation_middleware_decides_witness :
  exists mw, NewDelegation (W := DelegationWorld) ex_cfg = Ok mw /\
    match GetTenantID (ex_request (ex_grant 3 0 GrantStatusActive)),
          GetGrantFromContext (ex_request (ex_grant 3 0 GrantStatusActive)) with
    | Some t, Some g =>
        let r := ex_request (ex_grant 3 0 GrantStatusActive) in
        (~ admissible ex_cfg t g r (ex_world 5) /\
         exists resp, mw next_ok r (ex_world 5) = (ex_world 5, resp) /\ StatusCode resp = StatusForbidden) \/
        (admissible ex_cfg t g r (ex_world 5) /\
         ((exists w' resp, budget_step ex_cfg g (ex_world 5) = (w', Some resp) /\
             mw next_ok r (ex_world 5) = (w', resp)) \/
          (exists w', budget_step ex_cfg g (ex_world 5) = (w', None) /\
             mw next_ok r (ex_world 5) = next_ok (with_ctx r (delegated_ctx r g)) w')))
    | _, _ => False
    end.
Proof.
  eexists. split; [reflexivity|].
  exact (delegation_middleware_decides ex_cfg _ next_ok
    (ex_request (ex_grant 3 0 GrantStatusActive)) (ex_world 5) eq_refl).
Defined.

Lemma budget_pool_conservation_witness :
  exists rest, fst (drain None [(ex_chain, 2); (uuid_n 9, 1); (ex_chain, 4); (ex_chain, 3)]
                     {[ budgetKey ex_chain := 5 ]}) !! budgetKey ex_chain = Some rest /\ 0 <= rest /\
    rest + granted_to ex_chain (snd (drain None [(ex_chain, 2); (uuid_n 9, 1); (ex_chain, 4); (ex_chain, 3)]
                     {[ budgetKey ex_chain := 5 ]})) = 5.
Proof.
  exact (budget_pool_conservation None [(ex_chain, 2); (uuid_n 9, 1); (ex_chain, 4); (ex_chain, 3)]
    {[ budgetKey ex_chain := 5 ]} ex_chain ltac:(lia)).
Defined.

Lemma delegation_budget_enforced_witness :
  let reqs := replicate 4 (ex_request (ex_grant 3 0 GrantStatusActive)) in
  length (snd (serve ex_cfg reqs (ex_world 2))) = 2%nat /\
  exists rest, dw_redis (fst (serve ex_cfg reqs (ex_world 2))) !! budgetKey ex_chain = Some rest /\
    rest + Z.of_nat (length (List.filter (draws_on ex_chain) (snd (serve ex_cfg reqs (ex_world 2))))) = 2.
Proof.
  split; [vm_compute; reflexivity|].
  destruct (delegation_budget_enforced ex_cfg (replicate 4 (ex_request (ex_grant 3 0 GrantStatusActive))) (ex_world 2) ex_chain 2)
    as [(rest & Hrest & _ & _ & Hsum) _]; [reflexivity|lia|].
  exists rest. split; [exact Hrest|]. exact (Hsum eq_refl).
Defined.

Lemma unbudgeted_grant_bypasses_pool_witness :
  let g := ex_grant 0 0 GrantStatusActive in
  delegation_gate ex_cfg (ex_request g) (ex_world 0) =
    (ex_world 0, inr (with_ctx (ex_request g) (delegated_ctx (ex_request g) g))).
Proof.
  apply (unbudgeted_grant_bypasses_pool ex_cfg _ (ex_world 0) ex_tenant);
    [reflexivity|reflexivity|simpl; lia|by apply ex_admissible].
Defined.

Lemma chain_revocation_witness :
  let r := ex_request (ex_grant 3 0 GrantStatusActive) in
  let w := mkDW 10 (fst (RevokeByChain (ex_env true) ex_tenant ex_chain ex_table)) ∅ (ex_env true) None in
  exists resp, delegation_gate ex_cfg r w = (w, inl resp) /\ StatusCode resp = StatusForbidden.
Proof.
  destruct (chain_revocation ex_cfg (ex_env true) ex_table ex_tenant ex_chain eq_refl eq_refl)
    as (_ & Hrev & _).
  apply (Hrev ltac:(vm_compute; reflexivity) 10 ∅ None (ex_request (ex_grant 3 0 GrantStatusActive))
    (ex_grant 3 0 GrantStatusActive)); [reflexivity..|vm_compute; discriminate].
Defined.

Lemma delegation_repo_blind_under_rls_witness :
  snd (repo_GetChainGeneration (ex_env false) ex_tenant ex_chain ex_table) = Ok 0.
Proof.
  apply (delegation_repo_blind_under_rls (ex_env false) ex_table ex_tenant ex_chain
    (ex_grant 3 0 GrantStatusActive)); reflexivity.
Defined.

Lemma grant_store_roundtrip_witness :
  exists tbl', Create (ex_env true) (ex_grant 3 0 GrantStatusIssued) ∅ = (tbl', Ok tt) /\
    snd (GetByID (ex_env true) ex_tenant (uuid_n 4) tbl') = Ok (ex_grant 3 0 GrantStatusIssued) /\
    Create (ex_env true) (ex_grant 3 0 GrantStatusIssued) tbl' = (tbl', Err (ErrConflict : error)).
Proof.
  apply (grant_store_roundtrip (ex_env true) ∅ (ex_grant 3 0 GrantStatusIssued));
    [reflexivity..|vm_compute; split; [discriminate|reflexivity]|
     vm_compute; split; [discriminate|reflexivity]|vm_compute; split; [discriminate|reflexivity]].
Defined.

(** the grant handed to the next handler is the one presented, unchanged, so
    the scope in force downstream is the granted scope and not its intersection
    with the parent's: a user who holds one scope of a two-scope grant passes the
    middleware and acts with both. *)
Theorem forwarded_scope_is_not_intersected :
  (forall cfg (r : Request) (w w' : DelegationWorld) r' g,
     GetTenantID r <> None -> GetGrantFromContext r = Some g ->
     delegation_gate cfg r w = (w', inr r') ->
     option_map EffectiveScope (GetGrantFromContext r') = Some (GrantedScope g)) /\
  exists (r r' : Request) (w w' : DelegationWorld) g x,
    delegation_gate ex_cfg r w = (w', inr r') /\ GetGrantFromContext r' = Some g /\
    x ∈ EffectiveScope g /\ x ∉ GetParentScopeFromContext r /\ GetParentScopeFromContext r <> [].
Proof.
  split.
  - intros cfg r w w' r' g Ht Hg Hgate. unfold delegation_gate in Hgate. rewrite Hg in Hgate.
    destruct (GetTenantID r) as [t|]; [|done].
    destruct (validate_grant cfg t g r w); [done|].
    destruct (budget_step cfg g w) as [w1 [resp|]]; [done|]. injection Hgate as <- <-.
    unfold delegated_ctx, GetGrantFromContext. simpl.
    by destruct (GetRootGrantFromContext r).
  - exists (ex_request (ex_grant 0 0 GrantStatusActive)).
    eexists _, (ex_world 0), _, (ex_grant 0 0 GrantStatusActive), "write:data".
    split; [apply ex_unbudgeted_admitted|]. split; [reflexivity|].
    split; [vm_compute; repeat constructor|]. split; [|vm_compute; discriminate].
    vm_compute. intros H. inversion H as [|? ? ? H']. inversion H'.
Qed.
