(* ===== verification/CircuitBreaker.v ===== *)
(** [internal/domain/model/circuitbreaker.go]: the per-provider circuit breaker.

    Time is a number of nanoseconds; every method reads the clock once and takes
    that reading as its first argument. Each method holds the breaker's mutex for
    its whole body, so a concurrent use is a sequence of method calls. *)

From stdpp Require Import base strings list numbers.
From S2P Require Import GoPrelude Errors.

Inductive CircuitBreakerState := StateClosed | StateOpen | StateHalfOpen.

#[global] Instance CircuitBreakerState_eq_dec : EqDecision CircuitBreakerState.
Proof. solve_decision. Defined.

Record CircuitBreakerConfig := mkCBConfig {
  cbc_Enabled : bool;
  cbc_FailureThreshold : Z;
  cbc_SuccessThreshold : Z;
  cbc_Timeout : Z;
  cbc_HalfOpenMaxRequests : Z;
}.

(** [lastFailureTime] is [None] for the zero [time.Time]. *)
Record CircuitBreaker := mkCB {
  failureThreshold : Z;
  successThreshold : Z;
  timeout : Z;
  halfOpenMaxRequests : Z;
  enabled : bool;
  cb_state : CircuitBreakerState;
  failureCount : Z;
  successCount : Z;
  lastFailureTime : option Z;
  halfOpenRequests : Z;
}.

#[global] Instance CircuitBreaker_eq_dec : EqDecision CircuitBreaker.
Proof. solve_decision. Defined.

Definition state_String (s : CircuitBreakerState) : string :=
  match s with StateClosed => "closed" | StateOpen => "open" | StateHalfOpen => "half-open" end.

Record CircuitBreakerStats := mkCBStats {
  cbs_State : CircuitBreakerState;
  cbs_FailureCount : Z;
  cbs_SuccessCount : Z;
  cbs_HalfOpenRequests : Z;
  cbs_LastFailureTime : option Z;
}.

Definition Stats (cb : CircuitBreaker) : CircuitBreakerStats :=
  mkCBStats (cb_state cb) (failureCount cb) (successCount cb) (halfOpenRequests cb) (lastFailureTime cb).

Definition second : Z := 1000000000.

Definition positive_or (z default : Z) : Z := if z <=? 0 then default else z.

Definition NewCircuitBreaker (config : CircuitBreakerConfig) : CircuitBreaker :=
  mkCB (positive_or (cbc_FailureThreshold config) 5)
       (positive_or (cbc_SuccessThreshold config) 2)
       (positive_or (cbc_Timeout config) (30 * second))
       (positive_or (cbc_HalfOpenMaxRequests config) 3)
       (cbc_Enabled config) StateClosed 0 0 None 0.

Definition DefaultCircuitBreakerConfig : CircuitBreakerConfig :=
  mkCBConfig true 5 2 (30 * second) 3.

(** The assignments of the methods, field by field. *)
Definition set_state (cb : CircuitBreaker) (s : CircuitBreakerState) : CircuitBreaker :=
  mkCB (failureThreshold cb) (successThreshold cb) (timeout cb) (halfOpenMaxRequests cb) (enabled cb)
    s (failureCount cb) (successCount cb) (lastFailureTime cb) (halfOpenRequests cb).
Definition set_failureCount (cb : CircuitBreaker) (n : Z) : CircuitBreaker :=
  mkCB (failureThreshold cb) (successThreshold cb) (timeout cb) (halfOpenMaxRequests cb) (enabled cb)
    (cb_state cb) n (successCount cb) (lastFailureTime cb) (halfOpenRequests cb).
Definition set_successCount (cb : CircuitBreaker) (n : Z) : CircuitBreaker :=
  mkCB (failureThreshold cb) (successThreshold cb) (timeout cb) (halfOpenMaxRequests cb) (enabled cb)
    (cb_state cb) (failureCount cb) n (lastFailureTime cb) (halfOpenRequests cb).
Definition set_lastFailureTime (cb : CircuitBreaker) (t : option Z) : CircuitBreaker :=
  mkCB (failureThreshold cb) (successThreshold cb) (timeout cb) (halfOpenMaxRequests cb) (enabled cb)
    (cb_state cb) (failureCount cb) (successCount cb) t (halfOpenRequests cb).
Definition set_halfOpenRequests (cb : CircuitBreaker) (n : Z) : CircuitBreaker :=
  mkCB (failureThreshold cb) (successThreshold cb) (timeout cb) (halfOpenMaxRequests cb) (enabled cb)
    (cb_state cb) (failureCount cb) (successCount cb) (lastFailureTime cb) n.

(** [time.Since]; since the zero time it saturates at the largest duration. *)
Definition time_Since (now : Z) (t : option Z) : Z :=
  match t with Some t => now - t | None => 2 ^ 63 - 1 end.

Definition elapsed (now : Z) (cb : CircuitBreaker) : bool :=
  time_Since now (lastFailureTime cb) >=? timeout cb.

Definition State (cb : CircuitBreaker) : CircuitBreakerState := cb_state cb.

Definition to_half_open (cb : CircuitBreaker) : CircuitBreaker :=
  set_halfOpenRequests (set_successCount (set_state cb StateHalfOpen) 0) 0.

Definition TryTransitionToHalfOpen (now : Z) (cb : CircuitBreaker) : CircuitBreaker * bool :=
  if bool_decide (cb_state cb = StateOpen) && elapsed now cb
  then (to_half_open cb, true) else (cb, false).

Definition AllowRequest (now : Z) (cb : CircuitBreaker) : CircuitBreaker * option error :=
  if negb (enabled cb) then (cb, None)
  else match cb_state cb with
  | StateClosed => (cb, None)
  | StateOpen =>
      if elapsed now cb then (to_half_open cb, None)
      else (cb, Some (ErrProviderUnavailable : error))
  | StateHalfOpen =>
      if halfOpenRequests cb >=? halfOpenMaxRequests cb
      then (cb, Some (ErrProviderUnavailable : error))
      else (set_halfOpenRequests cb (int64_wrap (halfOpenRequests cb + 1)), None)
  end.

Definition RecordSuccess (cb : CircuitBreaker) : CircuitBreaker :=
  if negb (enabled cb) then cb
  else match cb_state cb with
  | StateClosed => set_failureCount cb 0
  | StateHalfOpen =>
      let cb := set_successCount cb (int64_wrap (successCount cb + 1)) in
      if successCount cb >=? successThreshold cb
      then set_successCount (set_failureCount (set_state cb StateClosed) 0) 0
      else cb
  | StateOpen => cb
  end.

Definition RecordFailure (now : Z) (cb : CircuitBreaker) : CircuitBreaker :=
  if negb (enabled cb) then cb
  else
    let cb := set_lastFailureTime cb (Some now) in
    match cb_state cb with
    | StateClosed =>
        let cb := set_failureCount cb (int64_wrap (failureCount cb + 1)) in
        if failureCount cb >=? failureThreshold cb then set_state cb StateOpen else cb
    | StateHalfOpen => set_successCount (set_state cb StateOpen) 0
    | StateOpen => cb
    end.

Definition Reset (cb : CircuitBreaker) : CircuitBreaker :=
  set_halfOpenRequests (set_successCount (set_failureCount (set_state cb StateClosed) 0) 0) 0.

(** ** Histories *)

(** A call on the breaker. *)
Inductive cb_op := OpAllow | OpSuccess | OpFailure | OpTryHalfOpen | OpReset.

Definition cb_step (now : Z) (o : cb_op) (cb : CircuitBreaker) : CircuitBreaker :=
  match o with
  | OpAllow => fst (AllowRequest now cb)
  | OpSuccess => RecordSuccess cb
  | OpFailure => RecordFailure now cb
  | OpTryHalfOpen => fst (TryTransitionToHalfOpen now cb)
  | OpReset => Reset cb
  end.

Fixpoint cb_run (ops : list (Z * cb_op)) (cb : CircuitBreaker) : CircuitBreaker :=
  match ops with
  | [] => cb
  | (now, o) :: ops => cb_run ops (cb_step now o cb)
  end.

(** Calls to [AllowRequest] at the given times: the breaker after them and how
    many were let through. *)
Fixpoint admitted (times : list Z) (cb : CircuitBreaker) : CircuitBreaker * Z :=
  match times with
  | [] => (cb, 0)
  | now :: times =>
      let '(cb, e) := AllowRequest now cb in
      let '(cb, n) := admitted times cb in
      (cb, (if e then 0 else 1) + n)
  end.

(** ** Invariant *)

Record cb_wf (cb : CircuitBreaker) : Prop := {
  wf_ft : 0 < failureThreshold cb < 2 ^ 63;
  wf_st : 0 < successThreshold cb < 2 ^ 63;
  wf_to : 0 < timeout cb;
  wf_hm : 0 < halfOpenMaxRequests cb < 2 ^ 63;
  wf_disabled : enabled cb = false -> cb_state cb = StateClosed;
  wf_fc : 0 <= failureCount cb;
  wf_closed : cb_state cb = StateClosed -> failureCount cb < failureThreshold cb;
  wf_tripped : cb_state cb <> StateClosed ->
    failureCount cb = failureThreshold cb /\ is_Some (lastFailureTime cb);
  wf_sc : 0 <= successCount cb < successThreshold cb;
  wf_ho : 0 <= halfOpenRequests cb <= halfOpenMaxRequests cb;
}.

Definition is_int_config (c : CircuitBreakerConfig) : Prop :=
  is_int64 (cbc_FailureThreshold c) /\ is_int64 (cbc_SuccessThreshold c) /\
  is_int64 (cbc_HalfOpenMaxRequests c).

Lemma positive_or_pos z d : 0 < d < 2 ^ 63 -> is_int64 z -> 0 < positive_or z d < 2 ^ 63.
Proof. unfold positive_or, is_int64. destruct (Z.leb_spec z 0); lia. Qed.

Lemma NewCircuitBreaker_wf c : is_int_config c -> cb_wf (NewCircuitBreaker c).
Proof.
  intros (Hf & Hs & Hh).
  pose proof (positive_or_pos _ 5 ltac:(lia) Hf).
  pose proof (positive_or_pos _ 2 ltac:(lia) Hs).
  pose proof (positive_or_pos _ 3 ltac:(lia) Hh).
  constructor; simpl; try done; try lia.
  unfold positive_or, second. destruct (Z.leb_spec (cbc_Timeout c) 0); lia.
Qed.

(** The counters never overflow: each stops at its threshold. *)
Ltac cb_unfold :=
  unfold cb_step, TryTransitionToHalfOpen, AllowRequest, RecordSuccess, RecordFailure, Reset,
    to_half_open, State in *.

Lemma cb_step_wf now o cb : cb_wf cb -> cb_wf (cb_step now o cb).
Proof.
  intros [Hft Hst Hto Hhm Hdis Hfc Hcl Htr Hsc Hho].
  destruct cb as [ft st to hm en s fc sc lf ho]. simpl in *.
  destruct o; cb_unfold; simpl; destruct en, s; simpl;
    repeat split_case; simpl in *; reflect_bools;
    try (destruct (Htr ltac:(done)) as [? [? ?]]);
    try specialize (Hcl eq_refl); try specialize (Hdis eq_refl);
    rewrite ?int64_wrap_id in * by (unfold is_int64; lia);
    constructor; simpl; try done; try lia; eauto;
    try (intros; split; [lia|eauto]).
Qed.

Lemma cb_run_wf ops cb : cb_wf cb -> cb_wf (cb_run ops cb).
Proof.
  revert cb. induction ops as [|[now o] ops IH]; intros cb H; simpl; [done|].
  apply IH. by apply cb_step_wf.
Qed.

#[export] Hint Resolve cb_step_wf cb_run_wf : gateway.

(** ** Behaviour *)

Lemma AllowRequest_closed now cb :
  cb_state cb = StateClosed -> AllowRequest now cb = (cb, None).
Proof. intros H. unfold AllowRequest. rewrite H. by destruct (enabled cb). Qed.

(** Calls a request makes: asking, and reporting the outcome. *)
Definition request_op (o : cb_op) : bool :=
  match o with OpAllow | OpSuccess | OpFailure => true | _ => false end.

(** The number of failures reported since the last success, given [n] before. *)
Fixpoint failure_run (n : Z) (ops : list (Z * cb_op)) : Z :=
  match ops with
  | [] => n
  | (_, OpFailure) :: ops => failure_run (n + 1) ops
  | (_, OpSuccess) :: ops => failure_run 0 ops
  | _ :: ops => failure_run n ops
  end.

(** The longest such run reached along the history. *)
Fixpoint longest_run (n : Z) (ops : list (Z * cb_op)) : Z :=
  match ops with
  | [] => n
  | (_, OpFailure) :: ops => Z.max n (longest_run (n + 1) ops)
  | (_, OpSuccess) :: ops => Z.max n (longest_run 0 ops)
  | _ :: ops => longest_run n ops
  end.

Lemma longest_run_ge n ops : n <= longest_run n ops.
Proof.
  revert n. induction ops as [|[? []] ops IH]; intros n; simpl; try lia; eauto.
Qed.

(** Every state the breaker goes through along a history. *)
Fixpoint states_along (ops : list (Z * cb_op)) (cb : CircuitBreaker) : list CircuitBreakerState :=
  State cb :: match ops with
              | [] => []
              | (now, o) :: ops => states_along ops (cb_step now o cb)
              end.

Lemma closed_run_step now o cb :
  cb_wf cb -> enabled cb = true -> State cb = StateClosed -> request_op o = true ->
  let n := match o with OpFailure => failureCount cb + 1 | OpSuccess => 0 | _ => failureCount cb end in
  enabled (cb_step now o cb) = true /\ failureThreshold (cb_step now o cb) = failureThreshold cb /\
  failureCount (cb_step now o cb) = n /\
  State (cb_step now o cb) = (if n >=? failureThreshold cb then StateOpen else StateClosed).
Proof.
  intros [Hft _ _ _ _ Hfc Hcl _ _ _] He Hs Ho. unfold State in Hs. specialize (Hcl Hs).
  destruct o; try done; cb_unfold; rewrite He; simpl; rewrite ?Hs; simpl.
  - rewrite Z.geb_leb. destruct (Z.leb_spec (failureThreshold cb) (failureCount cb)); [lia|done].
  - rewrite Z.geb_leb. destruct (Z.leb_spec (failureThreshold cb) 0); [lia|done].
  - rewrite int64_wrap_id by (unfold is_int64; lia).
    by destruct (failureCount cb + 1 >=? failureThreshold cb).
Qed.

Lemma stays_closed_iff ops cb :
  cb_wf cb -> enabled cb = true -> State cb = StateClosed ->
  forallb (fun e => request_op (snd e)) ops = true ->
  Forall (eq StateClosed) (states_along ops cb) <-> longest_run (failureCount cb) ops < failureThreshold cb.
Proof.
  revert cb. induction ops as [|[now o] ops IH]; intros cb Hwf He Hs Hops.
  - simpl. rewrite Hs, list.Forall_singleton. pose proof (wf_closed _ Hwf Hs). naive_solver.
  - apply andb_true_iff in Hops as [Ho Hops]. cbn [states_along]. rewrite Hs, list.Forall_cons.
    pose proof (closed_run_step now o cb Hwf He Hs Ho) as (He' & Hft & Hfc & Hst).
    pose proof (wf_closed _ Hwf Hs) as Hlt.
    set (cb' := cb_step now o cb) in *.
    set (n := match o with OpFailure => _ | OpSuccess => _ | _ => _ end) in *.
    assert (Hrun : longest_run (failureCount cb) ((now, o) :: ops) < failureThreshold cb <->
                   longest_run n ops < failureThreshold cb).
    { subst n. destruct o; simpl; try done; lia. }
    rewrite Hrun. rewrite Z.geb_leb in Hst. revert Hst.
    destruct (Z.leb_spec (failureThreshold cb) n); intros Hst.
    + split; [|intros ?; pose proof (longest_run_ge n ops); exfalso; lia].
      intros [_ HF]. destruct ops as [|[]]; apply list.Forall_cons in HF as [? _]; congruence.
    + rewrite <- Hfc, <- Hft. rewrite IH; [|by apply cb_step_wf|done..]. naive_solver.
Qed.

Lemma open_fast_fails times cb t :
  enabled cb = true -> State cb = StateOpen -> lastFailureTime cb = Some t ->
  Forall (fun now => now < t + timeout cb) times ->
  admitted times cb = (cb, 0).
Proof.
  intros He Hs Hl. induction 1 as [|now times Hnow Hts IH]; [done|]. simpl.
  unfold AllowRequest, elapsed, State in *. rewrite He, Hs, Hl. simpl. rewrite Z.geb_leb.
  destruct (Z.leb_spec (timeout cb) (now - t)); [lia|]. by rewrite IH.
Qed.

Lemma half_open_full times cb :
  enabled cb = true -> State cb = StateHalfOpen -> halfOpenRequests cb = halfOpenMaxRequests cb ->
  admitted times cb = (cb, 0).
Proof.
  intros He Hs Hh. induction times as [|now times IH]; [done|]. simpl.
  unfold AllowRequest, State in *. rewrite He, Hs, Hh. simpl. rewrite Z.geb_leb, Z.leb_refl.
  by rewrite IH.
Qed.

Lemma half_open_admits times cb :
  cb_wf cb -> enabled cb = true -> State cb = StateHalfOpen ->
  snd (admitted times cb) =
    Z.min (Z.of_nat (length times)) (halfOpenMaxRequests cb - halfOpenRequests cb).
Proof.
  revert cb. induction times as [|now times IH]; intros cb Hwf He Hs.
  - simpl. pose proof (wf_ho _ Hwf). lia.
  - pose proof (wf_ho _ Hwf). pose proof (wf_hm _ Hwf).
    destruct (decide (halfOpenRequests cb = halfOpenMaxRequests cb)) as [E|E].
    + rewrite half_open_full by done. simpl. lia.
    + pose proof (cb_step_wf now OpAllow cb Hwf) as Hwf'. simpl in Hwf' |- *.
      unfold AllowRequest in *. unfold State in Hs. rewrite He, Hs in *. simpl in *.
      rewrite Z.geb_leb in *. destruct (Z.leb_spec (halfOpenMaxRequests cb) (halfOpenRequests cb)); [lia|].
      simpl in Hwf'. specialize (IH _ Hwf' He Hs).
      destruct (admitted times _) as [cb' n]. simpl in *.
      rewrite int64_wrap_id in IH by (unfold is_int64; lia). lia.
Qed.

(** Once the half-open budget has been handed out, nothing is admitted. *)
Lemma half_open_spent times cb later :
  cb_wf cb -> enabled cb = true -> State cb = StateHalfOpen ->
  halfOpenMaxRequests cb - halfOpenRequests cb <= Z.of_nat (length times) ->
  snd (AllowRequest later (fst (admitted times cb))) = Some (ErrProviderUnavailable : error).
Proof.
  revert cb. induction times as [|now times IH]; intros cb Hwf He Hs Hlen.
  - simpl in *. pose proof (wf_ho _ Hwf). unfold AllowRequest, State in *. rewrite He, Hs. simpl.
    rewrite Z.geb_leb. destruct (Z.leb_spec (halfOpenMaxRequests cb) (halfOpenRequests cb)); [done|lia].
  - pose proof (wf_ho _ Hwf). pose proof (wf_hm _ Hwf).
    pose proof (cb_step_wf now OpAllow cb Hwf) as Hwf'. simpl in Hwf', Hlen |- *.
    unfold AllowRequest in Hwf' |- * at 2. unfold State in Hs. rewrite He, Hs in *. simpl in *.
    rewrite Z.geb_leb in *. destruct (Z.leb_spec (halfOpenMaxRequests cb) (halfOpenRequests cb)).
    + specialize (IH cb Hwf He Hs ltac:(lia)). by destruct (admitted times cb).
    + simpl in Hwf'. specialize (IH _ Hwf' He Hs). simpl in IH.
      rewrite int64_wrap_id in IH |- * by (unfold is_int64; lia).
      specialize (IH ltac:(lia)). by destruct (admitted times _).
Qed.

Lemma open_elapsed_half_opens now cb :
  enabled cb = true -> State cb = StateOpen -> elapsed now cb = true ->
  AllowRequest now cb = (to_half_open cb, None).
Proof. intros He Hs Hel. unfold AllowRequest, State in *. by rewrite He, Hs, Hel. Qed.

Lemma to_half_open_wf now cb :
  cb_wf cb -> enabled cb = true -> State cb = StateOpen -> elapsed now cb = true ->
  cb_wf (to_half_open cb).
Proof.
  intros Hwf He Hs Hel. pose proof (cb_step_wf now OpAllow cb Hwf) as H. simpl in H.
  by rewrite open_elapsed_half_opens in H.
Qed.

Lemma closed_successes k cb :
  State cb = StateClosed -> failureCount cb = 0 ->
  State (Nat.iter k RecordSuccess cb) = StateClosed /\ failureCount (Nat.iter k RecordSuccess cb) = 0.
Proof.
  intros Hs Hf. induction k as [|k [H1 H2]]; [done|]. rewrite Nat.iter_succ.
  generalize dependent (Nat.iter k RecordSuccess cb). intros d H1 H2.
  unfold RecordSuccess, State in *. rewrite H1. by destruct (enabled d).
Qed.

Lemma half_open_success cb :
  cb_wf cb -> enabled cb = true -> State cb = StateHalfOpen ->
  RecordSuccess cb =
    if successThreshold cb <=? successCount cb + 1
    then set_successCount (set_failureCount (set_state cb StateClosed) 0) 0
    else set_successCount cb (successCount cb + 1).
Proof.
  intros Hwf He Hs. pose proof (wf_sc _ Hwf) as Hsc. pose proof (wf_st _ Hwf) as Hst.
  unfold RecordSuccess. unfold State in Hs. rewrite He, Hs. simpl.
  rewrite int64_wrap_id by (unfold is_int64; lia). by rewrite Z.geb_leb.
Qed.

Lemma half_open_successes k cb :
  cb_wf cb -> enabled cb = true -> State cb = StateHalfOpen ->
  let cb' := Nat.iter k RecordSuccess cb in
  (successCount cb + Z.of_nat k < successThreshold cb ->
     State cb' = StateHalfOpen /\ successCount cb' = successCount cb + Z.of_nat k) /\
  (successThreshold cb <= successCount cb + Z.of_nat k ->
     State cb' = StateClosed /\ failureCount cb' = 0).
Proof.
  revert cb. induction k as [|k IH]; intros cb Hwf He Hs; cbn zeta.
  - simpl. pose proof (wf_sc _ Hwf). split; [split; [done|lia]|lia].
  - rewrite Nat.iter_succ_r. pose proof (cb_step_wf 0 OpSuccess cb Hwf) as Hwf'. simpl in Hwf'.
    rewrite half_open_success in * by done.
    destruct (Z.leb_spec (successThreshold cb) (successCount cb + 1)).
    + split; [lia|]. intros _. by apply closed_successes.
    + specialize (IH _ Hwf' He Hs) as [IH1 IH2]. simpl in IH1, IH2.
      split; intros Hk; [destruct IH1 as [? ->]; [lia|]; split; [done|lia]|apply IH2; lia].
Qed.

(** ** Properties *)

(** in every history of calls on a breaker made from a configuration, the
    counters stay between zero and their thresholds (so no increment overflows),
    a closed breaker has seen fewer than the threshold of failures, an open or
    half-open one has seen exactly the threshold and remembers when it last
    failed, and a disabled breaker is closed. *)
Theorem breaker_invariant (cfg : CircuitBreakerConfig) (ops : list (Z * cb_op)) :
  is_int_config cfg -> cb_wf (cb_run ops (NewCircuitBreaker cfg)).
Proof. auto using cb_run_wf, NewCircuitBreaker_wf. Qed.

Lemma breaker_invariant_witness :
  cb_wf (cb_run [(1, OpFailure); (2, OpFailure); (3, OpAllow)] (NewCircuitBreaker (mkCBConfig true 2 1 10 1))).
Proof.
  apply (breaker_invariant (mkCBConfig true 2 1 10 1)). repeat split; vm_compute; congruence.
Defined.

(** along any history of requests (calls to [AllowRequest], [RecordSuccess] and
    [RecordFailure] in any order and number), an enabled breaker stays closed
    throughout if and only if fewer than [FailureThreshold] failures ever follow
    each other without a success in between. *)
Theorem breaker_trips_at_threshold (cfg : CircuitBreakerConfig) (ops : list (Z * cb_op)) :
  is_int_config cfg -> cbc_Enabled cfg = true ->
  forallb (fun e => request_op (snd e)) ops = true ->
  Forall (eq StateClosed) (states_along ops (NewCircuitBreaker cfg)) <->
  longest_run 0 ops < positive_or (cbc_FailureThreshold cfg) 5.
Proof.
  intros Hint Hen Hops. apply (stays_closed_iff ops (NewCircuitBreaker cfg)); try done.
  by apply NewCircuitBreaker_wf.
Qed.

Lemma breaker_trips_at_threshold_witness :
  ~ Forall (eq StateClosed) (states_along [(1, OpFailure); (2, OpAllow); (3, OpFailure)]
      (NewCircuitBreaker (mkCBConfig true 2 1 10 1))).
Proof.
  intros H. apply (breaker_trips_at_threshold (mkCBConfig true 2 1 10 1)) in H; [vm_compute in H; congruence| |done..].
  repeat split; vm_compute; congruence.
Defined.

(** an open breaker whose last failure was at [t] refuses, unchanged, every
    request before [t + timeout]; a failure reported meanwhile moves the window;
    and the first request from then on is let through and half-opens it. *)
Theorem breaker_open_window (cb : CircuitBreaker) (t : Z) :
  enabled cb = true -> State cb = StateOpen -> lastFailureTime cb = Some t ->
  (forall times, Forall (fun now => now < t + timeout cb) times -> admitted times cb = (cb, 0)) /\
  (forall now, now < t + timeout cb ->
     AllowRequest now cb = (cb, Some (ErrProviderUnavailable : error))) /\
  (forall now, State (RecordFailure now cb) = StateOpen /\
               lastFailureTime (RecordFailure now cb) = Some now) /\
  (forall now, t + timeout cb <= now ->
     snd (AllowRequest now cb) = None /\ State (fst (AllowRequest now cb)) = StateHalfOpen).
Proof.
  intros He Hs Hl. split; [intros; by eapply open_fast_fails|].
  unfold AllowRequest, RecordFailure, elapsed, State in *. rewrite He. simpl. rewrite Hs, Hl. simpl.
  split; [|split; [done|]]; intros now Hnow; rewrite Z.geb_leb;
    destruct (Z.leb_spec (timeout cb) (now - t)); done || lia.
Qed.

Lemma breaker_open_window_witness :
  AllowRequest 11 (cb_run [(1, OpFailure); (2, OpFailure)] (NewCircuitBreaker (mkCBConfig true 2 1 10 1))) =
  (cb_run [(1, OpFailure); (2, OpFailure)] (NewCircuitBreaker (mkCBConfig true 2 1 10 1)),
   Some (ErrProviderUnavailable : error)).
Proof.
  apply (breaker_open_window (cb_run [(1, OpFailure); (2, OpFailure)]
    (NewCircuitBreaker (mkCBConfig true 2 1 10 1))) 2); [reflexivity..|vm_compute; reflexivity].
Defined.

(** when the timeout of an open breaker has passed, a burst of requests that do
    not report back is admitted up to one more than [HalfOpenMaxRequests] (the
    request that half-opens the breaker is not counted), and once they are spent
    the breaker refuses every later request, however much time passes. *)
Theorem half_open_probe_budget (cb : CircuitBreaker) (now : Z) (times later : list Z) :
  cb_wf cb -> enabled cb = true -> State cb = StateOpen -> elapsed now cb = true ->
  snd (admitted (now :: times) cb) = Z.min (Z.of_nat (length (now :: times))) (halfOpenMaxRequests cb + 1) /\
  (halfOpenMaxRequests cb <= Z.of_nat (length times) ->
     snd (admitted (now :: times ++ later) cb) = halfOpenMaxRequests cb + 1).
Proof.
  intros Hwf He Hs Hel. pose proof (to_half_open_wf _ _ Hwf He Hs Hel) as Hwf'.
  pose proof (wf_hm _ Hwf).
  assert (Hall : forall ts, snd (admitted (now :: ts) cb) =
    1 + Z.min (Z.of_nat (length ts)) (halfOpenMaxRequests cb)).
  { intros ts. simpl. rewrite open_elapsed_half_opens by done.
    pose proof (half_open_admits ts _ Hwf' He eq_refl) as Ha.
    destruct (admitted ts (to_half_open cb)) as [cb' n]. simpl in *. rewrite Ha. lia. }
  rewrite !Hall. rewrite length_app. simpl length. split; [lia|]. intros. lia.
Qed.

Lemma half_open_probe_budget_witness :
  snd (admitted (50 :: [51; 52; 53] ++ [1000000]) (cb_run [(1, OpFailure); (2, OpFailure)]
    (NewCircuitBreaker (mkCBConfig true 2 1 10 3)))) = 3 + 1.
Proof.
  apply (half_open_probe_budget (cb_run [(1, OpFailure); (2, OpFailure)]
    (NewCircuitBreaker (mkCBConfig true 2 1 10 3))) 50 [51; 52; 53] [1000000]);
    [|reflexivity..|vm_compute; congruence].
  apply cb_run_wf, NewCircuitBreaker_wf. repeat split; vm_compute; congruence.
Defined.

(** a half-open breaker closes, with its failure count cleared, exactly when
    the successes reported reach [SuccessThreshold]; one failure reported before
    that reopens it and restarts the timeout. *)
Theorem breaker_recovery (cb : CircuitBreaker) (k : nat) (now : Z) :
  cb_wf cb -> enabled cb = true -> State cb = StateHalfOpen -> successCount cb = 0 ->
  (State (Nat.iter k RecordSuccess cb) = StateClosed <-> successThreshold cb <= Z.of_nat k) /\
  (successThreshold cb <= Z.of_nat k -> failureCount (Nat.iter k RecordSuccess cb) = 0) /\
  State (RecordFailure now cb) = StateOpen /\ lastFailureTime (RecordFailure now cb) = Some now /\
  successCount (RecordFailure now cb) = 0.
Proof.
  intros Hwf He Hs H0. pose proof (half_open_successes k cb Hwf He Hs) as [H1 H2].
  cbn zeta in H1, H2. rewrite H0 in *. simpl in *. split; [|split].
  - split; [|intros; by apply H2]. intros Hc.
    destruct (Z.lt_ge_cases (Z.of_nat k) (successThreshold cb)) as [Hlt|]; [|done].
    destruct (H1 Hlt). congruence.
  - intros Hk. by apply H2.
  - unfold RecordFailure, State in *. rewrite He. simpl. by rewrite Hs.
Qed.

Lemma breaker_recovery_witness :
  let cb := cb_run [(1, OpFailure); (50, OpAllow)] (NewCircuitBreaker (mkCBConfig true 1 2 10 3)) in
  State (Nat.iter 1 RecordSuccess cb) <> StateClosed /\ State (Nat.iter 2 RecordSuccess cb) = StateClosed.
Proof.
  assert (Hwf : cb_wf (cb_run [(1, OpFailure); (50, OpAllow)] (NewCircuitBreaker (mkCBConfig true 1 2 10 3)))).
  { apply cb_run_wf, NewCircuitBreaker_wf. repeat split; vm_compute; congruence. }
  cbn zeta. split.
  - intros H. apply (breaker_recovery _ 1 0 Hwf eq_refl eq_refl eq_refl) in H. vm_compute in H. congruence.
  - apply (breaker_recovery _ 2 0 Hwf eq_refl eq_refl eq_refl). vm_compute. congruence.
Defined.

(** ** Recovery *)

(** One request after another, each let through succeeding before the next. *)
Definition serve (cb : CircuitBreaker) (now : Z) : CircuitBreaker :=
  match AllowRequest now cb with
  | (cb, None) => RecordSuccess cb
  | (cb, Some _) => cb
  end.

Definition serves (times : list Z) (cb : CircuitBreaker) : CircuitBreaker := foldl serve cb times.

Lemma serves_cons now times cb : serves (now :: times) cb = serves times (serve cb now).
Proof. done. Qed.

Lemma serves_app times later cb : serves (times ++ later) cb = serves later (serves times cb).
Proof. apply foldl_app. Qed.

Lemma serve_closed cb now : State cb = StateClosed -> State (serve cb now) = StateClosed.
Proof.
  unfold serve, AllowRequest, RecordSuccess, State. intros Hs. destruct (enabled cb) eqn:He; cbn [negb]; rewrite ?Hs, ?He; cbn; by rewrite ?Hs.
Qed.

Lemma serves_closed times cb : State cb = StateClosed -> State (serves times cb) = StateClosed.
Proof. revert cb. induction times as [|now times IH]; intros cb Hs; [done|]. by apply IH, serve_closed. Qed.

Lemma serve_full cb now :
  enabled cb = true -> State cb = StateHalfOpen -> halfOpenRequests cb = halfOpenMaxRequests cb ->
  AllowRequest now cb = (cb, Some (ErrProviderUnavailable : error)).
Proof.
  unfold AllowRequest, State. intros He Hs Hh. rewrite He, Hs, Hh. cbn. by rewrite Z.geb_leb, Z.leb_refl.
Qed.

Lemma serves_full times cb :
  enabled cb = true -> State cb = StateHalfOpen -> halfOpenRequests cb = halfOpenMaxRequests cb -> serves times cb = cb.
Proof. intros He Hs Hh. induction times as [|now times IH]; [done|]. cbn. unfold serve at 2. by rewrite serve_full. Qed.

Lemma serve_probe cb now :
  cb_wf cb -> enabled cb = true -> State cb = StateHalfOpen -> halfOpenRequests cb < halfOpenMaxRequests cb ->
  serve cb now = RecordSuccess (set_halfOpenRequests cb (halfOpenRequests cb + 1)) /\
  cb_wf (set_halfOpenRequests cb (halfOpenRequests cb + 1)).
Proof.
  intros Hwf He Hs Hlt. pose proof (cb_step_wf now OpAllow cb Hwf) as Hwf'. pose proof (wf_hm _ Hwf). pose proof (wf_ho _ Hwf).
  cbn [cb_step] in Hwf'. unfold serve. unfold AllowRequest in *. unfold State in Hs. rewrite He, Hs in *. cbn [negb] in *.
  rewrite Z.geb_leb in *. destruct (Z.leb_spec (halfOpenMaxRequests cb) (halfOpenRequests cb)); [lia|].
  rewrite int64_wrap_id in * by (unfold is_int64; lia). by split.
Qed.

(** In the half-open state: as many successes count as there are requests and probes left. *)
Lemma half_open_serves times cb :
  cb_wf cb -> enabled cb = true -> State cb = StateHalfOpen ->
  let n := Z.min (Z.of_nat (length times)) (halfOpenMaxRequests cb - halfOpenRequests cb) in
  (successThreshold cb <= successCount cb + n -> State (serves times cb) = StateClosed) /\
  (successCount cb + n < successThreshold cb ->
     State (serves times cb) = StateHalfOpen /\ enabled (serves times cb) = true /\
     halfOpenRequests (serves times cb) = halfOpenRequests cb + n /\
     halfOpenMaxRequests (serves times cb) = halfOpenMaxRequests cb).
Proof.
  revert cb. induction times as [|now times IH]; intros cb Hwf He Hs n; subst n; pose proof (wf_sc _ Hwf); pose proof (wf_ho _ Hwf).
  - cbn. split; [lia|]. intros _. repeat split; try done; lia.
  - destruct (decide (halfOpenRequests cb = halfOpenMaxRequests cb)) as [E|E].
    + rewrite serves_full by done. split; [lia|]. intros _. repeat split; try done; lia.
    + destruct (serve_probe cb now Hwf He Hs ltac:(lia)) as [Hp Hwf1]. cbn [serves foldl length]. fold (serves times (serve cb now)). rewrite Hp.
      pose proof (cb_step_wf now OpSuccess _ Hwf1) as Hwf2. cbn [cb_step] in Hwf2. rewrite half_open_success in * by done.
      cbn [successThreshold successCount set_halfOpenRequests] in *. destruct (Z.leb_spec (successThreshold cb) (successCount cb + 1)).
      * split; [|lia]. intros _. by apply serves_closed.
      * specialize (IH _ Hwf2 He Hs) as [IH1 IH2]. cbn in IH1, IH2. split; intros Hk; [apply IH1; lia|].
        destruct IH2 as (? & ? & Hr & Hm); [lia|]. repeat split; try done. unfold set_successCount, set_halfOpenRequests in Hr |- *. cbn in Hr |- *. rewrite Hr. lia.
Qed.

(** The request that half-opens the breaker is not counted as a probe. *)
Lemma open_serve cb t now :
  cb_wf cb -> enabled cb = true -> State cb = StateOpen -> lastFailureTime cb = Some t -> t + timeout cb <= now ->
  let cb1 := set_successCount (to_half_open cb) 1 in
  (successThreshold cb = 1 /\ State (serve cb now) = StateClosed) \/
  (1 < successThreshold cb /\ serve cb now = cb1 /\ cb_wf cb1).
Proof.
  intros Hwf He Hs Hl Hnow cb1. assert (elapsed now cb = true) as Hel.
  { unfold elapsed, time_Since. rewrite Hl, Z.geb_leb. apply Z.leb_le. lia. }
  pose proof (to_half_open_wf now cb Hwf He Hs Hel) as Hwf1. pose proof (cb_step_wf now OpSuccess _ Hwf1) as Hwf2. cbn [cb_step] in Hwf2.
  unfold serve. rewrite open_elapsed_half_opens by done. rewrite half_open_success in * by done. pose proof (wf_st _ Hwf).
  cbn [successThreshold successCount to_half_open set_halfOpenRequests set_successCount set_state] in *.
  destruct (Z.leb_spec (successThreshold cb) (0 + 1)); [left; split; [lia|done]|right; split; [lia|by split]].
Qed.

(** C16: a provider that is well again is let back exactly when it can be: from the end
    of the timeout, requests that each succeed close the breaker once there are
    [SuccessThreshold] of them, provided the threshold is at most one more than
    [HalfOpenMaxRequests]; with a larger one the breaker never closes, and after
    [HalfOpenMaxRequests] + 1 requests refuses every request for ever. *)
Theorem breaker_recovers (cb : CircuitBreaker) (t now : Z) (times : list Z) :
  cb_wf cb -> enabled cb = true -> State cb = StateOpen -> lastFailureTime cb = Some t -> t + timeout cb <= now ->
  (State (serves (now :: times) cb) = StateClosed <->
     successThreshold cb <= Z.of_nat (length (now :: times)) /\ successThreshold cb <= halfOpenMaxRequests cb + 1) /\
  (halfOpenMaxRequests cb + 1 < successThreshold cb -> halfOpenMaxRequests cb <= Z.of_nat (length times) ->
     forall later next, AllowRequest next (serves (now :: times ++ later) cb) =
       (serves (now :: times) cb, Some (ErrProviderUnavailable : error))).
Proof.
  intros Hwf He Hs Hl Hnow. pose proof (wf_hm _ Hwf). rewrite serves_cons. cbn [length].
  destruct (open_serve cb t now Hwf He Hs Hl Hnow) as [[Hst Hc]|(Hst & Hserve & Hwf1)].
  - split; [|lia]. split; [lia|]. intros _. by apply serves_closed.
  - rewrite Hserve. pose proof (half_open_serves times _ Hwf1 He eq_refl) as [Hc Ho]. cbn in Hc, Ho. split.
    + split; [|intros; apply Hc; lia]. intros Hclosed.
      destruct (Z.lt_ge_cases (1 + Z.min (Z.of_nat (length times)) (halfOpenMaxRequests cb - 0)) (successThreshold cb)) as [Hlt|]; [|lia].
      destruct (Ho Hlt) as [Hh _]. congruence.
    + intros Hmax Hlen later next. rewrite serves_cons, Hserve, serves_app. destruct Ho as (Hh & Hen & Hr & Hm); [lia|].
      assert (halfOpenRequests (serves times (set_successCount (to_half_open cb) 1)) =
        halfOpenMaxRequests (serves times (set_successCount (to_half_open cb) 1))) as Hfull by (rewrite Hr, Hm; lia).
      rewrite serves_full by done. by apply serve_full.
Qed.

Lemma breaker_recovers_witness :
  let cb := cb_run [(1, OpFailure)] (NewCircuitBreaker (mkCBConfig true 1 2 10 3)) in
  let stuck := cb_run [(1, OpFailure)] (NewCircuitBreaker (mkCBConfig true 1 5 10 3)) in
  State (serves [11; 12] cb) = StateClosed /\
  AllowRequest 1000000 (serves ([11; 12; 13; 14] ++ [15]) stuck) = (serves [11; 12; 13; 14] stuck, Some (ErrProviderUnavailable : error)).
Proof.
  cbn zeta. split.
  - apply (breaker_recovers (cb_run [(1, OpFailure)] (NewCircuitBreaker (mkCBConfig true 1 2 10 3))) 1 11 [12]); [|reflexivity..|].
    + apply cb_run_wf, NewCircuitBreaker_wf. repeat split; vm_compute; congruence.
    + split; vm_compute; discriminate.
  - apply (breaker_recovers (cb_run [(1, OpFailure)] (NewCircuitBreaker (mkCBConfig true 1 5 10 3))) 1 11 [12; 13; 14]); [|reflexivity..|].
    + apply cb_run_wf, NewCircuitBreaker_wf. repeat split; vm_compute; congruence.
    + vm_compute. congruence.
Defined.
