(* ===== verification/ChatModel.v ===== *)
(** The data of the chat path: [internal/domain/model/chat.go], [provider.go],
    [routing.go], and [internal/domain/tool/{config,executor,registry}.go], with
    what the use cases ask of model providers as a class. *)

From stdpp Require Import base strings list sorting numbers.
From Stdlib Require Import SpecFloat.
From S2P Require Import GoPrelude Bytes Uuid Errors CircuitBreaker.

(** ** JSON values

    [any] and [map[string]any] as [encoding/json] produces them. A number is kept
    as the text [fmt] prints for it; an object lists its fields. *)
Inductive json :=
| JNull
| JBool (b : bool)
| JNumber (text : string)
| JString (s : string)
| JArray (l : list json)
| JObject (fields : list (string * json)).

Definition field_le (a b : string * string) : Prop := String.le (fst a) (fst b).
#[global] Instance field_le_dec : RelDecision field_le.
Proof. intros a b. unfold field_le. apply _. Defined.

(** [fmt.Sprintf("%v", m)] of a map prints [map[k:v ...]] in key order. *)
Definition sprint_map (entries : list (string * string)) : string :=
  "map[" +:+ join " " (map (fun kv => fst kv +:+ ":" +:+ snd kv) (merge_sort field_le entries)) +:+ "]".

Fixpoint sprint (v : json) : string :=
  match v with
  | JNull => "<nil>"
  | JBool b => if b then "true" else "false"
  | JNumber t => t
  | JString s => s
  | JArray l => "[" +:+ join " " (map sprint l) +:+ "]"
  | JObject fs => sprint_map (map (fun kv => (fst kv, sprint (snd kv))) fs)
  end.

(** [map[string]any]; [None] is the nil map, which prints like an empty one. *)
Definition sprint_object (m : option (list (string * json))) : string :=
  sprint (JObject (default [] m)).

(** ** Requests and completions *)

Abbreviation float64 := spec_float.

Record FunctionCall := mkFunctionCall { fc_Name : string; fc_Arguments : string }.
Record ToolCall := mkToolCall { tc_ID : string; tc_Type : string; tc_Function : FunctionCall }.

Record Message := mkMessage {
  msg_Role : string;
  msg_Content : string;
  msg_ToolCalls : list ToolCall;
  msg_ToolCallID : string;
  msg_Name : string;
}.

Record FunctionDef := mkFunctionDef {
  fd_Name : string;
  fd_Description : string;
  fd_Parameters : option (list (string * json));
}.
Record Tool := mkTool { tool_Type : string; tool_Function : FunctionDef }.

Record ChatRequest := mkChatRequest {
  req_Model : string;
  req_Messages : list Message;
  req_Temperature : option float64;
  req_MaxTokens : option Z;
  req_TopP : option float64;
  req_Tools : list Tool;
  req_ToolChoice : json;
  req_Stream : bool;
  req_Stop : list string;
  req_PresencePenalty : option float64;
  req_FrequencyPenalty : option float64;
  req_User : string;
}.

Record Usage := mkUsage { PromptTokens : Z; CompletionTokens : Z; TotalTokens : Z }.
Record Choice := mkChoice { ch_Index : Z; ch_Message : Message; ch_FinishReason : string }.

Record ChatResponse := mkChatResponse {
  resp_ID : string;
  resp_Object : string;
  resp_Created : Z;
  resp_Model : string;
  resp_Choices : list Choice;
  resp_Usage : Usage;
  resp_SystemFingerprint : string;
}.

Record Completion := mkCompletion {
  cmp_Response : ChatResponse;
  cmp_Provider : string;
  cmp_Model : string;
  cmp_LatencyMs : Z;
}.

(** The zero values Go returns beside an error. *)
Definition zero_ChatResponse : ChatResponse :=
  mkChatResponse "" "" 0 "" [] (mkUsage 0 0 0) "".
Definition zero_Completion : Completion := mkCompletion zero_ChatResponse "" "" 0.

(** ** Provider configuration *)

Record ProviderConfig := mkProviderConfig {
  pc_Name : string;
  pc_Type : string;
  pc_Models : list string;
  pc_Priority : Z;
  pc_Enabled : bool;
  pc_APIKey : string;
  pc_BaseURL : string;
  pc_Timeout : Z;
  pc_MaxRetries : Z;
  pc_CircuitBreaker : CircuitBreakerConfig;
}.

Record FallbackRule := mkFallbackRule {
  rule_OnErrors : list string;
  rule_NextProvider : string;
  rule_MaxRetries : Z;
  rule_Backoff : Z;
}.

Record RouterConfig := mkRouterConfig {
  rc_Providers : list ProviderConfig;
  rc_FallbackRules : list FallbackRule;
  rc_DefaultTimeout : Z;
  rc_MaxRetries : Z;
  rc_EnableCircuitBreaker : bool;
}.

(** ** Model providers

    A provider is the client value its constructor builds; the clients talk to a
    remote service, so what they answer is the environment's. *)
Inductive ModelProvider :=
| OpenAIClient (apiKey baseURL : string) (timeout : Z) (models : list string)
| AnthropicClient (apiKey baseURL : string) (models : list string) (enabled : bool)
| OllamaClient (baseURL : string) (models : list string) (enabled : bool)
| MockProvider (name : string) (models : list string) (enabled : bool) (latency : option Z).

Definition or_text (s d : string) : string := if bool_decide (s = "") then d else s.
Definition or_models (l d : list string) : list string := match l with [] => d | _ => l end.

(** The clients' constructors ([NewClient] of [internal/adapter/provider/]). *)

Definition openai_NewClient (apiKey baseURL : string) (timeout : Z) (models : list string) : ModelProvider :=
  OpenAIClient apiKey (or_text baseURL "https://api.openai.com/v1") (if timeout =? 0 then 30 * second else timeout)
    (or_models models ["gpt-4"; "gpt-4-turbo"; "gpt-3.5-turbo"]).

Definition anthropic_NewClient (apiKey baseURL : string) (models : list string) (enabled : bool) : ModelProvider :=
  AnthropicClient apiKey (or_text baseURL "https://api.anthropic.com/v1")
    (or_models models ["claude-3-opus-20240229"; "claude-3-sonnet-20240229"; "claude-3-haiku-20240307"]) enabled.

Definition ollama_NewClient (baseURL : string) (models : list string) (enabled : bool) : ModelProvider :=
  OllamaClient (or_text baseURL "http://localhost:11434") (or_models models ["llama3"; "mistral"; "codellama"]) enabled.

(** The world as the chat path sees it: the clock, a completion and a health
    check under a timeout, and a wait that the caller's context may cut short. *)
Class ModelEnv (W : Type) := {
  env_now : W -> Z;
  provider_Complete : ModelProvider -> Z -> ChatRequest -> W -> W * result error Completion;
  provider_HealthCheck : ModelProvider -> Z -> W -> W * option error;
  wait_backoff : Z -> W -> W * option error;
}.

(** ** Token estimate ([usecase/chat/util.go]) *)

Definition go_len (s : string) : Z := Z.of_nat (length (bytes_of_string s)).

Definition tool_call_chars (tc : ToolCall) : Z :=
  go_len (fc_Name (tc_Function tc)) + go_len (fc_Arguments (tc_Function tc)).

Definition message_chars (msg : Message) : Z :=
  foldr (fun tc n => tool_call_chars tc + n) 0 (msg_ToolCalls msg) + go_len (msg_Content msg).

Definition estimatePromptTokens (messages : list Message) : Z :=
  let totalChars := foldr (fun m n => message_chars m + n) 0 messages in
  let tokens := totalChars / 4 in
  if tokens =? 0 then 100 else tokens.

Lemma go_len_nonneg s : 0 <= go_len s.
Proof. unfold go_len. lia. Qed.

Lemma foldr_sum_nonneg {A} (f : A -> Z) l :
  (forall x, 0 <= f x) -> 0 <= foldr (fun x n => f x + n) 0 l.
Proof. intros Hf. induction l as [|x l IH]; cbn [foldr]; [lia|]. specialize (Hf x). lia. Qed.

Lemma tool_call_chars_nonneg tc : 0 <= tool_call_chars tc.
Proof. apply Z.add_nonneg_nonneg; apply go_len_nonneg. Qed.

Lemma message_chars_nonneg m : 0 <= message_chars m.
Proof.
  apply Z.add_nonneg_nonneg; [|apply go_len_nonneg].
  apply foldr_sum_nonneg, tool_call_chars_nonneg.
Qed.

Lemma estimatePromptTokens_pos ms : 0 < estimatePromptTokens ms.
Proof.
  unfold estimatePromptTokens.
  pose proof (foldr_sum_nonneg message_chars ms message_chars_nonneg) as H.
  set (t := foldr _ _ _) in *. pose proof (Z.div_pos t 4 H ltac:(lia)).
  destruct (Z.eqb_spec (t / 4) 0); lia.
Qed.
