(* ===== verification/Routing.v ===== *)
(** [internal/usecase/chat/router.go] and [providers.go]: the provider registry,
    its priority list, provider selection, health checks and construction from
    configuration.

    The registry's map holds pointers, so the breaker and the health status of a
    provider are read and written through its name. The registry's mutex is held
    by each operation; an operation is one step. *)

From stdpp Require Import base gmap strings list sorting numbers.
From S2P Require Import GoPrelude Errors CircuitBreaker ChatModel.

(** [LastHealthCheck] is [None] for the zero time. *)
Record RegisteredProvider := mkRegistered {
  rp_Config : ProviderConfig;
  rp_Provider : ModelProvider;
  rp_CircuitBreaker : CircuitBreaker;
  rp_HealthStatus : bool;
  rp_LastHealthCheck : option Z;
}.

Record ProviderRegistry := mkRegistry {
  providers : gmap string RegisteredProvider;
  priority : list string;
}.

Definition set_breaker (p : RegisteredProvider) (cb : CircuitBreaker) : RegisteredProvider :=
  mkRegistered (rp_Config p) (rp_Provider p) cb (rp_HealthStatus p) (rp_LastHealthCheck p).
Definition set_health (p : RegisteredProvider) (h : bool) (t : Z) : RegisteredProvider :=
  mkRegistered (rp_Config p) (rp_Provider p) (rp_CircuitBreaker p) h (Some t).
Definition update_provider (r : ProviderRegistry) (name : string) (p : RegisteredProvider)
    : ProviderRegistry :=
  mkRegistry (<[name := p]> (providers r)) (priority r).

Definition NewProviderRegistry : ProviderRegistry := mkRegistry ∅ [].

Record ProviderStats := mkProviderStats {
  ps_Name : string;
  ps_Type : string;
  ps_Priority : Z;
  ps_Enabled : bool;
  ps_Healthy : bool;
  ps_LastHealthCheck : option Z;
  ps_CircuitBreaker : CircuitBreakerStats;
  ps_Models : list string;
}.

Definition GetProviderStats (r : ProviderRegistry) : gmap string ProviderStats :=
  map_imap (fun name p => Some (mkProviderStats name (pc_Type (rp_Config p)) (pc_Priority (rp_Config p)) (pc_Enabled (rp_Config p))
    (rp_HealthStatus p) (rp_LastHealthCheck p) (Stats (rp_CircuitBreaker p)) (pc_Models (rp_Config p)))) (providers r).

(** The first occurrence of [name] is cut out of the slice. *)
Fixpoint remove_first (name : string) (l : list string) : list string :=
  match l with
  | [] => []
  | n :: l => if bool_decide (n = name) then l else n :: remove_first name l
  end.

Definition provider_priority (m : gmap string RegisteredProvider) (n : string) : Z :=
  match m !! n with Some p => pc_Priority (rp_Config p) | None => 0 end.

(** Insertion before the first entry of larger priority value. *)
Fixpoint insert_before (m : gmap string RegisteredProvider) (name : string) (prio : Z) (l : list string)
    : list string :=
  match l with
  | [] => [name]
  | n :: l' => if provider_priority m n >? prio then name :: l else n :: insert_before m name prio l'
  end.

Definition insertByPriority (r : ProviderRegistry) (name : string) (prio : Z) : ProviderRegistry :=
  mkRegistry (providers r) (insert_before (providers r) name prio (remove_first name (priority r))).

Definition Register (config : ProviderConfig) (provider : ModelProvider) (r : ProviderRegistry)
    : ProviderRegistry :=
  let cb := NewCircuitBreaker (pc_CircuitBreaker config) in
  let r := update_provider r (pc_Name config) (mkRegistered config provider cb true None) in
  insertByPriority r (pc_Name config) (pc_Priority config).

Definition GetProvider (r : ProviderRegistry) (name : string) : option RegisteredProvider :=
  providers r !! name.

(** The loop over the priority list; asking a breaker changes it. A name without
    an entry would be a nil dereference; [registry_wf] excludes it. *)
Fixpoint healthy_loop (now : Z) (names : list string) (r : ProviderRegistry)
    : ProviderRegistry * list string :=
  match names with
  | [] => (r, [])
  | name :: names =>
      match providers r !! name with
      | None => healthy_loop now names r
      | Some p =>
          if negb (pc_Enabled (rp_Config p)) then healthy_loop now names r
          else
            let '(cb, e) := AllowRequest now (rp_CircuitBreaker p) in
            let r := update_provider r name (set_breaker p cb) in
            let '(r, healthy) := healthy_loop now names r in
            (r, if e then healthy else name :: healthy)
      end
  end.

Definition GetHealthyProviders (now : Z) (r : ProviderRegistry) : ProviderRegistry * list string :=
  healthy_loop now (priority r) r.

Definition supportsModel (p : RegisteredProvider) (modelName : string) : bool :=
  existsb (fun m => bool_decide (m = modelName)) (pc_Models (rp_Config p)).

Definition supports (r : ProviderRegistry) (modelName : string) (name : string) : bool :=
  match providers r !! name with Some p => supportsModel p modelName | None => false end.

Definition SelectProvider (now : Z) (modelName : string) (r : ProviderRegistry)
    : ProviderRegistry * result error string :=
  let '(r, healthy) := GetHealthyProviders now r in
  match List.find (supports r modelName) healthy with
  | Some name => (r, Ok name)
  | None => (r, Err (ErrNoHealthyProvider : error))
  end.

Definition Route : Z -> string -> ProviderRegistry -> ProviderRegistry * result error string :=
  SelectProvider.

Section WithEnv.
Context {W : Type} `{ModelEnv W}.

Definition checkProviderHealth (name : string) (r : ProviderRegistry) (w : W) : ProviderRegistry * W :=
  match providers r !! name with
  | None => (r, w)
  | Some p =>
      let '(w, e) := provider_HealthCheck (rp_Provider p) (pc_Timeout (rp_Config p)) w in
      (update_provider r name (set_health p (if e then false else true) (env_now w)), w)
  end.

(** The enabled providers are checked by one goroutine each; the order is that of
    a traversal of the map. *)
Definition RunHealthChecks (r : ProviderRegistry) (w : W) : ProviderRegistry * W :=
  let names := map fst (List.filter (fun np => pc_Enabled (rp_Config (snd np))) (map_to_list (providers r))) in
  foldl (fun '(r, w) name => checkProviderHealth name r w) (r, w) names.

(** [StartPeriodicHealthChecks]: one run per tick until the context ends; [ticks]
    says what happens between two ticks. *)
Fixpoint periodic_checks (ticks : list (ProviderRegistry * W -> ProviderRegistry * W)) (rw : ProviderRegistry * W)
    : ProviderRegistry * W :=
  match ticks with
  | [] => rw
  | between :: ticks => let '(r, w) := between rw in periodic_checks ticks (RunHealthChecks r w)
  end.

Definition newOpenAIProvider (config : ProviderConfig) : ModelProvider :=
  let timeout := if pc_Timeout config <=? 0 then 30 * second else pc_Timeout config in
  let baseURL := if bool_decide (pc_BaseURL config = "") then "https://api.openai.com/v1" else pc_BaseURL config in
  openai_NewClient (pc_APIKey config) baseURL timeout (pc_Models config).

Definition newAnthropicProvider (config : ProviderConfig) : ModelProvider :=
  let baseURL := if bool_decide (pc_BaseURL config = "") then "https://api.anthropic.com/v1" else pc_BaseURL config in
  anthropic_NewClient (pc_APIKey config) baseURL (pc_Models config) (pc_Enabled config).

Definition newOllamaProvider (config : ProviderConfig) : ModelProvider :=
  let baseURL := if bool_decide (pc_BaseURL config = "") then "http://localhost:11434" else pc_BaseURL config in
  ollama_NewClient baseURL (pc_Models config) (pc_Enabled config).

Definition newMockProvider (config : ProviderConfig) : ModelProvider :=
  MockProvider (pc_Name config) (pc_Models config) (pc_Enabled config)
    (if pc_Timeout config >? 0 then Some (pc_Timeout config) else None).

Definition createProviderFromConfig (config : ProviderConfig) : result error ModelProvider :=
  if bool_decide (pc_Type config = "openai") then Ok (newOpenAIProvider config)
  else if bool_decide (pc_Type config = "anthropic") then Ok (newAnthropicProvider config)
  else if bool_decide (pc_Type config = "ollama") then Ok (newOllamaProvider config)
  else if bool_decide (pc_Type config = "mock") then Ok (newMockProvider config)
  else Err (EOther ("unknown provider type: " +:+ pc_Type config)).

(** The failed initial health check is only logged. *)
Fixpoint build_loop (pcs : list ProviderConfig) (r : ProviderRegistry) (w : W)
    : W * result error ProviderRegistry :=
  match pcs with
  | [] => (w, Ok r)
  | pc :: pcs =>
      if negb (pc_Enabled pc) then build_loop pcs r w
      else match createProviderFromConfig pc with
      | Err e => (w, Err (EWrap ("create provider " +:+ pc_Name pc) e))
      | Ok provider =>
          let '(w, _) := provider_HealthCheck provider (pc_Timeout pc) w in
          build_loop pcs (Register pc provider r) w
      end
  end.

Definition BuildRegistryFromConfig (cfg : RouterConfig) (w : W) : W * result error ProviderRegistry :=
  let '(w, res) := build_loop (rc_Providers cfg) NewProviderRegistry w in
  match res with
  | Err e => (w, Err e)
  | Ok r => if bool_decide (priority r = []) then (w, Err (EOther "no providers registered")) else (w, Ok r)
  end.
End WithEnv.

(** ** Invariant *)

(** The priority list names every provider once, in order of priority value, and
    every provider is filed under its own name with a well-formed breaker. *)
Record registry_wf (r : ProviderRegistry) : Prop := {
  wf_nodup : NoDup (priority r);
  wf_dom : forall n, n ∈ priority r <-> is_Some (providers r !! n);
  wf_sorted : StronglySorted (fun a b => provider_priority (providers r) a <= provider_priority (providers r) b)
                (priority r);
  wf_entry : forall n p, providers r !! n = Some p ->
    pc_Name (rp_Config p) = n /\ cb_wf (rp_CircuitBreaker p);
}.

Lemma remove_first_sublist name l : remove_first name l `sublist_of` l.
Proof.
  induction l as [|n l IH]; simpl; [done|]. case_bool_decide; [by apply sublist_cons|by apply sublist_skip].
Qed.

Lemma elem_of_remove_first name l n :
  NoDup l -> n ∈ remove_first name l <-> n ∈ l /\ n <> name.
Proof.
  induction 1 as [|m l Hm Hl IH]; simpl; [rewrite !elem_of_nil; tauto|].
  case_bool_decide as E; [subst|]; rewrite !elem_of_cons.
  - split; [intros Hn; split; [auto|intros ->; done]|intros [[->|?] ?]; done].
  - rewrite IH. split; [intros [->|[? ?]]; auto|intros [[->|?] ?]; auto].
Qed.

Lemma elem_of_insert_before m name prio l n :
  n ∈ insert_before m name prio l <-> n = name \/ n ∈ l.
Proof.
  induction l as [|x l IH]; simpl; [rewrite list_elem_of_singleton, elem_of_nil; tauto|].
  destruct (_ >? _); rewrite !elem_of_cons; [tauto|]. rewrite IH. tauto.
Qed.

Lemma NoDup_insert_before m name prio l :
  NoDup l -> name ∉ l -> NoDup (insert_before m name prio l).
Proof.
  induction 1 as [|x l Hx Hl IH]; simpl; intros Hn; [by apply NoDup_singleton|].
  rewrite elem_of_cons in Hn. destruct (_ >? _).
  - constructor; [rewrite elem_of_cons; tauto|by constructor].
  - constructor; [|by apply IH; tauto]. rewrite elem_of_insert_before. intros [->|?]; tauto.
Qed.

(** Insertion keeps the order, and goes behind the entries of equal priority. *)
Lemma insert_before_sorted m name l :
  StronglySorted (fun a b => provider_priority m a <= provider_priority m b) l ->
  StronglySorted (fun a b => provider_priority m a <= provider_priority m b)
    (insert_before m name (provider_priority m name) l).
Proof.
  induction 1 as [|x l Hl IH Hx]; simpl; [by repeat constructor|].
  rewrite Z.gtb_ltb. destruct (Z.ltb_spec (provider_priority m name) (provider_priority m x)).
  - constructor; [by constructor|]. constructor; [lia|].
    eapply list.Forall_impl; [exact Hx|]. simpl. intros; lia.
  - constructor; [done|]. apply list.Forall_forall. intros y Hy.
    apply elem_of_insert_before in Hy as [->|Hy]; [lia|].
    rewrite list.Forall_forall in Hx. by apply Hx.
Qed.

Lemma StronglySorted_weaken {A} (R S : A -> A -> Prop) l :
  (forall a b, a ∈ l -> b ∈ l -> R a b -> S a b) -> StronglySorted R l -> StronglySorted S l.
Proof.
  intros HRS. induction 1 as [|x l Hl IH Hx]; [constructor|].
  constructor.
  - apply IH. intros a b Ha Hb. apply HRS; by apply elem_of_cons; right.
  - apply list.Forall_forall. intros b Hb. rewrite list.Forall_forall in Hx.
    apply HRS; [by apply elem_of_cons; left|by apply elem_of_cons; right|by apply Hx].
Qed.

Lemma StronglySorted_sublist {A} (R : A -> A -> Prop) l1 l2 :
  l1 `sublist_of` l2 -> StronglySorted R l2 -> StronglySorted R l1.
Proof.
  induction 1 as [|x l1 l2 Hs IH|x l1 l2 Hs IH]; intros Hl; [constructor| |].
  - apply StronglySorted_inv in Hl as [Hl Hx]. constructor; [by apply IH|].
    rewrite list.Forall_forall in *. intros y Hy. apply Hx. by eapply elem_of_sublist.
  - apply StronglySorted_inv in Hl as [Hl _]. by apply IH.
Qed.

Lemma NewProviderRegistry_wf : registry_wf NewProviderRegistry.
Proof.
  constructor; simpl.
  - constructor.
  - intros n. rewrite elem_of_nil, lookup_empty. split; [done|intros [? ?]; done].
  - constructor.
  - intros n p Hn. by rewrite lookup_empty in Hn.
Qed.

Lemma Register_wf config provider r :
  is_int_config (pc_CircuitBreaker config) -> registry_wf r -> registry_wf (Register config provider r).
Proof.
  intros Hint [Hnd Hdom Hsort Hent]. set (name := pc_Name config).
  set (p := mkRegistered config provider (NewCircuitBreaker (pc_CircuitBreaker config)) true None).
  assert (Hself : provider_priority (<[name := p]> (providers r)) name = pc_Priority config)
    by (unfold provider_priority; by rewrite lookup_insert_eq).
  assert (Hoth : forall n, n <> name ->
    provider_priority (<[name := p]> (providers r)) n = provider_priority (providers r) n)
    by (intros n Hn; unfold provider_priority; by rewrite lookup_insert_ne).
  constructor; simpl; fold name; fold p.
  - apply NoDup_insert_before; [eapply sublist_NoDup; [done|apply remove_first_sublist]|].
    rewrite elem_of_remove_first by done. tauto.
  - intros n. rewrite elem_of_insert_before, elem_of_remove_first, Hdom by done.
    rewrite lookup_insert. case_decide as E; [subst; naive_solver|]. naive_solver.
  - rewrite <- Hself. apply insert_before_sorted.
    eapply StronglySorted_weaken; [|eapply StronglySorted_sublist; [apply remove_first_sublist|exact Hsort]].
    intros a b. rewrite !elem_of_remove_first by done. intros [_ Ha] [_ Hb]. by rewrite !Hoth.
  - intros n q. rewrite lookup_insert. case_decide as E; [|apply Hent].
    intros [= <-]. split; [done|by apply NewCircuitBreaker_wf].
Qed.

(** ** Asking the registry for providers *)

(** What a selection does to one provider, and whether it may be used. *)
Definition probe (now : Z) (p : RegisteredProvider) : RegisteredProvider :=
  if pc_Enabled (rp_Config p)
  then set_breaker p (fst (AllowRequest now (rp_CircuitBreaker p))) else p.

Definition usable (now : Z) (p : RegisteredProvider) : bool :=
  pc_Enabled (rp_Config p) && bool_decide (snd (AllowRequest now (rp_CircuitBreaker p)) = None).

Definition usable_name (now : Z) (r : ProviderRegistry) (n : string) : bool :=
  match providers r !! n with Some p => usable now p | None => false end.

Definition probed (now : Z) (names : list string) (r : ProviderRegistry) (n : string)
    : option RegisteredProvider :=
  if bool_decide (n ∈ names) then probe now <$> providers r !! n else providers r !! n.

Lemma probed_cons_ne now n names r m :
  m <> n -> probed now (n :: names) r m = probed now names r m.
Proof.
  intros Hm. unfold probed. rewrite (bool_decide_ext (m ∈ n :: names) (m ∈ names)); [done|].
  rewrite elem_of_cons. tauto.
Qed.

Lemma usable_filter_ext now r r' names :
  (forall n, n ∈ names -> providers r' !! n = providers r !! n) ->
  List.filter (usable_name now r') names = List.filter (usable_name now r) names.
Proof.
  intros Heq. induction names as [|n names IH]; [done|]. simpl.
  assert (usable_name now r' n = usable_name now r n) as ->.
  { unfold usable_name. rewrite Heq; [done|]. by apply elem_of_cons; left. }
  rewrite IH; [done|]. intros m Hm. apply Heq. by apply elem_of_cons; right.
Qed.

Lemma healthy_loop_spec now names r :
  NoDup names ->
  let res := healthy_loop now names r in
  priority (fst res) = priority r /\
  (forall n, providers (fst res) !! n = probed now names r n) /\
  snd res = List.filter (usable_name now r) names.
Proof.
  intros Hnd. revert r. induction Hnd as [|n names Hn Hnd IH]; intros r; cbn zeta.
  - simpl. split; [done|]. split; [|done]. intros n. unfold probed.
    rewrite bool_decide_false; [done|]. apply not_elem_of_nil.
  - simpl. unfold usable_name at 1.
    destruct (providers r !! n) as [p|] eqn:Hp; [destruct (pc_Enabled (rp_Config p)) eqn:He|]; simpl.
    + destruct (AllowRequest now (rp_CircuitBreaker p)) as [cb e] eqn:Ha.
      specialize (IH (update_provider r n (set_breaker p cb))) as (IH1 & IH2 & IH3).
      destruct (healthy_loop _ _ _) as [r' h]. simpl in *. split; [done|]. split.
      * intros m. rewrite IH2. destruct (decide (m = n)) as [->|Hm].
        -- unfold probed. simpl. rewrite bool_decide_false by done.
           rewrite bool_decide_true by (by apply elem_of_cons; left).
           rewrite lookup_insert_eq, Hp. simpl. unfold probe. by rewrite He, Ha.
        -- rewrite probed_cons_ne by done. unfold probed. simpl.
           by rewrite lookup_insert_ne by done.
      * rewrite IH3, (usable_filter_ext now r) by
          (intros m Hm; simpl; rewrite lookup_insert_ne; [done|intros ->; done]).
        unfold usable. rewrite He, Ha. simpl. by destruct e; case_bool_decide.
    + specialize (IH r) as (IH1 & IH2 & IH3). split; [done|]. split.
      * intros m. rewrite IH2. destruct (decide (m = n)) as [->|Hm]; [|by rewrite probed_cons_ne].
        unfold probed. rewrite bool_decide_false by done.
        rewrite bool_decide_true by (by apply elem_of_cons; left).
        rewrite Hp. simpl. unfold probe. by rewrite He.
      * rewrite IH3. unfold usable. by rewrite He.
    + specialize (IH r) as (IH1 & IH2 & IH3). split; [done|]. split; [|done].
      intros m. rewrite IH2. destruct (decide (m = n)) as [->|Hm]; [|by rewrite probed_cons_ne].
      unfold probed. rewrite Hp. by repeat case_bool_decide.
Qed.

Lemma GetHealthyProviders_spec now r :
  registry_wf r ->
  GetHealthyProviders now r =
    (mkRegistry (probe now <$> providers r) (priority r),
     List.filter (usable_name now r) (priority r)).
Proof.
  intros Hwf. unfold GetHealthyProviders.
  pose proof (healthy_loop_spec now (priority r) r (wf_nodup _ Hwf)) as (H1 & H2 & H3).
  destruct (healthy_loop now (priority r) r) as [[m l] h]. simpl in *. subst. f_equal. f_equal.
  apply map_eq. intros n. rewrite H2, lookup_fmap. unfold probed. case_bool_decide as E; [done|].
  rewrite (wf_dom _ Hwf) in E. destruct (providers r !! n); [naive_solver|done].
Qed.

Lemma probe_config now p : rp_Config (probe now p) = rp_Config p.
Proof. unfold probe. by destruct (pc_Enabled (rp_Config p)). Qed.

Lemma probe_wf now p : cb_wf (rp_CircuitBreaker p) -> cb_wf (rp_CircuitBreaker (probe now p)).
Proof.
  intros Hwf. unfold probe. destruct (pc_Enabled (rp_Config p)); [|done].
  by apply (cb_step_wf now OpAllow).
Qed.

(** A change to the entries that keeps their configurations keeps the invariant. *)
Lemma registry_wf_fmap (f : RegisteredProvider -> RegisteredProvider) r :
  (forall p, rp_Config (f p) = rp_Config p) ->
  (forall p, cb_wf (rp_CircuitBreaker p) -> cb_wf (rp_CircuitBreaker (f p))) ->
  registry_wf r -> registry_wf (mkRegistry (f <$> providers r) (priority r)).
Proof.
  intros Hf Hcb [Hnd Hdom Hsort Hent].
  assert (Hprio : forall n, provider_priority (f <$> providers r) n = provider_priority (providers r) n).
  { intros n. unfold provider_priority. rewrite lookup_fmap. destruct (providers r !! n); simpl; [|done].
    by rewrite Hf. }
  constructor; simpl.
  - done.
  - intros n. by rewrite Hdom, lookup_fmap, fmap_is_Some.
  - eapply StronglySorted_weaken; [|exact Hsort]. intros a b _ _. cbv beta. by rewrite !Hprio.
  - intros n p. rewrite lookup_fmap, fmap_Some. intros (q & Hq & ->). rewrite Hf.
    destruct (Hent _ _ Hq). auto.
Qed.

Lemma supports_probed now r m n :
  supports (mkRegistry (probe now <$> providers r) (priority r)) m n = supports r m n.
Proof.
  unfold supports. simpl. rewrite lookup_fmap. destruct (providers r !! n) as [p|]; simpl; [|done].
  unfold supportsModel. by rewrite probe_config.
Qed.

Lemma find_filter {A} (f g : A -> bool) l :
  List.find f (List.filter g l) = List.find (fun x => g x && f x) l.
Proof. induction l as [|x l IH]; simpl; [done|]. destruct (g x); simpl; [by destruct (f x)|done]. Qed.

Lemma find_ext {A} (f g : A -> bool) l : (forall x, f x = g x) -> List.find f l = List.find g l.
Proof. intros H. induction l as [|x l IH]; simpl; [done|]. by rewrite H, IH. Qed.

Lemma find_split {A} (f : A -> bool) l x :
  List.find f l = Some x ->
  exists l1 l2, l = l1 ++ x :: l2 /\ f x = true /\ forall y, y ∈ l1 -> f y = false.
Proof.
  induction l as [|y l IH]; simpl; [done|]. destruct (f y) eqn:Hy.
  - intros [= ->]. exists [], l. split; [done|]. split; [done|]. intros z Hz. by apply elem_of_nil in Hz.
  - intros (l1 & l2 & -> & Hx & Hl1)%IH. exists (y :: l1), l2. split; [done|]. split; [done|].
    intros z [->|Hz]%elem_of_cons; auto.
Qed.

Definition eligible (now : Z) (model : string) (p : RegisteredProvider) : bool :=
  usable now p && supportsModel p model.

Definition eligible_name (now : Z) (model : string) (r : ProviderRegistry) (n : string) : bool :=
  usable_name now r n && supports r model n.

Lemma SelectProvider_spec now model r :
  registry_wf r ->
  SelectProvider now model r =
    (mkRegistry (probe now <$> providers r) (priority r),
     match List.find (eligible_name now model r) (priority r) with
     | Some n => Ok n
     | None => Err (ErrNoHealthyProvider : error)
     end).
Proof.
  intros Hwf. unfold SelectProvider. rewrite GetHealthyProviders_spec by done.
  rewrite find_filter, (find_ext _ (eligible_name now model r)); [by destruct (List.find _ _)|].
  intros n. unfold eligible_name. by rewrite supports_probed.
Qed.

Lemma eligible_name_lookup now model r n :
  eligible_name now model r n = true <->
  exists p, providers r !! n = Some p /\ eligible now model p = true.
Proof.
  unfold eligible_name, usable_name, supports, eligible.
  destruct (providers r !! n) as [p|]; simpl; [|split; [done|intros (? & ? & ?); done]].
  split; [eauto|]. intros (q & [= <-] & Hq). done.
Qed.

(** ** Registries equal up to health bookkeeping *)

Definition forget_health (p : RegisteredProvider) : RegisteredProvider :=
  mkRegistered (rp_Config p) (rp_Provider p) (rp_CircuitBreaker p) true None.

Definition routing_equiv (r1 r2 : ProviderRegistry) : Prop :=
  priority r1 = priority r2 /\ forget_health <$> providers r1 = forget_health <$> providers r2.

#[global] Instance routing_equiv_equivalence : Equivalence routing_equiv.
Proof.
  split; [by split| |].
  - intros r1 r2 [H1 H2]. by split.
  - intros r1 r2 r3 [H1 H2] [H3 H4]. split; congruence.
Qed.

Lemma usable_forget now p : usable now (forget_health p) = usable now p.
Proof. done. Qed.

Lemma eligible_name_forget now model r n :
  eligible_name now model r n =
  match (forget_health <$> providers r) !! n with Some p => eligible now model p | None => false end.
Proof.
  unfold eligible_name, usable_name, supports, eligible. rewrite lookup_fmap.
  by destruct (providers r !! n).
Qed.

#[global] Instance eligible_name_proper now model :
  Proper (routing_equiv ==> (=) ==> (=)) (eligible_name now model).
Proof. intros r1 r2 [_ H] n ? <-. by rewrite !eligible_name_forget, H. Qed.

Lemma update_provider_equiv r n p q :
  providers r !! n = Some p -> forget_health q = forget_health p ->
  routing_equiv (update_provider r n q) r.
Proof.
  intros Hn Hq. split; [done|]. simpl. rewrite fmap_insert, Hq, <- fmap_insert.
  by rewrite insert_id.
Qed.

Section HealthFacts.
Context {W : Type} `{ModelEnv W}.

Lemma checkProviderHealth_equiv name r w :
  routing_equiv (fst (checkProviderHealth name r w)) r.
Proof.
  unfold checkProviderHealth. destruct (providers r !! name) as [p|] eqn:Hp; [|reflexivity].
  destruct (provider_HealthCheck _ _ w) as [w' e]. by apply update_provider_equiv with p.
Qed.

Lemma RunHealthChecks_equiv r w : routing_equiv (fst (RunHealthChecks r w)) r.
Proof.
  unfold RunHealthChecks. generalize (map fst (List.filter (fun np => pc_Enabled (rp_Config (snd np)))
    (map_to_list (providers r)))). intros names. revert r w.
  induction names as [|n names IH]; intros r w; simpl; [reflexivity|].
  pose proof (checkProviderHealth_equiv n r w) as Hc.
  destruct (checkProviderHealth n r w) as [r1 w1]. simpl in Hc. rewrite IH. exact Hc.
Qed.
End HealthFacts.

Lemma routing_equiv_wf r1 r2 : routing_equiv r1 r2 -> registry_wf r1 -> registry_wf r2.
Proof.
  intros [Hp Hm] Hwf.
  pose proof (registry_wf_fmap forget_health r1 (fun _ => eq_refl) (fun _ H => H) Hwf) as [Hnd Hdom Hsort Hent].
  simpl in *. rewrite Hp in Hnd, Hdom, Hsort. rewrite Hm in Hdom, Hsort, Hent.
  assert (Hprio : forall n, provider_priority (forget_health <$> providers r2) n = provider_priority (providers r2) n).
  { intros n. unfold provider_priority. rewrite lookup_fmap. by destruct (providers r2 !! n). }
  constructor; [done| | |].
  - intros n. by rewrite Hdom, lookup_fmap, fmap_is_Some.
  - eapply StronglySorted_weaken; [|exact Hsort]. intros a b _ _. cbv beta. by rewrite !Hprio.
  - intros n p Hn. apply (Hent n (forget_health p)). by rewrite lookup_fmap, Hn.
Qed.

(** ** Histories of the registry *)

Inductive registry_step : ProviderRegistry -> ProviderRegistry -> Prop :=
| step_register config provider r :
    is_int_config (pc_CircuitBreaker config) -> registry_step r (Register config provider r)
| step_select now model r : registry_step r (fst (SelectProvider now model r))
| step_health {W} `{ModelEnv W} (w : W) r : registry_step r (fst (RunHealthChecks r w))
| step_outcome n p now o r :
    providers r !! n = Some p -> request_op o = true ->
    registry_step r (update_provider r n (set_breaker p (cb_step now o (rp_CircuitBreaker p)))).

Lemma update_breaker_wf r n p cb :
  registry_wf r -> providers r !! n = Some p -> cb_wf cb ->
  registry_wf (update_provider r n (set_breaker p cb)).
Proof.
  intros Hwf Hn Hcb. destruct Hwf as [Hnd Hdom Hsort Hent].
  assert (Hprio : forall x, provider_priority (<[n := set_breaker p cb]> (providers r)) x =
                            provider_priority (providers r) x).
  { intros x. unfold provider_priority. rewrite lookup_insert.
    case_decide; [subst; by rewrite Hn|done]. }
  constructor; simpl; [done| | |].
  - intros x. rewrite Hdom, lookup_insert. case_decide; [subst; rewrite Hn|done].
    split; eauto.
  - eapply StronglySorted_weaken; [|exact Hsort]. intros a b _ _. cbv beta. by rewrite !Hprio.
  - intros x q. rewrite lookup_insert. case_decide; [|apply Hent]. intros [= <-]. simpl.
    subst x. by destruct (Hent _ _ Hn).
Qed.

Lemma registry_step_wf r r' : registry_step r r' -> registry_wf r -> registry_wf r'.
Proof.
  intros Hstep Hwf. destruct Hstep.
  - by apply Register_wf.
  - rewrite SelectProvider_spec by done. apply registry_wf_fmap; auto using probe_config, probe_wf.
  - eapply routing_equiv_wf; [|done]. symmetry. apply RunHealthChecks_equiv.
  - apply update_breaker_wf; [done..|]. apply cb_step_wf. by eapply wf_entry.
Qed.

(** Selections at the given times for the given models. *)
Definition selections (reqs : list (Z * string)) (r : ProviderRegistry) : ProviderRegistry :=
  foldl (fun r tm => fst (SelectProvider (fst tm) (snd tm) r)) r reqs.

Lemma selections_probe reqs r n p :
  registry_wf r -> providers r !! n = Some p -> pc_Enabled (rp_Config p) = true ->
  registry_wf (selections reqs r) /\
  providers (selections reqs r) !! n =
    Some (set_breaker p (fst (admitted (map fst reqs) (rp_CircuitBreaker p)))).
Proof.
  revert r p. induction reqs as [|[now model] reqs IH]; intros r p Hwf Hn He; simpl.
  - split; [done|]. rewrite Hn. by destruct p.
  - rewrite SelectProvider_spec by done. simpl.
    destruct (IH (mkRegistry (probe now <$> providers r) (priority r))
      (set_breaker p (fst (AllowRequest now (rp_CircuitBreaker p))))) as [IH1 IH2].
    + apply registry_wf_fmap; auto using probe_config, probe_wf.
    + simpl. rewrite lookup_fmap, Hn. simpl. unfold probe. by rewrite He.
    + done.
    + split; [done|]. unfold selections in *. rewrite IH2. simpl. do 2 f_equal.
      destruct (AllowRequest now (rp_CircuitBreaker p)) as [cb e]. simpl.
      by destruct (admitted (map fst reqs) cb).
Qed.

(** ** Properties *)

(** whatever registrations (of known or new names), selections, health checks
    and reported outcomes the registry has been through since it was created, its
    priority list names every provider exactly once and in order of priority
    value, and every entry is filed under its own name with a sound breaker. *)
Theorem registry_invariant (r : ProviderRegistry) :
  rtc registry_step NewProviderRegistry r -> registry_wf r.
Proof.
  intros Hr. assert (Hgen : forall a b, rtc registry_step a b -> registry_wf a -> registry_wf b).
  { induction 1; eauto using registry_step_wf. }
  eapply Hgen; [exact Hr|apply NewProviderRegistry_wf].
Qed.

(** provider selection answers the provider of least priority value among those
    that are enabled, let through by their breaker and serve the model (the
    earliest in the list among equals), and [ErrNoHealthyProvider] exactly when
    there is none; every enabled provider's breaker is asked on the way, the
    providers that do not serve the model included. *)
Theorem select_provider_best (now : Z) (model : string) (r : ProviderRegistry) :
  registry_wf r ->
  let '(r', res) := SelectProvider now model r in
  registry_wf r' /\ providers r' = probe now <$> providers r /\ priority r' = priority r /\
  match res with
  | Ok n => exists p before after,
      priority r = before ++ n :: after /\ providers r !! n = Some p /\ eligible now model p = true /\
      (forall m q, m ∈ before -> providers r !! m = Some q -> eligible now model q = false) /\
      (forall m q, providers r !! m = Some q -> eligible now model q = true ->
         pc_Priority (rp_Config p) <= pc_Priority (rp_Config q))
  | Err e => e = ErrNoHealthyProvider /\
      forall m q, providers r !! m = Some q -> eligible now model q = false
  end.
Proof.
  intros Hwf. rewrite SelectProvider_spec by done.
  split; [apply registry_wf_fmap; auto using probe_config, probe_wf|]. split; [done|]. split; [done|].
  destruct (List.find _ _) as [n|] eqn:Hf.
  - apply find_split in Hf as (l1 & l2 & Hl & Hn & Hl1).
    apply eligible_name_lookup in Hn as (p & Hp & Hel). exists p, l1, l2.
    assert (Hbef : forall m q, m ∈ l1 -> providers r !! m = Some q -> eligible now model q = false).
    { intros m q Hm Hq. apply not_true_is_false. intros Ht.
      specialize (Hl1 m Hm). assert (eligible_name now model r m = true); [|congruence].
      apply eligible_name_lookup. eauto. }
    split_and!; [done..|]. intros m q Hq Hm.
    assert (Hin : m ∈ priority r) by (apply (wf_dom _ Hwf); eauto).
    pose proof (wf_sorted _ Hwf) as Hs. rewrite Hl in Hin, Hs.
    apply elem_of_app in Hin as [Hin|Hin]; [by rewrite (Hbef m q) in Hm|].
    apply elem_of_cons in Hin as [->|Hin]; [by simplify_eq|].
    apply StronglySorted_app in Hs as (_ & _ & Hs). apply StronglySorted_inv in Hs as [_ Hs].
    rewrite list.Forall_forall in Hs. specialize (Hs m Hin).
    unfold provider_priority in Hs. by rewrite Hp, Hq in Hs.
  - split; [done|]. intros m q Hq. apply not_true_is_false. intros Ht.
    apply find_none with (x := m) in Hf.
    + assert (eligible_name now model r m = true); [|congruence]. apply eligible_name_lookup. eauto.
    + apply list_elem_of_In, (wf_dom _ Hwf). eauto.
Qed.

(** the outcome of health checks never changes which provider is selected:
    [GetHealthyProviders] does not look at [HealthStatus]. *)
Theorem health_checks_do_not_route {W} `{ModelEnv W} (now : Z) (model : string) (r : ProviderRegistry) (w : W) :
  registry_wf r ->
  snd (SelectProvider now model (fst (RunHealthChecks r w))) = snd (SelectProvider now model r).
Proof.
  intros Hwf. pose proof (RunHealthChecks_equiv r w) as Heq.
  assert (registry_wf (fst (RunHealthChecks r w))) by (by eapply routing_equiv_wf; [symmetry|]).
  rewrite !SelectProvider_spec by done. simpl. destruct Heq as [Hp Hm] eqn:E. rewrite Hp.
  rewrite (find_ext _ (eligible_name now model r)); [done|].
  intros n. by apply eligible_name_proper.
Qed.

(** selections for other models spend the probes of a recovering provider: when
    its breaker's timeout has passed, [HalfOpenMaxRequests] + 1 selections for any
    models use up its half-open budget, after which it is never selected again
    while no outcome is reported to it, at any later time. *)
Theorem unrelated_selections_spend_probes
    (r : ProviderRegistry) (n : string) (p : RegisteredProvider) (now later : Z) (first : string)
    (reqs : list (Z * string)) :
  registry_wf r -> providers r !! n = Some p -> pc_Enabled (rp_Config p) = true ->
  enabled (rp_CircuitBreaker p) = true -> State (rp_CircuitBreaker p) = StateOpen ->
  elapsed now (rp_CircuitBreaker p) = true ->
  halfOpenMaxRequests (rp_CircuitBreaker p) <= Z.of_nat (length reqs) ->
  forall model, snd (SelectProvider later model (selections ((now, first) :: reqs) r)) <> Ok n.
Proof.
  intros Hwf Hn He Hen Hst Hel Hlen model.
  destruct (selections_probe ((now, first) :: reqs) r n p Hwf Hn He) as [Hwf' Hn'].
  generalize dependent (selections ((now, first) :: reqs) r). intros r' Hwf' Hn'.
  rewrite SelectProvider_spec by done. simpl.
  destruct (List.find _ _) as [m|] eqn:Hf; [|done]. intros [= ->].
  apply find_some in Hf as [_ Hf]. apply eligible_name_lookup in Hf as (q & Hq & Hel').
  rewrite Hn' in Hq. injection Hq as <-. unfold eligible, usable in Hel'. simpl in Hel'.
  rewrite He, (open_elapsed_half_opens now (rp_CircuitBreaker p)) in Hel' by done. reflect_bools.
  pose proof (to_half_open_wf now _ (proj2 (wf_entry _ Hwf _ _ Hn)) Hen Hst Hel) as Hwfh.
  apply (half_open_spent (map fst reqs) _ later) in Hwfh; [|done|done|rewrite length_map; simpl; lia].
  destruct (admitted (map fst reqs) _) as [cb k]. simpl in *. congruence.
Qed.

(** ** Concrete instances *)

Definition ex_provider (name : string) (prio : Z) (models : list string) : ProviderConfig :=
  mkProviderConfig name "mock" models prio true "" "" second 1 (mkCBConfig true 1 1 10 1).
Definition ex_registry : ProviderRegistry :=
  let reg r c := Register c (newMockProvider c) r in
  reg (reg (reg NewProviderRegistry (ex_provider "b" 2 ["gpt-4"])) (ex_provider "a" 1 ["gpt-4"; "llama3"]))
    (ex_provider "c" 2 ["llama3"]).

Lemma ex_registry_reachable : rtc registry_step NewProviderRegistry ex_registry.
Proof.
  unfold ex_registry.
  do 3 (eapply rtc_r; [|apply step_register; repeat split; vm_compute; congruence]). apply rtc_refl.
Qed.

Lemma ex_registry_wf : registry_wf ex_registry.
Proof.
  unfold ex_registry. repeat (apply Register_wf; [repeat split; vm_compute; congruence|]).
  apply NewProviderRegistry_wf.
Qed.

Lemma registry_invariant_witness : registry_wf ex_registry /\ priority ex_registry = ["a"; "b"; "c"].
Proof. split; [apply (registry_invariant _ ex_registry_reachable)|vm_compute; reflexivity]. Defined.

Lemma select_provider_best_witness :
  let '(r', res) := SelectProvider 5 "llama3" ex_registry in
  registry_wf r' /\ res = Ok "a".
Proof.
  pose proof (select_provider_best 5 "llama3" ex_registry ex_registry_wf) as Hs.
  destruct (SelectProvider 5 "llama3" ex_registry) as [r' res] eqn:E.
  split; [apply Hs|]. change res with (snd (r', res)). rewrite <- E. vm_compute. reflexivity.
Defined.

(** A world whose providers are all down. *)
#[local] Instance down_env : ModelEnv Z := {
  env_now w := w;
  provider_Complete _ _ _ w := (w + 1, Err (ErrProviderUnavailable : error));
  provider_HealthCheck _ _ w := (w + 1, Some (ErrProviderUnavailable : error));
  wait_backoff d w := (w + d, None);
}.

Lemma health_checks_do_not_route_witness :
  snd (SelectProvider 5 "llama3" (fst (RunHealthChecks ex_registry 0))) = snd (SelectProvider 5 "llama3" ex_registry).
Proof. apply (health_checks_do_not_route 5 "llama3" ex_registry 0 ex_registry_wf). Defined.

(** Provider ["c"] after a failure at time 1. *)
Definition ex_tripped : ProviderRegistry :=
  match providers ex_registry !! "c" with
  | Some p => update_provider ex_registry "c" (set_breaker p (RecordFailure 1 (rp_CircuitBreaker p)))
  | None => ex_registry
  end.

Lemma ex_tripped_wf : registry_wf ex_tripped.
Proof.
  unfold ex_tripped. destruct (providers ex_registry !! "c") as [p|] eqn:Hp; [|apply ex_registry_wf].
  apply update_breaker_wf; [apply ex_registry_wf|done|].
  apply (cb_step_wf 1 OpFailure). eapply wf_entry; [apply ex_registry_wf|exact Hp].
Qed.

Lemma unrelated_selections_spend_probes_witness :
  snd (SelectProvider 1000000 "llama3" (selections [(20, "gpt-4"); (21, "gpt-4")] ex_tripped)) <> Ok "c".
Proof.
  destruct (providers ex_tripped !! "c") as [p|] eqn:Hp; [|vm_compute in Hp; congruence].
  assert (Hpe : Some p = providers ex_tripped !! "c") by congruence.
  vm_compute in Hpe. injection Hpe as ->.
  apply (unrelated_selections_spend_probes ex_tripped "c" _ 20 1000000 "gpt-4" [(21, "gpt-4")] ex_tripped_wf Hp);
    vm_compute; congruence.
Defined.
