(* ===== verification/Fallback.v ===== *)
(** [internal/usecase/chat/fallback.go]: executing a request on the candidate
    providers in priority order, with retries, backoff and circuit breakers. *)

From stdpp Require Import base gmap strings list numbers.
From S2P Require Import GoPrelude Errors CircuitBreaker ChatModel Routing.

Record FallbackChain := mkFallbackChain {
  fc_maxRetries : Z;
  fc_defaultTimeout : Z;
  fc_fallbackRules : list FallbackRule;
}.

Record FallbackResult := mkFallbackResult {
  fr_Completion : Completion;
  fr_Provider : string;
  fr_Model : string;
  fr_Attempt : Z;
  fr_TotalLatency : Z;
  fr_Retried : bool;
  fr_FallbackReason : string;
}.

Definition zero_FallbackResult : FallbackResult :=
  mkFallbackResult zero_Completion "" "" 0 0 false "".

Definition NewFallbackChain (cfg : RouterConfig) : FallbackChain :=
  mkFallbackChain
    (if rc_MaxRetries cfg <=? 0 then 2 else rc_MaxRetries cfg)
    (if rc_DefaultTimeout cfg <=? 0 then 30 * second else rc_DefaultTimeout cfg)
    (rc_FallbackRules cfg).

Definition millisecond : Z := 1000000.

Definition getMaxRetriesForProvider (fc : FallbackChain) (p : RegisteredProvider) : Z :=
  if pc_MaxRetries (rp_Config p) >? 0 then pc_MaxRetries (rp_Config p) else fc_maxRetries fc.

(** The sentinel a rule names; any other text is a fresh [errors.New], which
    [errors.Is] matches with nothing, here [None]. *)
Definition modelErrFromString (s : string) : option error :=
  if bool_decide (s = "provider unavailable") then Some (ErrProviderUnavailable : error)
  else if bool_decide (s = "provider timeout") then Some (ErrProviderTimeout : error)
  else if bool_decide (s = "provider rate limited") then Some (ErrProviderRateLimited : error)
  else if bool_decide (s = "provider authentication failed") then Some (ErrProviderAuthFailed : error)
  else if bool_decide (s = "provider invalid request") then Some (ErrProviderInvalidRequest : error)
  else None.

Definition isTransientError (err : error) : bool :=
  errors_Is err ErrProviderUnavailable || errors_Is err ErrProviderTimeout ||
  errors_Is err ErrProviderRateLimited.

Definition rule_matches (err : error) (rule : FallbackRule) : bool :=
  existsb (fun s => match modelErrFromString s with Some t => errors_Is err t | None => false end)
    (rule_OnErrors rule).

Definition default_backoff (retry : Z) : Z := (retry + 1) * 100 * millisecond.

(** The first rule that matches decides; without one, transient errors retry. *)
Definition shouldRetry (fc : FallbackChain) (err : error) (retry : Z) (p : RegisteredProvider) : bool * Z :=
  if retry >=? getMaxRetriesForProvider fc p then (false, 0)
  else match List.find (rule_matches err) (fc_fallbackRules fc) with
  | Some rule =>
      let maxRetries := if rule_MaxRetries rule =? 0 then fc_maxRetries fc else rule_MaxRetries rule in
      if retry <? maxRetries
      then (true, if rule_Backoff rule =? 0 then default_backoff retry else rule_Backoff rule)
      else (false, 0)
  | None => if isTransientError err then (true, default_backoff retry) else (false, 0)
  end.

Section Execute.
Context {W : Type} `{ModelEnv W}.

(** How one provider's turn ends: a [return] of the whole function, or the next
    provider, with the attempts made and the last error so far. *)
Inductive turn :=
| Returned (res : FallbackResult) (err : option error)
| NextProvider (attempt : Z) (lastErr : option error).

Definition record (name : string) (f : CircuitBreaker -> CircuitBreaker) (r : ProviderRegistry)
    : ProviderRegistry :=
  match providers r !! name with
  | Some p => update_provider r name (set_breaker p (f (rp_CircuitBreaker p)))
  | None => r
  end.

(** [for retry := 0; retry <= maxProviderRetries; retry++]; [more] counts the
    iterations the loop condition still allows. *)
Fixpoint retry_loop (more : nat) (fc : FallbackChain) (startTime : Z) (req : ChatRequest) (name : string)
    (retry attempt : Z) (lastErr : option error) (r : ProviderRegistry) (w : W)
    : (ProviderRegistry * W) * turn :=
  match more, providers r !! name with
  | O, _ | _, None => ((r, w), NextProvider attempt lastErr)
  | S more, Some p =>
      let attempt := attempt + 1 in
      let '(cb, refused) := AllowRequest (env_now w) (rp_CircuitBreaker p) in
      let r := update_provider r name (set_breaker p cb) in
      if refused then ((r, w), NextProvider attempt (Some (ErrProviderUnavailable : error)))
      else
        let '(w, res) := provider_Complete (rp_Provider p) (pc_Timeout (rp_Config p)) req w in
        match res with
        | Ok completion =>
            let r := record name RecordSuccess r in
            ((r, w), Returned (mkFallbackResult completion (pc_Name (rp_Config p)) (cmp_Model completion)
                       attempt (env_now w - startTime) (attempt >? 1) "") None)
        | Err err =>
            let r := record name (RecordFailure (env_now w)) r in
            let '(again, backoff) := shouldRetry fc err retry p in
            if negb again then ((r, w), NextProvider attempt (Some err))
            else if backoff >? 0 then
              match wait_backoff backoff w with
              | (w, Some ctxErr) => ((r, w), Returned zero_FallbackResult (Some ctxErr))
              | (w, None) => retry_loop more fc startTime req name (retry + 1) attempt (Some err) r w
              end
            else retry_loop more fc startTime req name (retry + 1) attempt (Some err) r w
        end
  end.

Definition iterations (fc : FallbackChain) (r : ProviderRegistry) (name : string) : nat :=
  match providers r !! name with
  | Some p => Z.to_nat (getMaxRetriesForProvider fc p + 1)
  | None => 0
  end.

Fixpoint provider_loop (names : list string) (fc : FallbackChain) (startTime : Z) (req : ChatRequest)
    (attempt : Z) (lastErr : option error) (r : ProviderRegistry) (w : W)
    : (ProviderRegistry * W) * turn :=
  match names with
  | [] => ((r, w), NextProvider attempt lastErr)
  | name :: names =>
      match retry_loop (iterations fc r name) fc startTime req name 0 attempt lastErr r w with
      | ((r, w), NextProvider attempt lastErr) => provider_loop names fc startTime req attempt lastErr r w
      | (rw, ret) => (rw, ret)
      end
  end.

(** [fmt.Errorf("all providers exhausted: %w", lastErr)] *)
Definition exhausted (lastErr : option error) : error :=
  match lastErr with
  | Some e => EWrap "all providers exhausted" e
  | None => EOther "all providers exhausted: %!w(<nil>)"
  end.

Definition candidates (req : ChatRequest) (r : ProviderRegistry) (healthy : list string) : list string :=
  List.filter (supports r (req_Model req)) healthy.

(** The cost estimates before and after are logged and dropped. *)
Definition ExecuteWithFallback (fc : FallbackChain) (req : ChatRequest) (r : ProviderRegistry) (w : W)
    : (ProviderRegistry * W) * (FallbackResult * option error) :=
  let startTime := env_now w in
  let '(r, healthy) := GetHealthyProviders (env_now w) r in
  if bool_decide (healthy = []) then ((r, w), (zero_FallbackResult, Some (ErrNoHealthyProvider : error)))
  else
    let cs := candidates req r healthy in
    if bool_decide (cs = []) then ((r, w), (zero_FallbackResult, Some (ErrNoHealthyProvider : error)))
    else
      match provider_loop cs fc startTime req 0 None r w with
      | (rw, Returned res err) => (rw, (res, err))
      | ((r, w), NextProvider attempt lastErr) =>
          ((r, w), (mkFallbackResult zero_Completion "" "" attempt (env_now w - startTime) (attempt >? 1) "",
                    Some (exhausted lastErr)))
      end.
End Execute.

(** ** Recording the calls

    The same world with a log of every completion asked for and its answer. *)
Abbreviation call_log := (list (ModelProvider * result error Completion)).

Definition Traced (W : Type) : Type := (W * call_log)%type.

#[global] Instance traced_env {W} `{ModelEnv W} : ModelEnv (Traced W) := {
  env_now w := env_now (fst w);
  provider_Complete p t req w :=
    let '(w', res) := provider_Complete p t req (fst w) in ((w', snd w ++ [(p, res)]), res);
  provider_HealthCheck p t w :=
    let '(w', e) := provider_HealthCheck p t (fst w) in ((w', snd w), e);
  wait_backoff d w := let '(w', e) := wait_backoff d (fst w) in ((w', snd w), e);
}.

Definition failed (c : ModelProvider * result error Completion) : Prop := exists e, snd c = Err e.

(** The calls of one provider's turn: all to that provider, each but the last
    having failed with an error the policy retries at that point. *)
Fixpoint turn_calls (fc : FallbackChain) (p : RegisteredProvider) (retry : Z) (calls : call_log) : Prop :=
  match calls with
  | [] => True
  | (q, res) :: rest =>
      q = rp_Provider p /\
      match rest with
      | [] => True
      | _ => exists e, res = Err e /\ fst (shouldRetry fc e retry p) = true /\
               turn_calls fc p (retry + 1) rest
      end
  end.

(** The calls of a whole execution: one turn per candidate, in order. *)
Inductive chain_calls (fc : FallbackChain) (r : ProviderRegistry) : list string -> call_log -> Prop :=
| chain_nil : chain_calls fc r [] []
| chain_cons n p names turn rest :
    providers r !! n = Some p -> turn_calls fc p 0 turn -> chain_calls fc r names rest ->
    chain_calls fc r (n :: names) (turn ++ rest).

Definition retries_positive (fc : FallbackChain) : Prop := 0 < fc_maxRetries fc.

Lemma getMaxRetries_nonneg fc p : retries_positive fc -> 0 < getMaxRetriesForProvider fc p.
Proof.
  unfold retries_positive, getMaxRetriesForProvider. rewrite Z.gtb_ltb.
  destruct (Z.ltb_spec 0 (pc_MaxRetries (rp_Config p))); lia.
Qed.

Lemma shouldRetry_max fc e retry p :
  fst (shouldRetry fc e retry p) = true -> retry < getMaxRetriesForProvider fc p.
Proof.
  unfold shouldRetry. rewrite Z.geb_leb.
  destruct (Z.leb_spec (getMaxRetriesForProvider fc p) retry); [done|lia].
Qed.

Lemma turn_calls_length fc p retry calls :
  turn_calls fc p retry calls ->
  retry <= getMaxRetriesForProvider fc p -> retry + Z.of_nat (length calls) <= getMaxRetriesForProvider fc p + 1.
Proof.
  revert retry. induction calls as [|[q res] rest IH]; intros retry Hc Hr; simpl; [lia|].
  destruct Hc as [_ Hc]. destruct rest as [|c rest]; [simpl; lia|].
  destruct Hc as (e & _ & Hs & Hc). apply shouldRetry_max in Hs.
  specialize (IH (retry + 1) Hc ltac:(lia)). simpl in *. lia.
Qed.

(** Registries that differ in breakers and health only. *)
Definition same_static (r1 r2 : ProviderRegistry) : Prop :=
  forall n, (fun p => (rp_Config p, rp_Provider p)) <$> providers r1 !! n =
            (fun p => (rp_Config p, rp_Provider p)) <$> providers r2 !! n.

#[global] Instance same_static_equivalence : Equivalence same_static.
Proof.
  split; [done|intros r1 r2 H n; by rewrite H|].
  intros r1 r2 r3 H1 H2 n. by rewrite H1, H2.
Qed.

Lemma same_static_lookup r1 r2 n p :
  same_static r1 r2 -> providers r1 !! n = Some p ->
  exists q, providers r2 !! n = Some q /\ rp_Config q = rp_Config p /\ rp_Provider q = rp_Provider p.
Proof.
  intros Hs Hn. specialize (Hs n). rewrite Hn in Hs. simpl in Hs.
  destruct (providers r2 !! n) as [q|]; simpl in Hs; [|done]. injection Hs as H1 H2. eauto.
Qed.

Lemma update_breaker_static r n p cb :
  providers r !! n = Some p -> same_static r (update_provider r n (set_breaker p cb)).
Proof.
  intros Hn m. simpl. rewrite lookup_insert. case_decide; [subst; by rewrite Hn|done].
Qed.

Lemma record_spec name f r p :
  registry_wf r -> providers r !! name = Some p ->
  (forall cb, cb_wf cb -> cb_wf (f cb)) ->
  registry_wf (record name f r) /\ same_static r (record name f r) /\
  providers (record name f r) !! name = Some (set_breaker p (f (rp_CircuitBreaker p))).
Proof.
  intros Hwf Hn Hf. unfold record. rewrite Hn. split_and!.
  - apply update_breaker_wf; [done..|]. apply Hf. by eapply wf_entry.
  - by apply update_breaker_static.
  - simpl. apply lookup_insert_eq.
Qed.

Lemma turn_calls_cons fc p retry e rest :
  fst (shouldRetry fc e retry p) = true -> turn_calls fc p (retry + 1) rest ->
  turn_calls fc p retry ((rp_Provider p, Err e) :: rest).
Proof. intros Hs Hr. split; [done|]. destruct rest; [done|]. eauto. Qed.

Lemma turn_calls_config fc p q retry calls :
  rp_Config q = rp_Config p -> rp_Provider q = rp_Provider p ->
  turn_calls fc q retry calls -> turn_calls fc p retry calls.
Proof.
  intros Hc Hp. revert retry. induction calls as [|[x res] rest IH]; intros retry; simpl; [done|].
  rewrite Hp. intros [Hx Hr]. split; [done|]. destruct rest; [done|].
  destruct Hr as (e & He & Hs & Hr). exists e. split; [done|]. split; [|by apply IH].
  revert Hs. unfold shouldRetry, getMaxRetriesForProvider. by rewrite Hc.
Qed.

(** ** Runs

    What a turn of one provider is, attempt by attempt: the breaker refuses; the
    provider answers; or it fails, and then the policy decides whether the turn
    is given up, and else, after the wait, goes on with the next attempt. *)
Inductive turn_end :=
| Completed (c : Completion)
| Cancelled (e : error)
| GaveUp (e : error)
| BreakerRefused.

(** A refusal counts as an attempt and calls nothing. *)
Definition attempts (calls : call_log) (fin : turn_end) : Z :=
  Z.of_nat (length calls) + match fin with BreakerRefused => 1 | _ => 0 end.

(** The error a turn leaves to the next provider, if it goes on to it. *)
Definition turn_failure (fin : turn_end) : option error :=
  match fin with
  | GaveUp e => Some e
  | BreakerRefused => Some (ErrProviderUnavailable : error)
  | Completed _ | Cancelled _ => None
  end.

Section Runs.
Context {W : Type} `{ModelEnv W}.
Variables (fc : FallbackChain) (req : ChatRequest).

Inductive turn_run (p : RegisteredProvider)
    : Z -> CircuitBreaker -> W -> call_log -> turn_end -> CircuitBreaker -> W -> Prop :=
| turn_refused retry cb cb1 w e :
    AllowRequest (env_now w) cb = (cb1, Some e) ->
    turn_run p retry cb w [] BreakerRefused cb1 w
| turn_completed retry cb cb1 w w1 c :
    AllowRequest (env_now w) cb = (cb1, None) ->
    provider_Complete (rp_Provider p) (pc_Timeout (rp_Config p)) req w = (w1, Ok c) ->
    turn_run p retry cb w [(rp_Provider p, Ok c)] (Completed c) (RecordSuccess cb1) w1
| turn_gave_up retry cb cb1 w w1 e :
    AllowRequest (env_now w) cb = (cb1, None) ->
    provider_Complete (rp_Provider p) (pc_Timeout (rp_Config p)) req w = (w1, Err e) ->
    fst (shouldRetry fc e retry p) = false ->
    turn_run p retry cb w [(rp_Provider p, Err e)] (GaveUp e) (RecordFailure (env_now w1) cb1) w1
| turn_cancelled retry cb cb1 w w1 w2 e d ctxErr :
    AllowRequest (env_now w) cb = (cb1, None) ->
    provider_Complete (rp_Provider p) (pc_Timeout (rp_Config p)) req w = (w1, Err e) ->
    shouldRetry fc e retry p = (true, d) -> 0 < d -> wait_backoff d w1 = (w2, Some ctxErr) ->
    turn_run p retry cb w [(rp_Provider p, Err e)] (Cancelled ctxErr) (RecordFailure (env_now w1) cb1) w2
| turn_retried retry cb cb1 cb2 w w1 w2 w3 e d calls fin :
    AllowRequest (env_now w) cb = (cb1, None) ->
    provider_Complete (rp_Provider p) (pc_Timeout (rp_Config p)) req w = (w1, Err e) ->
    shouldRetry fc e retry p = (true, d) ->
    (if d >? 0 then wait_backoff d w1 = (w2, None) else w2 = w1) ->
    turn_run p (retry + 1) (RecordFailure (env_now w1) cb1) w2 calls fin cb2 w3 ->
    turn_run p retry cb w ((rp_Provider p, Err e) :: calls) fin cb2 w3.

Inductive chain_end :=
| ChainCompleted (provider : string) (c : Completion)
| ChainCancelled (e : error)
| ChainExhausted (last : option error).

(** The candidates' turns in order, each from its provider's breaker and leaving
    it as the turn does, until one completes or is cancelled. *)
Inductive chain_run : list string -> option error -> ProviderRegistry -> W ->
    call_log -> Z -> chain_end -> ProviderRegistry -> W -> Prop :=
| chain_exhausted last r w : chain_run [] last r w [] 0 (ChainExhausted last) r w
| chain_completed n names last r w p calls c cb w1 :
    providers r !! n = Some p -> turn_run p 0 (rp_CircuitBreaker p) w calls (Completed c) cb w1 ->
    chain_run (n :: names) last r w calls (attempts calls (Completed c))
      (ChainCompleted (pc_Name (rp_Config p)) c) (update_provider r n (set_breaker p cb)) w1
| chain_cancelled n names last r w p calls e cb w1 :
    providers r !! n = Some p -> turn_run p 0 (rp_CircuitBreaker p) w calls (Cancelled e) cb w1 ->
    chain_run (n :: names) last r w calls (attempts calls (Cancelled e))
      (ChainCancelled e) (update_provider r n (set_breaker p cb)) w1
| chain_next n names last r w p turn fin e cb w1 calls k out r2 w2 :
    providers r !! n = Some p -> turn_run p 0 (rp_CircuitBreaker p) w turn fin cb w1 ->
    turn_failure fin = Some e ->
    chain_run names (Some e) (update_provider r n (set_breaker p cb)) w1 calls k out r2 w2 ->
    chain_run (n :: names) last r w (turn ++ calls) (attempts turn fin + k) out r2 w2.
End Runs.

Section Facts.
Context {W : Type} `{ModelEnv W}.

(** What the retry loop returns at the end of a turn. *)
Definition turn_result (p : RegisteredProvider) (startTime now attempt : Z) (fin : turn_end) : turn :=
  match fin with
  | Completed c => Returned (mkFallbackResult c (pc_Name (rp_Config p)) (cmp_Model c) attempt (now - startTime)
                     (attempt >? 1) "") None
  | Cancelled e => Returned zero_FallbackResult (Some e)
  | GaveUp e => NextProvider attempt (Some e)
  | BreakerRefused => NextProvider attempt (Some (ErrProviderUnavailable : error))
  end.

Lemma update_update r n p q : update_provider (update_provider r n p) n q = update_provider r n q.
Proof. unfold update_provider. simpl. by rewrite insert_insert_eq. Qed.

Lemma record_update r n p f :
  record n f (update_provider r n p) = update_provider r n (set_breaker p (f (rp_CircuitBreaker p))).
Proof. unfold record. cbn [update_provider providers]. rewrite lookup_insert_eq. apply update_update. Qed.

Lemma attempts_cons c calls fin : attempts (c :: calls) fin = 1 + attempts calls fin.
Proof. unfold attempts. cbn [length]. lia. Qed.

(** The retry loop is a turn, and enough iterations are allowed for it. *)
Lemma retry_loop_run more fc st req n p cb retry attempt lastErr r (w : Traced W) :
  providers r !! n = Some (set_breaker p cb) ->
  Z.of_nat more + retry = getMaxRetriesForProvider fc p + 1 -> (0 < more)%nat ->
  exists calls fin cb' w',
    turn_run fc req p retry cb (fst w) calls fin cb' w' /\
    retry_loop more fc st req n retry attempt lastErr r w =
      ((update_provider r n (set_breaker p cb'), (w', snd w ++ calls)),
       turn_result p st (env_now w') (attempt + attempts calls fin) fin).
Proof.
  revert cb retry attempt lastErr r w. induction more as [|more IH]; intros cb retry attempt lastErr r w Hn Hmax Hpos; [lia|].
  simpl. rewrite Hn. cbn [rp_CircuitBreaker rp_Provider rp_Config set_breaker].
  destruct (AllowRequest (env_now (fst w)) cb) as [cb1 [e0|]] eqn:Ha.
  { exists [], BreakerRefused, cb1, (fst w). split; [by econstructor|]. rewrite app_nil_r. by destruct w. }
  destruct (provider_Complete (rp_Provider p) _ req (fst w)) as [w1 [c|e]] eqn:Hcall; rewrite record_update; simpl.
  { exists [(rp_Provider p, Ok c)], (Completed c), (RecordSuccess cb1), w1. split; [by eapply turn_completed|done]. }
  change (shouldRetry fc e retry (set_breaker p cb)) with (shouldRetry fc e retry p).
  destruct (shouldRetry fc e retry p) as [[] d] eqn:Hs; simpl.
  2:{ exists [(rp_Provider p, Err e)], (GaveUp e), (RecordFailure (env_now w1) cb1), w1.
      split; [eapply turn_gave_up; [done..|by rewrite Hs]|done]. }
  assert (Hgo : forall w2, (if d >? 0 then wait_backoff d w1 = (w2, None) else w2 = w1) ->
    let r1 := update_provider r n (set_breaker p (RecordFailure (env_now w1) cb1)) in
    exists calls fin cb' w', turn_run fc req p retry cb (fst w) calls fin cb' w' /\
    retry_loop more fc st req n (retry + 1) (attempt + 1) (Some e) r1 ((w2, snd w ++ [(rp_Provider p, Err e)]) : Traced W) =
      ((update_provider r n (set_breaker p cb'), (w', snd w ++ calls)),
       turn_result p st (env_now w') (attempt + attempts calls fin) fin)).
  { intros w2 Hw2 r1. pose proof (shouldRetry_max fc e retry p ltac:(by rewrite Hs)) as Hlt.
    destruct (IH (RecordFailure (env_now w1) cb1) (retry + 1) (attempt + 1) (Some e) r1
      ((w2, snd w ++ [(rp_Provider p, Err e)]) : Traced W)) as (calls & fin & cb' & w' & Hrun & ->);
      [apply lookup_insert_eq|lia..|].
    exists ((rp_Provider p, Err e) :: calls), fin, cb', w'. split; [by eapply turn_retried|].
    unfold r1. rewrite update_update, attempts_cons, Z.add_assoc. cbn [snd]. by rewrite <- app_assoc. }
  destruct (d >? 0) eqn:Hd; [|by apply Hgo].
  destruct (wait_backoff d w1) as [w2 [x|]] eqn:Hwait; [|by apply Hgo].
  exists [(rp_Provider p, Err e)], (Cancelled x), (RecordFailure (env_now w1) cb1), w2.
  split; [|done]. eapply turn_cancelled; [done..|lia|done].
Qed.

Lemma same_static_registered r1 r2 (names : list string) :
  same_static r1 r2 -> (forall n, n ∈ names -> is_Some (providers r1 !! n)) ->
  forall n, n ∈ names -> is_Some (providers r2 !! n).
Proof.
  intros Hst Hin n Hn. destruct (Hin n Hn) as [p Hp].
  destruct (same_static_lookup _ _ _ _ Hst Hp) as (q & Hq & _). eauto.
Qed.

Lemma iterations_spec fc r n p :
  retries_positive fc -> providers r !! n = Some p ->
  Z.of_nat (iterations fc r n) + 0 = getMaxRetriesForProvider fc p + 1 /\ (0 < iterations fc r n)%nat.
Proof.
  intros Hfc Hn. unfold iterations. rewrite Hn. pose proof (getMaxRetries_nonneg fc p Hfc). lia.
Qed.

Definition chain_result (startTime now attempt : Z) (out : chain_end) : turn :=
  match out with
  | ChainCompleted name c =>
      Returned (mkFallbackResult c name (cmp_Model c) attempt (now - startTime) (attempt >? 1) "") None
  | ChainCancelled e => Returned zero_FallbackResult (Some e)
  | ChainExhausted last => NextProvider attempt last
  end.

Lemma provider_loop_run names fc st req attempt lastErr r (w : Traced W) :
  retries_positive fc -> (forall n, n ∈ names -> is_Some (providers r !! n)) ->
  exists calls k out r' w',
    chain_run fc req names lastErr r (fst w) calls k out r' w' /\
    provider_loop names fc st req attempt lastErr r w =
      ((r', (w', snd w ++ calls)), chain_result st (env_now w') (attempt + k) out).
Proof.
  intros Hfc. revert attempt lastErr r w. induction names as [|n names IH]; intros attempt lastErr r w Hin; simpl.
  { exists [], 0, (ChainExhausted lastErr), r, (fst w). split; [constructor|].
    rewrite app_nil_r, Z.add_0_r. by destruct w. }
  destruct (Hin n) as [p Hn]; [by apply elem_of_cons; left|].
  destruct (iterations_spec fc r n p Hfc Hn) as [Hit Hpos].
  destruct (retry_loop_run (iterations fc r n) fc st req n p (rp_CircuitBreaker p) 0 attempt lastErr r w)
    as (turn & fin & cb & w1 & Hrun & ->); [by destruct p|done..|].
  assert (Hin1 : forall m, m ∈ names -> is_Some (providers (update_provider r n (set_breaker p cb)) !! m)).
  { apply (same_static_registered r); [by apply update_breaker_static|].
    intros m Hm. apply Hin. by apply elem_of_cons; right. }
  destruct fin as [c|x|e|]; cbn [turn_result].
  - eexists turn, _, _, _, w1. by split; [eapply chain_completed|].
  - eexists turn, _, _, _, w1. by split; [eapply chain_cancelled|].
  - destruct (IH (attempt + attempts turn (GaveUp e)) (Some e) _ ((w1, snd w ++ turn) : Traced W) Hin1)
      as (calls & k & out & r2 & w2 & Hc & ->).
    eexists (turn ++ calls), _, out, r2, w2. split; [by eapply chain_next|]. by rewrite Z.add_assoc, app_assoc.
  - destruct (IH (attempt + attempts turn BreakerRefused) (Some (ErrProviderUnavailable : error)) _ ((w1, snd w ++ turn) : Traced W) Hin1)
      as (calls & k & out & r2 & w2 & Hc & ->).
    eexists (turn ++ calls), _, out, r2, w2. split; [by eapply chain_next|]. by rewrite Z.add_assoc, app_assoc.
Qed.

(** *** What runs imply *)

Lemma turn_run_wf fc req p retry cb (w : W) calls fin cb' w' :
  turn_run fc req p retry cb w calls fin cb' w' -> cb_wf cb -> cb_wf cb'.
Proof.
  assert (Hallow : forall now cb cb1 res, AllowRequest now cb = (cb1, res) -> cb_wf cb -> cb_wf cb1).
  { intros now c c1 res Ha Hc. pose proof (cb_step_wf now OpAllow c Hc) as Hs. simpl in Hs. by rewrite Ha in Hs. }
  induction 1; intros Hcb.
  - by eapply Hallow.
  - apply (cb_step_wf 0 OpSuccess). by eapply Hallow.
  - apply (cb_step_wf (env_now w1) OpFailure). by eapply Hallow.
  - apply (cb_step_wf (env_now w1) OpFailure). by eapply Hallow.
  - apply IHturn_run. apply (cb_step_wf (env_now w1) OpFailure). by eapply Hallow.
Qed.

Lemma turn_run_calls fc req p retry cb (w : W) calls fin cb' w' :
  turn_run fc req p retry cb w calls fin cb' w' -> turn_calls fc p retry calls.
Proof.
  induction 1; try by split. apply turn_calls_cons; [|done].
  match goal with Hs : shouldRetry _ _ _ _ = _ |- _ => by rewrite Hs end.
Qed.

(** How the calls of a turn relate to its end. *)
Definition ends_with (log : call_log) (fin : turn_end) : Prop :=
  match fin with
  | Completed c => exists init q, log = init ++ [(q, Ok c)] /\ Forall failed init
  | Cancelled e => Forall failed log /\ exists d (w w' : W), wait_backoff d w = (w', Some e)
  | GaveUp e => Forall failed log /\ exists init q, log = init ++ [(q, Err e)]
  | BreakerRefused => Forall failed log
  end.

Lemma ends_with_app log1 log2 fin :
  Forall failed log1 -> ends_with log2 fin -> ends_with (log1 ++ log2) fin.
Proof.
  intros H1. destruct fin as [c|e|e|]; simpl.
  - intros (init & q & -> & ?). exists (log1 ++ init), q. rewrite app_assoc. split; [done|by apply Forall_app].
  - intros [? ?]. split; [by apply Forall_app|done].
  - intros (? & init & q & ->). split; [by apply Forall_app|]. exists (log1 ++ init), q. by rewrite app_assoc.
  - intros ?. by apply Forall_app.
Qed.

Lemma turn_run_ends fc req p retry cb (w : W) calls fin cb' w' :
  turn_run fc req p retry cb w calls fin cb' w' -> ends_with calls fin.
Proof.
  assert (Hf : forall e, Forall failed [(rp_Provider p, Err e : result error Completion)])
    by (intros e; repeat constructor; by exists e).
  induction 1; simpl.
  - constructor.
  - by exists [], (rp_Provider p).
  - split; [apply Hf|]. by exists [], (rp_Provider p).
  - split; [apply Hf|]. eauto.
  - by apply (ends_with_app [(rp_Provider p, Err e)]).
Qed.

Lemma turn_failure_failed log fin e : turn_failure fin = Some e -> ends_with log fin -> Forall failed log.
Proof. by destruct fin; simpl; intros [= ?] ?; destruct_and?. Qed.

Lemma chain_calls_static fc r1 r2 names calls :
  same_static r1 r2 -> chain_calls fc r2 names calls -> chain_calls fc r1 names calls.
Proof.
  intros Hs. induction 1 as [|n p names turn rest Hn Ht Hr IH]; [constructor|].
  symmetry in Hs. destruct (same_static_lookup _ _ _ _ Hs Hn) as (q & Hq & Hc & Hp).
  econstructor; [exact Hq| |exact IH]. eapply turn_calls_config; [..|exact Ht]; done.
Qed.

Lemma chain_calls_idle fc r names :
  (forall n, n ∈ names -> is_Some (providers r !! n)) -> chain_calls fc r names [].
Proof.
  induction names as [|n names IH]; intros Hin; [constructor|].
  destruct (Hin n) as [p Hp]; [by apply elem_of_cons; left|].
  apply (chain_cons fc r n p names [] []); [done..|]. apply IH. intros m Hm. apply Hin.
  by apply elem_of_cons; right.
Qed.

Lemma chain_calls_turn fc r n p names turn :
  providers r !! n = Some p -> turn_calls fc p 0 turn ->
  (forall m, m ∈ n :: names -> is_Some (providers r !! m)) -> chain_calls fc r (n :: names) turn.
Proof.
  intros Hn Ht Hin. rewrite <- (app_nil_r turn). econstructor; [done..|]. apply chain_calls_idle.
  intros m Hm. apply Hin. by apply elem_of_cons; right.
Qed.

Definition chain_fin (out : chain_end) (fin : turn_end) : Prop :=
  match out with
  | ChainCompleted _ c => fin = Completed c
  | ChainCancelled e => fin = Cancelled e
  | ChainExhausted last => exists e, last = Some e /\ turn_failure fin = Some e
  end.

Lemma chain_run_spec fc req names last r (w : W) calls k out r' w' :
  chain_run fc req names last r w calls k out r' w' ->
  registry_wf r -> (forall n, n ∈ names -> is_Some (providers r !! n)) ->
  registry_wf r' /\ same_static r r' /\ chain_calls fc r names calls /\ Z.of_nat (length calls) <= k /\
  ((names = [] /\ calls = [] /\ out = ChainExhausted last) \/
   exists fin, chain_fin out fin /\ ends_with calls fin).
Proof.
  assert (Hlen : forall calls fin, Z.of_nat (length calls) <= attempts calls fin)
    by (intros l []; unfold attempts; lia).
  induction 1 as [last r w|n names last r w p calls c cb w1 Hn Hrun|n names last r w p calls e cb w1 Hn Hrun
    |n names last r w p turn fin e cb w1 calls k out r2 w2 Hn Hrun Hfail Hrest IH]; intros Hwf Hin.
  { split_and!; [done..|constructor|done|by left]. }
  all: pose proof (turn_run_calls _ _ _ _ _ _ _ _ _ _ Hrun) as Ht; pose proof (turn_run_ends _ _ _ _ _ _ _ _ _ _ Hrun) as He;
    pose proof (turn_run_wf _ _ _ _ _ _ _ _ _ _ Hrun (proj2 (wf_entry _ Hwf _ _ Hn))) as Hcb;
    pose proof (update_breaker_wf r n p cb Hwf Hn Hcb) as Hwf1; pose proof (update_breaker_static r n p cb Hn) as Hst1.
  - split_and!; [done..|by eapply chain_calls_turn|apply Hlen|]. right. by exists (Completed c).
  - split_and!; [done..|by eapply chain_calls_turn|apply Hlen|]. right. by exists (Cancelled e).
  - assert (Hin1 : forall m, m ∈ names -> is_Some (providers (update_provider r n (set_breaker p cb)) !! m))
      by (apply (same_static_registered r); [done|intros m Hm; apply Hin; by apply elem_of_cons; right]).
    destruct (IH Hwf1 Hin1) as (Hwf2 & Hst2 & Hcalls & Hk & Hout). split_and!; [done|by etrans| | |].
    + econstructor; [done..|]. by eapply chain_calls_static.
    + specialize (Hlen turn fin). rewrite length_app. lia.
    + right. destruct Hout as [(-> & -> & ->)|(fin2 & Hf2 & He2)].
      * exists fin. rewrite app_nil_r. split; [by exists e|done].
      * exists fin2. split; [done|]. apply ends_with_app; [by eapply turn_failure_failed|done].
Qed.
(** *** Runs are deterministic *)

(** Two answers of one call are one answer. *)
#[local] Ltac same_call :=
  repeat match goal with
  | H1 : ?x = (_, _), H2 : ?x = (_, _) |- _ => rewrite H1 in H2; simplify_eq
  | H1 : ?x = (_, _), H2 : fst ?x = _ |- _ => rewrite H1 in H2; simpl in H2; simplify_eq
  | H1 : 0 < ?d, H2 : if ?d >? 0 then _ else _ |- _ => rewrite (proj2 (Z.gtb_lt d 0) H1) in H2
  end.

Lemma waited_det d (w u v : W) :
  (if d >? 0 then wait_backoff d w = (u, None) else u = w) ->
  (if d >? 0 then wait_backoff d w = (v, None) else v = w) -> u = v.
Proof. destruct (d >? 0); congruence. Qed.

Lemma turn_run_det fc req p retry cb (w : W) calls fin cb1 w1 :
  turn_run fc req p retry cb w calls fin cb1 w1 ->
  forall calls2 fin2 cb2 w2, turn_run fc req p retry cb w calls2 fin2 cb2 w2 ->
  calls = calls2 /\ fin = fin2 /\ cb1 = cb2 /\ w1 = w2.
Proof.
  induction 1; intros calls2 fin2 cbx wx Hrun2; inversion Hrun2; subst; same_call; try done.
  match goal with IH : forall _ _ _ _, turn_run _ _ _ _ _ ?u _ _ _ _ -> _, Hr : turn_run _ _ _ _ _ ?v _ _ _ _ |- _ =>
    assert (v = u) as -> by (eapply waited_det; eassumption); destruct (IH _ _ _ _ Hr) as (-> & -> & -> & ->) end.
  done.
Qed.

Lemma chain_run_det fc req names last r (w : W) calls k out r1 w1 :
  chain_run fc req names last r w calls k out r1 w1 ->
  forall calls2 k2 out2 r2 w2, chain_run fc req names last r w calls2 k2 out2 r2 w2 ->
  calls = calls2 /\ k = k2 /\ out = out2 /\ r1 = r2 /\ w1 = w2.
Proof.
  induction 1 as [last r w|n names last r w p calls c cb w1 Hn Hrun|n names last r w p calls e cb w1 Hn Hrun
    |n names last r w p turn fin e cb w1 calls k out r2 w2 Hn Hrun Hfail Hrest IH];
    intros calls2 k2 out2 rx wx Hrun2; inversion Hrun2; subst; try done; simplify_eq;
    match goal with Ht : turn_run _ _ _ _ _ _ _ _ _ _ |- _ =>
      destruct (turn_run_det _ _ _ _ _ _ _ _ _ _ Hrun _ _ _ _ Ht) as (? & ? & ? & ?) end; simplify_eq; try done.
  match goal with Hr : chain_run _ _ _ _ _ _ _ _ _ _ _ |- _ => destruct (IH _ _ _ _ _ Hr) as (-> & -> & -> & -> & ->) end.
  done.
Qed.
End Facts.

(** The most calls an execution can make. *)
Definition call_budget (fc : FallbackChain) (r : ProviderRegistry) (names : list string) : Z :=
  foldr (fun n k => Z.of_nat (iterations fc r n) + k) 0 names.

Lemma chain_calls_length fc r names calls :
  retries_positive fc -> chain_calls fc r names calls -> Z.of_nat (length calls) <= call_budget fc r names.
Proof.
  intros Hfc. induction 1 as [|n p names turn rest Hn Ht Hr IH]; [done|].
  cbn [call_budget foldr]. fold (call_budget fc r names). rewrite length_app. destruct (iterations_spec fc r n p Hfc Hn) as [Hit _].
  pose proof (getMaxRetries_nonneg fc p Hfc).
  apply turn_calls_length in Ht; lia.
Qed.

Lemma GetHealthy_static now r :
  same_static r (mkRegistry (probe now <$> providers r) (priority r)).
Proof.
  intros n. simpl. rewrite lookup_fmap. destruct (providers r !! n) as [p|]; simpl; [|done].
  unfold probe. by destruct (pc_Enabled (rp_Config p)).
Qed.

(** The providers an execution will try, in order. *)
Definition candidate_names (now : Z) (req : ChatRequest) (r : ProviderRegistry) : list string :=
  List.filter (eligible_name now (req_Model req) r) (priority r).

Lemma filter_filter {A} (f g : A -> bool) l :
  List.filter f (List.filter g l) = List.filter (fun x => g x && f x) l.
Proof.
  induction l as [|x l IH]; simpl; [done|]. destruct (g x); simpl; [|done].
  by rewrite IH.
Qed.

Lemma candidates_eligible now req r :
  candidates req (mkRegistry (probe now <$> providers r) (priority r))
    (List.filter (usable_name now r) (priority r)) = candidate_names now req r.
Proof.
  unfold candidates, candidate_names. rewrite filter_filter.
  apply List.filter_ext. intros n. unfold eligible_name. by rewrite supports_probed.
Qed.

Lemma candidate_registered now req r n :
  registry_wf r -> n ∈ candidate_names now req r -> is_Some (providers r !! n).
Proof.
  intros Hwf Hn. apply list_elem_filter_bool in Hn as [Hn _]. by apply (wf_dom _ Hwf).
Qed.

(** What an execution with these candidates and calls may return. *)
Definition execution_outcome {W} `{ModelEnv W} (cs : list string) (log : call_log)
    (res : FallbackResult) (err : option error) : Prop :=
  match err with
  | None => exists init q, log = init ++ [(q, Ok (fr_Completion res))] /\ Forall failed init
  | Some e => Forall failed log /\
      ((cs = [] /\ e = ErrNoHealthyProvider) \/
       (exists d (w1 w2 : W), wait_backoff d w1 = (w2, Some e)) \/
       (exists last, e = EWrap "all providers exhausted" last /\
          (last = ErrProviderUnavailable \/ exists init q, log = init ++ [(q, Err last)])))
  end.

(** The registry after the health filter has asked every breaker. *)
Definition probed (now : Z) (r : ProviderRegistry) : ProviderRegistry :=
  mkRegistry (probe now <$> providers r) (priority r).

Lemma probed_wf now r : registry_wf r -> registry_wf (probed now r).
Proof. intros. apply registry_wf_fmap; auto using probe_config, probe_wf. Qed.

Lemma candidates_probed now req r n :
  registry_wf r -> n ∈ candidate_names now req r -> is_Some (providers (probed now r) !! n).
Proof.
  intros Hwf. apply (same_static_registered r); [apply GetHealthy_static|].
  intros m. by apply candidate_registered.
Qed.

(** What an execution that started at [startTime] returns at the end of its run. *)
Definition execution_result (cs : list string) (startTime now attempts : Z) (out : chain_end)
    : FallbackResult * option error :=
  match out with
  | ChainCompleted name c =>
      (mkFallbackResult c name (cmp_Model c) attempts (now - startTime) (attempts >? 1) "", None)
  | ChainCancelled e => (zero_FallbackResult, Some e)
  | ChainExhausted last =>
      if bool_decide (cs = []) then (zero_FallbackResult, Some (ErrNoHealthyProvider : error))
      else (mkFallbackResult zero_Completion "" "" attempts (now - startTime) (attempts >? 1) "", Some (exhausted last))
  end.

Lemma execute_run {W} `{ModelEnv W} (fc : FallbackChain) (req : ChatRequest) (r : ProviderRegistry) (w : Traced W) :
  retries_positive fc -> registry_wf r ->
  let cs := candidate_names (env_now w) req r in
  exists calls k out r' w',
    chain_run fc req cs None (probed (env_now w) r) (fst w) calls k out r' w' /\
    ExecuteWithFallback fc req r w =
      ((r', (w', snd w ++ calls)), execution_result cs (env_now w) (env_now w') k out).
Proof.
  intros Hfc Hwf cs. unfold ExecuteWithFallback. rewrite GetHealthyProviders_spec by done. fold (probed (env_now w) r).
  assert (Hcs : candidates req (probed (env_now w) r) (List.filter (usable_name (env_now w) r) (priority r)) = cs)
    by apply candidates_eligible.
  assert (Hnone : cs = [] -> exists calls k out r' w',
    chain_run fc req cs None (probed (env_now w) r) (fst w) calls k out r' w' /\
    ((probed (env_now w) r, w), (zero_FallbackResult, Some (ErrNoHealthyProvider : error))) =
      ((r', (w', snd w ++ calls)), execution_result cs (env_now w) (env_now w') k out)).
  { intros ->. eexists [], 0, (ChainExhausted None), _, (fst w). split; [constructor|].
    rewrite app_nil_r. by destruct w. }
  case_bool_decide as Eh; [apply Hnone; rewrite <- Hcs, Eh; reflexivity|].
  rewrite Hcs. case_bool_decide as Ecs; [by apply Hnone|]. clear Hnone.
  destruct (provider_loop_run cs fc (env_now w) req 0 None (probed (env_now w) r) w Hfc)
    as (calls & k & out & r' & w' & Hrun & ->); [intros n; by apply candidates_probed|].
  exists calls, k, out, r', w'. split; [done|]. rewrite Z.add_0_l.
  destruct out as [name c|e|last]; cbn [chain_result execution_result]; [done..|]. by rewrite bool_decide_false.
Qed.

Lemma execute_spec {W} `{ModelEnv W} (fc : FallbackChain) (req : ChatRequest) (r : ProviderRegistry) (w : Traced W) :
  retries_positive fc -> registry_wf r ->
  let cs := candidate_names (env_now w) req r in
  let '((r', w'), (res, err)) := ExecuteWithFallback fc req r w in
  registry_wf r' /\ same_static r r' /\
  exists calls, snd w' = snd w ++ calls /\ chain_calls fc r cs calls /\
  execution_outcome (W := W) cs calls res err.
Proof.
  intros Hfc Hwf cs. destruct (execute_run fc req r w Hfc Hwf) as (calls & k & out & r' & w' & Hrun & ->). fold cs in Hrun |- *.
  destruct (chain_run_spec _ _ _ _ _ _ _ _ _ _ _ Hrun) as (Hwf' & Hst & Hcalls & _ & Hout);
    [by apply probed_wf|intros n; by apply candidates_probed|].
  pose proof (GetHealthy_static (env_now w) r) as Hst0.
  destruct (execution_result _ _ _ _ _) as [res err] eqn:Hres.
  split; [done|]. split; [by etrans|]. exists calls. split; [done|]. split; [by eapply chain_calls_static|].
  destruct Hout as [(Hnil & -> & ->)|(fin & Hfin & He)].
  - cbn [execution_result] in Hres. rewrite bool_decide_true in Hres by done. injection Hres as <- <-. split; [constructor|by left].
  - destruct out as [name c|e|last]; cbn [execution_result chain_fin] in Hres, Hfin.
    + subst fin. by injection Hres as <- <-.
    + subst fin. injection Hres as <- <-. destruct He as [? ?]. split; [done|]. right. by left.
    + destruct Hfin as (e & -> & Hfail). case_bool_decide as Ecs; [rewrite Ecs in Hrun; inversion Hrun|].
      injection Hres as <- <-. split; [by eapply turn_failure_failed|]. right. right. exists e. split; [done|].
      destruct fin as [| |e'|]; simpl in Hfail; try done; injection Hfail as <-; [right; apply He|by left].
Qed.

Lemma call_budget_nonneg fc r names : 0 <= call_budget fc r names.
Proof. apply (foldr_sum_nonneg (fun n => Z.of_nat (iterations fc r n))). intros. lia. Qed.

(** An execution never reorders the registry. *)
Lemma record_priority name f r : priority (record name f r) = priority r.
Proof. unfold record. by destruct (providers r !! name). Qed.

Lemma retry_loop_priority {W} `{ModelEnv W} more fc st req name retry attempt lastErr r (w : W) :
  priority (fst (fst (retry_loop more fc st req name retry attempt lastErr r w))) = priority r.
Proof.
  revert retry attempt lastErr r w. induction more as [|more IH]; intros retry attempt lastErr r w; simpl; [done|].
  destruct (providers r !! name) as [p|]; [|done].
  destruct (AllowRequest _ _) as [cb [e0|]]; [done|].
  destruct (provider_Complete _ _ _ w) as [w1 [c|e]]; simpl; [by rewrite record_priority|].
  destruct (shouldRetry fc e retry p) as [[] backoff]; simpl; [|by rewrite record_priority].
  destruct (backoff >? 0); [|by rewrite IH, record_priority].
  destruct (wait_backoff backoff w1) as [w2 [ctxErr|]]; simpl; [by rewrite record_priority|].
  by rewrite IH, record_priority.
Qed.

Lemma provider_loop_priority {W} `{ModelEnv W} names fc st req attempt lastErr r (w : W) :
  priority (fst (fst (provider_loop names fc st req attempt lastErr r w))) = priority r.
Proof.
  revert attempt lastErr r w. induction names as [|n names IH]; intros attempt lastErr r w; simpl; [done|].
  pose proof (retry_loop_priority (iterations fc r n) fc st req n 0 attempt lastErr r w) as Hr.
  destruct (retry_loop _ _ _ _ _ _ _ _ _ w) as [[r1 w1] [res err|a l]]; simpl in *; [done|].
  by rewrite IH.
Qed.

Lemma execute_priority {W} `{ModelEnv W} fc req r (w : W) :
  registry_wf r -> priority (fst (fst (ExecuteWithFallback fc req r w))) = priority r.
Proof.
  intros Hwf. unfold ExecuteWithFallback. rewrite GetHealthyProviders_spec by done.
  destruct (bool_decide _); [done|]. cbv zeta. destruct (bool_decide _); [done|].
  set (r0 := mkRegistry _ _).
  pose proof (provider_loop_priority (candidates req r0 (List.filter (usable_name (env_now w) r) (priority r)))
    fc (env_now w) req 0 None r0 w) as Hp.
  by destruct (provider_loop _ _ _ _ _ _ _ w) as [[r1 w1] [res err|a l]].
Qed.

Lemma execute_no_candidates {W} `{ModelEnv W} fc req r (w : W) :
  registry_wf r -> candidate_names (env_now w) req r = [] ->
  snd (snd (ExecuteWithFallback fc req r w)) = Some (ErrNoHealthyProvider : error).
Proof.
  intros Hwf Hcs. unfold ExecuteWithFallback. rewrite GetHealthyProviders_spec by done.
  destruct (bool_decide _); [done|]. cbv zeta. rewrite candidates_eligible, Hcs. done.
Qed.

(** ** Properties *)

(** C14: an execution is the one run of its candidates (enabled, let through,
    serving the model) in priority order. A candidate's turn asks its breaker and,
    unless refused, calls the provider; a failure is recorded and, exactly when
    the policy retries it, waited for and tried again from the breaker it left;
    the turn ends with the first completion, a cancelled wait, an error that is
    not retried, or a refusal, and the last two, and only they, pass on to the
    next candidate. The calls made are those of the run, no more than the sum of
    the candidates' retries plus one; the registry is left with the run's
    breakers, and the result is the run's: its completion with the attempts
    counted, or the cancellation, or the last failure wrapped, or the missing
    candidate. *)
Theorem fallback_execution {W} `{ModelEnv W} (fc : FallbackChain) (req : ChatRequest) (r : ProviderRegistry) (w : W) :
  retries_positive fc -> registry_wf r ->
  let cs := candidate_names (env_now w) req r in
  let '((r', w'), (res, err)) := ExecuteWithFallback (W := Traced W) fc req r (w, []) in
  (exists k out,
    chain_run fc req cs None (probed (env_now w) r) w (snd w') k out r' (fst w') /\
    (res, err) = execution_result cs (env_now w) (env_now (fst w')) k out /\
    forall calls2 k2 out2 r2 w2, chain_run fc req cs None (probed (env_now w) r) w calls2 k2 out2 r2 w2 ->
      calls2 = snd w' /\ k2 = k /\ out2 = out /\ r2 = r' /\ w2 = fst w') /\
  registry_wf r' /\ same_static r r' /\
  Z.of_nat (length (snd w')) <= call_budget fc r cs /\
  execution_outcome (W := W) cs (snd w') res err.
Proof.
  intros Hfc Hwf cs.
  pose proof (execute_spec fc req r ((w, []) : Traced W) Hfc Hwf) as Hx. cbn zeta in Hx.
  destruct (execute_run fc req r ((w, []) : Traced W) Hfc Hwf) as (calls & k & out & r' & w' & Hrun & Hex).
  rewrite Hex in Hx |- *. cbn [fst snd app] in *. fold cs in Hrun |- *.
  destruct (execution_result _ _ _ _ _) as [res err] eqn:Hres.
  destruct Hx as (Hwf' & Hst & calls' & -> & Hcalls & Hout). split_and!; [|done|done|by apply chain_calls_length|done].
  exists k, out. split_and!; [done|by symmetry|]. intros calls2 k2 out2 r2 w2 Hrun2.
  by apply (chain_run_det _ _ _ _ _ _ _ _ _ _ _ Hrun2 _ _ _ _ _ Hrun).
Qed.

Definition ex_req (model : string) : ChatRequest :=
  mkChatRequest model [mkMessage "user" "hello" [] "" ""] None None None [] JNull false [] None None "".

(** A world that answers failures with the errors of a script, then succeeds. *)
#[local] Instance scripted_env : ModelEnv (Z * list error) := {
  env_now w := fst w;
  provider_Complete _ _ req w :=
    match snd w with
    | e :: es => ((fst w + 1, es), Err e)
    | [] => ((fst w + 1, []), Ok (mkCompletion zero_ChatResponse "mock" (req_Model req) 1))
    end;
  provider_HealthCheck _ _ w := (w, None);
  wait_backoff d w := ((fst w + d, snd w), None);
}.

Definition ex_chain : FallbackChain := NewFallbackChain (mkRouterConfig [] [] 0 1 true).

Lemma fallback_execution_witness :
  let '((r', w'), (res, err)) := ExecuteWithFallback (W := Traced (Z * list error)) ex_chain
      (ex_req "llama3") ex_registry ((5, [ErrProviderAuthFailed : error]), []) in
  Z.of_nat (length (snd w')) <= call_budget ex_chain ex_registry ["a"; "c"] /\
  err = None /\ fr_Provider res = "c" /\ fr_Attempt res = 2.
Proof.
  pose proof (fallback_execution ex_chain (ex_req "llama3") ex_registry (5, [ErrProviderAuthFailed : error])
    ltac:(vm_compute; reflexivity) ex_registry_wf) as Hx.
  destruct (ExecuteWithFallback _ _ _ _) as [[r' w'] [res err]] eqn:E.
  split; [|vm_compute in E; injection E as <- <- <- <-; split_and!; reflexivity].
  assert (Hc : candidate_names (env_now (5, [ErrProviderAuthFailed : error])) (ex_req "llama3") ex_registry = ["a"; "c"])
    by (vm_compute; reflexivity).
  cbn zeta in Hx. rewrite Hc in Hx. apply Hx.
Defined.

(** without fallback rules a provider is asked again only after an error that
    is, or wraps, one of the three transient sentinels, never more often than its
    own retry limit allows, and waiting a tenth of a second longer each time; an
    error text in a rule that is not one of the five known sentinels never
    matches anything. *)
Theorem retry_policy (fc : FallbackChain) (err : error) (retry : Z) (p : RegisteredProvider) :
  (fc_fallbackRules fc = [] ->
   shouldRetry fc err retry p =
     if (retry <? getMaxRetriesForProvider fc p) && isTransientError err
     then (true, (retry + 1) * 100 * millisecond) else (false, 0)) /\
  (forall rule, rule_matches err rule = true ->
     exists t, t ∈ [ErrProviderUnavailable; ErrProviderTimeout; ErrProviderRateLimited;
                    ErrProviderAuthFailed; ErrProviderInvalidRequest] /\ errors_Is err (EModel t) = true).
Proof.
  split.
  - intros Hr. unfold shouldRetry, default_backoff. rewrite Hr, Z.geb_leb. simpl.
    destruct (Z.leb_spec (getMaxRetriesForProvider fc p) retry), (Z.ltb_spec retry (getMaxRetriesForProvider fc p));
      try lia; [done|]. by destruct (isTransientError err).
  - intros rule Hm. unfold rule_matches in Hm. apply existsb_elem_of in Hm as (s & _ & Hs).
    unfold modelErrFromString in Hs. repeat case_bool_decide; try done; eexists; (split; [|exact Hs]);
      rewrite !elem_of_cons; tauto.
Qed.

Lemma retry_policy_witness :
  shouldRetry ex_chain (EWrap "call" ErrProviderTimeout) 0
    (mkRegistered (ex_provider "a" 1 []) (newMockProvider (ex_provider "a" 1 []))
       (NewCircuitBreaker DefaultCircuitBreakerConfig) true None) = (true, 100 * millisecond).
Proof.
  rewrite (proj1 (retry_policy ex_chain (EWrap "call" ErrProviderTimeout) 0 _) eq_refl). vm_compute. reflexivity.
Defined.
