(* ===== verification/Providers.v ===== *)
(** The clients behind [model.ModelProvider], [internal/adapter/provider/]: the
    OpenAI client with its wire format, the Anthropic and Ollama stubs and the mock
    provider. They implement the class [ModelEnv] that routing is proved against.

    The HTTP transport and the texts of JSON documents are classes. *)

From stdpp Require Import base gmap strings list numbers.
From Stdlib Require Import SpecFloat.
From S2P Require Import GoPrelude Bytes Errors CircuitBreaker ChatModel Routing Fallback.

(** ** Accessors *)

Definition provider_Name (p : ModelProvider) : string :=
  match p with
  | OpenAIClient _ _ _ _ => "openai"
  | AnthropicClient _ _ _ _ => "anthropic"
  | OllamaClient _ _ _ => "ollama"
  | MockProvider name _ _ _ => name
  end.

Definition provider_Models (p : ModelProvider) : list string :=
  match p with
  | OpenAIClient _ _ _ models | AnthropicClient _ _ models _ | OllamaClient _ models _ | MockProvider _ models _ _ => models
  end.

(** ** The OpenAI wire format ([openai/client.go]) *)

Record OAIFunc := mkOAIFunc { oaf_Name : string; oaf_Arguments : string }.
Record OAIToolCall := mkOAIToolCall { oat_ID : string; oat_Type : string; oat_Function : OAIFunc }.

Record OpenAIMessage := mkOAIMessage {
  oam_Role : string;
  oam_Content : string;
  oam_ToolCalls : list OAIToolCall;
  oam_ToolCallID : string;
  oam_Name : string;
}.

Record OAIFuncDef := mkOAIFuncDef {
  oad_Name : string;
  oad_Description : string;
  oad_Parameters : option (list (string * json));
}.
Record OAITool := mkOAITool { oatl_Type : string; oatl_Function : OAIFuncDef }.

Record OpenAIRequest := mkOAIRequest {
  oar_Model : string;
  oar_Messages : list OpenAIMessage;
  oar_Temperature : option float64;
  oar_MaxTokens : option Z;
  oar_TopP : option float64;
  oar_Tools : list OAITool;
  oar_ToolChoice : json;
  oar_Stream : bool;
  oar_Stop : list string;
  oar_PresencePenalty : option float64;
  oar_FrequencyPenalty : option float64;
  oar_User : string;
}.

Record OAIChoice := mkOAIChoice { oac_Index : Z; oac_Message : OpenAIMessage; oac_FinishReason : string }.
Record OAIUsage := mkOAIUsage { oau_PromptTokens : Z; oau_CompletionTokens : Z; oau_TotalTokens : Z }.
Record OAIError := mkOAIError { oae_Message : string; oae_Type : string; oae_Code : string }.

Record OpenAIResponse := mkOAIResponse {
  oas_ID : string;
  oas_Object : string;
  oas_Created : Z;
  oas_Model : string;
  oas_Choices : list OAIChoice;
  oas_Usage : OAIUsage;
  oas_SystemFingerprint : string;
  oas_Error : option OAIError;
}.

Definition convertToolCall (call : ToolCall) : OAIToolCall :=
  mkOAIToolCall (tc_ID call) (tc_Type call) (mkOAIFunc (fc_Name (tc_Function call)) (fc_Arguments (tc_Function call))).
Definition convertToolCalls : list ToolCall -> list OAIToolCall := map convertToolCall.

Definition convertToolCallBack (call : OAIToolCall) : ToolCall :=
  mkToolCall (oat_ID call) (oat_Type call) (mkFunctionCall (oaf_Name (oat_Function call)) (oaf_Arguments (oat_Function call))).
Definition convertToolCallsBack : list OAIToolCall -> list ToolCall := map convertToolCallBack.

Definition convertMessage (msg : Message) : OpenAIMessage :=
  mkOAIMessage (msg_Role msg) (msg_Content msg) (convertToolCalls (msg_ToolCalls msg)) (msg_ToolCallID msg) (msg_Name msg).
Definition convertMessageBack (msg : OpenAIMessage) : Message :=
  mkMessage (oam_Role msg) (oam_Content msg) (convertToolCallsBack (oam_ToolCalls msg)) (oam_ToolCallID msg) (oam_Name msg).

Definition convertTool (tool : Tool) : OAITool :=
  let fn := tool_Function tool in
  mkOAITool (tool_Type tool) (mkOAIFuncDef (fd_Name fn) (fd_Description fn) (fd_Parameters fn)).

Definition convertRequest (req : ChatRequest) : OpenAIRequest :=
  mkOAIRequest (req_Model req) (map convertMessage (req_Messages req)) (req_Temperature req) (req_MaxTokens req) (req_TopP req)
    (map convertTool (req_Tools req)) (req_ToolChoice req) (req_Stream req) (req_Stop req) (req_PresencePenalty req)
    (req_FrequencyPenalty req) (req_User req).

Definition convertChoice (choice : OAIChoice) : Choice :=
  mkChoice (oac_Index choice) (convertMessageBack (oac_Message choice)) (oac_FinishReason choice).

(** The model the caller asked for is not used: both model fields are the
    answer's. *)
Definition convertResponse (requestedModel : string) (resp : OpenAIResponse) (latencyMs : Z) : Completion :=
  let u := oas_Usage resp in
  mkCompletion
    (mkChatResponse (oas_ID resp) (oas_Object resp) (oas_Created resp) (oas_Model resp) (map convertChoice (oas_Choices resp))
       (mkUsage (oau_PromptTokens u) (oau_CompletionTokens u) (oau_TotalTokens u)) (oas_SystemFingerprint resp))
    "openai" (oas_Model resp) latencyMs.

(** ** Errors ([openai/errors.go]) *)

(** [s[i:i+len(substr)] == substr] for the offsets from the front on. *)
Fixpoint findSubstring (s substr : bytes) : bool :=
  if (length s <? length substr)%nat then false
  else bool_decide (take (length substr) s = substr) || match s with [] => false | _ :: s => findSubstring s substr end.

Definition contains (s substr : string) : bool :=
  let s := bytes_of_string s in
  let substr := bytes_of_string substr in
  (length substr <=? length s)%nat && (bool_decide (s = substr) || ((length substr <? length s)%nat && findSubstring s substr)).

Definition MapError (statusCode : Z) (errMsg : string) : error :=
  if statusCode =? 401 then ErrProviderAuthFailed
  else if statusCode =? 429 then ErrProviderRateLimited
  else if statusCode =? 404 then
    if contains errMsg "model" then ErrProviderInvalidRequest else ErrProviderInvalidRequest
  else if statusCode =? 400 then
    if contains errMsg "context_length_exceeded" || contains errMsg "maximum context length" then ErrProviderInvalidRequest
    else ErrProviderInvalidRequest
  else if existsb (Z.eqb statusCode) [500; 502; 503; 504] then ErrProviderUnavailable
  else ErrProviderUnavailable.

(** ** The transport *)

Record provider_request := mkProviderRequest {
  pr_Method : string;
  pr_URL : string;
  pr_Header : list (string * string);
  pr_Body : string;
}.

(** An answer: its status, and its body as [io.ReadAll] reads it, or the text of
    the reader's error. *)
Record provider_response := mkProviderResponse { pres_StatusCode : Z; pres_Body : result string string }.

(** The clock; [http.Client.Do] with the client's own timeout under a context
    that ends after the first one; a wait under such a context, and one under the
    caller's; and the printed clock. *)
Class ProviderNet (W : Type) := {
  pn_now : W -> Z;
  pn_Do : Z -> Z -> provider_request -> W -> W * result error provider_response;
  pn_sleep : Z -> Z -> W -> W * option error;
  pn_backoff : Z -> W -> W * option error;
  pn_format : Z -> string;
}.

(** [json.Marshal] of a request, [json.Unmarshal] of a response, and whether
    [http.NewRequestWithContext] refuses a URL; their errors are known by their text. *)
Class ProviderJSON := {
  marshal_request : OpenAIRequest -> result string string;
  unmarshal_response : string -> result string OpenAIResponse;
  refused_url : string -> option string;
}.

Section OpenAI.
Context {W : Type} `{ProviderNet W} `{ProviderJSON}.
Variables (apiKey baseURL : string) (timeout : Z).

Definition openai_HealthCheck (deadline : Z) (w : W) : W * option error :=
  match refused_url (baseURL +:+ "/models") with
  | Some _ => (w, Some (ErrProviderUnavailable : error))
  | None =>
      match pn_Do deadline timeout (mkProviderRequest "GET" (baseURL +:+ "/models") [("Authorization", "Bearer " +:+ apiKey)] "") w with
      | (w, Err _) => (w, Some (ErrProviderTimeout : error))
      | (w, Ok resp) =>
          let code := pres_StatusCode resp in
          (w, if code =? 401 then Some (ErrProviderAuthFailed : error)
              else if code =? 429 then Some (ErrProviderRateLimited : error)
              else if 500 <=? code then Some (ErrProviderUnavailable : error)
              else None)
      end
  end.

(** What an answer means, once there is one. *)
Definition read_response (req : OpenAIRequest) (resp : provider_response) (latencyMs : Z) : result error Completion :=
  match pres_Body resp with
  | Err e => Err (EWrap "read response" (EOther e))
  | Ok body =>
      if negb (pres_StatusCode resp =? 200) then
        Err (match unmarshal_response body with
             | Err _ => MapError (pres_StatusCode resp) body
             | Ok errResp =>
                 match oas_Error errResp with
                 | Some e => MapError (pres_StatusCode resp) (oae_Message e)
                 | None => MapError (pres_StatusCode resp) body
                 end
             end)
      else match unmarshal_response body with
      | Err e => Err (EWrap "unmarshal response" (EOther e))
      | Ok oaiResp => Ok (convertResponse (oar_Model req) oaiResp latencyMs)
      end
  end.

Definition openai_Complete (deadline : Z) (req : ChatRequest) (w : W) : W * result error Completion :=
  let startTime := pn_now w in
  let oaiReq := convertRequest req in
  match marshal_request oaiReq with
  | Err e => (w, Err (EWrap "marshal request" (EOther e)))
  | Ok body =>
      let url := baseURL +:+ "/chat/completions" in
      match refused_url url with
      | Some e => (w, Err (EWrap "create request" (EOther e)))
      | None =>
          match pn_Do deadline timeout
                  (mkProviderRequest "POST" url [("Content-Type", "application/json"); ("Authorization", "Bearer " +:+ apiKey)] body) w with
          | (w, Err _) => (w, Err (ErrProviderTimeout : error))
          | (w, Ok resp) => (w, read_response oaiReq resp (Z.quot (pn_now w - startTime) 1000000))
          end
      end
  end.
End OpenAI.

(** ** The stubs ([anthropic/client.go], [ollama/client.go]) *)

Definition anthropic_ErrNotImplemented : error := EOther "anthropic adapter not fully implemented (config-gated stub)".
Definition ollama_ErrNotImplemented : error := EOther "ollama adapter not fully implemented (config-gated stub)".

Definition stub_error (notImplemented : error) (enabled : bool) : error :=
  if negb enabled then ErrProviderUnavailable else notImplemented.

Definition anthropic_HealthCheck : bool -> option error := fun enabled => Some (stub_error anthropic_ErrNotImplemented enabled).
Definition anthropic_Complete : bool -> result error Completion := fun enabled => Err (stub_error anthropic_ErrNotImplemented enabled).
Definition ollama_HealthCheck : bool -> option error := fun enabled => Some (stub_error ollama_ErrNotImplemented enabled).
Definition ollama_Complete : bool -> result error Completion := fun enabled => Err (stub_error ollama_ErrNotImplemented enabled).

(** ** The mock provider ([mock/provider.go]) *)

Record Provider := mkProvider {
  mp_name : string;
  mp_models : list string;
  mp_enabled : bool;
  mp_fixedLatency : Z;
  mp_latencyJitter : Z;
  mp_errorSequence : list error;
  mp_configurableErr : option (error * float64);
  mp_failNext : bool;
  mp_callCount : Z;
  mp_customResponse : option Completion;
  mp_responseFunc : option (ChatRequest -> result error Completion);
}.

Inductive Option :=
| WithName (name : string)
| WithModels (models : list string)
| WithEnabled (enabled : bool)
| WithFixedLatency (latency : Z)
| WithLatencyJitter (jitter : Z)
| WithErrorSequence (errors : list error)
| WithConfigurableError (err : error) (probability : float64)
| WithFailNext (err : error)
| WithCustomResponse (resp : Completion)
| WithResponseFunc (fn : ChatRequest -> result error Completion).

Definition set_errors (p : Provider) (errs : list error) : Provider :=
  mkProvider (mp_name p) (mp_models p) (mp_enabled p) (mp_fixedLatency p) (mp_latencyJitter p) errs (mp_configurableErr p)
    (mp_failNext p) (mp_callCount p) (mp_customResponse p) (mp_responseFunc p).
Definition set_failNext (p : Provider) (b : bool) : Provider :=
  mkProvider (mp_name p) (mp_models p) (mp_enabled p) (mp_fixedLatency p) (mp_latencyJitter p) (mp_errorSequence p) (mp_configurableErr p)
    b (mp_callCount p) (mp_customResponse p) (mp_responseFunc p).
Definition count_call (p : Provider) : Provider :=
  mkProvider (mp_name p) (mp_models p) (mp_enabled p) (mp_fixedLatency p) (mp_latencyJitter p) (mp_errorSequence p) (mp_configurableErr p)
    (mp_failNext p) (int64_wrap (mp_callCount p + 1)) (mp_customResponse p) (mp_responseFunc p).
Definition SetFixedLatency (latency : Z) (p : Provider) : Provider :=
  mkProvider (mp_name p) (mp_models p) (mp_enabled p) latency (mp_latencyJitter p) (mp_errorSequence p) (mp_configurableErr p)
    (mp_failNext p) (mp_callCount p) (mp_customResponse p) (mp_responseFunc p).
Definition SetEnabled (enabled : bool) (p : Provider) : Provider :=
  mkProvider (mp_name p) (mp_models p) enabled (mp_fixedLatency p) (mp_latencyJitter p) (mp_errorSequence p) (mp_configurableErr p)
    (mp_failNext p) (mp_callCount p) (mp_customResponse p) (mp_responseFunc p).
Definition AddErrorToSequence (err : error) (p : Provider) : Provider := set_errors p (mp_errorSequence p ++ [err]).
Definition Reset (p : Provider) : Provider :=
  mkProvider (mp_name p) (mp_models p) (mp_enabled p) (mp_fixedLatency p) (mp_latencyJitter p) [] None false 0 None None.

Definition apply_option (p : Provider) (o : Option) : Provider :=
  let '(mkProvider name models enabled latency jitter errs cerr failNext count custom fn) := p in
  match o with
  | WithName name => mkProvider name models enabled latency jitter errs cerr failNext count custom fn
  | WithModels models => mkProvider name models enabled latency jitter errs cerr failNext count custom fn
  | WithEnabled enabled => mkProvider name models enabled latency jitter errs cerr failNext count custom fn
  | WithFixedLatency latency => mkProvider name models enabled latency jitter errs cerr failNext count custom fn
  | WithLatencyJitter jitter => mkProvider name models enabled latency jitter errs cerr failNext count custom fn
  | WithErrorSequence errs => mkProvider name models enabled latency jitter errs cerr failNext count custom fn
  | WithConfigurableError err pr => mkProvider name models enabled latency jitter errs (Some (err, pr)) failNext count custom fn
  | WithFailNext err => mkProvider name models enabled latency jitter (errs ++ [err]) cerr true count custom fn
  | WithCustomResponse resp => mkProvider name models enabled latency jitter errs cerr failNext count (Some resp) fn
  | WithResponseFunc fn => mkProvider name models enabled latency jitter errs cerr failNext count custom (Some fn)
  end.

Definition NewProvider (opts : list Option) : Provider :=
  foldl apply_option (mkProvider "mock" ["mock-model-1"; "mock-model-2"] true 0 0 [] None false 0 None None) opts.

Definition mock_HealthCheck (p : Provider) : option error :=
  if negb (mp_enabled p) then Some (ErrProviderUnavailable : error) else None.

(** [float64(callNum%100)/100.0 < probability] *)
Definition f64_of_Z (n : Z) : float64 := binary_normalize 53 1024 n 0 false.
Definition draws_error (callNum : Z) (probability : float64) : bool :=
  SFltb (SFdiv 53 1024 (f64_of_Z (Z.rem callNum 100)) (f64_of_Z 100)) probability.

(** The first error of the sequence, if any. *)
Definition next_error (p : Provider) : option (error * Provider) :=
  match mp_errorSequence p with [] => None | e :: es => Some (e, set_errors p es) end.

(** The latency of a call; [None] is the panic of a division by zero, which a
    jitter below a millisecond causes. *)
Definition call_latency (p : Provider) : option Z :=
  if mp_latencyJitter p >? 0 then
    let ms := Z.quot (mp_latencyJitter p) 1000000 in
    if ms =? 0 then None else Some (mp_fixedLatency p + Z.rem (mp_callCount p) ms * 1000000)
  else Some (mp_fixedLatency p).

Section Mock.
Context {W : Type} `{ProviderNet W}.

Definition default_completion (p : Provider) (req : ChatRequest) (w : W) : Completion :=
  mkCompletion
    (mkChatResponse ("mock-completion-" +:+ pn_format (pn_now w)) "chat.completion" (pn_now w / 1000000000) (req_Model req)
       [mkChoice 0 (mkMessage "assistant" ("This is a mock response from " +:+ mp_name p) [] "" "") "stop"]
       (mkUsage 10 20 30) "")
    (mp_name p) (req_Model req) (Z.quot (mp_fixedLatency p) 1000000).

Definition with_model (model : string) (c : Completion) : Completion :=
  let r := cmp_Response c in
  mkCompletion (mkChatResponse (resp_ID r) (resp_Object r) (resp_Created r) model (resp_Choices r) (resp_Usage r) (resp_SystemFingerprint r))
    (cmp_Provider c) model (cmp_LatencyMs c).

Definition mock_response (p : Provider) (req : ChatRequest) (w : W) : result error Completion :=
  match mp_responseFunc p with
  | Some fn => fn req
  | None =>
      match mp_customResponse p with
      | Some resp => Ok (with_model (req_Model req) resp)
      | None => Ok (default_completion p req w)
      end
  end.

(** [None] is a panic. *)
Definition mock_Complete (deadline : Z) (req : ChatRequest) (p : Provider) (w : W) : Provider * W * option (result error Completion) :=
  let p := count_call p in
  if mp_failNext p then
    let p := set_failNext p false in
    match next_error p with
    | Some (err, p) => (p, w, Some (Err err))
    | None => (p, w, Some (Err (ErrProviderUnavailable : error)))
    end
  else
    let drawn := match mp_configurableErr p with
                 | Some (err, probability) => if draws_error (mp_callCount p) probability then Some err else None
                 | None => None
                 end in
    match drawn, next_error p with
    | Some err, _ => (p, w, Some (Err err))
    | None, Some (err, p) => (p, w, Some (Err err))
    | None, None =>
        if (mp_fixedLatency p >? 0) || (mp_latencyJitter p >? 0) then
          match call_latency p with
          | None => (p, w, None)
          | Some latency =>
              match pn_sleep deadline latency w with
              | (w, Some e) => (p, w, Some (Err e))
              | (w, None) => (p, w, Some (mock_response p req w))
              end
          end
        else (p, w, Some (mock_response p req w))
    end.
End Mock.

(** ** As the environment of the chat path

    A mock provider is an object that its calls change; the gateway makes one per
    name. *)

Definition gateway_mock (name : string) (models : list string) (enabled : bool) (latency : option Z) : Provider :=
  let p := NewProvider [WithName name; WithModels models; WithEnabled enabled] in
  match latency with Some l => SetFixedLatency l p | None => p end.

Definition clients (W : Type) : Type := gmap string Provider * W.

(** A mock made by the gateway has no jitter, so the panic is out of reach
    ([gateway_mock_returns]). *)
Definition client_Complete {W} `{ProviderNet W, ProviderJSON} (p : ModelProvider) (deadline : Z) (req : ChatRequest) (cw : clients W)
    : clients W * result error Completion :=
  let '(mocks, w) := cw in
  match p with
  | OpenAIClient apiKey baseURL timeout _ => let '(w, r) := openai_Complete apiKey baseURL timeout deadline req w in ((mocks, w), r)
  | AnthropicClient _ _ _ enabled => ((mocks, w), anthropic_Complete enabled)
  | OllamaClient _ _ enabled => ((mocks, w), ollama_Complete enabled)
  | MockProvider name models enabled latency =>
      let '(m, w, r) := mock_Complete deadline req (default (gateway_mock name models enabled latency) (mocks !! name)) w in
      ((<[name := m]> mocks, w), default (Err (EPanic)) r)
  end.

Definition client_HealthCheck {W} `{ProviderNet W, ProviderJSON} (p : ModelProvider) (deadline : Z) (cw : clients W)
    : clients W * option error :=
  let '(mocks, w) := cw in
  match p with
  | OpenAIClient apiKey baseURL timeout _ => let '(w, r) := openai_HealthCheck apiKey baseURL timeout deadline w in ((mocks, w), r)
  | AnthropicClient _ _ _ enabled => ((mocks, w), anthropic_HealthCheck enabled)
  | OllamaClient _ _ enabled => ((mocks, w), ollama_HealthCheck enabled)
  | MockProvider name models enabled latency =>
      ((mocks, w), mock_HealthCheck (default (gateway_mock name models enabled latency) (mocks !! name)))
  end.

#[export] Instance client_env {W} `{ProviderNet W, ProviderJSON} : ModelEnv (clients W) := {
  env_now := fun cw => pn_now (snd cw);
  provider_Complete := client_Complete;
  provider_HealthCheck := client_HealthCheck;
  wait_backoff := fun d cw => let '(w, e) := pn_backoff d (snd cw) in ((fst cw, w), e);
}.

(** * The wire format loses nothing *)

Definition convertToolBack (tool : OAITool) : Tool :=
  let fn := oatl_Function tool in
  mkTool (oatl_Type tool) (mkFunctionDef (oad_Name fn) (oad_Description fn) (oad_Parameters fn)).

(** The request a wire request stands for. *)
Definition request_of_wire (req : OpenAIRequest) : ChatRequest :=
  mkChatRequest (oar_Model req) (map convertMessageBack (oar_Messages req)) (oar_Temperature req) (oar_MaxTokens req) (oar_TopP req)
    (map convertToolBack (oar_Tools req)) (oar_ToolChoice req) (oar_Stream req) (oar_Stop req) (oar_PresencePenalty req)
    (oar_FrequencyPenalty req) (oar_User req).

Lemma map_inverse {A B} (f : A -> B) (g : B -> A) l : (forall x, g (f x) = x) -> map g (map f l) = l.
Proof. intros Hgf. rewrite List.map_map. induction l as [|x l IH]; cbn; [done|]. by rewrite Hgf, IH. Qed.

Lemma tool_call_there_and_back c : convertToolCallBack (convertToolCall c) = c.
Proof. by destruct c as [? ? []]. Qed.
Lemma tool_call_back_and_there c : convertToolCall (convertToolCallBack c) = c.
Proof. by destruct c as [? ? []]. Qed.

Lemma message_there_and_back m : convertMessageBack (convertMessage m) = m.
Proof.
  destruct m. unfold convertMessageBack, convertMessage, convertToolCallsBack, convertToolCalls. cbn. f_equal.
  apply map_inverse, tool_call_there_and_back.
Qed.
Lemma message_back_and_there m : convertMessage (convertMessageBack m) = m.
Proof.
  destruct m. unfold convertMessageBack, convertMessage, convertToolCallsBack, convertToolCalls. cbn. f_equal.
  apply map_inverse, tool_call_back_and_there.
Qed.

(** The conversions lose nothing: a request is read back from what is sent, and
    every wire request is the image of one; an answer's message, handed to the
    next request of a tool loop, is sent as it came. *)
Theorem openai_wire_roundtrip :
  (forall req, request_of_wire (convertRequest req) = req) /\
  (forall wire, convertRequest (request_of_wire wire) = wire) /\
  (forall model resp ms choice, choice ∈ resp_Choices (cmp_Response (convertResponse model resp ms)) ->
     exists c, c ∈ oas_Choices resp /\ convertMessage (ch_Message choice) = oac_Message c).
Proof.
  split; [|split].
  - intros req. destruct req. unfold request_of_wire, convertRequest. cbn. f_equal; apply map_inverse; [apply message_there_and_back|].
    by intros [? []].
  - intros req. destruct req. unfold request_of_wire, convertRequest. cbn. f_equal; apply map_inverse; [apply message_back_and_there|].
    by intros [? []].
  - intros model resp ms choice Hc. cbn in Hc. apply list_elem_of_fmap in Hc as (c & -> & Hc).
    exists c. split; [done|]. apply message_back_and_there.
Qed.

(** * What becomes of an attempt *)

(** The error of an answer depends on its status only. *)
Definition status_sentinel (code : Z) : error :=
  if code =? 401 then ErrProviderAuthFailed
  else if code =? 429 then ErrProviderRateLimited
  else if (code =? 404) || (code =? 400) then ErrProviderInvalidRequest
  else ErrProviderUnavailable.

Lemma MapError_status code msg : MapError code msg = status_sentinel code.
Proof.
  unfold MapError, status_sentinel. destruct (code =? 401); [done|]. destruct (code =? 429); [done|].
  destruct (code =? 404); [by destruct (contains _ _)|]. destruct (code =? 400); [by destruct (_ || _)|]. by destruct (existsb _ _).
Qed.

(** The statuses that end a provider's turn at once. *)
Definition final_status (code : Z) : bool := existsb (Z.eqb code) [400; 401; 404].

Lemma status_sentinel_transient code : isTransientError (status_sentinel code) = negb (final_status code).
Proof.
  unfold status_sentinel, final_status. cbn [existsb].
  destruct (Z.eqb_spec code 401) as [-> |?]; [done|].
  destruct (Z.eqb_spec code 429) as [-> |?]; [done|].
  destruct (Z.eqb_spec code 404) as [-> |?]; [done|].
  by destruct (Z.eqb_spec code 400) as [-> |?].
Qed.

Section Attempts.
Context `{ProviderJSON}.

Lemma read_response_error req resp ms body :
  pres_Body resp = Ok body -> pres_StatusCode resp <> 200 ->
  read_response req resp ms = Err (status_sentinel (pres_StatusCode resp)).
Proof.
  intros Hb Hs. unfold read_response. rewrite Hb. apply Z.eqb_neq in Hs. rewrite Hs. cbn [negb]. f_equal.
  destruct (unmarshal_response body) as [r|e]; [|apply MapError_status]. destruct (oas_Error r); apply MapError_status.
Qed.

Lemma read_response_Ok req resp ms c :
  read_response req resp ms = Ok c <->
  pres_StatusCode resp = 200 /\ exists text oai, pres_Body resp = Ok text /\ unmarshal_response text = Ok oai /\
    c = convertResponse (oar_Model req) oai ms.
Proof.
  split.
  - unfold read_response. destruct (pres_Body resp) as [text|e]; [|done].
    destruct (Z.eqb_spec (pres_StatusCode resp) 200) as [Hs|Hs]; [|done]. cbn [negb].
    destruct (unmarshal_response text) as [oai|e] eqn:Eu; [|done]. intros [= <-]. split; [done|]. by exists text, oai.
  - intros (Hs & text & oai & Hb & Hu & ->). unfold read_response. rewrite Hb, Hs, Hu. done.
Qed.

Lemma read_response_transient req resp ms :
  (exists e, read_response req resp ms = Err e /\ isTransientError e = true) <->
  (exists text, pres_Body resp = Ok text) /\ pres_StatusCode resp <> 200 /\ final_status (pres_StatusCode resp) = false.
Proof.
  destruct (pres_Body resp) as [text|e] eqn:Eb.
  - destruct (Z.eq_dec (pres_StatusCode resp) 200) as [Es|Es].
    + split; [|tauto]. intros (e & He & Ht). exfalso. unfold read_response in He. rewrite Eb, Es in He. cbn [Z.eqb Pos.eqb negb] in He.
      destruct (unmarshal_response text); [done|]. by injection He as <-.
    + rewrite (read_response_error _ _ _ text) by done. rewrite <- negb_true_iff, <- status_sentinel_transient. split.
      * intros (e & [= <-] & Ht). eauto.
      * intros (_ & _ & Ht). eauto.
  - split; [|by intros [[text ?] _]]. intros (e' & He & Ht). unfold read_response in He. rewrite Eb in He. by injection He as <-.
Qed.
End Attempts.

(** C15: One attempt of the OpenAI client, exactly. A request that cannot be
    encoded or addressed is not sent and its error not retryable. Otherwise one
    request is sent. A transport failure of any kind is ErrProviderTimeout. An
    answer completes the request, with the body's content, if and only if its status
    is 200 and its body can be read and parsed; a readable body under another status
    is the sentinel of that status, whatever the body says. A chain without fallback
    rules and with retries left judges the error worth another attempt if and only if
    there was no answer, or one whose body could be read under a status other than
    200, 400, 401 and 404. *)
Theorem openai_attempt_policy {W} `{ProviderNet W, ProviderJSON} (fc : FallbackChain) (p : RegisteredProvider)
    (apiKey baseURL : string) (timeout deadline retry : Z) (models : list string) (req : ChatRequest)
    (mocks : gmap string Provider) (w : W) :
  fc_fallbackRules fc = [] -> retry < getMaxRetriesForProvider fc p ->
  let url := baseURL +:+ "/chat/completions" in
  let '((mocks', w'), r) := provider_Complete (OpenAIClient apiKey baseURL timeout models) deadline req (mocks, w) in
  let judged_retryable := exists e, r = Err e /\ fst (shouldRetry fc e retry p) = true in
  mocks' = mocks /\
  match marshal_request (convertRequest req), refused_url url with
  | Ok body, None =>
      let sent := pn_Do deadline timeout (mkProviderRequest "POST" url
        [("Content-Type", "application/json"); ("Authorization", "Bearer " +:+ apiKey)] body) w in
      w' = fst sent /\
      match snd sent with
      | Err _ => r = Err (ErrProviderTimeout : error) /\ judged_retryable
      | Ok resp =>
          let code := pres_StatusCode resp in
          (forall c, r = Ok c <-> code = 200 /\ exists text oai, pres_Body resp = Ok text /\ unmarshal_response text = Ok oai /\
             c = convertResponse (req_Model req) oai (Z.quot (pn_now w' - pn_now w) 1000000)) /\
          (forall text, pres_Body resp = Ok text -> code <> 200 -> r = Err (status_sentinel code)) /\
          (judged_retryable <-> (exists text, pres_Body resp = Ok text) /\ code <> 200 /\ final_status code = false)
      end
  | _, _ => w' = w /\ (exists e, r = Err e) /\ ~ judged_retryable
  end.
Proof.
  intros Hrules Hretry url.
  assert (forall e, fst (shouldRetry fc e retry p) = isTransientError e) as Hsr.
  { intros e. unfold shouldRetry. rewrite Hrules, Z.geb_leb. destruct (Z.leb_spec (getMaxRetriesForProvider fc p) retry); [lia|].
    cbn [List.find]. by destruct (isTransientError e). }
  assert (forall r : result error Completion, (exists e, r = Err e /\ fst (shouldRetry fc e retry p) = true) <->
    exists e, r = Err e /\ isTransientError e = true) as Hjudged by (intros r; by setoid_rewrite Hsr).
  assert (forall e : error, isTransientError e = false ->
    ~ exists e0, (Err e : result error Completion) = Err e0 /\ fst (shouldRetry fc e0 retry p) = true) as Hfinal
    by (intros e He (e0 & [= <-] & ?); rewrite Hsr in *; congruence).
  cbn [provider_Complete client_env client_Complete]. unfold openai_Complete. fold url.
  destruct (marshal_request (convertRequest req)) as [body|e]; [|split_and!; [done|done|eauto|by apply Hfinal]].
  destruct (refused_url url) as [e|]; [split_and!; [done|done|eauto|by apply Hfinal]|].
  destruct (pn_Do deadline timeout _ w) as [w' [resp|e]]; cbn [fst snd]; (split; [done|]); (split; [done|]).
  - split; [intros c; apply read_response_Ok|]. split; [|rewrite Hjudged; apply read_response_transient].
    intros text Hb Hc. by eapply read_response_error.
  - split; [done|]. apply Hjudged. eauto.
Qed.

(** * The mock *)

Section MockFacts.
Context {W : Type} `{ProviderNet W}.

Fixpoint mock_run (deadline : Z) (reqs : list ChatRequest) (p : Provider) (w : W) : list (option (result error Completion)) :=
  match reqs with
  | [] => []
  | req :: reqs => let '(p, w, r) := mock_Complete deadline req p w in r :: mock_run deadline reqs p w
  end.

(** A mock made by the gateway, whatever was called on it, has no jitter, and
    then no call panics. *)
Lemma gateway_mock_returns deadline req p (w : W) :
  mp_latencyJitter p = 0 -> exists p' w' r, mock_Complete deadline req p w = (p', w', Some r) /\ mp_latencyJitter p' = 0.
Proof.
  intros Hj. destruct p. cbn in Hj. subst. unfold mock_Complete, next_error, call_latency. cbn.
  repeat case_match; simplify_eq/=; eauto.
Qed.

(** What a mock that does not wait answers to its next request. *)
Lemma mock_next deadline req p (w : W) :
  mp_failNext p = false -> mp_configurableErr p = None -> mp_fixedLatency p = 0 -> mp_latencyJitter p = 0 ->
  mock_Complete deadline req p w =
    match mp_errorSequence p with
    | e :: es => (set_errors (count_call p) es, w, Some (Err e))
    | [] => (count_call p, w, Some (mock_response p req w))
    end.
Proof. intros Hf Hc Hl Hj. destruct p. cbn in *. subst. by destruct mp_errorSequence0. Qed.

(** Its errors come first, each once and in their order; then it answers. *)
Theorem mock_error_sequence deadline reqs p (w : W) :
  mp_failNext p = false -> mp_configurableErr p = None -> mp_fixedLatency p = 0 -> mp_latencyJitter p = 0 ->
  mock_run deadline reqs p w =
    map (fun e => Some (Err e)) (take (length reqs) (mp_errorSequence p)) ++
    map (fun req => Some (mock_response p req w)) (drop (length (mp_errorSequence p)) reqs).
Proof.
  intros Hf Hc Hl Hj. induction reqs as [|req reqs IH] in p, Hf, Hc, Hl, Hj |- *; [by rewrite drop_nil|].
  cbn [mock_run]. rewrite mock_next by done. destruct (mp_errorSequence p) as [|e es] eqn:E.
  - rewrite IH by (by destruct p). destruct p. cbn in *. subst. by rewrite take_nil.
  - rewrite IH by (by destruct p). cbn. f_equal.
Qed.
End MockFacts.

(** * Witnesses *)

#[local] Instance codes_net : ProviderNet (list Z) := {
  pn_now := fun _ => 0;
  pn_Do := fun _ _ _ codes =>
    match codes with
    | [] => ([], Err (EOther "connection refused"))
    | code :: codes => (codes, Ok (mkProviderResponse code (Ok "{}")))
    end;
  pn_sleep := fun _ _ w => (w, None);
  pn_backoff := fun _ w => (w, None);
  pn_format := fun _ => "20250101000000";
}.
#[local] Instance empty_json : ProviderJSON := {
  marshal_request := fun r => Ok (oar_Model r);
  unmarshal_response := fun _ => Ok (mkOAIResponse "id" "chat.completion" 0 "gpt-4" [] (mkOAIUsage 1 2 3) "" None);
  refused_url := fun _ => None;
}.

Definition ex_client : ModelProvider := openai_NewClient "key" "" 0 [].
Definition ex_registered : RegisteredProvider :=
  mkRegistered (mkProviderConfig "openai" "openai" ["gpt-4"] 1 true "key" "" 0 2 DefaultCircuitBreakerConfig)
    ex_client (NewCircuitBreaker DefaultCircuitBreakerConfig) true None.
Definition ex_chain : FallbackChain := mkFallbackChain 2 (30 * second) [].
Definition ex_request : ChatRequest :=
  mkChatRequest "gpt-4" [mkMessage "user" "hi" [] "" ""] None None None [] JNull false [] None None "".

(** A 403, which is not in the client's table, is retried. *)
Lemma openai_attempt_policy_witness :
  exists e, snd (provider_Complete ex_client 0 ex_request (∅ : gmap string Provider, [403])) = Err e /\
    fst (shouldRetry ex_chain e 0 ex_registered) = true.
Proof.
  pose proof (openai_attempt_policy ex_chain ex_registered "key" "https://api.openai.com/v1" (30 * second) 0 0
    ["gpt-4"; "gpt-4-turbo"; "gpt-3.5-turbo"] ex_request ∅ [403] eq_refl ltac:(reflexivity)) as Hp.
  change (OpenAIClient _ _ _ _) with ex_client in Hp.
  destruct (provider_Complete ex_client 0 ex_request _) as [[mocks' w'] r]. cbn zeta in Hp. destruct Hp as [_ Hp].
  cbn [marshal_request empty_json refused_url pn_Do codes_net snd pres_StatusCode pres_Body] in Hp.
  destruct Hp as (_ & _ & _ & Hj). apply Hj. split; [eauto|]. split; [discriminate|reflexivity].
Defined.
