(* ===== verification/Pricing.v ===== *)
(** [internal/adapter/pricing/{tables,service}.go] and
    [internal/domain/model/pricing.go]: versioned price tables and the cost of a
    request in float64 arithmetic (round to nearest even, as Go computes it). *)

From stdpp Require Import base gmap strings list numbers.
From Stdlib Require Import SpecFloat.
From S2P Require Import GoPrelude Errors ChatModel.

(** ** float64 *)

Definition f64_add : float64 -> float64 -> float64 := SFadd 53 1024.
Definition f64_mul : float64 -> float64 -> float64 := SFmul 53 1024.
Definition f64_div : float64 -> float64 -> float64 := SFdiv 53 1024.

(** [float64(n)]: the nearest double to an integer. *)
Definition f64_of_int (n : Z) : float64 := binary_normalize 53 1024 n 0 false.

(** A decimal literal [num/den], rounded once. *)
Definition f64_lit (num den : Z) : float64 := f64_div (f64_of_int num) (f64_of_int den).

(** ** Tables *)

Record ModelPrice := mkModelPrice {
  mp_Model : string;
  mp_InputPricePer1k : float64;
  mp_OutputPricePer1k : float64;
}.

Record PriceTable := mkPriceTable {
  pt_Version : string;
  pt_Provider : string;
  pt_Prices : list ModelPrice;
  pt_EffectiveDate : string;
  pt_Description : string;
}.

Record PricingConfig := mkPricingConfig {
  cfg_DefaultVersion : string;
  cfg_Tables : list PriceTable;
  cfg_AutoUpdate : bool;
}.

(** Keys are (version, provider). *)
Record Service := mkService {
  svc_tables : gmap (string * string) PriceTable;
  svc_versions : list string;
  svc_currentVer : string;
  svc_defaultVer : string;
}.

Definition track_version (versions : list string) (v : string) : list string :=
  if existsb (fun x => bool_decide (x = v)) versions then versions else versions ++ [v].

Definition loadTable (table : PriceTable) (s : Service) : Service :=
  mkService (<[(pt_Version table, pt_Provider table) := table]> (svc_tables s))
    (track_version (svc_versions s) (pt_Version table)) (svc_currentVer s) (svc_defaultVer s).

Definition has_table (s : Service) (version provider : string) : bool :=
  bool_decide (is_Some (svc_tables s !! (version, provider))).

Definition NewService (cfg : PricingConfig) : result error Service :=
  let s := mkService ∅ [] (cfg_DefaultVersion cfg) (cfg_DefaultVersion cfg) in
  let s := foldl (fun s table => loadTable table s) s (cfg_Tables cfg) in
  if negb (has_table s (cfg_DefaultVersion cfg) "openai") then
    if negb (has_table s (cfg_DefaultVersion cfg) "anthropic") then
      if negb (has_table s (cfg_DefaultVersion cfg) "ollama") then
        Err (EOther "default pricing version not found in tables")
      else Ok s
    else Ok s
  else Ok s.

Definition price_providers : list string := ["openai"; "anthropic"; "ollama"].

Definition price_in (table : PriceTable) (model : string) : option ModelPrice :=
  List.find (fun p => bool_decide (mp_Model p = model)) (pt_Prices table).

Fixpoint find_price (tables : gmap (string * string) PriceTable) (version model : string)
    (ps : list string) : option ModelPrice :=
  match ps with
  | [] => None
  | provider :: ps =>
      match tables !! (version, provider) with
      | Some table =>
          match price_in table model with
          | Some p => Some p
          | None => find_price tables version model ps
          end
      | None => find_price tables version model ps
      end
  end.

Definition findModelPriceUnlocked (s : Service) (version model : string) : option (float64 * float64) :=
  p ← find_price (svc_tables s) version model price_providers;
  Some (mp_InputPricePer1k p, mp_OutputPricePer1k p).

Definition not_priced (model : string) : error := EOther ("model not found in pricing table: " +:+ model).

Definition thousand : float64 := f64_of_int 1000.

Definition GetCost (s : Service) (model : string) (promptTokens completionTokens : Z)
    : result error (float64 * string) :=
  match findModelPriceUnlocked s (svc_currentVer s) model with
  | None => Err (not_priced model)
  | Some (inputPrice, outputPrice) =>
      Ok (f64_add (f64_mul (f64_div (f64_of_int promptTokens) thousand) inputPrice)
                  (f64_mul (f64_div (f64_of_int completionTokens) thousand) outputPrice), svc_currentVer s)
  end.

Definition GetModelPrice (s : Service) (model : string) : result error (float64 * float64 * string) :=
  match findModelPriceUnlocked s (svc_currentVer s) model with
  | None => Err (not_priced model)
  | Some (i, o) => Ok (i, o, svc_currentVer s)
  end.

Definition SetVersion (version : string) (s : Service) : Service * option error :=
  if negb (existsb (fun v => bool_decide (v = version)) (svc_versions s))
  then (s, Some (EOther ("pricing version not found: " +:+ version)))
  else (mkService (svc_tables s) (svc_versions s) version (svc_defaultVer s), None).

Definition ListVersions (s : Service) : list string := svc_versions s.
Definition CurrentVersion (s : Service) : string := svc_currentVer s.

Definition GetTable (s : Service) (version provider : string) : result error PriceTable :=
  match svc_tables s !! (version, provider) with
  | Some t => Ok t
  | None => Err (EOther "price table not found")
  end.

(** [LoadTableFromJSON] after a successful [json.Unmarshal] of the table. *)
Definition LoadTableFromJSON (decoded : result error PriceTable) (s : Service) : Service * option error :=
  match decoded with
  | Err e => (s, Some e)
  | Ok table => (loadTable table s, None)
  end.

Definition DefaultPricingConfig : PricingConfig :=
  mkPricingConfig "2024-01"
    [ mkPriceTable "2024-01" "openai"
        [ mkModelPrice "gpt-4" (f64_lit 3 100) (f64_lit 6 100);
          mkModelPrice "gpt-4-turbo" (f64_lit 1 100) (f64_lit 3 100);
          mkModelPrice "gpt-3.5-turbo" (f64_lit 5 10000) (f64_lit 15 10000) ]
        "2024-01-01" "OpenAI pricing as of January 2024";
      mkPriceTable "2024-01" "anthropic"
        [ mkModelPrice "claude-3-opus-20240229" (f64_lit 15 1000) (f64_lit 75 1000);
          mkModelPrice "claude-3-sonnet-20240229" (f64_lit 3 1000) (f64_lit 15 1000);
          mkModelPrice "claude-3-haiku-20240307" (f64_lit 25 100000) (f64_lit 125 100000) ]
        "2024-01-01" "Anthropic pricing as of January 2024";
      mkPriceTable "2024-01" "ollama"
        [ mkModelPrice "llama3" (f64_of_int 0) (f64_of_int 0);
          mkModelPrice "mistral" (f64_of_int 0) (f64_of_int 0);
          mkModelPrice "codellama" (f64_of_int 0) (f64_of_int 0) ]
        "2024-01-01" "Ollama local models (zero cost)" ]
    false.

(** ** [service.go] *)

Definition NewServiceFromDomainConfig (cfg : PricingConfig) : result error Service := NewService cfg.

Abbreviation ServiceOption := (Service -> Service).

(** The version is not looked up among the tables. *)
Definition WithDefaultVersion (version : string) : ServiceOption :=
  fun s => mkService (svc_tables s) (svc_versions s) version version.

Definition WithTable (table : PriceTable) : ServiceOption :=
  fun s => mkService (<[(pt_Version table, pt_Provider table) := table]> (svc_tables s))
    (track_version (svc_versions s) (pt_Version table)) (svc_currentVer s) (svc_defaultVer s).

(** [None]: the options would be applied to a nil service. *)
Definition NewTestService (opts : list ServiceOption) : option Service :=
  match NewService DefaultPricingConfig with
  | Ok s => Some (foldl (fun s opt => opt s) s opts)
  | Err _ => None
  end.

Definition GetCostForModel (s : Service) (model : string) (promptTokens completionTokens : Z) : result error (float64 * string) :=
  GetCost s model promptTokens completionTokens.
Definition GetModelPriceSync (s : Service) (model : string) : result error (float64 * float64 * string) := GetModelPrice s model.

(** ** Histories of the service *)

Inductive price_op := OpLoad (t : PriceTable) | OpSetVersion (v : string).

Definition price_step (s : Service) (o : price_op) : Service :=
  match o with
  | OpLoad t => fst (LoadTableFromJSON (Ok t) s)
  | OpSetVersion v => fst (SetVersion v s)
  end.

(** The versions listed are those of the tables loaded, once each; tables are
    filed under their own version and provider. *)
Record service_wf (s : Service) : Prop := {
  swf_nodup : NoDup (svc_versions s);
  swf_versions : forall v, v ∈ svc_versions s <-> exists p, is_Some (svc_tables s !! (v, p));
  swf_key : forall v p t, svc_tables s !! (v, p) = Some t -> pt_Version t = v /\ pt_Provider t = p;
}.

Lemma elem_of_track_version vs v x : x ∈ track_version vs v <-> x ∈ vs \/ x = v.
Proof.
  unfold track_version. destruct (existsb _ vs) eqn:E.
  - apply existsb_elem_of in E as (y & Hy & Hv). reflect_bools. subst. split; [auto|intros [?| ->]; done].
  - rewrite elem_of_app, list_elem_of_singleton. done.
Qed.

Lemma NoDup_track_version vs v : NoDup vs -> NoDup (track_version vs v).
Proof.
  intros Hnd. unfold track_version. destruct (existsb _ vs) eqn:E; [done|].
  rewrite existsb_none in E. apply list.NoDup_app. split; [done|]. split; [|by apply NoDup_singleton].
  intros x Hx Hx'. apply list_elem_of_singleton in Hx'. subst.
  specialize (E _ Hx). reflect_bools. done.
Qed.

Lemma loadTable_wf t s : service_wf s -> service_wf (loadTable t s).
Proof.
  intros [Hnd Hv Hk]. constructor; simpl.
  - by apply NoDup_track_version.
  - intros v. rewrite elem_of_track_version, Hv. split.
    + intros [[p Hp]| ->].
      * exists p. rewrite lookup_insert. case_decide; eauto.
      * exists (pt_Provider t). rewrite lookup_insert_eq. eauto.
    + intros [p Hp]. rewrite lookup_insert in Hp. case_decide as E; [right; congruence|eauto].
  - intros v p u. rewrite lookup_insert. case_decide as E; [intros [= <-]; by simplify_eq|apply Hk].
Qed.

Lemma load_all_wf ts s : service_wf s -> service_wf (foldl (fun s t => loadTable t s) s ts).
Proof. revert s. induction ts as [|t ts IH]; intros s Hs; simpl; [done|]. by apply IH, loadTable_wf. Qed.

Lemma NewService_wf cfg s : NewService cfg = Ok s -> service_wf s.
Proof.
  unfold NewService. set (s0 := foldl _ _ _). intros Hn.
  assert (s = s0) as -> by (run_guards). subst s0. apply load_all_wf. constructor; simpl.
  - constructor.
  - intros v. split; [intros Hv; by apply elem_of_nil in Hv|intros (p & ? & Hp)]. by rewrite lookup_empty in Hp.
  - intros v p t Ht. by rewrite lookup_empty in Ht.
Qed.

Lemma price_step_wf s o : service_wf s -> service_wf (price_step s o).
Proof.
  intros Hs. destruct o as [t|v]; simpl; [by apply loadTable_wf|].
  unfold SetVersion. destruct (negb _); [done|]. destruct Hs. by constructor.
Qed.

Lemma new_service_default cfg s :
  NewService cfg = Ok s -> exists p, is_Some (svc_tables s !! (svc_currentVer s, p)).
Proof.
  unfold NewService. set (s0 := foldl _ _ _).
  assert (Hver : svc_currentVer s0 = cfg_DefaultVersion cfg).
  { subst s0. generalize (∅ : gmap (string * string) PriceTable), (@nil string).
    induction (cfg_Tables cfg) as [|t ts IH]; intros m vs; simpl; [done|]. apply IH. }
  intros Hn. unfold has_table in Hn. repeat case_bool_decide; simplify_eq/=; rewrite Hver; eauto.
Qed.

Lemma price_step_current s o :
  service_wf s -> (exists p, is_Some (svc_tables s !! (svc_currentVer s, p))) ->
  exists p, is_Some (svc_tables (price_step s o) !! (svc_currentVer (price_step s o), p)).
Proof.
  intros Hwf [p Hp]. destruct o as [t|v]; simpl.
  - exists p. rewrite lookup_insert. case_decide; eauto.
  - unfold SetVersion. destruct (existsb _ _) eqn:E; simpl; [|eauto].
    apply existsb_elem_of in E as (x & Hx & Hv). reflect_bools. subst x. by apply (swf_versions _ Hwf).
Qed.

Lemma find_price_spec tables version model ps :
  match find_price tables version model ps with
  | Some p => exists before provider after t, ps = before ++ provider :: after /\
      tables !! (version, provider) = Some t /\ price_in t model = Some p /\
      forall q t', q ∈ before -> tables !! (version, q) = Some t' -> price_in t' model = None
  | None => forall q t', q ∈ ps -> tables !! (version, q) = Some t' -> price_in t' model = None
  end.
Proof.
  induction ps as [|q ps IH]; simpl; [intros q t' Hq; by apply elem_of_nil in Hq|].
  assert (Hskip : (forall t', tables !! (version, q) = Some t' -> price_in t' model = None) ->
    match find_price tables version model ps with
    | Some p => exists before provider after t, q :: ps = before ++ provider :: after /\
        tables !! (version, provider) = Some t /\ price_in t model = Some p /\
        forall x t', x ∈ before -> tables !! (version, x) = Some t' -> price_in t' model = None
    | None => forall x t', x ∈ q :: ps -> tables !! (version, x) = Some t' -> price_in t' model = None
    end).
  { intros Hq. destruct (find_price _ _ _ _) as [p|].
    - destruct IH as (b & pr & a & t & -> & Ht & Hp & Hb). exists (q :: b), pr, a, t.
      split_and!; [done..|]. intros x t' [->|Hx]%elem_of_cons; eauto.
    - intros x t' [->|Hx]%elem_of_cons; eauto. }
  destruct (tables !! (version, q)) as [t|] eqn:Ht; [destruct (price_in t model) as [p|] eqn:Hp|].
  - exists [], q, ps, t. split_and!; [done..|]. intros x t' Hx. by apply elem_of_nil in Hx.
  - apply Hskip. intros t' [= <-]. done.
  - apply Hskip. done.
Qed.

(** ** Properties *)

(** along any history of table loads and version changes the active version
    always has a table; the price of a model is the entry of the first of the
    providers openai, anthropic, ollama whose table of the active version lists
    it, a cost is given exactly for the models so listed, and nothing is ever
    priced from another version. *)
Theorem pricing_uses_active_version (cfg : PricingConfig) (s : Service) (ops : list price_op) (model : string) :
  NewService cfg = Ok s ->
  let s' := foldl price_step s ops in
  (exists p, is_Some (svc_tables s' !! (svc_currentVer s', p))) /\
  (forall pt ct, is_ok (GetCost s' model pt ct) = true <->
     exists q t, q ∈ price_providers /\ svc_tables s' !! (svc_currentVer s', q) = Some t /\
       is_Some (price_in t model)) /\
  (forall pt ct c v, GetCost s' model pt ct = Ok (c, v) -> v = svc_currentVer s' /\
     exists before q after t price, price_providers = before ++ q :: after /\
       svc_tables s' !! (v, q) = Some t /\ pt_Version t = v /\ price_in t model = Some price /\
       (forall x t', x ∈ before -> svc_tables s' !! (v, x) = Some t' -> price_in t' model = None) /\
       c = f64_add (f64_mul (f64_div (f64_of_int pt) thousand) (mp_InputPricePer1k price))
                   (f64_mul (f64_div (f64_of_int ct) thousand) (mp_OutputPricePer1k price))).
Proof.
  intros Hnew s'. assert (Hwf : service_wf s' /\ exists p, is_Some (svc_tables s' !! (svc_currentVer s', p))).
  { subst s'. assert (H0 : service_wf s /\ exists p, is_Some (svc_tables s !! (svc_currentVer s, p))).
    { split; [by eapply NewService_wf|]. revert Hnew. apply new_service_default. }
    clear Hnew. revert s H0. induction ops as [|o ops IH]; intros s H0; simpl; [done|].
    apply IH. destruct H0 as [H1 H2]. split; [by apply price_step_wf|by apply price_step_current]. }
  destruct Hwf as [Hwf Hcur]. split; [done|].
  unfold GetCost, findModelPriceUnlocked.
  pose proof (find_price_spec (svc_tables s') (svc_currentVer s') model price_providers) as Hf.
  destruct (find_price _ _ _ _) as [p|]; simpl.
  - destruct Hf as (b & q & a & t & Hps & Ht & Hp & Hb). split.
    + intros pt ct. split; [intros _|done]. exists q, t. rewrite Hps. split; [set_solver|]. split; [done|]. by exists p.
    + intros pt ct c v [= <- <-]. split; [done|]. exists b, q, a, t, p. split_and!; try done.
      by eapply swf_key.
  - split; [|done]. intros pt ct. split; [done|]. intros (q & t & Hq & Ht & Hs).
    rewrite (Hf q t Hq Ht) in Hs. by destruct Hs.
Qed.

Lemma pricing_uses_active_version_witness :
  exists s c, NewService DefaultPricingConfig = Ok s /\ GetCost s "gpt-4" 2000 1000 = Ok (c, "2024-01") /\
    c = f64_lit 12 100 /\ is_ok (GetCost s "gpt-5" 1 1) = false /\
    exists p, is_Some (svc_tables s !! (svc_currentVer s, p)).
Proof.
  destruct (NewService DefaultPricingConfig) as [s|e] eqn:E; [|vm_compute in E; congruence].
  exists s, (f64_lit 12 100). split; [done|].
  split; [|split; [reflexivity|split; [|apply (pricing_uses_active_version DefaultPricingConfig s [] "gpt-4" E)]]].
  - vm_compute in E. injection E as <-. vm_compute. reflexivity.
  - vm_compute in E. injection E as <-. vm_compute. reflexivity.
Defined.
