(* ===== verification/ToolLoop.v ===== *)
(** [internal/usecase/chat/orchestrator.go] with the tool validation of
    [internal/api/handlers/chat.go]: completing a chat request, and the bounded
    loop that runs the tools the model asks for. *)

From stdpp Require Import base gmap strings list numbers.
From S2P Require Import GoPrelude Bytes Uuid Errors CircuitBreaker ChatModel Pricing Routing Fallback Http.

(** ** Tools *)

Record ToolDefinition := mkToolDefinition {
  td_ID : Z;
  td_TenantID : UUID;
  td_Name : string;
  td_Description : string;
  td_InputSchema : string;
  td_Grants : string;
  td_ExecutionTimeoutMs : Z;
  td_MemoryPages : Z;
  td_Hash : string;
  td_IsActive : bool;
}.

Record ValidatedTool := mkValidatedTool {
  vt_Name : string;
  vt_Description : string;
  vt_InputSchema : string;
  vt_Grants : string;
  vt_ExecutionTimeoutMs : Z;
  vt_MemoryPages : Z;
  vt_Hash : string;
}.

(** [tool.ToolCall] and [tool.ToolResult]; maps are [None] when nil. *)
Record ExecCall := mkExecCall { ec_ID : string; ec_Name : string; ec_Arguments : option (list (string * json)) }.
Record ToolResult := mkToolResult {
  tr_CallID : string;
  tr_Output : option (list (string * json));
  tr_Error : string;
  tr_Duration : Z;
}.

Record ToolModuleConfig := mkToolModuleConfig {
  tm_Name : string;
  tm_ModulePath : string;
  tm_FSReadOnlyMounts : list (string * string);   (* guest path, host path *)
  tm_AllowNetwork : bool;
  tm_TimeoutMs : Z;
  tm_MemoryPages : Z;
  tm_RequiresApproval : bool;
}.

Record ToolConfig := mkToolConfig {
  tcfg_MaxIterations : Z;
  tcfg_DefaultTimeoutMs : Z;
  tcfg_DefaultMemoryPages : Z;
  tcfg_CacheTTL : Z;
  tcfg_CacheMaxEntries : Z;
  tcfg_Tools : list ToolModuleConfig;
}.

Definition EffectiveTimeoutMs (tc : ToolConfig) (t : ToolModuleConfig) : Z :=
  if tm_TimeoutMs t >? 0 then tm_TimeoutMs t
  else if tcfg_DefaultTimeoutMs tc >? 0 then tcfg_DefaultTimeoutMs tc else 30000.

Definition EffectiveMemoryPages (tc : ToolConfig) (t : ToolModuleConfig) : Z :=
  if tm_MemoryPages t >? 0 then tm_MemoryPages t
  else if tcfg_DefaultMemoryPages tc >? 0 then tcfg_DefaultMemoryPages tc else 512.

(** What the tool path asks of its surroundings: the tool repository and the
    executor (with the validated tool it reads from the context). *)
Class ToolEnv (W : Type) := {
  repo_GetByName : UUID -> string -> W -> W * result error ToolDefinition;
  executor_Execute : ValidatedTool -> ExecCall -> W -> W * result error ToolResult;
}.

(** The JSON decoder for arguments and the canonical hash of a definition. *)
Class ToolCodec := {
  json_Unmarshal_object : string -> option (list (string * json));
  ComputeHash : string -> string -> option (list (string * json)) -> string;
}.

(** ** The use case *)

(** [uc_toolExecutor] and [uc_toolRepo] say whether those ports are non-nil. *)
Record ChatUsecase := mkChatUsecase {
  uc_fallbackChain : FallbackChain;
  uc_pricing : Service;
  uc_toolExecutor : bool;
  uc_toolConfig : option ToolConfig;
  uc_toolRepo : bool;
  uc_DefaultTimeout : Z;
  uc_MaxIterations : Z;
}.

Definition NewChatUsecase (fc : FallbackChain) (pricing : Service) (toolExecutor : bool)
    (toolConfig : option ToolConfig) (toolRepo : bool) (defaultTimeout maxIterations : Z) : ChatUsecase :=
  mkChatUsecase fc pricing toolExecutor toolConfig toolRepo
    (if defaultTimeout <=? 0 then 30 * second else defaultTimeout)
    (if maxIterations <=? 0 then 5 else maxIterations).

Record UsecaseRequest := mkUsecaseRequest {
  ur_Model : string;
  ur_Messages : list Message;
  ur_Temperature : option float64;
  ur_MaxTokens : option Z;
  ur_Stream : bool;
  ur_Tools : list Tool;
  ur_ValidatedTools : list ValidatedTool;
  ur_ToolChoice : json;
  ur_User : string;
  ur_TenantID : UUID;
}.

Record UsecaseResponse := mkUsecaseResponse {
  us_Completion : Completion;
  us_CostUSD : float64;
  us_CostVersion : string;
  us_Provider : string;
  us_LatencyMs : Z;
  us_Retried : bool;
}.

Definition toolRequiresApproval (uc : ChatUsecase) (toolName : string) : bool :=
  match uc_toolConfig uc with
  | None => false
  | Some cfg =>
      match List.find (fun t => bool_decide (tm_Name t = toolName)) (tcfg_Tools cfg) with
      | Some t => tm_RequiresApproval t
      | None => false
      end
  end.

Definition requestHITLApproval (tc : ToolCall) : bool * option error :=
  (false, Some (EOther ("HITL approval required for " +:+ fc_Name (tc_Function tc)))).

(** The result a refused call gets. *)
Definition refused_result (tc : ToolCall) (e : string) : ToolResult := mkToolResult (tc_ID tc) None e 0.

(** [authorizedTools]: the last validated tool of each name. *)
Definition authorize (vts : list ValidatedTool) : gmap string ValidatedTool :=
  foldl (fun m vt => <[vt_Name vt := vt]> m) ∅ vts.

Section Loop.
Context {W : Type} `{ModelEnv W, ToolEnv W, ToolCodec}.

Definition parseArguments (s : string) : option (list (string * json)) :=
  if bool_decide (s = "") then None else json_Unmarshal_object s.

(** From the HITL gate on: everything that follows a successful re-resolution. *)
Definition approve_and_execute (uc : ChatUsecase) (vt : ValidatedTool) (tc : ToolCall) (w : W)
    : W * ToolResult :=
  let denied := if toolRequiresApproval uc (fc_Name (tc_Function tc)) then
      let '(approved, err) := requestHITLApproval tc in
      match err with
      | Some e => Some (Error e)
      | None => if approved then None else Some "<nil>"
      end
    else None in
  match denied with
  | Some e => (w, refused_result tc ("HITL approval failed: " +:+ e))
  | None =>
      let call := mkExecCall (tc_ID tc) (fc_Name (tc_Function tc)) (parseArguments (fc_Arguments (tc_Function tc))) in
      let '(w, res) := executor_Execute vt call w in
      match res with
      | Ok r => (w, r)
      | Err e => (w, mkToolResult (ec_ID call) None (Error e) 0)
      end
  end.

(** The body of the loop over the tool calls. *)
Definition run_tool_call (uc : ChatUsecase) (tenant : UUID) (authorized : gmap string ValidatedTool)
    (tc : ToolCall) (w : W) : W * ToolResult :=
  match authorized !! fc_Name (tc_Function tc) with
  | None => (w, refused_result tc (Error ErrToolNotFound))
  | Some vt =>
      if uc_toolRepo uc then
        let '(w, res) := repo_GetByName tenant (fc_Name (tc_Function tc)) w in
        match res with
        | Err _ => (w, refused_result tc (Error ErrToolNotFound))
        | Ok def =>
            if negb (bool_decide (td_Hash def = vt_Hash vt))
            then (w, refused_result tc (Error ErrToolDefinitionMismatch))
            else if negb (td_IsActive def) then (w, refused_result tc (Error ErrToolNotFound))
            else approve_and_execute uc vt tc w
        end
      else approve_and_execute uc vt tc w
  end.

Fixpoint run_tool_calls (uc : ChatUsecase) (tenant : UUID) (authorized : gmap string ValidatedTool)
    (tcs : list ToolCall) (w : W) : W * list ToolResult :=
  match tcs with
  | [] => (w, [])
  | tc :: tcs =>
      let '(w, r) := run_tool_call uc tenant authorized tc w in
      let '(w, rs) := run_tool_calls uc tenant authorized tcs w in
      (w, r :: rs)
  end.

Definition tool_message (tr : ToolResult) : Message :=
  mkMessage "tool" (sprint_object (tr_Output tr)) [] (tr_CallID tr) (tr_CallID tr).

(** The request of the next round. *)
Definition recall_request (originalReq : ChatRequest) (toolResults : list ToolResult) : ChatRequest :=
  mkChatRequest (req_Model originalReq) (req_Messages originalReq ++ map tool_message toolResults)
    (req_Temperature originalReq) (req_MaxTokens originalReq) None (req_Tools originalReq)
    (req_ToolChoice originalReq) (req_Stream originalReq) [] None None (req_User originalReq).

Definition feedToolResultsAndRecall (uc : ChatUsecase) (originalReq : ChatRequest)
    (toolResults : list ToolResult) (r : ProviderRegistry) (w : W)
    : (ProviderRegistry * W) * (FallbackResult * option error) :=
  ExecuteWithFallback (uc_fallbackChain uc) (recall_request originalReq toolResults) r w.

(** The tool calls of the first choice. *)
Definition pending_calls (res : FallbackResult) : list ToolCall :=
  match resp_Choices (cmp_Response (fr_Completion res)) with
  | [] => []
  | choice :: _ => msg_ToolCalls (ch_Message choice)
  end.

Definition set_finish (reason : string) (res : FallbackResult) : FallbackResult :=
  let c := fr_Completion res in
  let cr := cmp_Response c in
  match resp_Choices cr with
  | [] => res
  | ch :: chs =>
      mkFallbackResult
        (mkCompletion (mkChatResponse (resp_ID cr) (resp_Object cr) (resp_Created cr) (resp_Model cr)
                         (mkChoice (ch_Index ch) (ch_Message ch) reason :: chs) (resp_Usage cr) (resp_SystemFingerprint cr))
           (cmp_Provider c) (cmp_Model c) (cmp_LatencyMs c))
        (fr_Provider res) (fr_Model res) (fr_Attempt res) (fr_TotalLatency res) (fr_Retried res) (fr_FallbackReason res)
  end.

(** [for iterations < maxIterations]: [more] iterations are still allowed. When
    none is, the loop has run [maxIterations] times and the finish reason is set. *)
Fixpoint tool_loop (more : nat) (uc : ChatUsecase) (tenant : UUID) (authorized : gmap string ValidatedTool)
    (domainReq : ChatRequest) (current : FallbackResult) (r : ProviderRegistry) (w : W)
    : (ProviderRegistry * W) * result error FallbackResult :=
  match more with
  | O => ((r, w), Ok (set_finish "max_iterations" current))
  | S more =>
      match pending_calls current with
      | [] => ((r, w), Ok current)
      | calls =>
          let '(w, results) := run_tool_calls uc tenant authorized calls w in
          let '((r, w), (next, err)) := feedToolResultsAndRecall uc domainReq results r w in
          match err with
          | Some e => ((r, w), Err (EWrap "feed tool results" e))
          | None => tool_loop more uc tenant authorized domainReq next r w
          end
      end
  end.

Definition executeToolLoop (uc : ChatUsecase) (req : UsecaseRequest) (domainReq : ChatRequest)
    (result0 : FallbackResult) (r : ProviderRegistry) (w : W)
    : (ProviderRegistry * W) * result error FallbackResult :=
  match uc_toolExecutor uc, uc_toolConfig uc with
  | true, Some _ =>
      let maxIterations := if uc_MaxIterations uc <=? 0 then 5 else uc_MaxIterations uc in
      tool_loop (Z.to_nat maxIterations) uc (ur_TenantID req) (authorize (ur_ValidatedTools req))
        domainReq result0 r w
  | _, _ => ((r, w), Ok result0)
  end.

Definition to_domain (req : UsecaseRequest) : ChatRequest :=
  mkChatRequest (ur_Model req) (ur_Messages req) (ur_Temperature req) (ur_MaxTokens req) None (ur_Tools req)
    (ur_ToolChoice req) (ur_Stream req) [] None None (ur_User req).

Definition estimateCost (uc : ChatUsecase) (req : UsecaseRequest) : result error (float64 * string) :=
  GetCost (uc_pricing uc) (ur_Model req) (estimatePromptTokens (ur_Messages req))
    (default 1000 (ur_MaxTokens req)).

(** On failure Go keeps the zero cost and the active version beside the error. *)
Definition calculateActualCost (uc : ChatUsecase) (c : Completion) : float64 * string :=
  let usage := resp_Usage (cmp_Response c) in
  match GetCost (uc_pricing uc) (cmp_Model c) (PromptTokens usage) (CompletionTokens usage) with
  | Ok cost => cost
  | Err _ => (f64_of_int 0, svc_currentVer (uc_pricing uc))
  end.

Definition Complete (uc : ChatUsecase) (req : UsecaseRequest) (r : ProviderRegistry) (w : W)
    : (ProviderRegistry * W) * result error UsecaseResponse :=
  let startTime := env_now w in
  let domainReq := to_domain req in
  let '((r, w), (result0, err)) := ExecuteWithFallback (uc_fallbackChain uc) domainReq r w in
  match err with
  | Some e => ((r, w), Err e)
  | None =>
      match executeToolLoop uc req domainReq result0 r w with
      | ((r, w), Err e) => ((r, w), Err e)
      | ((r, w), Ok final) =>
          let '(actualCost, actualVersion) := calculateActualCost uc (fr_Completion final) in
          ((r, w), Ok (mkUsecaseResponse (fr_Completion final) actualCost actualVersion (fr_Provider final)
                        (Z.quot (env_now w - startTime) millisecond) (fr_Retried final)))
      end
  end.

(** ** The handler's validation ([handlers/chat.go]) *)

Fixpoint validateTools (tenantID : UUID) (tools : list Tool) (w : W) : W * result error (list ValidatedTool) :=
  match tools with
  | [] => (w, Ok [])
  | t :: tools =>
      if negb (bool_decide (tool_Type t = "function")) then validateTools tenantID tools w
      else
        let fn := tool_Function t in
        let '(w, res) := repo_GetByName tenantID (fd_Name fn) w in
        match res with
        | Err e => if errors_Is e ErrToolRepository then (w, Err e) else (w, Err (ErrToolNotFound : error))
        | Ok def =>
            if negb (td_IsActive def) then (w, Err (ErrToolNotFound : error))
            else if negb (bool_decide (ComputeHash (fd_Name fn) (fd_Description fn) (fd_Parameters fn) = td_Hash def))
            then (w, Err (ErrToolDefinitionMismatch : error))
            else
              let vt := mkValidatedTool (td_Name def) (td_Description def) (td_InputSchema def) (td_Grants def)
                          (td_ExecutionTimeoutMs def) (td_MemoryPages def) (td_Hash def) in
              let '(w, rest) := validateTools tenantID tools w in
              (w, match rest with Ok vts => Ok (vt :: vts) | Err e => Err e end)
        end
  end.
End Loop.

(** [==] on errors: only the sentinel itself, never an error that wraps it. *)
Definition mapError (err : error) : Z :=
  if bool_decide (err = ErrValidation) then 400
  else if bool_decide (err = ErrUnauthorized) then 401
  else if bool_decide (err = ErrForbidden) then 403
  else if bool_decide (err = ErrNotFound) then 404
  else if bool_decide (err = ErrToolNotFound) then 400
  else if bool_decide (err = ErrToolDefinitionMismatch) then 400
  else if bool_decide (err = ErrToolRepository) then 503
  else if bool_decide (err = ErrProviderRateLimited) then 429
  else if bool_decide (err = ErrProviderTimeout) then 504
  else if bool_decide (err = ErrProviderUnavailable) || bool_decide (err = ErrNoHealthyProvider) then 503
  else 500.

(** ** Watching the tools

    The same world with a log of the look-ups and executions of tools. *)
Inductive tool_event :=
| EvLookup (tenant : UUID) (name : string) (res : result error ToolDefinition)
| EvExecute (vt : ValidatedTool) (call : ExecCall).

Abbreviation Watched W := (W * list tool_event)%type.

#[global] Instance watched_model {W} `{ModelEnv W} : ModelEnv (Watched W) := {
  env_now w := env_now (fst w);
  provider_Complete p t req w := let '(w', res) := provider_Complete p t req (fst w) in ((w', snd w), res);
  provider_HealthCheck p t w := let '(w', e) := provider_HealthCheck p t (fst w) in ((w', snd w), e);
  wait_backoff d w := let '(w', e) := wait_backoff d (fst w) in ((w', snd w), e);
}.

#[global] Instance watched_tool {W} `{ToolEnv W} : ToolEnv (Watched W) := {
  repo_GetByName t n w :=
    let '(w', res) := repo_GetByName t n (fst w) in ((w', snd w ++ [EvLookup t n res]), res);
  executor_Execute vt call w :=
    let '(w', res) := executor_Execute vt call (fst w) in ((w', snd w ++ [EvExecute vt call]), res);
}.

#[global] Instance traced_tool {W} `{ToolEnv W} : ToolEnv (Traced W) := {
  repo_GetByName t n w := let '(w', res) := repo_GetByName t n (fst w) in ((w', snd w), res);
  executor_Execute vt call w := let '(w', res) := executor_Execute vt call (fst w) in ((w', snd w), res);
}.

(** What one tool call may do: nothing for a tool that is not authorised; one
    look-up for one that is (when there is a repository); and an execution only
    of the authorised tool itself, if the look-up just made shows it active with
    the validated hash and it needs no approval. *)
Definition call_events `{ToolCodec} (uc : ChatUsecase) (tenant : UUID) (auth : gmap string ValidatedTool)
    (tc : ToolCall) (evs : list tool_event) : Prop :=
  let name := fc_Name (tc_Function tc) in
  evs = [] \/
  (uc_toolRepo uc = true /\ exists res, evs = [EvLookup tenant name res]) \/
  exists vt checks, auth !! name = Some vt /\ toolRequiresApproval uc name = false /\
    evs = checks ++ [EvExecute vt (mkExecCall (tc_ID tc) name (parseArguments (fc_Arguments (tc_Function tc))))] /\
    if uc_toolRepo uc
    then exists def, checks = [EvLookup tenant name (Ok def)] /\ td_Hash def = vt_Hash vt /\ td_IsActive def = true
    else checks = [].

Section Facts.
Context {W : Type} `{ModelEnv W, ToolEnv W, ToolCodec}.

Lemma approve_and_execute_spec uc vt tc (w : Watched W) :
  let '(w', tr) := approve_and_execute uc vt tc w in
  (snd w' = snd w /\ tr_CallID tr = tc_ID tc) \/
  (toolRequiresApproval uc (fc_Name (tc_Function tc)) = false /\
   snd w' = snd w ++ [EvExecute vt (mkExecCall (tc_ID tc) (fc_Name (tc_Function tc))
                        (parseArguments (fc_Arguments (tc_Function tc))))]).
Proof.
  unfold approve_and_execute. destruct (toolRequiresApproval _ _); simpl; [by left|].
  destruct (executor_Execute _ _ (fst w)) as [w1 [tr|e]]; simpl; right; auto.
Qed.

Lemma run_tool_call_events uc tenant auth tc (w : Watched W) :
  exists evs, snd (fst (run_tool_call uc tenant auth tc w)) = snd w ++ evs /\
    call_events uc tenant auth tc evs.
Proof.
  unfold run_tool_call. destruct (auth !! _) as [vt|] eqn:Hvt; simpl.
  2:{ exists []. rewrite app_nil_r. split; [done|by left]. }
  destruct (uc_toolRepo uc) eqn:Hrepo; simpl.
  - destruct (repo_GetByName tenant _ (fst w)) as [w1 res]; simpl.
    assert (Hl : call_events uc tenant auth tc [EvLookup tenant (fc_Name (tc_Function tc)) res])
      by (right; left; eauto).
    destruct res as [def|e]; simpl; [|by eexists].
    destruct (bool_decide (td_Hash def = vt_Hash vt)) eqn:Hh; simpl; [|by eexists].
    destruct (td_IsActive def) eqn:Hact; simpl; [|by eexists].
    pose proof (approve_and_execute_spec uc vt tc
      (w1, snd w ++ [EvLookup tenant (fc_Name (tc_Function tc)) (Ok def)])) as Hx.
    destruct (approve_and_execute _ _ _ _) as [w2 tr]. simpl in *.
    destruct Hx as [[-> _]|[Hap ->]]; [by eexists|].
    rewrite <- app_assoc. eexists. split; [reflexivity|]. right. right.
    exists vt, [EvLookup tenant (fc_Name (tc_Function tc)) (Ok def)].
    rewrite Hrepo. reflect_bools. split_and!; [done..|]. by exists def.
  - pose proof (approve_and_execute_spec uc vt tc w) as Hx.
    destruct (approve_and_execute _ _ _ _) as [w2 tr]. simpl in *.
    destruct Hx as [[-> _]|[Hap ->]].
    + exists []. rewrite app_nil_r. split; [done|by left].
    + eexists. split; [reflexivity|]. right. right. exists vt, []. by rewrite Hrepo.
Qed.

Lemma run_tool_calls_events uc tenant auth tcs (w : Watched W) :
  exists segs, snd (fst (run_tool_calls uc tenant auth tcs w)) = snd w ++ concat segs /\
    Forall2 (call_events uc tenant auth) tcs segs.
Proof.
  revert w. induction tcs as [|tc tcs IH]; intros w; simpl.
  { exists []. simpl. by rewrite app_nil_r. }
  destruct (run_tool_call_events uc tenant auth tc w) as (evs & Hevs & Hcall).
  destruct (run_tool_call uc tenant auth tc w) as [w1 tr]. simpl in Hevs.
  destruct (IH w1) as (segs & Hsegs & Hall).
  destruct (run_tool_calls uc tenant auth tcs w1) as [w2 trs]. simpl in *.
  exists (evs :: segs). simpl. rewrite Hsegs, Hevs, app_assoc. split; [done|by constructor].
Qed.
End Facts.

(** Completions do not touch the tools. *)
Section Untouched.
Context {W : Type} `{ModelEnv W}.

Lemma retry_loop_watched more fc st req name retry attempt lastErr r (w : Watched W) :
  snd (snd (fst (retry_loop more fc st req name retry attempt lastErr r w))) = snd w.
Proof.
  revert retry attempt lastErr r w. induction more as [|more IH]; intros retry attempt lastErr r w; simpl; [done|].
  destruct (providers r !! name) as [p|]; [|done].
  destruct (AllowRequest _ _) as [cb [e0|]]; [done|].
  destruct (provider_Complete _ _ _ (fst w)) as [w1 [c|e]]; simpl; [done|].
  destruct (shouldRetry fc e retry p) as [[] backoff]; simpl; [|done].
  destruct (backoff >? 0); [|by rewrite IH].
  destruct (wait_backoff backoff w1) as [w2 [ctxErr|]]; simpl; [done|]. by rewrite IH.
Qed.

Lemma provider_loop_watched names fc st req attempt lastErr r (w : Watched W) :
  snd (snd (fst (provider_loop names fc st req attempt lastErr r w))) = snd w.
Proof.
  revert attempt lastErr r w. induction names as [|n names IH]; intros attempt lastErr r w; simpl; [done|].
  pose proof (retry_loop_watched (iterations fc r n) fc st req n 0 attempt lastErr r w) as Hr.
  destruct (retry_loop _ _ _ _ _ _ _ _ _ w) as [[r1 w1] [res err|a l]]; simpl in *; [done|].
  by rewrite IH.
Qed.

Lemma execute_watched fc req r (w : Watched W) :
  snd (snd (fst (ExecuteWithFallback fc req r w))) = snd w.
Proof.
  unfold ExecuteWithFallback. destruct (GetHealthyProviders _ r) as [r0 healthy].
  destruct (bool_decide _); [done|]. cbv zeta. destruct (bool_decide _); [done|].
  pose proof (provider_loop_watched (candidates req r0 healthy) fc (env_now w) req 0 None r0 w) as Hp.
  by destruct (provider_loop _ _ _ _ _ _ _ w) as [[r1 w1] [res err|a l]].
Qed.
End Untouched.

Section LoopFacts.
Context {W : Type} `{ModelEnv W, ToolEnv W, ToolCodec}.

Lemma tool_loop_events more uc tenant auth dreq cur r (w : Watched W) :
  exists segs, snd (snd (fst (tool_loop more uc tenant auth dreq cur r w))) = snd w ++ concat segs /\
    Forall (fun evs => exists tc, call_events uc tenant auth tc evs) segs.
Proof.
  revert cur r w. induction more as [|more IH]; intros cur r w; cbn [tool_loop].
  { exists []. simpl. by rewrite app_nil_r. }
  destruct (pending_calls cur) as [|tc tcs] eqn:Hp.
  { exists []. simpl. by rewrite app_nil_r. }
  rewrite <- Hp.
  destruct (run_tool_calls_events uc tenant auth (pending_calls cur) w) as (segs & Hsegs & Hall).
  destruct (run_tool_calls uc tenant auth (pending_calls cur) w) as [w1 results]. simpl in Hsegs.
  pose proof (execute_watched (uc_fallbackChain uc) (recall_request dreq results) r w1) as Hex.
  unfold feedToolResultsAndRecall.
  destruct (ExecuteWithFallback _ _ r w1) as [[r2 w2] [next err]]. simpl in Hex.
  assert (Hsegs' : Forall (fun evs => exists tc, call_events uc tenant auth tc evs) segs).
  { clear -Hall. induction Hall; constructor; eauto. }
  destruct err as [e|]; simpl; [exists segs; by rewrite Hex|].
  destruct (IH next r2 w2) as (segs2 & Hs2 & Hall2). exists (segs ++ segs2).
  rewrite Hs2, Hex, Hsegs, concat_app, app_assoc. split; [done|]. by apply Forall_app.
Qed.

(** The registry keeps its shape, and so the number of calls it allows, across
    the loop. *)
Lemma call_budget_static fc r1 r2 names : same_static r1 r2 -> call_budget fc r1 names = call_budget fc r2 names.
Proof.
  intros Hs. induction names as [|n names IH]; [done|]. unfold call_budget in *. cbn [foldr]. rewrite IH.
  f_equal. f_equal. specialize (Hs n). unfold iterations, getMaxRetriesForProvider.
  destruct (providers r1 !! n) as [p|], (providers r2 !! n) as [q|]; simpl in Hs; try done.
  injection Hs as Hc _. by rewrite Hc.
Qed.

Lemma call_budget_filter fc r (f : string -> bool) names :
  call_budget fc r (List.filter f names) <= call_budget fc r names.
Proof.
  induction names as [|n names IH]; [done|]. unfold call_budget in *. simpl.
  destruct (f n); simpl; lia.
Qed.

(** An execution makes no more calls than the whole registry allows. *)
Lemma execute_bound fc req r (w : Traced W) names :
  retries_positive fc -> registry_wf r -> priority r = names ->
  let '((r', w'), _) := ExecuteWithFallback fc req r w in
  registry_wf r' /\ same_static r r' /\ priority r' = names /\
  Z.of_nat (length (snd w')) <= Z.of_nat (length (snd w)) + call_budget fc r names.
Proof.
  intros Hfc Hwf Hp. pose proof (execute_spec fc req r w Hfc Hwf) as Hx. cbn zeta in Hx.
  pose proof (execute_priority fc req r w Hwf) as Hpr.
  destruct (ExecuteWithFallback fc req r w) as [[r' w'] [res err]].
  destruct Hx as (Hwf' & Hst & calls & -> & Hcalls & _).
  split; [done|]. split; [done|]. split; [simpl in Hpr; congruence|].
  apply chain_calls_length in Hcalls; [|done].
  pose proof (call_budget_filter fc r (eligible_name (env_now w) (req_Model req) r) (priority r)).
  unfold candidate_names in Hcalls. rewrite length_app, <- Hp. lia.
Qed.

Lemma run_tool_calls_traced uc tenant auth tcs (w : Traced W) :
  snd (fst (run_tool_calls uc tenant auth tcs w)) = snd w.
Proof.
  assert (Hae : forall vt tc (w : Traced W), snd (fst (approve_and_execute uc vt tc w)) = snd w).
  { intros vt tc w'. unfold approve_and_execute. destruct (toolRequiresApproval _ _); simpl; [done|].
    by destruct (executor_Execute _ _ (fst w')) as [w1 [tr|e]]. }
  revert w. induction tcs as [|tc tcs IH]; intros w; simpl; [done|].
  assert (Hc : snd (fst (run_tool_call uc tenant auth tc w)) = snd w).
  { unfold run_tool_call. destruct (auth !! _) as [vt|]; simpl; [|done].
    destruct (uc_toolRepo uc); [|apply Hae]. simpl.
    destruct (repo_GetByName tenant _ (fst w)) as [w1 [def|e]]; simpl; [|done].
    destruct (negb _); [done|]. destruct (negb _); [done|]. by rewrite Hae. }
  destruct (run_tool_call uc tenant auth tc w) as [w1 tr].
  specialize (IH w1). destruct (run_tool_calls uc tenant auth tcs w1) as [w2 trs]. simpl in *. congruence.
Qed.

Lemma tool_loop_bound more uc tenant auth dreq cur r (w : Traced W) names :
  retries_positive (uc_fallbackChain uc) -> registry_wf r -> priority r = names ->
  let '((r', w'), _) := tool_loop more uc tenant auth dreq cur r w in
  registry_wf r' /\
  Z.of_nat (length (snd w')) <= Z.of_nat (length (snd w)) + Z.of_nat more * call_budget (uc_fallbackChain uc) r names.
Proof.
  intros Hfc. revert cur r w. induction more as [|more IH]; intros cur r w Hwf Hp; cbn [tool_loop]; [split; [done|lia]|].
  pose proof (call_budget_nonneg (uc_fallbackChain uc) r names) as Hnn.
  destruct (pending_calls cur) as [|tc tcs] eqn:Hpend; [split; [done|nia]|]. rewrite <- Hpend.
  pose proof (run_tool_calls_traced uc tenant auth (pending_calls cur) w) as Hrun.
  destruct (run_tool_calls uc tenant auth (pending_calls cur) w) as [w1 results]. simpl in Hrun.
  unfold feedToolResultsAndRecall.
  pose proof (execute_bound (uc_fallbackChain uc) (recall_request dreq results) r w1 names Hfc Hwf Hp) as Hex.
  destruct (ExecuteWithFallback _ _ r w1) as [[r2 w2] [next err]].
  destruct Hex as (Hwf2 & Hst2 & Hp2 & Hlen2). rewrite Hrun in Hlen2.
  destruct err as [e|]; [split; [done|nia]|].
  specialize (IH next r2 w2 Hwf2 Hp2).
  destruct (tool_loop more uc tenant auth dreq next r2 w2) as [[r3 w3] fin].
  destruct IH as [Hwf3 Hlen3]. split; [done|].
  rewrite <- (call_budget_static _ _ _ names Hst2) in Hlen3. nia.
Qed.
End LoopFacts.

Lemma authorize_spec vts name vt :
  authorize vts !! name = Some vt -> vt ∈ vts /\ vt_Name vt = name.
Proof.
  unfold authorize.
  assert (Hgen : forall (m : gmap string ValidatedTool), foldl (fun m vt => <[vt_Name vt := vt]> m) m vts !! name = Some vt ->
    (vt ∈ vts /\ vt_Name vt = name) \/ m !! name = Some vt).
  { induction vts as [|v vts IH]; intros m Hm; simpl in Hm; [by right|].
    destruct (IH _ Hm) as [[? ?]|Hi]; [left; split; [by apply elem_of_cons; right|done]|].
    rewrite lookup_insert in Hi. case_decide as E; [|by right].
    injection Hi as <-. left. split; [by apply elem_of_cons; left|done]. }
  intros Hm. destruct (Hgen _ Hm) as [?|Hm']; [done|]. by rewrite lookup_empty in Hm'.
Qed.

(** What [validateTools] accepts. *)
Definition is_function (t : Tool) : bool := bool_decide (tool_Type t = "function").

Definition validates `{ToolCodec} (t : Tool) (vt : ValidatedTool) : Prop :=
  vt_Hash vt = ComputeHash (fd_Name (tool_Function t)) (fd_Description (tool_Function t)) (fd_Parameters (tool_Function t)).

Lemma validateTools_spec {W} `{ToolEnv W, ToolCodec} tenant tools (w w' : W) vts :
  validateTools tenant tools w = (w', Ok vts) -> Forall2 validates (List.filter is_function tools) vts.
Proof.
  revert w vts. induction tools as [|t tools IH]; intros w vts; simpl.
  { intros [= <- <-]. constructor. }
  unfold is_function at 1. destruct (bool_decide (tool_Type t = "function")); simpl; [|apply IH].
  destruct (repo_GetByName tenant _ w) as [w1 [def|e]]; [|by destruct (errors_Is e _)].
  destruct (td_IsActive def); simpl; [|done].
  destruct (bool_decide (ComputeHash _ _ _ = td_Hash def)) eqn:Hh; simpl; [|done]. reflect_bools.
  destruct (validateTools tenant tools w1) as [w2 [vts2|e]] eqn:Hrest; [|done].
  intros [= <- <-]. constructor; [by unfold validates|by eapply IH].
Qed.

(** ** Properties *)

(** whatever tool calls the model asks for over the whole loop, a tool is
    executed only if it is one of the request's validated tools, immediately
    after a look-up for the request's tenant that found it active and with the
    validated hash (when a repository is configured), and only if its
    configuration asks for no approval; every other call executes nothing. *)
Theorem tools_gated {W} `{ModelEnv W, ToolEnv W, ToolCodec} (uc : ChatUsecase) (req : UsecaseRequest)
    (dreq : ChatRequest) (cur : FallbackResult) (r : ProviderRegistry) (w : W) :
  let log := snd (snd (fst (executeToolLoop (W := Watched W) uc req dreq cur r (w, [])))) in
  let auth := authorize (ur_ValidatedTools req) in
  (forall name vt, auth !! name = Some vt -> vt ∈ ur_ValidatedTools req /\ vt_Name vt = name) /\
  exists segs, log = concat segs /\
    Forall (fun evs => exists tc, call_events uc (ur_TenantID req) auth tc evs) segs.
Proof.
  cbn zeta. split; [intros name vt; apply authorize_spec|].
  unfold executeToolLoop. destruct (uc_toolExecutor uc), (uc_toolConfig uc); try (by exists []).
  apply (tool_loop_events (Z.to_nat (if uc_MaxIterations uc <=? 0 then 5 else uc_MaxIterations uc))
    uc (ur_TenantID req) (authorize (ur_ValidatedTools req)) dreq cur r (w, [])).
Qed.

(** a completed or failed chat request makes at most [MaxIterations] + 1 times
    as many provider calls as one pass over the registry allows, whatever the
    model answers. *)
Theorem chat_calls_bounded {W} `{ModelEnv W, ToolEnv W, ToolCodec} (uc : ChatUsecase) (req : UsecaseRequest)
    (r : ProviderRegistry) (w : W) :
  retries_positive (uc_fallbackChain uc) -> registry_wf r -> 0 < uc_MaxIterations uc ->
  let '((r', w'), _) := Complete (W := Traced W) uc req r (w, []) in
  registry_wf r' /\
  Z.of_nat (length (snd w')) <= (uc_MaxIterations uc + 1) * call_budget (uc_fallbackChain uc) r (priority r).
Proof.
  intros Hfc Hwf Hmax. unfold Complete.
  pose proof (call_budget_nonneg (uc_fallbackChain uc) r (priority r)) as Hnn.
  pose proof (execute_bound (uc_fallbackChain uc) (to_domain req) r ((w, []) : Traced W) (priority r) Hfc Hwf eq_refl) as Hex.
  destruct (ExecuteWithFallback _ _ r _) as [[r1 w1] [result0 err]].
  destruct Hex as (Hwf1 & Hst1 & Hp1 & Hlen1). change (snd ((w, []) : Traced W)) with (@nil (ModelProvider * result error Completion)) in Hlen1.
  destruct err as [e|]; [split; [done|]; simpl in Hlen1; nia|].
  assert (Hloop : let '((r', w'), _) := executeToolLoop uc req (to_domain req) result0 r1 w1 in
    registry_wf r' /\ Z.of_nat (length (snd w')) <=
      Z.of_nat (length (snd w1)) + uc_MaxIterations uc * call_budget (uc_fallbackChain uc) r (priority r)).
  { unfold executeToolLoop. destruct (uc_toolExecutor uc), (uc_toolConfig uc); try (split; [done|nia]).
    destruct (Z.leb_spec (uc_MaxIterations uc) 0); [lia|].
    pose proof (tool_loop_bound (Z.to_nat (uc_MaxIterations uc)) uc (ur_TenantID req)
      (authorize (ur_ValidatedTools req)) (to_domain req) result0 r1 w1 (priority r) Hfc Hwf1 Hp1) as Ht.
    rewrite <- (call_budget_static _ _ _ _ Hst1) in Ht.
    destruct (tool_loop _ _ _ _ _ _ r1 w1) as [[r2 w2] fin]. rewrite Z2Nat.id in Ht by lia. done. }
  destruct (executeToolLoop uc req (to_domain req) result0 r1 w1) as [[r2 w2] [fin|e]];
    [destruct (calculateActualCost uc (fr_Completion fin))|]; destruct Hloop as [? ?];
    (split; [done|]); simpl in *; lia.
Qed.

(** the tools a request is validated with are, in order, its function tools,
    each carrying the hash of exactly the name, description and parameters the
    client sent. *)
Theorem validated_tools_hash {W} `{ToolEnv W, ToolCodec} (tenant : UUID) (tools : list Tool) (w w' : W)
    (vts : list ValidatedTool) :
  validateTools tenant tools w = (w', Ok vts) -> Forall2 validates (List.filter is_function tools) vts.
Proof. apply validateTools_spec. Qed.

(** the request that follows a round of tool calls is the original
    conversation plus one tool message per result of that round only: the
    assistant's turn and the results of earlier rounds are not in it, and the
    error of a refused or failed call is not in it either, so two rounds that
    differ only in their errors continue identically. *)
Theorem recall_drops_errors_and_history (dreq : ChatRequest) (results results' : list ToolResult) :
  req_Messages (recall_request dreq results) = req_Messages dreq ++ map tool_message results /\
  Forall (fun m => msg_Role m = "tool" /\ msg_ToolCalls m = []) (map tool_message results) /\
  (map tr_CallID results = map tr_CallID results' -> map tr_Output results = map tr_Output results' ->
   recall_request dreq results = recall_request dreq results') /\
  (forall tc e, tool_message (refused_result tc e) = mkMessage "tool" "map[]" [] (tc_ID tc) (tc_ID tc)).
Proof.
  split; [done|]. split; [apply list.Forall_forall; intros m Hm; apply list_elem_of_In, in_map_iff in Hm as (tr & <- & _); done|].
  split; [|done]. intros Hid Hout. unfold recall_request. f_equal. f_equal.
  revert results' Hid Hout. induction results as [|t ts IH]; intros [|t' ts'] Hid Hout; simpl in *; try done.
  injection Hid as H1 H2. injection Hout as H3 H4. rewrite (IH ts') by done. f_equal.
  unfold tool_message. by rewrite H1, H3.
Qed.

(** an error that reaches the handler wrapped is answered 500 whatever it
    wraps, so a request whose every provider is rate limited or timed out is
    answered 500, not the 429 or 504 [mapError] has for those sentinels. *)
Theorem exhausted_providers_answer_500 {W} `{ModelEnv W} (fc : FallbackChain) (req : ChatRequest)
    (r : ProviderRegistry) (w : W) (e : error) :
  retries_positive fc -> registry_wf r ->
  (forall d (w1 w2 : W) x, wait_backoff d w1 = (w2, x) -> x = None) ->
  snd (snd (ExecuteWithFallback (W := Traced W) fc req r (w, []))) = Some e ->
  mapError e = (if bool_decide (candidate_names (env_now w) req r = []) then 503 else 500) /\
  mapError ErrProviderRateLimited = 429 /\ mapError ErrProviderTimeout = 504.
Proof.
  intros Hfc Hwf Hwait He. split; [|done].
  pose proof (execute_spec fc req r ((w, []) : Traced W) Hfc Hwf) as Hx. cbn zeta in Hx.
  pose proof (execute_no_candidates fc req r ((w, []) : Traced W) Hwf) as Hnone.
  destruct (ExecuteWithFallback _ _ _ _) as [[r' w'] [res err]]. simpl in He. subst err.
  destruct Hx as (_ & _ & calls & _ & _ & _ & [[Hcs ->]|[(d & w1 & w2 & Hd)|(last & -> & _)]]).
  - rewrite bool_decide_true by done. reflexivity.
  - by apply Hwait in Hd.
  - rewrite bool_decide_false; [reflexivity|]. intros Hcs. specialize (Hnone Hcs). simpl in Hnone. congruence.
Qed.

(** ** Concrete instances *)

(** A model that answers with the scripted tool calls, one list per completion,
    and then without any; tools always run and return one field. *)
#[local] Instance script_model : ModelEnv (list (list ToolCall)) := {
  env_now _ := 5;
  provider_Complete _ _ req w :=
    let answer tcs := mkCompletion (mkChatResponse "id" "chat.completion" 0 (req_Model req)
      [mkChoice 0 (mkMessage "assistant" "done" tcs "" "") "stop"] (mkUsage 1 1 2) "") "mock" (req_Model req) 1 in
    match w with
    | [] => ([], Ok (answer []))
    | tcs :: w => (w, Ok (answer tcs))
    end;
  provider_HealthCheck _ _ w := (w, None);
  wait_backoff _ w := (w, None);
}.

Definition ex_def : ToolDefinition :=
  mkToolDefinition 1 (uuid_n 1) "search" "find things" "{}" "[]" 1000 1 "search|find things" true.

#[local] Instance script_tools : ToolEnv (list (list ToolCall)) := {
  repo_GetByName _ name w :=
    (w, if bool_decide (name = "search") then Ok ex_def else Err (ErrToolNotFound : error));
  executor_Execute _ call w := (w, Ok (mkToolResult (ec_ID call) (Some [("hits", JNumber "3")]) "" 1));
}.

#[local] Instance text_codec : ToolCodec := {
  json_Unmarshal_object _ := Some [];
  ComputeHash name description _ := name +:+ "|" +:+ description;
}.

Definition ex_tool : Tool := mkTool "function" (mkFunctionDef "search" "find things" None).
Definition ex_vt : ValidatedTool := mkValidatedTool "search" "find things" "{}" "[]" 1000 1 "search|find things".
Definition ex_call (name : string) : ToolCall := mkToolCall "call-1" "function" (mkFunctionCall name "{}").
Definition ex_usecase (maxIterations : Z) : ChatUsecase :=
  NewChatUsecase ex_chain (mkService ∅ [] "" "") true
    (Some (mkToolConfig maxIterations 0 0 0 0 [mkToolModuleConfig "delete" "" [] false 0 0 true])) true 0 maxIterations.
Definition ex_ureq : UsecaseRequest :=
  mkUsecaseRequest "llama3" [mkMessage "user" "hi" [] "" ""] None None false [ex_tool] [ex_vt] JNull "u" (uuid_n 1).

Lemma ex_chain_retries : retries_positive ex_chain.
Proof. reflexivity. Qed.

Lemma chat_calls_bounded_witness :
  let '((r', w'), _) := Complete (W := Traced (list (list ToolCall))) (ex_usecase 2) ex_ureq ex_registry
      (replicate 9 [ex_call "search"], []) in
  length (snd w') = 3%nat /\ Z.of_nat (length (snd w')) <= (2 + 1) * call_budget ex_chain ex_registry ["a"; "b"; "c"].
Proof.
  pose proof (chat_calls_bounded (ex_usecase 2) ex_ureq ex_registry (replicate 9 [ex_call "search"])
    ex_chain_retries ex_registry_wf ltac:(vm_compute; reflexivity)) as Hb.
  destruct (Complete _ _ _ _) as [[r' w'] res] eqn:E.
  split; [|exact (proj2 Hb)]. vm_compute in E. injection E as _ <- _. reflexivity.
Defined.

Lemma validated_tools_hash_witness :
  Forall2 validates [ex_tool] [ex_vt].
Proof.
  apply (validated_tools_hash (W := list (list ToolCall)) (uuid_n 1) [ex_tool; mkTool "retrieval" (mkFunctionDef "x" "" None)]
    [] [] [ex_vt]). vm_compute. reflexivity.
Defined.

Lemma exhausted_providers_answer_500_witness :
  exists e, snd (snd (ExecuteWithFallback (W := Traced Z) (H := @traced_env Z down_env) ex_chain (ex_req "llama3") ex_registry (5, []))) = Some e /\
    mapError e = 500.
Proof.
  eexists. split; [vm_compute; reflexivity|].
  apply (exhausted_providers_answer_500 (H := down_env) ex_chain (ex_req "llama3") ex_registry 5);
    [reflexivity|apply ex_registry_wf|intros d w1 w2 x [= _ <-]; reflexivity|vm_compute; reflexivity].
Defined.

(** the finish reason becomes max_iterations whenever the loop has used all its
    iterations, also when the answer to the last round asks for no more tools and
    is complete. *)
Theorem finish_reason_overwritten :
  (forall more uc tenant auth dreq cur r (w : list (list ToolCall)),
     Nat.eqb more 0 = true -> resp_Choices (cmp_Response (fr_Completion cur)) <> [] ->
     exists res, snd (tool_loop more uc tenant auth dreq cur r w) = Ok res /\
       option_map ch_FinishReason (head (resp_Choices (cmp_Response (fr_Completion res)))) = Some "max_iterations") /\
  exists (w : list (list ToolCall)) res,
    snd (Complete (ex_usecase 1) ex_ureq ex_registry w) = Ok res /\
    map ch_FinishReason (resp_Choices (cmp_Response (us_Completion res))) = ["max_iterations"] /\
    map (fun c => msg_ToolCalls (ch_Message c)) (resp_Choices (cmp_Response (us_Completion res))) = [[]].
Proof.
  split.
  - intros [|more] uc tenant auth dreq cur r w Hm Hne; [|done]. eexists. split; [reflexivity|].
    unfold set_finish. by destruct (resp_Choices _) eqn:E.
  - exists [[ex_call "search"]]. eexists. split; [vm_compute; reflexivity|]. split; reflexivity.
Qed.

Lemma recall_drops_errors_and_history_witness :
  recall_request (to_domain ex_ureq) [refused_result (ex_call "search") (Error ErrToolNotFound)] =
  recall_request (to_domain ex_ureq) [refused_result (ex_call "search") (Error ErrToolDefinitionMismatch)].
Proof.
  apply (recall_drops_errors_and_history (to_domain ex_ureq)
    [refused_result (ex_call "search") (Error ErrToolNotFound)]
    [refused_result (ex_call "search") (Error ErrToolDefinitionMismatch)]); reflexivity.
Defined.

Lemma finish_reason_overwritten_witness :
  exists res, snd (tool_loop 0 (ex_usecase 1) (uuid_n 1) ∅ (to_domain ex_ureq)
      (mkFallbackResult (mkCompletion (mkChatResponse "" "" 0 "" [mkChoice 0 (mkMessage "assistant" "x" [] "" "") "stop"]
        (mkUsage 0 0 0) "") "" "" 0) "" "" 0 0 false "") ex_registry ([] : list (list ToolCall))) = Ok res /\
    option_map ch_FinishReason (head (resp_Choices (cmp_Response (fr_Completion res)))) = Some "max_iterations".
Proof. apply (proj1 finish_reason_overwritten); [reflexivity|discriminate]. Defined.
