(* ===== verification/CompositeTools.v ===== *)
(** The tool loop that [internal/adapter/guardrail/composite.go] keeps beside the
    one of the chat use case: its fields, its helpers, and what tells the two
    loops apart. No function of the program calls it. *)

From stdpp Require Import base gmap strings list numbers.
From S2P Require Import GoPrelude Bytes Uuid Errors CircuitBreaker ChatModel Pricing Routing Fallback ToolLoop.
Open Scope Z_scope.

(** The fields of [CompositeGuardrail] the loop reads; [None] is a nil pointer, and
    [ct_toolExecutor] says whether the executor is set. *)
Record CompositeTools := mkCompositeTools {
  ct_fallbackChain : option FallbackChain;
  ct_pricing : option Service;
  ct_toolExecutor : bool;
  ct_toolConfig : option ToolConfig;
}.

(** What the constructor leaves in them. *)
Definition NewCompositeTools : CompositeTools := mkCompositeTools None None false None.

(** The executor, called with the context the loop was given. *)
Class BareExecutor (W : Type) := bare_Execute : ExecCall -> W -> W * result error ToolResult.

Definition call_chars (tc : ToolCall) : Z := go_len (fc_Name (tc_Function tc)) + go_len (fc_Arguments (tc_Function tc)).

(** The composite's own copy of the token estimate. *)
Definition composite_estimatePromptTokens (messages : list Message) : Z :=
  let totalChars := foldl (fun n msg => foldl (fun n tc => n + call_chars tc) (n + go_len (msg_Content msg)) (msg_ToolCalls msg)) 0 messages in
  let tokens := totalChars / 4 in
  if tokens =? 0 then 100 else tokens.

Definition composite_requestHITLApproval (tc : ToolCall) : bool * option error :=
  (false, Some (EOther ("HITL approval required for " +:+ fc_Name (tc_Function tc)))).

Section Loop.
Context {W : Type} `{ModelEnv W, BareExecutor W, ToolCodec}.
Variable c : CompositeTools.

Definition composite_estimateCost (req : ChatRequest) : option (result error (float64 * string)) :=
  match ct_pricing c with
  | None => None
  | Some p => Some (GetCost p (req_Model req) (composite_estimatePromptTokens (req_Messages req)) (default 1000 (req_MaxTokens req)))
  end.

Definition composite_calculateActualCost (completion : Completion) : option (result error (float64 * string)) :=
  let usage := resp_Usage (cmp_Response completion) in
  match ct_pricing c with
  | None => None
  | Some p => Some (GetCost p (cmp_Model completion) (PromptTokens usage) (CompletionTokens usage))
  end.

Definition composite_toolRequiresApproval (toolName : string) : bool :=
  match ct_toolConfig c with
  | None => false
  | Some cfg =>
      match List.find (fun t => bool_decide (tm_Name t = toolName)) (tcfg_Tools cfg) with
      | Some t => tm_RequiresApproval t
      | None => false
      end
  end.

Definition composite_parseArguments (s : string) : option (list (string * json)) :=
  if bool_decide (s = "") then None else json_Unmarshal_object s.

(** The body of the loop over the calls: a tool that needs approval, or else an execution. *)
Definition composite_tool_call (tc : ToolCall) (w : W) : W * ToolResult :=
  let refusal :=
    if composite_toolRequiresApproval (fc_Name (tc_Function tc)) then
      let '(approved, err) := composite_requestHITLApproval tc in
      match err with
      | Some e => Some (Error e)
      | None => if approved then None else Some "<nil>"
      end
    else None in
  match refusal with
  | Some e => (w, mkToolResult (tc_ID tc) None ("HITL approval failed: " +:+ e) 0)
  | None =>
      let call := mkExecCall (tc_ID tc) (fc_Name (tc_Function tc)) (composite_parseArguments (fc_Arguments (tc_Function tc))) in
      match bare_Execute call w with
      | (w, Ok r) => (w, r)
      | (w, Err e) => (w, mkToolResult (ec_ID call) None (Error e) 0)
      end
  end.

Fixpoint composite_tool_calls (tcs : list ToolCall) (w : W) : W * list ToolResult :=
  match tcs with
  | [] => (w, [])
  | tc :: tcs =>
      let '(w, r) := composite_tool_call tc w in
      let '(w, rs) := composite_tool_calls tcs w in
      (w, r :: rs)
  end.

Definition composite_feedToolResultsAndRecall (originalReq : ChatRequest) (toolResults : list ToolResult) (r : ProviderRegistry) (w : W)
    : option ((ProviderRegistry * W) * (FallbackResult * option error)) :=
  let messages := req_Messages originalReq ++
    map (fun tr => mkMessage "tool" (sprint_object (tr_Output tr)) [] (tr_CallID tr) (tr_CallID tr)) toolResults in
  match ct_fallbackChain c with
  | None => None
  | Some fc => Some (ExecuteWithFallback fc
      (mkChatRequest (req_Model originalReq) messages (req_Temperature originalReq) (req_MaxTokens originalReq) None
         (req_Tools originalReq) (req_ToolChoice originalReq) (req_Stream originalReq) [] None None (req_User originalReq)) r w)
  end.

(** [for iterations < maxIterations]; [None] is the dereference of the nil chain. *)
Fixpoint composite_loop (more : nat) (req : ChatRequest) (current : FallbackResult) (r : ProviderRegistry) (w : W)
    : option ((ProviderRegistry * W) * result error FallbackResult) :=
  match more with
  | O => Some ((r, w), Ok (set_finish "max_iterations" current))
  | S more =>
      match pending_calls current with
      | [] => Some ((r, w), Ok current)
      | calls =>
          let '(w, results) := composite_tool_calls calls w in
          match composite_feedToolResultsAndRecall req results r w with
          | None => None
          | Some ((r, w), (_, Some e)) => Some ((r, w), Err (EWrap "feed tool results" e))
          | Some ((r, w), (next, None)) => composite_loop more req next r w
          end
      end
  end.

Definition composite_executeToolLoop (req : ChatRequest) (result0 : FallbackResult) (r : ProviderRegistry) (w : W)
    : option ((ProviderRegistry * W) * result error FallbackResult) :=
  match ct_toolExecutor c, ct_toolConfig c with
  | true, Some _ => composite_loop 5 req result0 r w
  | _, _ => Some ((r, w), Ok result0)
  end.
End Loop.

(** * The two loops *)

Lemma foldl_add {A} (f : A -> Z) l n : foldl (fun n x => n + f x) n l = n + foldr (fun x n => f x + n) 0 l.
Proof. revert n. induction l as [|x l IH]; intros n; cbn [foldl foldr]; [lia|]. rewrite IH. lia. Qed.

(** The copies of the estimate agree. *)
Lemma composite_estimate_agrees messages : composite_estimatePromptTokens messages = estimatePromptTokens messages.
Proof.
  unfold composite_estimatePromptTokens, estimatePromptTokens.
  enough (foldl (fun n msg => foldl (fun n tc => n + call_chars tc) (n + go_len (msg_Content msg)) (msg_ToolCalls msg)) 0 messages =
          foldr (fun m n => message_chars m + n) 0 messages) as -> by done.
  transitivity (foldl (fun n msg => n + message_chars msg) 0 messages); [|by rewrite foldl_add].
  generalize 0 at 1 2. induction messages as [|m ms IH]; intros n; cbn [foldl]; [done|].
  rewrite IH. f_equal. rewrite foldl_add. unfold message_chars. fold call_chars.
  change tool_call_chars with call_chars. lia.
Qed.

(** The executor the chat use case calls, with the tool left out. *)
Definition forgets_tool {W} `{ToolEnv W, BareExecutor W} : Prop :=
  forall vt call (w : W), executor_Execute vt call w = bare_Execute call w.

Section Compare.
Context {W : Type} `{ModelEnv W, ToolEnv W, BareExecutor W, ToolCodec}.
Variables (c : CompositeTools) (uc : ChatUsecase).
Hypothesis Hforget : forgets_tool (W := W).
Hypothesis Hcfg : uc_toolConfig uc = ct_toolConfig c.
Hypothesis Hrepo : uc_toolRepo uc = false.

Lemma composite_call_agrees tenant auth tc (w : W) :
  is_Some (auth !! fc_Name (tc_Function tc)) -> composite_tool_call c tc w = run_tool_call uc tenant auth tc w.
Proof using Hforget Hcfg Hrepo.
  intros [vt Hvt]. unfold run_tool_call. rewrite Hvt, Hrepo. unfold approve_and_execute, composite_tool_call.
  unfold composite_toolRequiresApproval, toolRequiresApproval. rewrite Hcfg.
  destruct (match ct_toolConfig c with Some _ => _ | None => _ end); [done|]. cbn zeta. rewrite Hforget.
  unfold composite_parseArguments, parseArguments. by destruct (bare_Execute _ w) as [w' [r|e]].
Qed.

Lemma composite_calls_agree tenant auth tcs (w : W) :
  Forall (fun tc => is_Some (auth !! fc_Name (tc_Function tc))) tcs ->
  composite_tool_calls c tcs w = run_tool_calls uc tenant auth tcs w.
Proof using Hforget Hcfg Hrepo.
  intros Ha. revert w. induction Ha as [|tc tcs Htc Ha IH]; intros w; [done|]. cbn [composite_tool_calls run_tool_calls].
  rewrite (composite_call_agrees tenant auth tc w Htc). destruct (run_tool_call _ _ _ _ _) as [w' x]. by rewrite IH.
Qed.
End Compare.

(** The recall is the same copy of the request. *)
Lemma composite_feed_agrees {W} `{ModelEnv W} (c : CompositeTools) (uc : ChatUsecase) fc req results r (w : W) :
  ct_fallbackChain c = Some fc -> uc_fallbackChain uc = fc ->
  composite_feedToolResultsAndRecall c req results r w = Some (feedToolResultsAndRecall uc req results r w).
Proof. intros Hc Hu. unfold composite_feedToolResultsAndRecall, feedToolResultsAndRecall. by rewrite Hc, Hu. Qed.

(** ** The whole loop *)

(** The answers of the chain name authorised tools only. *)
Definition asks_only {W} `{ModelEnv W} (fc : FallbackChain) (auth : gmap string ValidatedTool) : Prop :=
  forall req r (w : W),
    Forall (fun tc => is_Some (auth !! fc_Name (tc_Function tc))) (pending_calls (fst (snd (ExecuteWithFallback fc req r w)))).

(** What a result carries is the zero completion or one a provider answered. *)
Lemma retry_loop_completion {W} `{ModelEnv W} (P : Completion -> Prop) more fc st req name retry attempt lastErr r (w : W) rw res err :
  P zero_Completion -> (forall p t q v c, snd (provider_Complete p t q v) = Ok c -> P c) ->
  retry_loop more fc st req name retry attempt lastErr r w = (rw, Returned res err) -> P (fr_Completion res).
Proof.
  intros Hz Hp. revert retry attempt lastErr r w. induction more as [|more IH]; intros retry attempt lastErr r w Hr; [by destruct (providers r !! name)|].
  cbn [retry_loop] in Hr. destruct (providers r !! name) as [p|]; [|done]. cbn zeta in Hr.
  destruct (AllowRequest _ _) as [cb [refused|]]; [done|]. cbn in Hr.
  destruct (provider_Complete _ _ _ _) as [w1 [c|e]] eqn:Ec.
  - injection Hr as _ <- _. cbn. eapply Hp. by rewrite Ec.
  - destruct (shouldRetry _ _ _ _) as [[] backoff]; [|done]. cbn in Hr.
    destruct (backoff >? 0); [|by eapply IH]. destruct (wait_backoff backoff w1) as [w2 [x|]]; [|by eapply IH].
    injection Hr as _ <- _. done.
Qed.

Lemma execute_completion {W} `{ModelEnv W} (P : Completion -> Prop) fc req r (w : W) :
  P zero_Completion -> (forall p t q v c, snd (provider_Complete p t q v) = Ok c -> P c) ->
  P (fr_Completion (fst (snd (ExecuteWithFallback fc req r w)))).
Proof.
  intros Hz Hp. unfold ExecuteWithFallback. destruct (GetHealthyProviders _ r) as [r1 healthy].
  case_bool_decide; [done|]. case_bool_decide; [done|]. cbn zeta.
  destruct (provider_loop _ _ _ _ _ _ _ _) as [[r2 w2] [res err|attempt lastErr]] eqn:E; [|done]. cbn.
  revert E. generalize 0 as attempt, (@None error) as lastErr. generalize (candidates req r1 healthy) as names. intros names.
  generalize r1 at 1, w at 2.
  induction names as [|name names IH]; intros r' w' attempt lastErr Hl; [done|]. cbn [provider_loop] in Hl.
  destruct (retry_loop _ _ _ _ _ _ _ _ _ _) as [[r3 w3] [res' err'|a l]] eqn:Er; [|by eapply IH].
  injection Hl as _ _ <- _. by eapply retry_loop_completion.
Qed.

(** As the constructor leaves the fields the loop does nothing. With them set, it is
    the chat use case's loop with a limit of five, as long as the model asks for
    authorised tools; for a tool that is not authorised the use case answers
    without executing anything, the composite calls the executor. *)
Theorem composite_loop_compared {W} `{ModelEnv W, ToolEnv W, BareExecutor W, ToolCodec} (c : CompositeTools) (uc : ChatUsecase)
    (fc : FallbackChain) (ureq : UsecaseRequest) (req : ChatRequest) (cur : FallbackResult) (r : ProviderRegistry) (w : W) :
  forgets_tool (W := W) -> uc_toolConfig uc = ct_toolConfig c -> uc_toolRepo uc = false ->
  uc_toolExecutor uc = ct_toolExecutor c -> uc_fallbackChain uc = fc -> ct_fallbackChain c = Some fc -> uc_MaxIterations uc = 5 ->
  let auth := authorize (ur_ValidatedTools ureq) in
  composite_executeToolLoop NewCompositeTools req cur r w = Some ((r, w), Ok cur) /\
  (asks_only (W := W) fc auth -> Forall (fun tc => is_Some (auth !! fc_Name (tc_Function tc))) (pending_calls cur) ->
   composite_executeToolLoop c req cur r w = Some (executeToolLoop uc ureq req cur r w)) /\
  (forall tc, auth !! fc_Name (tc_Function tc) = None -> composite_toolRequiresApproval c (fc_Name (tc_Function tc)) = false ->
   run_tool_call uc (ur_TenantID ureq) auth tc w = (w, refused_result tc (Error ErrToolNotFound)) /\
   fst (composite_tool_call c tc w) =
     fst (bare_Execute (mkExecCall (tc_ID tc) (fc_Name (tc_Function tc)) (parseArguments (fc_Arguments (tc_Function tc)))) w)).
Proof.
  intros Hf Hcfg Hrepo Hex Hfc Hchain Hmax auth. split; [done|]. split.
  - intros Hasks. unfold composite_executeToolLoop, executeToolLoop. rewrite Hex, Hcfg, Hmax. fold auth.
    destruct (ct_toolExecutor c), (ct_toolConfig c) as [cfg|] eqn:Ec; try done.
    change (Z.to_nat (if 5 <=? 0 then 5 else 5)) with 5%nat. generalize 5%nat as more. intros more. revert cur r w.
    induction more as [|more IH]; intros cur r w Hcur; [done|]. cbn [composite_loop tool_loop].
    destruct (pending_calls cur) as [|tc tcs] eqn:Hp; [done|].
    rewrite (composite_calls_agree c uc Hf ltac:(congruence) Hrepo (ur_TenantID ureq) auth _ w Hcur).
    destruct (run_tool_calls uc (ur_TenantID ureq) auth (tc :: tcs) w) as [w1 results].
    rewrite (composite_feed_agrees c uc fc req results r w1 Hchain Hfc). unfold feedToolResultsAndRecall. rewrite Hfc.
    specialize (Hasks (recall_request req results) r w1).
    destruct (ExecuteWithFallback fc (recall_request req results) r w1) as [[r2 w2] [next [e|]]]. { done. } by apply IH.
  - intros tc Hn Hap. split; [unfold run_tool_call; by rewrite Hn|].
    unfold composite_tool_call. rewrite Hap. cbn zeta. unfold composite_parseArguments, parseArguments.
    by destruct (bare_Execute _ w) as [w' [x|e]].
Qed.

(** ** A concrete instance *)

(** A model that asks for the search every time; the world counts the tools that ran. *)
#[local] Instance asking_model : ModelEnv Z := {
  env_now _ := 5;
  provider_Complete _ _ req w :=
    (w, Ok (mkCompletion (mkChatResponse "id" "chat.completion" 0 (req_Model req)
      [mkChoice 0 (mkMessage "assistant" "" [ex_call "search"] "" "") "tool_calls"] (mkUsage 1 1 2) "") "mock" (req_Model req) 1));
  provider_HealthCheck _ _ w := (w, None);
  wait_backoff _ w := (w, None);
}.

#[local] Instance counting_executor : BareExecutor Z :=
  fun call w => (w + 1, Ok (mkToolResult (ec_ID call) (Some [("hits", JNumber "3")]) "" 1)).

#[local] Instance counting_tools : ToolEnv Z := {
  repo_GetByName _ _ w := (w, Err (ErrToolNotFound : error));
  executor_Execute _ call w := bare_Execute call w;
}.

#[local] Instance no_arguments : ToolCodec := { json_Unmarshal_object _ := Some []; ComputeHash _ _ _ := "" }.

Definition ex_tool_config : ToolConfig := mkToolConfig 5 0 0 0 0 [].
Definition ex_composite_tools : CompositeTools := mkCompositeTools (Some ex_chain) None true (Some ex_tool_config).
Definition ex_plain_usecase : ChatUsecase := NewChatUsecase ex_chain (mkService ∅ [] "" "") true (Some ex_tool_config) false 0 5.
Definition ex_asking : FallbackResult :=
  mkFallbackResult (mkCompletion (mkChatResponse "id" "chat.completion" 0 "llama3"
    [mkChoice 0 (mkMessage "assistant" "" [ex_call "search"] "" "") "tool_calls"] (mkUsage 1 1 2) "") "mock" "llama3" 1) "mock" "llama3" 1 0 false "".

(** Five executions for the authorised tool in either loop, and one of an
    unauthorised tool in the composite's. *)
Lemma composite_loop_compared_witness :
  let req := ex_req "llama3" in
  composite_executeToolLoop ex_composite_tools req ex_asking ex_registry 0 =
    Some (executeToolLoop ex_plain_usecase ex_ureq req ex_asking ex_registry 0) /\
  snd (fst (executeToolLoop ex_plain_usecase ex_ureq req ex_asking ex_registry 0)) = 5 /\
  fst (run_tool_call ex_plain_usecase (uuid_n 1) (authorize [ex_vt]) (ex_call "shell") 0) = 0 /\
  fst (composite_tool_call ex_composite_tools (ex_call "shell") 0) = 1.
Proof.
  cbn zeta.
  destruct (composite_loop_compared (W := Z) ex_composite_tools ex_plain_usecase ex_chain ex_ureq (ex_req "llama3") ex_asking ex_registry 0)
    as (_ & Hsame & Hdiff); [done|reflexivity..|].
  assert (is_Some (authorize [ex_vt] !! "search")) as Hs by by eexists.
  split; [apply Hsame; [|by apply Forall_singleton]|split; [vm_compute; reflexivity|]].
  - intros q r w. apply (execute_completion (fun c => Forall (fun tc => is_Some (authorize [ex_vt] !! fc_Name (tc_Function tc)))
      (match resp_Choices (cmp_Response c) with [] => [] | choice :: _ => msg_ToolCalls (ch_Message choice) end))); [done|].
    intros p t x v c [= <-]. by apply Forall_singleton.
  - destruct (Hdiff (ex_call "shell")) as [H1 H2]; [reflexivity|reflexivity|].
    split; [exact (f_equal fst H1)|rewrite H2; reflexivity].
Defined.
