(* ===== verification/WasmExecutor.v ===== *)
(** The tool executors: [internal/adapter/tool/wazero/executor.go], a pool of
    WebAssembly run times by memory size with a cache of compiled modules, and
    [internal/adapter/tool/mock/executor.go].

    The engine is third-party code, the class [WasmEngine]: it compiles bytes for a
    run time, makes an instance of a module under a configuration, and calls it
    with a deadline. *)

From stdpp Require Import base gmap strings list numbers fin_maps fin_sets relations.
From Stdlib Require Import Ascii.
From S2P Require Import GoPrelude Bytes Errors ChatModel ToolLoop.
Open Scope Z_scope.

Definition ErrModuleNotFound : error := EOther "wasm module not found".
Definition ErrModuleInstantiationFailed : error := EOther "module instantiation failed".
Definition ErrExecutionFailed : error := EOther "execution failed".
Definition ErrPoolExhausted : error := EOther "runtime pool exhausted".
Definition ErrInvalidLimits : error := EOther "resource limits not configured".

Definition MinTimeoutMs : Z := 1.
Definition MaxTimeoutMs : Z := 300000.
Definition MaxRuntimesPerBucket : nat := 2.
Definition MemoryBuckets : list Z := [256; 512; 1024; 2048].

(** ** Memory and time *)

Definition round_to_bucket (memPages : Z) : Z :=
  match List.find (fun bucket => memPages <=? bucket) MemoryBuckets with Some b => b | None => 2048 end.

(** [EffectiveMemoryPages] of the configuration; nothing calls it. *)
Definition EffectiveMemoryPages (tc : ToolConfig) (t : ToolModuleConfig) : Z :=
  if tm_MemoryPages t >? 0 then tm_MemoryPages t
  else if tcfg_DefaultMemoryPages tc >? 0 then tcfg_DefaultMemoryPages tc else 512.

Definition getMemoryBucket (cfg : ToolConfig) (tc : ToolModuleConfig) : Z :=
  let memPages := tm_MemoryPages tc in
  let memPages := if memPages =? 0 then tcfg_DefaultMemoryPages cfg else memPages in
  round_to_bucket (if memPages =? 0 then 512 else memPages).

(** The limit is a [uint64], read as an [int64]. *)
Definition getExecutionTimeout (cfg : ToolConfig) (validatedTool : option ValidatedTool) : Z :=
  match validatedTool with
  | None => 0
  | Some vt =>
      if vt_ExecutionTimeoutMs vt =? 0 then 0
      else
        let timeoutMs := int64_wrap (vt_ExecutionTimeoutMs vt) in
        let timeoutMs := if (tcfg_DefaultTimeoutMs cfg >? 0) && (timeoutMs >? tcfg_DefaultTimeoutMs cfg)
                         then tcfg_DefaultTimeoutMs cfg else timeoutMs in
        let timeoutMs := if timeoutMs <? MinTimeoutMs then MinTimeoutMs else timeoutMs in
        if timeoutMs >? MaxTimeoutMs then MaxTimeoutMs else timeoutMs
  end.

Definition getMemoryBucketFromValidated (cfg : ToolConfig) (validatedTool : option ValidatedTool) : Z :=
  match validatedTool with
  | None => 0
  | Some vt =>
      if vt_MemoryPages vt =? 0 then 0
      else
        let memPages := vt_MemoryPages vt in
        round_to_bucket (if (tcfg_DefaultMemoryPages cfg >? 0) && (memPages >? tcfg_DefaultMemoryPages cfg)
                         then tcfg_DefaultMemoryPages cfg else memPages)
  end.

(** ** The context *)

(** The context of an execution carries at most one validated tool. *)
Definition getValidatedToolFromContext (ctx : option ValidatedTool) (toolName : string) : option ValidatedTool :=
  match ctx with
  | Some vt => if bool_decide (vt_Name vt = toolName) then Some vt else None
  | None => None
  end.

(** ** Host paths *)

Definition clean_part (stack : list string) (part : string) : list string :=
  if bool_decide (part = "") || bool_decide (part = ".") then stack
  else if bool_decide (part = "..") then
    match stack with
    | top :: rest => if bool_decide (top = "..") then part :: stack else rest
    | [] => [part]
    end
  else part :: stack.

(** [filepath.Join(".", p)] for a relative [p]: the cleaned path. *)
Definition join_dot (p : string) : string :=
  match foldl clean_part [] (string_of_bytes <$> Split "/"%char (bytes_of_string p)) with
  | [] => "."
  | stack => join "/" (rev stack)
  end.

Definition IsAbs (p : string) : bool := match p with String c _ => Ascii.eqb c "/"%char | EmptyString => false end.

Definition host_path (p : string) : string := if IsAbs p then p else join_dot p.

(** ** Run times and the engine *)

(** A run time is created with the memory limit of its bucket; there are two of
    each, and their addresses are what tells them apart. *)
Record Runtime := mkRuntime { rt_bucket : Z; rt_index : nat }.

#[global] Instance Runtime_eq_dec : EqDecision Runtime.
Proof. solve_decision. Defined.
#[global] Program Instance Runtime_countable : Countable Runtime :=
  inj_countable' (fun r => (rt_bucket r, rt_index r)) (fun p => mkRuntime p.1 p.2) _.
Next Obligation. by intros []. Qed.

(** The builder calls a module configuration is made with, in order. *)
Inductive config_call :=
| WithName (name : string)
| WithSysNanotime
| WithSysNanosleep
| WithSysWalltime
| WithFSConfig (mounts : list (string * string)).   (* [WithDirMount(host, guest)] on a new FS configuration *)

Class WasmEngine (W : Type) := {
  wasm_module : Type;
  wasm_instance : Type;
  ReadFile : string -> W -> result error bytes;
  CompileModule : Runtime -> bytes -> result error wasm_module;
  (* the deadline, in milliseconds from the call *)
  InstantiateModule : Runtime -> Z -> wasm_module -> list config_call -> W -> W * result error wasm_instance;
  exports_execute : wasm_instance -> bool;
  Call_execute : Z -> wasm_instance -> W -> W * option error;
  Close_instance : wasm_instance -> W -> W;
}.

(** ** The executor *)

(** [inUse] is kept beside each run time; [lastUsed], which nothing reads, is not. *)
Record Pool := mkPool {
  pl_runtimes : list (Runtime * bool);
  pl_available : list Runtime;
  pl_closed : bool;
}.

Section Executor.
Context {W : Type} `{WasmEngine W}.

Record compiledModule := mkCompiledModule { cm_config : ToolModuleConfig; cm_mod : wasm_module }.

Record WasmExecutor := mkWasmExecutor {
  we_config : ToolConfig;
  we_cache : gmap (Z * string * Runtime) compiledModule;
  we_pools : gmap Z Pool;
  we_toolBuckets : gmap string Z;
}.

Definition set_pool (bucket : Z) (p : Pool) (ex : WasmExecutor) : WasmExecutor :=
  mkWasmExecutor (we_config ex) (we_cache ex) (<[bucket := p]> (we_pools ex)) (we_toolBuckets ex).

Definition set_cache (key : Z * string * Runtime) (cm : compiledModule) (ex : WasmExecutor) : WasmExecutor :=
  mkWasmExecutor (we_config ex) (<[key := cm]> (we_cache ex)) (we_pools ex) (we_toolBuckets ex).

Definition bucket_runtimes (bucket : Z) : list Runtime := mkRuntime bucket <$> seq 0 MaxRuntimesPerBucket.

Definition new_pool (bucket : Z) : Pool :=
  mkPool ((fun r => (r, false)) <$> bucket_runtimes bucket) (bucket_runtimes bucket) false.

Definition initial_pools : gmap Z Pool := list_to_map ((fun b => (b, new_pool b)) <$> MemoryBuckets).

(** The modules are only read here; they are compiled when first used. *)
Fixpoint register_tools (cfg : ToolConfig) (tools : list ToolModuleConfig) (w : W) (buckets : gmap string Z) : result error (gmap string Z) :=
  match tools with
  | [] => Ok buckets
  | tc :: tools =>
      match ReadFile (tm_ModulePath tc) w with
      | Err e => Err (EWrap ("read wasm module " +:+ tm_ModulePath tc) e)
      | Ok _ => register_tools cfg tools w (<[tm_Name tc := getMemoryBucket cfg tc]> buckets)
      end
  end.

Definition NewWasmExecutor (cfg : ToolConfig) (w : W) : result error WasmExecutor :=
  match register_tools cfg (tcfg_Tools cfg) w ∅ with
  | Err e => Err e
  | Ok buckets => Ok (mkWasmExecutor cfg ∅ initial_pools buckets)
  end.

Definition SupportsTool (name : string) (ex : WasmExecutor) : bool := bool_decide (is_Some (we_toolBuckets ex !! name)).

Definition find_tool (cfg : ToolConfig) (name : string) : option ToolModuleConfig :=
  List.find (fun tc => bool_decide (tm_Name tc = name)) (tcfg_Tools cfg).

(** Under the cache's lock once the first look-up missed. *)
Definition getOrCompileModule (runtime : Runtime) (toolName : string) (bucket : Z) (w : W) (ex : WasmExecutor)
    : WasmExecutor * result error compiledModule :=
  let key := (bucket, toolName, runtime) in
  match we_cache ex !! key with
  | Some cached => (ex, Ok cached)
  | None =>
      match find_tool (we_config ex) toolName with
      | None => (ex, Err ErrModuleNotFound)
      | Some tc =>
          match ReadFile (tm_ModulePath tc) w with
          | Err e => (ex, Err (EWrap ("read wasm module " +:+ tm_ModulePath tc) e))
          | Ok wasmBytes =>
              match CompileModule runtime wasmBytes with
              | Err e => (ex, Err (EWrap ("compile wasm module " +:+ tm_ModulePath tc) e))
              | Ok compiled => (set_cache key (mkCompiledModule tc compiled) ex, Ok (mkCompiledModule tc compiled))
              end
          end
      end
  end.

(** The case the [select] of [acquireRuntime] takes. *)
Inductive acquire_case := Available | CtxDone (e : error) | TimedOut.

Inductive acquired := Acquired (runtime : Runtime) | NotAcquired (e : error) | AcquirePanics.

Definition mark_in_use (b : bool) (runtime : Runtime) (l : list (Runtime * bool)) : list (Runtime * bool) :=
  (fun '(r, u) => if bool_decide (r = runtime) then (r, b) else (r, u)) <$> l.

(** [None]: the case is not ready. A closed and empty channel gives a nil run time,
    whose lock is then taken. *)
Definition acquireRuntime (bucket : Z) (how : acquire_case) (ex : WasmExecutor) : option (WasmExecutor * acquired) :=
  match we_pools ex !! bucket with
  | None => Some (ex, NotAcquired (EOther "no runtime pool for bucket"))
  | Some pool =>
      match how with
      | CtxDone e => Some (ex, NotAcquired e)
      | TimedOut => Some (ex, NotAcquired ErrPoolExhausted)
      | Available =>
          match pl_available pool with
          | runtime :: rest =>
              Some (set_pool bucket (mkPool (mark_in_use true runtime (pl_runtimes pool)) rest (pl_closed pool)) ex, Acquired runtime)
          | [] => if pl_closed pool then Some (ex, AcquirePanics) else None
          end
      end
  end.

(** [None]: a send on the closed channel panics. *)
Definition releaseRuntime (bucket : Z) (runtime : Runtime) (ex : WasmExecutor) : option WasmExecutor :=
  match we_pools ex !! bucket with
  | None => Some ex
  | Some pool =>
      if bool_decide (runtime ∈ (pl_runtimes pool).*1) then
        if pl_closed pool then None
        else
          let room := (length (pl_available pool) <? MaxRuntimesPerBucket)%nat in
          Some (set_pool bucket (mkPool (mark_in_use false runtime (pl_runtimes pool))
                                   (if room then pl_available pool ++ [runtime] else pl_available pool) false) ex)
      else Some ex
  end.

(** [Close]: the run times are closed, and the channels. *)
Definition Close (ex : WasmExecutor) : WasmExecutor :=
  mkWasmExecutor (we_config ex) (we_cache ex)
    ((fun p => mkPool (pl_runtimes p) (pl_available p) true) <$> we_pools ex) (we_toolBuckets ex).

(** *** One execution *)

Record Limits := mkLimits { lm_config : ToolModuleConfig; lm_timeoutMs : Z; lm_bucket : Z }.

Definition failed (call : ExecCall) (elapsed : Z) (text : string) (e : error) : ToolResult * option error :=
  (mkToolResult (ec_ID call) None text elapsed, Some e).

(** Steps 1 and 2: the tool and its limits, or the refusal. *)
Definition resolve_limits (ctx : option ValidatedTool) (call : ExecCall) (elapsed : Z) (ex : WasmExecutor)
    : (ToolResult * option error) + Limits :=
  let not_found := inl (failed call elapsed (Error ErrToolNotFound) ErrToolNotFound) in
  if negb (SupportsTool (ec_Name call) ex) then not_found
  else match find_tool (we_config ex) (ec_Name call) with
  | None => not_found
  | Some tc =>
      let validatedTool := getValidatedToolFromContext ctx (ec_Name call) in
      let timeoutMs := getExecutionTimeout (we_config ex) validatedTool in
      let bucket := getMemoryBucketFromValidated (we_config ex) validatedTool in
      if (timeoutMs <=? 0) || (bucket =? 0)
      then inl (failed call elapsed (Error ErrInvalidLimits) ErrToolResourceExhausted)
      else inr (mkLimits tc timeoutMs bucket)
  end.

Definition module_config (tc : ToolModuleConfig) : list config_call :=
  [WithName (tm_Name tc); WithSysNanotime; WithSysNanosleep] ++
  ((fun '(guest, host) => WithFSConfig [(host_path host, guest)]) <$> tm_FSReadOnlyMounts tc) ++
  (if tm_AllowNetwork tc then [WithSysNanosleep; WithSysWalltime] else []).

(** Instantiation, the call and the deferred close. *)
Definition run_module (call : ExecCall) (elapsed : Z) (lim : Limits) (runtime : Runtime) (cm : compiledModule) (w : W)
    : W * (ToolResult * option error) :=
  match InstantiateModule runtime (lm_timeoutMs lim) (cm_mod cm) (module_config (lm_config lim)) w with
  | (w, Err e) => (w, failed call elapsed ("module instantiation failed: " +:+ Error e) ErrModuleInstantiationFailed)
  | (w, Ok inst) =>
      if negb (exports_execute inst)
      then (Close_instance inst w, failed call elapsed "execute function not exported" ErrExecutionFailed)
      else
        let '(w, callErr) := Call_execute (lm_timeoutMs lim) inst w in
        (Close_instance inst w,
         match callErr with
         | Some e => failed call elapsed ("execution failed: " +:+ Error e) ErrExecutionFailed
         | None => (mkToolResult (ec_ID call) (Some [("status", JString "ok")]) "" elapsed, None)
         end)
  end.

(** The compilation and the run of a held run time. *)
Definition with_runtime (call : ExecCall) (elapsed : Z) (lim : Limits) (runtime : Runtime) (w : W) (ex : WasmExecutor)
    : WasmExecutor * W * (ToolResult * option error) :=
  match getOrCompileModule runtime (ec_Name call) (lm_bucket lim) w ex with
  | (ex, Err e) => (ex, w, failed call elapsed ("module compilation failed: " +:+ Error e) ErrModuleInstantiationFailed)
  | (ex, Ok cm) => let '(w, res) := run_module call elapsed lim runtime cm w in (ex, w, res)
  end.

(** [None]: it waits for a run time, or panics. *)
Definition Execute (ctx : option ValidatedTool) (call : ExecCall) (how : acquire_case) (elapsed : Z) (ex : WasmExecutor) (w : W)
    : option (WasmExecutor * W * (ToolResult * option error)) :=
  match resolve_limits ctx call elapsed ex with
  | inl refusal => Some (ex, w, refusal)
  | inr lim =>
      match acquireRuntime (lm_bucket lim) how ex with
      | None => None
      | Some (_, AcquirePanics) => None
      | Some (ex, NotAcquired e) =>
          Some (ex, w, failed call elapsed ("runtime pool exhausted: " +:+ Error e) ErrToolResourceExhausted)
      | Some (ex, Acquired runtime) =>
          let '(ex, w, res) := with_runtime call elapsed lim runtime w ex in
          (fun ex => (ex, w, res)) <$> releaseRuntime (lm_bucket lim) runtime ex
      end
  end.
End Executor.
Arguments compiledModule W {_}.
Arguments WasmExecutor W {_}.

(** ** Executions side by side *)

Section Concurrent.
Context {W : Type} `{WasmEngine W}.

Inductive run_pc :=
| XStart
| XWaiting (lim : Limits)
| XHeld (lim : Limits) (runtime : Runtime)
| XReady (lim : Limits) (runtime : Runtime) (cm : compiledModule W)
| XReleasing (bucket : Z) (runtime : Runtime) (res : ToolResult * option error)
| XDone (res : ToolResult * option error).

Record Run := mkRun { rn_ctx : option ValidatedTool; rn_call : ExecCall; rn_pc : run_pc }.
Definition run_at (r : Run) (pc : run_pc) : Run := mkRun (rn_ctx r) (rn_call r) pc.

Record ExecSys := mkExecSys { xs_ex : WasmExecutor W; xs_world : W; xs_runs : gmap nat Run }.

(** One step of an execution. *)
Inductive run_step (ex : WasmExecutor W) (w : W) (r : Run) : WasmExecutor W -> W -> Run -> Prop :=
| run_refused elapsed res : rn_pc r = XStart -> resolve_limits (rn_ctx r) (rn_call r) elapsed ex = inl res ->
    run_step ex w r ex w (run_at r (XDone res))
| run_resolved elapsed lim : rn_pc r = XStart -> resolve_limits (rn_ctx r) (rn_call r) elapsed ex = inr lim ->
    run_step ex w r ex w (run_at r (XWaiting lim))
| run_acquired lim how ex' runtime : rn_pc r = XWaiting lim -> acquireRuntime (lm_bucket lim) how ex = Some (ex', Acquired runtime) ->
    run_step ex w r ex' w (run_at r (XHeld lim runtime))
| run_gives_up lim how ex' e elapsed : rn_pc r = XWaiting lim -> acquireRuntime (lm_bucket lim) how ex = Some (ex', NotAcquired e) ->
    run_step ex w r ex' w (run_at r (XDone (failed (rn_call r) elapsed ("runtime pool exhausted: " +:+ Error e) ErrToolResourceExhausted)))
| run_compiled lim runtime ex' cm : rn_pc r = XHeld lim runtime ->
    getOrCompileModule runtime (ec_Name (rn_call r)) (lm_bucket lim) w ex = (ex', Ok cm) ->
    run_step ex w r ex' w (run_at r (XReady lim runtime cm))
| run_not_compiled lim runtime ex' e elapsed : rn_pc r = XHeld lim runtime ->
    getOrCompileModule runtime (ec_Name (rn_call r)) (lm_bucket lim) w ex = (ex', Err e) ->
    run_step ex w r ex' w (run_at r (XReleasing (lm_bucket lim) runtime
      (failed (rn_call r) elapsed ("module compilation failed: " +:+ Error e) ErrModuleInstantiationFailed)))
| run_called lim runtime cm w' res elapsed : rn_pc r = XReady lim runtime cm ->
    run_module (rn_call r) elapsed lim runtime cm w = (w', res) ->
    run_step ex w r ex w' (run_at r (XReleasing (lm_bucket lim) runtime res))
| run_released bucket runtime res ex' : rn_pc r = XReleasing bucket runtime res -> releaseRuntime bucket runtime ex = Some ex' ->
    run_step ex w r ex' w (run_at r (XDone res)).

(** The outside world moves on its own. *)
Inductive exec_step (s : ExecSys) : ExecSys -> Prop :=
| exec_spawn n ctx call : xs_runs s !! n = None ->
    exec_step s (mkExecSys (xs_ex s) (xs_world s) (<[n := mkRun ctx call XStart]> (xs_runs s)))
| exec_run n r ex' w' r' : xs_runs s !! n = Some r -> run_step (xs_ex s) (xs_world s) r ex' w' r' ->
    exec_step s (mkExecSys ex' w' (<[n := r']> (xs_runs s)))
| exec_world w' : exec_step s (mkExecSys (xs_ex s) w' (xs_runs s)).

(** The run time an execution holds, and the bucket it took it from. *)
Definition run_holds (r : Run) : option (Z * Runtime) :=
  match rn_pc r with
  | XHeld lim runtime | XReady lim runtime _ => Some (lm_bucket lim, runtime)
  | XReleasing bucket runtime _ => Some (bucket, runtime)
  | _ => None
  end.

Definition holds (runs : gmap nat Run) (n : nat) (b : Z) (runtime : Runtime) : Prop :=
  exists r, runs !! n = Some r /\ run_holds r = Some (b, runtime).

(** ** Invariant *)

Record pool_ok (runs : gmap nat Run) (b : Z) (p : Pool) : Prop := mkPoolOk {
  po_open : pl_closed p = false;
  po_runtimes : (pl_runtimes p).*1 = bucket_runtimes b;
  po_nodup : NoDup (pl_available p);
  po_own : forall rt, rt ∈ pl_available p -> rt ∈ bucket_runtimes b;
  po_none_lost : forall rt, rt ∈ bucket_runtimes b -> rt ∈ pl_available p \/ exists n, holds runs n b rt;
  po_not_held : forall rt n, rt ∈ pl_available p -> ~ holds runs n b rt;
}.

Definition cache_entry_ok (cfg : ToolConfig) (key : Z * string * Runtime) (cm : compiledModule W) : Prop :=
  let '(b, name, rt) := key in
  find_tool cfg name = Some (cm_config cm) /\ exists wasmBytes, CompileModule rt wasmBytes = Ok (cm_mod cm).

Definition run_ready (ex : WasmExecutor W) (r : Run) : Prop :=
  match rn_pc r with
  | XReady lim rt cm => we_cache ex !! (lm_bucket lim, ec_Name (rn_call r), rt) = Some cm
  | _ => True
  end.

Record exec_ok (cfg : ToolConfig) (s : ExecSys) : Prop := mkExecOk {
  eo_config : we_config (xs_ex s) = cfg;
  eo_dom : forall b, b ∈ MemoryBuckets -> is_Some (we_pools (xs_ex s) !! b);
  eo_pools : forall b p, we_pools (xs_ex s) !! b = Some p -> pool_ok (xs_runs s) b p;
  eo_held : forall n b rt, holds (xs_runs s) n b rt -> rt ∈ bucket_runtimes b /\ is_Some (we_pools (xs_ex s) !! b);
  eo_exclusive : forall n1 n2 b rt, holds (xs_runs s) n1 b rt -> holds (xs_runs s) n2 b rt -> n1 = n2;
  eo_cache : forall key cm, we_cache (xs_ex s) !! key = Some cm -> cache_entry_ok cfg key cm;
  eo_ready : forall n r, xs_runs s !! n = Some r -> run_ready (xs_ex s) r;
}.
End Concurrent.
Arguments Run W {_}.
Arguments ExecSys W {_}.

Section Invariance.
Context {W : Type} `{WasmEngine W}.
Implicit Types (ex : WasmExecutor W) (runs : gmap nat (Run W)) (r : Run W).

Lemma holds_insert runs n r m b rt :
  holds (<[n := r]> runs) m b rt <-> (m = n /\ run_holds r = Some (b, rt)) \/ (m <> n /\ holds runs m b rt).
Proof.
  unfold holds. destruct (decide (m = n)) as [->|Hn].
  - rewrite lookup_insert_eq. naive_solver.
  - rewrite lookup_insert_ne by done. naive_solver.
Qed.

Lemma holds_same runs n r r' m b rt :
  runs !! n = Some r -> run_holds r' = run_holds r -> holds (<[n := r']> runs) m b rt <-> holds runs m b rt.
Proof.
  intros Hn Hr. rewrite holds_insert, Hr. unfold holds. destruct (decide (m = n)) as [->|]; naive_solver.
Qed.

Lemma holds_idle runs n r b rt : runs !! n = Some r -> run_holds r = None -> ~ holds runs n b rt.
Proof. intros Hn Hr (r' & Hn' & Hr'). congruence. Qed.

Lemma pool_ok_equiv runs runs' b p :
  (forall n rt, holds runs' n b rt <-> holds runs n b rt) -> pool_ok runs b p -> pool_ok runs' b p.
Proof. intros He [H1 H2 H3 H4 H5 H6]. split; try done; [intros rt Hrt; destruct (H5 rt Hrt)|intros rt n Hrt]; naive_solver. Qed.

Lemma mark_in_use_fst u rt l : (mark_in_use u rt l).*1 = l.*1.
Proof. unfold mark_in_use. induction l as [|[r v] l IH]; cbn; [done|]. rewrite IH. by case_bool_decide; subst. Qed.

Lemma pool_room runs b p n rt :
  pool_ok runs b p -> holds runs n b rt -> rt ∈ bucket_runtimes b -> (length (pl_available p) < MaxRuntimesPerBucket)%nat.
Proof.
  intros Hp Hn Hrt. assert (NoDup (rt :: pl_available p)) as Hnd.
  { apply NoDup_cons. split; [|apply (po_nodup _ _ _ Hp)]. intros Hin. by eapply (po_not_held _ _ _ Hp). }
  assert (rt :: pl_available p ⊆+ bucket_runtimes b) as Hsub.
  { apply NoDup_submseteq; [done|]. intros x [->|Hx]%elem_of_cons; [done|]. by apply (po_own _ _ _ Hp). }
  apply submseteq_length in Hsub. unfold bucket_runtimes in Hsub. rewrite length_fmap, length_seq in Hsub. cbn [length] in Hsub. lia.
Qed.

Lemma pool_acquire runs b p rt rest n r r' :
  pool_ok runs b p -> pl_available p = rt :: rest -> runs !! n = Some r -> run_holds r = None -> run_holds r' = Some (b, rt) ->
  pool_ok (<[n := r']> runs) b (mkPool (mark_in_use true rt (pl_runtimes p)) rest (pl_closed p)).
Proof.
  intros [H1 H2 H3 H4 H5 H6] Ha Hn Hr Hr'. rewrite Ha in *. apply NoDup_cons in H3 as [Hnin H3]. split; cbn.
  - done.
  - by rewrite mark_in_use_fst.
  - done.
  - intros x Hx. apply H4. by right.
  - intros x Hx. destruct (H5 x Hx) as [[->|Hin]%elem_of_cons|[m Hm]]; [right; exists n; apply holds_insert; auto|by left|].
    right. exists m. apply holds_insert. right. split; [|done]. intros ->. by eapply holds_idle.
  - intros x m Hx. rewrite holds_insert. intros [[-> E]|[_ Hm]]; [rewrite E in Hr'; by injection Hr' as ->|]. eapply H6; [by right|done].
Qed.

Lemma pool_release runs b p rt n r r' :
  pool_ok runs b p -> runs !! n = Some r -> run_holds r = Some (b, rt) -> run_holds r' = None -> rt ∈ bucket_runtimes b ->
  (forall m, holds runs m b rt -> m = n) ->
  pool_ok (<[n := r']> runs) b (mkPool (mark_in_use false rt (pl_runtimes p)) (pl_available p ++ [rt]) false).
Proof.
  intros [H1 H2 H3 H4 H5 H6] Hn Hr Hr' Hrt Huniq. assert (holds runs n b rt) as Hh by (by exists r).
  assert (forall m x, holds (<[n := r']> runs) m b x -> m <> n /\ holds runs m b x) as Hrev.
  { intros m x. rewrite holds_insert, Hr'. naive_solver. }
  split; cbn.
  - done.
  - by rewrite mark_in_use_fst.
  - apply NoDup_app. split; [done|]. split; [|apply NoDup_singleton]. intros x Hx ->%list_elem_of_singleton. by eapply H6.
  - intros x [Hx| ->%list_elem_of_singleton]%elem_of_app; [by apply H4|done].
  - intros x Hx. destruct (decide (x = rt)) as [->|Hne]; [left; apply elem_of_app; right; by apply list_elem_of_singleton|].
    destruct (H5 x Hx) as [Hin|[m Hm]]; [left; apply elem_of_app; by left|]. right. exists m. apply holds_insert. right. split; [|done].
    intros ->. destruct Hm as (r0 & E1 & E2). congruence.
  - intros x m [Hx| ->%list_elem_of_singleton]%elem_of_app [Hne Hm]%Hrev; [by eapply H6|]. by apply Hne, Huniq.
Qed.

Lemma acquire_ok bucket how ex ex' rt :
  acquireRuntime bucket how ex = Some (ex', Acquired rt) ->
  exists p rest, we_pools ex !! bucket = Some p /\ pl_available p = rt :: rest /\
    ex' = set_pool bucket (mkPool (mark_in_use true rt (pl_runtimes p)) rest (pl_closed p)) ex.
Proof.
  unfold acquireRuntime. destruct (we_pools ex !! bucket) as [p|]; [|done]. destruct how; [|done..].
  destruct (pl_available p) as [|rt' rest] eqn:Ea; [by destruct (pl_closed p)|]. intros [= <- <-]. eauto.
Qed.

Lemma not_acquired_same bucket how ex ex' e : acquireRuntime bucket how ex = Some (ex', NotAcquired e) -> ex' = ex.
Proof.
  unfold acquireRuntime. destruct (we_pools ex !! bucket) as [p|]; [|congruence]. destruct how; [|congruence..].
  destruct (pl_available p); [by destruct (pl_closed p)|done].
Qed.

Lemma release_ok runs n r b rt ex p :
  we_pools ex !! b = Some p -> pool_ok runs b p -> runs !! n = Some r -> run_holds r = Some (b, rt) -> rt ∈ bucket_runtimes b ->
  releaseRuntime b rt ex = Some (set_pool b (mkPool (mark_in_use false rt (pl_runtimes p)) (pl_available p ++ [rt]) false) ex).
Proof.
  intros Hp Hok Hn Hr Hrt. unfold releaseRuntime. rewrite Hp, (po_runtimes _ _ _ Hok), bool_decide_eq_true_2, (po_open _ _ _ Hok) by done.
  assert (length (pl_available p) < MaxRuntimesPerBucket)%nat as Hl by (eapply (pool_room runs b p n rt); [done|by exists r|done]).
  apply Nat.ltb_lt in Hl. by rewrite Hl.
Qed.

Lemma compile_ok cfg rt name b w ex ex' res :
  we_config ex = cfg -> getOrCompileModule rt name b w ex = (ex', res) ->
  (ex' = ex /\ forall cm, res = Ok cm -> we_cache ex !! (b, name, rt) = Some cm) \/
  exists cm, res = Ok cm /\ ex' = set_cache (b, name, rt) cm ex /\ we_cache ex !! (b, name, rt) = None /\ cache_entry_ok cfg (b, name, rt) cm.
Proof.
  intros Hc. unfold getOrCompileModule. destruct (we_cache ex !! _) as [cm|] eqn:E; [intros [= <- <-]; left; naive_solver|].
  rewrite Hc. destruct (find_tool cfg name) as [tc|] eqn:Ef; [|intros [= <- <-]; by left].
  destruct (ReadFile _ _) as [wasmBytes|]; [|intros [= <- <-]; by left].
  destruct (CompileModule rt wasmBytes) as [compiled|] eqn:Ec; [|intros [= <- <-]; by left].
  intros [= <- <-]. right. eexists. split_and!; try done. cbn. eauto.
Qed.
End Invariance.

Section Reachable.
Context {W : Type} `{WasmEngine W} (cfg : ToolConfig).
Implicit Types (ex : WasmExecutor W) (runs : gmap nat (Run W)) (r : Run W) (s : ExecSys W).

Lemma keep_pools s ex' w' runs' :
  exec_ok cfg s -> (forall n b rt, holds runs' n b rt <-> holds (xs_runs s) n b rt) ->
  we_config ex' = we_config (xs_ex s) -> we_pools ex' = we_pools (xs_ex s) ->
  (forall key cm, we_cache ex' !! key = Some cm -> cache_entry_ok cfg key cm) ->
  (forall n r, runs' !! n = Some r -> run_ready ex' r) -> exec_ok cfg (mkExecSys ex' w' runs').
Proof.
  intros [H1 Hd H2 H3 H4 H5 H6] He Hc Hp Hcache Hready. split; cbn; try done.
  - by rewrite Hc.
  - by rewrite Hp.
  - intros b p Hb. rewrite Hp in Hb. eapply pool_ok_equiv; [|by apply H2]. intros; by apply He.
  - intros n b rt Hn. rewrite Hp. by eapply H3, He.
  - intros n1 n2 b rt Ha Hb. eapply H4; by apply He.
Qed.

Lemma ready_insert ex n r runs :
  (forall m x, runs !! m = Some x -> run_ready ex x) -> run_ready ex r -> forall m x, <[n := r]> runs !! m = Some x -> run_ready ex x.
Proof. intros Hr Hn m x. rewrite lookup_insert_Some. naive_solver. Qed.

(** A run's step that neither takes nor gives a run time. *)
Lemma keep_run s n r r' ex' w' :
  exec_ok cfg s -> xs_runs s !! n = Some r -> run_holds r' = run_holds r ->
  we_config ex' = we_config (xs_ex s) -> we_pools ex' = we_pools (xs_ex s) ->
  (forall key cm, we_cache ex' !! key = Some cm -> cache_entry_ok cfg key cm) ->
  (forall m x, xs_runs s !! m = Some x -> run_ready ex' x) -> run_ready ex' r' ->
  exec_ok cfg (mkExecSys ex' w' (<[n := r']> (xs_runs s))).
Proof.
  intros Hok Hn Hr Hc Hp Hcache Hready Hr'. apply (keep_pools s); try done; [intros; by eapply holds_same|by apply ready_insert].
Qed.

(** A step that changes one pool and what one run holds of it. *)
Lemma change_pool s n r r' b p' w' :
  exec_ok cfg s -> xs_runs s !! n = Some r ->
  (forall b' rt', b' <> b -> holds (xs_runs s) n b' rt' <-> run_holds r' = Some (b', rt')) ->
  pool_ok (<[n := r']> (xs_runs s)) b p' -> is_Some (we_pools (xs_ex s) !! b) -> run_ready (xs_ex s) r' ->
  (forall rt, run_holds r' = Some (b, rt) -> rt ∈ bucket_runtimes b /\ forall m, m <> n -> ~ holds (xs_runs s) m b rt) ->
  exec_ok cfg (mkExecSys (set_pool b p' (xs_ex s)) w' (<[n := r']> (xs_runs s))).
Proof.
  intros [H1 Hd H2 H3 H4 H5 H6] Hn Hother Hp' Hb Hready Hnew.
  assert (forall b', is_Some (we_pools (xs_ex s) !! b') -> is_Some (<[b := p']> (we_pools (xs_ex s)) !! b')) as Hmono.
  { intros b' Hb'. destruct (decide (b = b')) as [->|]; [rewrite lookup_insert_eq; eauto|by rewrite lookup_insert_ne]. }
  assert (forall m b' rt, b' <> b -> holds (<[n := r']> (xs_runs s)) m b' rt <-> holds (xs_runs s) m b' rt) as Hsame.
  { intros m b' rt Hbb. rewrite holds_insert. destruct (decide (m = n)) as [->|]; [|naive_solver]. specialize (Hother b' rt Hbb). naive_solver. }
  split; cbn [xs_ex xs_runs set_pool we_config we_pools we_cache].
  - done.
  - intros b' Hb'. by apply Hmono, Hd.
  - intros b' p. rewrite lookup_insert_Some. intros [[<- <-]|[Hne Hp]]; [done|]. eapply pool_ok_equiv; [|by apply H2].
    intros m rt. by apply Hsame.
  - intros m b' rt Hm. destruct (decide (b' = b)) as [->|Hne].
    + apply holds_insert in Hm as [[-> Hr]|[_ Hm]]; [split; [by apply Hnew|by apply Hmono]|]. destruct (H3 m b rt Hm). auto.
    + apply Hsame in Hm; [|done]. destruct (H3 m b' rt Hm). auto.
  - intros n1 n2 b' rt Ha Hb'. destruct (decide (b' = b)) as [->|Hne]; [|apply Hsame in Ha, Hb'; [by eapply H4|done..]].
    apply holds_insert in Ha as [[-> Ha]|[Hn1 Ha]]; apply holds_insert in Hb' as [[-> Hb']|[Hn2 Hb']]; [done| | |by eapply H4].
    + exfalso. by apply (proj2 (Hnew rt Ha) n2).
    + exfalso. by apply (proj2 (Hnew rt Hb') n1).
  - done.
  - apply ready_insert; [|done]. intros m x Hm. specialize (H6 m x Hm). done.
Qed.

Lemma run_step_ok s n r ex' w' r' :
  exec_ok cfg s -> xs_runs s !! n = Some r -> run_step (xs_ex s) (xs_world s) r ex' w' r' ->
  exec_ok cfg (mkExecSys ex' w' (<[n := r']> (xs_runs s))).
Proof.
  intros Hok Hn Hs. pose proof Hok as [H1 Hd H2 H3 H4 H5 H6].
  destruct Hs as [elapsed res Hp _|elapsed lim Hp _|lim how ex' rt Hp Ha|lim how ex' e elapsed Hp Ha|lim rt ex' cm Hp Hc|lim rt ex' e elapsed Hp Hc
                 |lim rt cm w' res elapsed Hp Hm|b rt res ex' Hp Hrel].
  1, 2: eapply keep_run; try done; unfold run_holds; by rewrite Hp.
  - apply acquire_ok in Ha as (p & rest & Hpool & Hav & ->). pose proof (H2 _ _ Hpool) as Hpok.
    assert (run_holds r = None) as Hr by (unfold run_holds; by rewrite Hp).
    assert (rt ∈ pl_available p) as Hin by (rewrite Hav; by left).
    eapply change_pool; try done.
    + intros b' rt' Hb'. split; [intros Hh; by eapply holds_idle in Hh|]. cbn. congruence.
    + by eapply pool_acquire.
    + intros rt' [= <-]. split; [by apply (po_own _ _ _ Hpok)|]. intros m _. by apply (po_not_held _ _ _ Hpok).
  - apply not_acquired_same in Ha as ->. eapply keep_run; try done; unfold run_holds; by rewrite Hp.
  - apply (compile_ok cfg) in Hc as [[-> Hc]|(cm' & [= <-] & -> & Hnone & Hcm)]; [| |done].
    + eapply keep_run; try done; [unfold run_holds; by rewrite Hp|]. by apply Hc.
    + eapply keep_run; try done; [unfold run_holds; by rewrite Hp| | |cbn; by rewrite lookup_insert_eq].
      * intros key cm0. cbn. rewrite lookup_insert_Some. intros [[<- <-]|[_ Hk]]; [done|by apply H5].
      * intros m x Hm. specialize (H6 m x Hm). unfold run_ready in *. destruct (rn_pc x); try done. cbn.
        rewrite lookup_insert_ne; [done|]. intros E. rewrite <- E in H6. congruence.
  - apply (compile_ok cfg) in Hc as [[-> _]|(cm' & [=] & _)]; [|done]. eapply keep_run; try done; unfold run_holds; by rewrite Hp.
  - eapply keep_run; try done; unfold run_holds; by rewrite Hp.
  - assert (run_holds r = Some (b, rt)) as Hr by (unfold run_holds; by rewrite Hp).
    assert (holds (xs_runs s) n b rt) as Hh by (by exists r). destruct (H3 n b rt Hh) as [Hrt [p Hpool]]. pose proof (H2 _ _ Hpool) as Hpok.
    rewrite (release_ok (xs_runs s) n r b rt (xs_ex s) p) in Hrel by done. injection Hrel as <-.
    eapply change_pool; try done.
    + intros b' rt' Hb'. cbn. split; [|done]. intros (r0 & E1 & E2). congruence.
    + eapply pool_release; try done. intros m Hm. by eapply H4.
Qed.

Lemma exec_step_ok s s' : exec_step s s' -> exec_ok cfg s -> exec_ok cfg s'.
Proof.
  intros Hs Hok. destruct Hs as [n ctx call Hn|n r ex' w' r' Hn Hstep|w'].
  - apply (keep_pools s); try done; [|apply (eo_cache _ _ Hok)|apply ready_insert; [apply (eo_ready _ _ Hok)|done]].
    intros m b rt. rewrite holds_insert. cbn. split; [naive_solver|]. intros Hm. right. split; [|done]. intros ->.
    destruct Hm as (r & E & _). congruence.
  - by eapply run_step_ok.
  - apply (keep_pools s); try done; [apply (eo_cache _ _ Hok)|apply (eo_ready _ _ Hok)].
Qed.

Lemma fresh_pool b : pool_ok (∅ : gmap nat (Run W)) b (new_pool b).
Proof.
  split; cbn [new_pool pl_closed pl_runtimes pl_available].
  - done.
  - rewrite <- list_fmap_compose. apply list_fmap_id.
  - unfold bucket_runtimes. apply NoDup_fmap_2; [by intros ? ? [= ->]|apply NoDup_seq].
  - done.
  - by left.
  - intros rt n _ (r & E & _). by rewrite lookup_empty in E.
Qed.

Lemma new_executor_ok w0 ex w : NewWasmExecutor cfg w0 = Ok ex -> exec_ok cfg (mkExecSys ex w ∅).
Proof.
  unfold NewWasmExecutor. destruct (register_tools _ _ _ _) as [buckets|]; [|done]. injection 1 as <-.
  split; cbn [xs_ex xs_runs we_config we_pools we_cache].
  - done.
  - intros b Hb. apply (bool_decide_eq_true_2 _) in Hb. revert Hb. unfold MemoryBuckets.
    rewrite bool_decide_eq_true, !elem_of_cons. intros [->|[->|[->|[->|[]%not_elem_of_nil]]]]; eexists; reflexivity.
  - intros b p Hp. unfold initial_pools in Hp. apply elem_of_list_to_map_2, list_elem_of_fmap in Hp as (b' & E & _). injection E as -> ->. apply fresh_pool.
  - intros n b rt (r & E & _). by rewrite lookup_empty in E.
  - intros n1 n2 b rt (r & E & _). by rewrite lookup_empty in E.
  - intros key cm E. by rewrite lookup_empty in E.
  - intros n r E. by rewrite lookup_empty in E.
Qed.

Lemma reachable_exec_ok w0 ex w s : NewWasmExecutor cfg w0 = Ok ex -> rtc exec_step (mkExecSys ex w ∅) s -> exec_ok cfg s.
Proof.
  intros Hex Hs. remember (mkExecSys ex w ∅) as s0 eqn:E0. assert (exec_ok cfg s0) as Hok by (subst; by eapply new_executor_ok).
  clear E0. induction Hs as [|s0 s1 s2 H1 _ IH]; [done|]. by apply IH, (exec_step_ok s0).
Qed.
End Reachable.

(** * What the executor promises *)

Section Promises.
Context {W : Type} `{WasmEngine W} (cfg : ToolConfig).

(** The run times held of a bucket, at most one to an execution. *)
Lemma holders_bounded (s : ExecSys W) b ns :
  exec_ok cfg s -> NoDup ns -> (forall n, n ∈ ns -> exists rt, holds (xs_runs s) n b rt) -> (length ns <= MaxRuntimesPerBucket)%nat.
Proof.
  intros Hok Hnd Hns.
  assert (exists rts, length rts = length ns /\ NoDup rts /\ forall rt, rt ∈ rts -> exists n, n ∈ ns /\ holds (xs_runs s) n b rt)
    as (rts & Hl & Hnd' & Hr).
  { induction Hnd as [|n ns Hn Hnd IH]; [exists []; split; [done|]; split; [apply NoDup_nil_2|]; by intros rt ?%elem_of_nil|]. destruct IH as (rts & Hl & Hnd' & Hr); [intros m Hm; apply Hns; by right|].
    destruct (Hns n ltac:(left)) as [rt Hrt]. exists (rt :: rts). split_and!; [cbn; lia| |].
    - apply NoDup_cons. split; [|done]. intros Hin. destruct (Hr rt Hin) as (m & Hm & Hh).
      by rewrite (eo_exclusive _ _ Hok n m b rt) in Hn.
    - intros x [->|Hx]%elem_of_cons; [exists n; split; [by left|done]|]. destruct (Hr x Hx) as (m & Hm & Hh). exists m. split; [by right|done]. }
  rewrite <- Hl. assert (rts ⊆+ bucket_runtimes b) as Hsub.
  { apply NoDup_submseteq; [done|]. intros rt Hrt. destruct (Hr rt Hrt) as (n & _ & Hh). by apply (eo_held _ _ Hok n). }
  apply submseteq_length in Hsub. unfold bucket_runtimes in Hsub. by rewrite length_fmap, length_seq in Hsub.
Qed.

(** C35: In every interleaving of executions, whatever happens outside, a run time
    is in one pool's queue or held by one execution and by no two, so at most two
    executions of a memory size run at once; an execution that ends puts its run
    time back and never drops it; and the module it calls was compiled by the very
    run time it holds, from the file configured for the tool. *)
Theorem runtimes_exclusive (w0 w : W) (ex : WasmExecutor W) (s : ExecSys W) :
  NewWasmExecutor cfg w0 = Ok ex -> rtc exec_step (mkExecSys ex w ∅) s ->
  (forall n1 n2 b rt, holds (xs_runs s) n1 b rt -> holds (xs_runs s) n2 b rt -> n1 = n2) /\
  (forall b, b ∈ MemoryBuckets -> exists p, we_pools (xs_ex s) !! b = Some p /\ NoDup (pl_available p) /\
     (forall rt, rt ∈ bucket_runtimes b <-> rt ∈ pl_available p \/ exists n, holds (xs_runs s) n b rt) /\
     (forall rt n, rt ∈ pl_available p -> ~ holds (xs_runs s) n b rt)) /\
  (forall b ns, NoDup ns -> (forall n, n ∈ ns -> exists rt, holds (xs_runs s) n b rt) -> (length ns <= MaxRuntimesPerBucket)%nat) /\
  (forall n r b rt res, xs_runs s !! n = Some r -> rn_pc r = XReleasing b rt res ->
     exists p p' ex', we_pools (xs_ex s) !! b = Some p /\ releaseRuntime b rt (xs_ex s) = Some ex' /\
       we_pools ex' !! b = Some p' /\ pl_available p' = pl_available p ++ [rt]) /\
  (forall n r lim rt cm, xs_runs s !! n = Some r -> rn_pc r = XReady lim rt cm ->
     rt ∈ bucket_runtimes (lm_bucket lim) /\ find_tool cfg (ec_Name (rn_call r)) = Some (cm_config cm) /\
     exists wasmBytes, CompileModule rt wasmBytes = Ok (cm_mod cm)).
Proof.
  intros Hex Hs. pose proof (reachable_exec_ok cfg w0 ex w s Hex Hs) as Hok. split_and!.
  - apply (eo_exclusive _ _ Hok).
  - intros b Hb. destruct (eo_dom _ _ Hok b Hb) as [p Hp]. exists p. pose proof (eo_pools _ _ Hok b p Hp) as Hpok.
    split; [done|]. split; [apply (po_nodup _ _ _ Hpok)|]. split; [|apply (po_not_held _ _ _ Hpok)]. intros rt. split; [apply (po_none_lost _ _ _ Hpok)|].
    intros [Hin|[n Hn]]; [by apply (po_own _ _ _ Hpok)|by apply (eo_held _ _ Hok n)].
  - intros b ns. by apply holders_bounded.
  - intros n r b rt res Hn Hp. assert (run_holds r = Some (b, rt)) as Hr by (unfold run_holds; by rewrite Hp).
    destruct (eo_held _ _ Hok n b rt) as [Hrt [p Hpool]]; [by exists r|]. pose proof (eo_pools _ _ Hok b p Hpool) as Hpok.
    exists p. do 2 eexists. split; [done|]. split; [by eapply (release_ok (xs_runs s) n r)|]. cbn. split; [apply lookup_insert_eq|done].
  - intros n r lim rt cm Hn Hp. split.
    + apply (eo_held _ _ Hok n). exists r. split; [done|]. unfold run_holds. by rewrite Hp.
    + pose proof (eo_ready _ _ Hok n r Hn) as Hc. unfold run_ready in Hc. rewrite Hp in Hc. by apply (eo_cache _ _ Hok) in Hc.
Qed.

(** ** One execution *)

(** Nobody holds a run time. *)
Definition idle (ex : WasmExecutor W) : Prop := forall w, exec_ok cfg (mkExecSys ex w ∅).

Lemma one_run_step ex w ctx call pc ex' w' pc' :
  run_step ex w (mkRun ctx call pc) ex' w' (mkRun ctx call pc') ->
  exec_step (mkExecSys ex w {[0%nat := mkRun ctx call pc]}) (mkExecSys ex' w' {[0%nat := mkRun ctx call pc']}).
Proof.
  intros Hs. pose proof (exec_run (mkExecSys ex w {[0%nat := mkRun ctx call pc]}) 0 _ _ _ _ (lookup_singleton_eq _ _) Hs) as E.
  cbn in E. by rewrite insert_singleton_eq in E.
Qed.

(** The sequential execution is a run of the steps. *)
Lemma executor_steps_sound ctx call how elapsed ex w ex' w' res :
  Execute ctx call how elapsed ex w = Some (ex', w', res) ->
  rtc exec_step (mkExecSys ex w ∅) (mkExecSys ex' w' {[0%nat := mkRun ctx call (XDone res)]}).
Proof.
  intros Hx. eapply rtc_l; [by apply (exec_spawn _ 0 ctx call)|]. cbn. rewrite insert_empty. unfold Execute in Hx.
  destruct (resolve_limits ctx call elapsed ex) as [refusal|lim] eqn:Hl.
  { injection Hx as <- <- <-. apply rtc_once, one_run_step. by eapply (run_refused _ _ (mkRun ctx call XStart)). }
  eapply rtc_l; [apply one_run_step; by eapply (run_resolved _ _ (mkRun ctx call XStart))|].
  destruct (acquireRuntime (lm_bucket lim) how ex) as [[ex1 [rt|e|]]|] eqn:Ha; try done.
  2: { injection Hx as <- <- <-. apply rtc_once, one_run_step. by eapply (run_gives_up _ _ (mkRun ctx call (XWaiting lim))). }
  eapply rtc_l; [apply one_run_step; by eapply (run_acquired _ _ (mkRun ctx call (XWaiting lim)))|].
  unfold with_runtime in Hx. destruct (getOrCompileModule rt (ec_Name call) (lm_bucket lim) w ex1) as [ex2 [cm|e]] eqn:Hc.
  - eapply rtc_l; [apply one_run_step; by eapply (run_compiled _ _ (mkRun ctx call (XHeld lim rt)))|].
    destruct (run_module call elapsed lim rt cm w) as [w1 res1] eqn:Hm. destruct (releaseRuntime _ _ _) as [ex3|] eqn:Hr; [|done].
    injection Hx as <- <- <-. eapply rtc_l; [apply one_run_step; by eapply (run_called _ _ (mkRun ctx call (XReady lim rt cm)))|].
    apply rtc_once, one_run_step. by eapply (run_released _ _ (mkRun ctx call (XReleasing (lm_bucket lim) rt res1))).
  - destruct (releaseRuntime _ _ _) as [ex3|] eqn:Hr; [|done]. injection Hx as <- <- <-.
    eapply rtc_l; [apply one_run_step; by eapply (run_not_compiled _ _ (mkRun ctx call (XHeld lim rt)))|].
    apply rtc_once, one_run_step. by eapply (run_released _ _ (mkRun ctx call (XReleasing (lm_bucket lim) rt _))).
Qed.

Lemma Execute_idle ctx call how elapsed ex w ex' w' res :
  idle ex -> Execute ctx call how elapsed ex w = Some (ex', w', res) -> idle ex'.
Proof.
  intros Hi Hx w2. apply executor_steps_sound in Hx.
  assert (exec_ok cfg (mkExecSys ex' w' {[0%nat := mkRun ctx call (XDone res)]})) as Hok.
  { specialize (Hi w). clear -Hi Hx. induction Hx as [|s0 s1 s2 H1 _ IH]; [done|]. by eapply IH, exec_step_ok. }
  eapply keep_pools; [exact Hok| |done|done|apply (eo_cache _ _ Hok)|].
  - intros n b rt. cbn. unfold holds. rewrite lookup_empty. split; [naive_solver|]. intros (r & [_ <-]%lookup_singleton_Some & E). done.
  - intros n r E. by rewrite lookup_empty in E.
Qed.

Lemma round_to_bucket_spec p :
  round_to_bucket p ∈ MemoryBuckets /\ (p <= 2048 -> p <= round_to_bucket p) /\
  forall b, b ∈ MemoryBuckets -> p <= b -> round_to_bucket p <= b.
Proof.
  assert (forall b, b ∈ MemoryBuckets <-> b = 256 \/ b = 512 \/ b = 1024 \/ b = 2048) as Hin
    by (intros b; unfold MemoryBuckets; rewrite !elem_of_cons, elem_of_nil; tauto).
  assert (round_to_bucket p = if p <=? 256 then 256 else if p <=? 512 then 512 else if p <=? 1024 then 1024 else 2048) as ->.
  { unfold round_to_bucket, MemoryBuckets. cbn. by repeat destruct (_ <=? _). }
  rewrite Hin. setoid_rewrite Hin. clear Hin.
  destruct (Z.leb_spec p 256); [|destruct (Z.leb_spec p 512); [|destruct (Z.leb_spec p 1024)]]; (split; [tauto|split; intros; lia]).
Qed.

(** What the registry and the configuration leave of a tool's memory. *)
Definition pages_allowed (vt : ValidatedTool) : Z :=
  if tcfg_DefaultMemoryPages cfg >? 0 then Z.min (vt_MemoryPages vt) (tcfg_DefaultMemoryPages cfg) else vt_MemoryPages vt.

Lemma bucket_of_pages vt : vt_MemoryPages vt <> 0 ->
  getMemoryBucketFromValidated cfg (Some vt) = round_to_bucket (pages_allowed vt).
Proof.
  intros Hne. unfold getMemoryBucketFromValidated, pages_allowed. apply Z.eqb_neq in Hne. rewrite Hne. f_equal.
  destruct (_ >? 0); cbn [andb]; [|done]. destruct (_ >? _) eqn:E; lia.
Qed.

(** Limits are resolved only from the validated tool of the call's context. *)
Lemma resolved_limits ctx call elapsed ex lim :
  we_config ex = cfg -> resolve_limits ctx call elapsed ex = inr lim ->
  exists vt, ctx = Some vt /\ vt_Name vt = ec_Name call /\ vt_ExecutionTimeoutMs vt <> 0 /\ vt_MemoryPages vt <> 0 /\
    find_tool cfg (ec_Name call) = Some (lm_config lim) /\
    lm_timeoutMs lim = getExecutionTimeout cfg (Some vt) /\ lm_bucket lim = round_to_bucket (pages_allowed vt).
Proof.
  intros Hc. unfold resolve_limits. rewrite Hc. destruct (negb _); [done|]. destruct (find_tool cfg (ec_Name call)) as [tc|]; [|done].
  unfold getValidatedToolFromContext. destruct ctx as [vt|]; [|done]. case_bool_decide as Hn; [|done].
  destruct (_ || _) eqn:E; [done|]. intros [= <-]. apply orb_false_iff in E as [E1 E2]. exists vt. cbn [lm_config lm_timeoutMs lm_bucket].
  assert (vt_MemoryPages vt <> 0) as Hm by (intros Hm; unfold getMemoryBucketFromValidated in E2; by rewrite Hm in E2).
  split_and!; try done; [|by apply bucket_of_pages]. intros Ht. unfold getExecutionTimeout in E1. by rewrite Ht in E1.
Qed.

Lemma timeout_bounds vt : vt_ExecutionTimeoutMs vt <> 0 -> let t := getExecutionTimeout cfg (Some vt) in
  1 <= t <= 300000 /\ (0 < tcfg_DefaultTimeoutMs cfg -> t <= tcfg_DefaultTimeoutMs cfg) /\
  (1 <= vt_ExecutionTimeoutMs vt < 2 ^ 63 -> t <= vt_ExecutionTimeoutMs vt).
Proof.
  intros Hne. cbn zeta. unfold getExecutionTimeout, MinTimeoutMs, MaxTimeoutMs. apply Z.eqb_neq in Hne. rewrite Hne.
  assert (1 <= vt_ExecutionTimeoutMs vt < 2 ^ 63 -> int64_wrap (vt_ExecutionTimeoutMs vt) = vt_ExecutionTimeoutMs vt) as Hw
    by (intros Hb; apply int64_wrap_id; unfold is_int64; lia).
  set (t0 := int64_wrap _) in *. set (d := tcfg_DefaultTimeoutMs cfg).
  set (t1 := if (d >? 0) && (t0 >? d) then d else t0).
  assert (t1 <= t0 /\ (0 < d -> t1 <= d)) as [H1 H2].
  { unfold t1. destruct (Z.gtb_spec d 0), (Z.gtb_spec t0 d); cbn; lia. }
  assert ((if t1 <? 1 then 1 else t1) = Z.max 1 t1) as -> by (destruct (Z.ltb_spec t1 1); lia).
  assert ((if Z.max 1 t1 >? 300000 then 300000 else Z.max 1 t1) = Z.min 300000 (Z.max 1 t1)) as -> by (destruct (Z.gtb_spec (Z.max 1 t1) 300000); lia).
  split; [lia|]. split; [lia|]. intros Hb. specialize (Hw Hb). lia.
Qed.

Lemma refusal_is_error ctx call elapsed (ex : WasmExecutor W) res : resolve_limits ctx call elapsed ex = inl res -> snd res <> None.
Proof.
  unfold resolve_limits. destruct (negb _); [by intros [= <-]|]. destruct (find_tool _ _); [|by intros [= <-]].
  destruct (_ || _); [|done]. by intros [= <-].
Qed.

Lemma getOrCompile_pools rt name b w (ex : WasmExecutor W) ex' res :
  getOrCompileModule rt name b w ex = (ex', res) -> we_pools ex' = we_pools ex.
Proof. intros Hc. by destruct (compile_ok (we_config ex) _ _ _ _ _ _ _ eq_refl Hc) as [[-> _]|(cm & _ & -> & _)]. Qed.

Lemma idle_acquires (w : W) ex b : idle ex -> b ∈ MemoryBuckets -> exists ex' rt p rest,
  acquireRuntime b Available ex = Some (ex', Acquired rt) /\ rt ∈ bucket_runtimes b /\ we_config ex' = cfg /\ we_cache ex' = we_cache ex /\
  we_pools ex' !! b = Some (mkPool p rest false) /\ p.*1 = bucket_runtimes b.
Proof.
  intros Hi Hb. specialize (Hi w). destruct (eo_dom _ _ Hi b Hb) as [p Hp]. pose proof (eo_pools _ _ Hi b p Hp) as Hpok. cbn in Hp.
  destruct (pl_available p) as [|rt rest] eqn:Ea.
  { exfalso. destruct (po_none_lost _ _ _ Hpok (mkRuntime b 0)) as [Hin|[n (r & E & _)]]; [by left|rewrite Ea in Hin; by apply not_elem_of_nil in Hin|].
    cbn in E. by rewrite lookup_empty in E. }
  do 2 eexists. exists (mark_in_use true rt (pl_runtimes p)), rest. unfold acquireRuntime. rewrite Hp, Ea. split_and!; [done| |apply (eo_config _ _ Hi)|done| |].
  - apply (po_own _ _ _ Hpok). rewrite Ea. by left.
  - cbn. rewrite lookup_insert_eq. by rewrite (po_open _ _ _ Hpok).
  - rewrite mark_in_use_fst. apply (po_runtimes _ _ _ Hpok).
Qed.

(** An executor that executions use, open or closed since. *)
Definition in_use (ex : WasmExecutor W) : Prop :=
  exists ex0 w0 runs, exec_ok cfg (mkExecSys ex0 w0 runs) /\ (ex = ex0 \/ ex = Close ex0).

Lemma in_use_facts ex : in_use ex ->
  we_config ex = cfg /\
  (forall b p rt, we_pools ex !! b = Some p -> rt ∈ pl_available p -> rt ∈ bucket_runtimes b) /\
  (forall key cm, we_cache ex !! key = Some cm -> cache_entry_ok cfg key cm).
Proof.
  intros (ex0 & w0 & runs & Hok & [-> | ->]); (split; [apply (eo_config _ _ Hok)|]); (split; [|apply (eo_cache _ _ Hok)]).
  - intros b p rt Hp. apply (po_own _ _ _ (eo_pools _ _ Hok b p Hp)).
  - intros b p rt Hp Hrt. cbn in Hp. rewrite lookup_fmap in Hp. destruct (we_pools ex0 !! b) as [p0|] eqn:E; [|done].
    injection Hp as <-. by apply (po_own _ _ _ (eo_pools _ _ Hok b p0 E)).
Qed.

(** What lets an execution call a module, and the limits it then has. *)
Definition runs_within (ctx : option ValidatedTool) (call : ExecCall) (elapsed : Z) (w w' : W) (res : ToolResult * option error) : Prop :=
  exists vt tc t b rt cm,
    ctx = Some vt /\ vt_Name vt = ec_Name call /\ find_tool cfg (ec_Name call) = Some tc /\
    (1 <= t <= 300000 /\ (0 < tcfg_DefaultTimeoutMs cfg -> t <= tcfg_DefaultTimeoutMs cfg) /\
     (1 <= vt_ExecutionTimeoutMs vt < 2 ^ 63 -> t <= vt_ExecutionTimeoutMs vt)) /\
    (b ∈ MemoryBuckets /\ (pages_allowed vt <= 2048 -> pages_allowed vt <= b) /\
     forall b', b' ∈ MemoryBuckets -> pages_allowed vt <= b' -> b <= b') /\
    rt ∈ bucket_runtimes b /\ (exists wasmBytes, CompileModule rt wasmBytes = Ok (cm_mod cm)) /\
    (w', res) = run_module call elapsed (mkLimits tc t b) rt cm w.

Lemma Execute_runs_within ctx call how elapsed ex (w : W) ex' w' res :
  in_use ex -> Execute ctx call how elapsed ex w = Some (ex', w', res) ->
  (w' = w /\ snd res <> None) \/ runs_within ctx call elapsed w w' res.
Proof.
  intros Hu Hx. destruct (in_use_facts ex Hu) as (Hcfg & Hown & Hcache). unfold Execute in Hx.
  destruct (resolve_limits ctx call elapsed ex) as [refusal|lim] eqn:Hl.
  { injection Hx as <- <- <-. left. split; [done|]. by eapply refusal_is_error. }
  destruct (resolved_limits ctx call elapsed ex lim Hcfg Hl) as (vt & -> & Hname & Ht & Hm & Htc & Htime & Hbucket).
  pose proof (round_to_bucket_spec (pages_allowed vt)) as Hspec. rewrite <- Hbucket in Hspec.
  destruct (acquireRuntime (lm_bucket lim) how ex) as [[ex1 [rt|e|]]|] eqn:Ha; try discriminate Hx; [|injection Hx as <- <- <-; by left].
  destruct (acquire_ok _ _ _ _ _ Ha) as (p & rest & Hp & Hav & ->). unfold with_runtime in Hx.
  destruct (getOrCompileModule rt (ec_Name call) (lm_bucket lim) w _) as [ex2 [cm|e]] eqn:Hcomp.
  2:{ destruct (releaseRuntime _ rt ex2); [|done]. injection Hx as <- <- <-. by left. }
  right. destruct (run_module call elapsed lim rt cm w) as [w1 res1] eqn:Hrun.
  destruct (releaseRuntime _ rt ex2); [|done]. injection Hx as <- <- <-.
  exists vt, (lm_config lim), (lm_timeoutMs lim), (lm_bucket lim), rt, cm. split; [done|]. split; [done|]. split; [done|].
  split; [rewrite Htime; by apply timeout_bounds|]. split; [done|].
  split; [eapply Hown; [done|]; rewrite Hav; by left|]. split; [|by destruct lim].
  assert (cache_entry_ok cfg (lm_bucket lim, ec_Name call, rt) cm) as [_ Hok]; [|done].
  eapply (compile_ok cfg) in Hcomp; [|exact Hcfg].
  destruct Hcomp as [[-> Hin]|(cm' & [= ->] & _ & _ & Hok)]; [|done].
  by apply Hcache, Hin.
Qed.

Lemma idle_Execute_returns ctx call elapsed ex (w : W) :
  idle ex -> exists ex' w' res, Execute ctx call Available elapsed ex w = Some (ex', w', res) /\ idle ex'.
Proof.
  intros Hi. pose proof (eo_config _ _ (Hi w)) as Hcfg. cbn in Hcfg.
  destruct (resolve_limits ctx call elapsed ex) as [refusal|lim] eqn:Hl.
  { exists ex, w, refusal. unfold Execute. by rewrite Hl. }
  destruct (resolved_limits ctx call elapsed ex lim Hcfg Hl) as (vt & -> & _ & _ & _ & _ & _ & Hbucket).
  pose proof (proj1 (round_to_bucket_spec (pages_allowed vt))) as Hb. rewrite <- Hbucket in Hb.
  destruct (idle_acquires w ex (lm_bucket lim) Hi Hb) as (ex1 & rt & p & rest & Ha & Hrt & _ & _ & Hpool & Hp).
  assert (exists ex' w' res, Execute (Some vt) call Available elapsed ex w = Some (ex', w', res)) as (ex' & w' & res & Hx);
    [|exists ex', w', res; split; [done|by eapply Execute_idle]].
  unfold Execute, with_runtime. rewrite Hl, Ha.
  destruct (getOrCompileModule rt (ec_Name call) (lm_bucket lim) w ex1) as [ex2 comp] eqn:Hcomp.
  pose proof (getOrCompile_pools _ _ _ _ _ _ _ Hcomp) as Hpools.
  assert (exists ex3, releaseRuntime (lm_bucket lim) rt ex2 = Some ex3) as [ex3 Hrel].
  { unfold releaseRuntime. rewrite Hpools, Hpool. cbn. rewrite Hp, bool_decide_eq_true_2 by done. eauto. }
  destruct comp as [cm|e]; [destruct (run_module _ _ _ _ _ _)|]; rewrite Hrel; by eexists _, _, _.
Qed.

(** C36: Whoever else uses the executor, and also once it is closed, an execution
    that returns has either answered an error with nothing changed outside, or
    called a module, of the tool its context was validated for, with these limits: a
    timeout between one millisecond and five minutes, at most the configuration's
    when that is set and at most the registry's; and the smallest of the four memory
    sizes that holds the pages the registry and the configuration both allow, the
    largest when none does, so that a configured maximum is rounded up. An execution
    of an open executor nobody else uses returns, whatever the engine answers, and
    leaves it so: its run time is given back. *)
Theorem execution_within_limits (ctx : option ValidatedTool) (call : ExecCall) (elapsed : Z) (ex : WasmExecutor W) (w : W) :
  (forall how ex' w' res, in_use ex -> Execute ctx call how elapsed ex w = Some (ex', w', res) ->
     (w' = w /\ snd res <> None) \/ runs_within ctx call elapsed w w' res) /\
  (idle ex -> exists ex' w' res, Execute ctx call Available elapsed ex w = Some (ex', w', res) /\ idle ex').
Proof. split; [intros how ex' w' res; apply Execute_runs_within|apply idle_Execute_returns]. Qed.

(** After [Close] an execution that would be allowed does not end: releasing the
    run time sends on a closed channel. *)
Lemma closed_executor_panics ctx call how elapsed ex w lim :
  idle ex -> resolve_limits ctx call elapsed (Close ex) = inr lim -> lm_bucket lim ∈ MemoryBuckets ->
  how = Available -> Execute ctx call how elapsed (Close ex) w = None.
Proof.
  intros Hi Hl Hb ->. unfold Execute. rewrite Hl. unfold acquireRuntime. destruct (eo_dom _ _ (Hi w) _ Hb) as [p Hp]. cbn in Hp.
  assert (we_pools (Close ex) !! lm_bucket lim = Some (mkPool (pl_runtimes p) (pl_available p) true)) as Hc
    by (cbn; by rewrite lookup_fmap, Hp).
  rewrite Hc. cbn [pl_available pl_closed pl_runtimes]. pose proof (eo_pools _ _ (Hi w) _ _ Hp) as Hpok. destruct (pl_available p) as [|rt rest] eqn:Ea; [done|].
  assert (rt ∈ bucket_runtimes (lm_bucket lim)) as Hrt by (apply (po_own _ _ _ Hpok); rewrite Ea; by left).
  set (ex1 := set_pool _ _ (Close ex)). unfold with_runtime.
  assert (forall ex2, we_pools ex2 = we_pools ex1 -> releaseRuntime (lm_bucket lim) rt ex2 = None) as Hrel.
  { intros ex2 E. unfold releaseRuntime. rewrite E. cbn. rewrite lookup_insert_eq. cbn. rewrite mark_in_use_fst, (po_runtimes _ _ _ Hpok).
    by rewrite bool_decide_eq_true_2. }
  destruct (getOrCompileModule rt _ _ w ex1) as [ex2 [cm|e]] eqn:Hcomp; apply getOrCompile_pools in Hcomp.
  - destruct (run_module _ _ _ _ _ _) as [w' res]. by rewrite Hrel.
  - by rewrite Hrel.
Qed.
End Promises.

Lemma new_executor_idle {W} `{WasmEngine W} (cfg : ToolConfig) (w0 : W) ex : NewWasmExecutor cfg w0 = Ok ex -> idle cfg ex.
Proof. intros Hex w. by eapply new_executor_ok. Qed.

(** The configured ceiling is not one: 300 pages allow a run time of 512. *)
Example ceiling_rounded_up :
  getMemoryBucketFromValidated (mkToolConfig 5 0 300 0 0 []) (Some (mkValidatedTool "t" "" "" "" 1000 2000 "")) = 512.
Proof. reflexivity. Qed.

(** ** The mock executor *)

Record MockExecutor := mkMockExecutor {
  mk_name : string;
  mk_supported : gmap string bool;
  mk_latency : Z;
  mk_err : option error;
  mk_response : option ToolResult;
  mk_fixedResult : option ToolResult;
  mk_callCount : Z;
  mk_lastCall : option ExecCall;
  mk_customFunc : option (ExecCall -> result error ToolResult);
}.

Definition MockOption : Type := MockExecutor -> MockExecutor.

Definition mock_WithName (name : string) : MockOption := fun m =>
  mkMockExecutor name (mk_supported m) (mk_latency m) (mk_err m) (mk_response m) (mk_fixedResult m) (mk_callCount m) (mk_lastCall m) (mk_customFunc m).
Definition WithSupportedTools (tools : list string) : MockOption := fun m =>
  mkMockExecutor (mk_name m) (list_to_map ((fun t => (t, true)) <$> tools)) (mk_latency m) (mk_err m) (mk_response m) (mk_fixedResult m)
    (mk_callCount m) (mk_lastCall m) (mk_customFunc m).
Definition WithLatency (d : Z) : MockOption := fun m =>
  mkMockExecutor (mk_name m) (mk_supported m) d (mk_err m) (mk_response m) (mk_fixedResult m) (mk_callCount m) (mk_lastCall m) (mk_customFunc m).
Definition WithError (err : option error) : MockOption := fun m =>
  mkMockExecutor (mk_name m) (mk_supported m) (mk_latency m) err (mk_response m) (mk_fixedResult m) (mk_callCount m) (mk_lastCall m) (mk_customFunc m).
Definition WithResponse (resp : option ToolResult) : MockOption := fun m =>
  mkMockExecutor (mk_name m) (mk_supported m) (mk_latency m) (mk_err m) resp (mk_fixedResult m) (mk_callCount m) (mk_lastCall m) (mk_customFunc m).
Definition WithFixedResult (resp : option ToolResult) : MockOption := fun m =>
  mkMockExecutor (mk_name m) (mk_supported m) (mk_latency m) (mk_err m) (mk_response m) resp (mk_callCount m) (mk_lastCall m) (mk_customFunc m).
Definition WithCustomFunc (fn : option (ExecCall -> result error ToolResult)) : MockOption := fun m =>
  mkMockExecutor (mk_name m) (mk_supported m) (mk_latency m) (mk_err m) (mk_response m) (mk_fixedResult m) (mk_callCount m) (mk_lastCall m) fn.

Definition NewMockExecutor (opts : list MockOption) : MockExecutor :=
  foldl (fun m opt => opt m) (mkMockExecutor "mock" ∅ 0 None None None 0 None None) opts.

Definition mock_SupportsTool (name : string) (m : MockExecutor) : bool := default false (mk_supported m !! name).

Definition count_call (call : ExecCall) (m : MockExecutor) : MockExecutor :=
  mkMockExecutor (mk_name m) (mk_supported m) (mk_latency m) (mk_err m) (mk_response m) (mk_fixedResult m)
    (int64_wrap (mk_callCount m + 1)) (Some call) (mk_customFunc m).

Definition with_call_id (id : string) (r : ToolResult) : ToolResult := mkToolResult id (tr_Output r) (tr_Error r) (tr_Duration r).

(** [cancelled] is the context's error when it ends before the latency has passed. *)
Definition mock_answer (cancelled : option error) (call : ExecCall) (m : MockExecutor) : result error ToolResult :=
  match (if mk_latency m >? 0 then cancelled else None) with
  | Some e => Err e
  | None =>
      match mk_customFunc m, mk_err m, mk_fixedResult m, mk_response m with
      | Some fn, _, _, _ => fn call
      | None, Some e, _, _ => Err e
      | None, None, Some r, _ => Ok (with_call_id (ec_ID call) r)
      | None, None, None, Some r => Ok (with_call_id (ec_ID call) r)
      | None, None, None, None =>
          Ok (mkToolResult (ec_ID call) (Some [("echo", match ec_Arguments call with Some l => JObject l | None => JNull end)]) "" (mk_latency m))
      end
  end.

Definition mock_Execute (cancelled : option error) (call : ExecCall) (m : MockExecutor) : MockExecutor * result error ToolResult :=
  (count_call call m, mock_answer cancelled call m).

Definition mock_Reset (m : MockExecutor) : MockExecutor :=
  mkMockExecutor (mk_name m) (mk_supported m) (mk_latency m) (mk_err m) (mk_response m) (mk_fixedResult m) 0 None (mk_customFunc m).

(** Calls since a reset are counted, answered or not, up to the counter's width. *)
Lemma mock_counts cancelled calls m :
  mk_callCount (foldl (fun m c => fst (mock_Execute cancelled c m)) (mock_Reset m) calls) = int64_wrap (Z.of_nat (length calls)).
Proof.
  induction calls as [|c calls IH] using rev_ind; [done|]. rewrite foldl_app, length_app.
  set (m' := foldl _ _ calls) in *. cbn [foldl mock_Execute fst count_call mk_callCount]. rewrite IH, Nat2Z.inj_add.
  unfold int64_wrap, wrap_signed. change (64 - 1) with 63. change (Z.of_nat (length [c])) with 1.
  replace ((Z.of_nat (length calls) + 2 ^ 63) mod 2 ^ 64 - 2 ^ 63 + 1 + 2 ^ 63) with ((Z.of_nat (length calls) + 2 ^ 63) mod 2 ^ 64 + 1) by lia.
  rewrite Zplus_mod_idemp_l. f_equal. f_equal. lia.
Qed.

(** * Witnesses *)

(** The world counts the calls of modules; a module is its bytes. *)
Definition toy_engine : WasmEngine Z := {|
  wasm_module := bytes;
  wasm_instance := unit;
  ReadFile p _ := Ok (bytes_of_string p);
  CompileModule _ b := Ok b;
  InstantiateModule _ _ _ _ w := (w, Ok tt);
  exports_execute _ := true;
  Call_execute _ _ w := (w + 1, None);
  Close_instance _ w := w;
|}.
#[local] Existing Instance toy_engine.

Definition ex_module : ToolModuleConfig := mkToolModuleConfig "search" "search.wasm" [("/data", "../etc/./x")] false 0 0 false.
Definition ex_tool_config : ToolConfig := mkToolConfig 5 10000 600 0 0 [ex_module].
Definition ex_validated : ValidatedTool := mkValidatedTool "search" "" "{}" "{}" 20000 300 "".
Definition ex_executor : WasmExecutor Z :=
  mkWasmExecutor ex_tool_config ∅ initial_pools {["search" := 1024]}.
Definition ex_exec_call : ExecCall := mkExecCall "c1" "search" None.

Lemma ex_executor_new : NewWasmExecutor ex_tool_config 0 = Ok ex_executor.
Proof. reflexivity. Qed.

(** The validated tool asks for 20 seconds and 300 pages; it runs for at most ten
    and in 512. *)
Lemma execution_within_limits_witness :
  (exists ex' res, Execute (Some ex_validated) ex_exec_call Available 7 ex_executor 0 = Some (ex', 1, res) /\ idle ex_tool_config ex') /\
  exists res, runs_within ex_tool_config (Some ex_validated) ex_exec_call 7 0 1 res.
Proof.
  pose proof (new_executor_idle ex_tool_config 0 ex_executor ex_executor_new) as Hi.
  destruct (execution_within_limits ex_tool_config (Some ex_validated) ex_exec_call 7 ex_executor 0) as [Hs Ht].
  destruct (Ht Hi) as (ex' & w' & res & Hx & Hi').
  assert (w' = 1) as -> by (pose proof Hx as E; vm_compute in E; by injection E).
  split; [by exists ex', res|]. exists res.
  destruct (Hs Available ex' 1 res) as [[? _]|Hr]; [exists ex_executor, 0, ∅; split; [apply Hi|by left]|done|done|done].
Defined.

Definition ex_limits : Limits := mkLimits ex_module 10000 512.

Lemma ex_two_waiting :
  rtc exec_step (mkExecSys ex_executor 0 ∅)
    (mkExecSys ex_executor 0 {[0%nat := mkRun (Some ex_validated) ex_exec_call (XWaiting ex_limits)]}).
Proof.
  eapply rtc_l; [by apply (exec_spawn _ 0 (Some ex_validated) ex_exec_call)|]. cbn. rewrite insert_empty.
  apply rtc_once, one_run_step. by apply (run_resolved _ _ (mkRun _ _ XStart) 7 ex_limits).
Qed.

Lemma runtimes_exclusive_witness :
  exists p, we_pools ex_executor !! 512 = Some p /\ forall rt, rt ∈ bucket_runtimes 512 ->
    rt ∈ pl_available p \/ exists n, holds ({[0%nat := mkRun (Some ex_validated) ex_exec_call (XWaiting ex_limits)]} : gmap nat (Run Z)) n 512 rt.
Proof.
  destruct (runtimes_exclusive ex_tool_config 0 0 ex_executor _ ex_executor_new ex_two_waiting) as (_ & Hp & _).
  destruct (Hp 512) as (p & Hp1 & _ & Hp2 & _); [apply (bool_decide_eq_true_1 _); vm_compute; reflexivity|].
  exists p. split; [exact Hp1|]. intros rt. apply Hp2.
Defined.

Example ex_host_path : host_path "../etc/./x" = "../etc/x".
Proof. reflexivity. Qed.
