(* ===== verification/Sha256.v ===== *)
(** [crypto/sha256]: [Sum256], executable, as FIPS 180-4 defines it. Words are
    32-bit, kept as [Z] in [0, 2^32). *)

From stdpp Require Import base strings list numbers.
From Stdlib Require Import Ascii.
From S2P Require Import GoPrelude Bytes.

Definition w32 (z : Z) : Z := z mod 2 ^ 32.
Definition add32 (a b : Z) : Z := w32 (a + b).
Definition rotr (n x : Z) : Z := Z.lor (Z.shiftr x n) (w32 (Z.shiftl x (32 - n))).

Definition Ch (x y z : Z) : Z := Z.lxor (Z.land x y) (Z.land (Z.lxor x (2 ^ 32 - 1)) z).
Definition Maj (x y z : Z) : Z := Z.lxor (Z.lxor (Z.land x y) (Z.land x z)) (Z.land y z).
Definition Sigma0 (x : Z) : Z := Z.lxor (Z.lxor (rotr 2 x) (rotr 13 x)) (rotr 22 x).
Definition Sigma1 (x : Z) : Z := Z.lxor (Z.lxor (rotr 6 x) (rotr 11 x)) (rotr 25 x).
Definition sigma0 (x : Z) : Z := Z.lxor (Z.lxor (rotr 7 x) (rotr 18 x)) (Z.shiftr x 3).
Definition sigma1 (x : Z) : Z := Z.lxor (Z.lxor (rotr 17 x) (rotr 19 x)) (Z.shiftr x 10).

(** ** The constants

    They are the first 32 bits of the fractional parts of the square roots of the
    first 8 primes and of the cube roots of the first 64. *)

(** The largest [r < 2^bits + acc] with [r^k <= n], bit by bit. *)
Fixpoint iroot (k : Z) (bits : nat) (n acc : Z) : Z :=
  match bits with
  | O => acc
  | S b =>
      let r := acc + 2 ^ Z.of_nat b in
      iroot k b n (if r ^ k <=? n then r else acc)
  end.

Definition is_prime (p : Z) : bool := forallb (fun d => negb (p mod d =? 0)) (seqZ 2 (p - 2)).
Definition first_primes (n : nat) : list Z := take n (List.filter is_prime (seqZ 2 400)).

Definition root_fraction (k p : Z) : Z := w32 (iroot k 40 (p * 2 ^ (32 * k)) 0).

Definition sha_init : list Z := Eval vm_compute in map (root_fraction 2) (first_primes 8).
Definition sha_K : list Z := Eval vm_compute in map (root_fraction 3) (first_primes 64).

(** ** Words and bytes, big-endian *)

Definition byte_val (c : byte) : Z := Z.of_N (N_of_ascii c).
Definition byte_of (z : Z) : byte := ascii_of_N (Z.to_N (z mod 256)).

Definition word_bytes (w : Z) : bytes :=
  [byte_of (Z.shiftr w 24); byte_of (Z.shiftr w 16); byte_of (Z.shiftr w 8); byte_of w].

Fixpoint words_of (b : bytes) : list Z :=
  match b with
  | b0 :: b1 :: b2 :: b3 :: b =>
      byte_val b0 * 2 ^ 24 + byte_val b1 * 2 ^ 16 + byte_val b2 * 2 ^ 8 + byte_val b3 :: words_of b
  | _ => []
  end.

(** ** Compression *)

(** The message schedule, newest word first: [n] more words. *)
Fixpoint schedule (n : nat) (rev_w : list Z) : list Z :=
  match n with
  | O => rev_w
  | S n =>
      let w := fun i => nth i rev_w 0 in
      schedule n (w32 (sigma1 (w 1%nat) + w 6%nat + sigma0 (w 14%nat) + w 15%nat) :: rev_w)
  end.

Definition sha_state : Type := (Z * Z * Z * Z * Z * Z * Z * Z)%type.

Definition sha_round (s : sha_state) (kw : Z * Z) : sha_state :=
  let '(a, b, c, d, e, f, g, h) := s in
  let t1 := w32 (h + Sigma1 e + Ch e f g + fst kw + snd kw) in
  let t2 := w32 (Sigma0 a + Maj a b c) in
  (add32 t1 t2, a, b, c, add32 d t1, e, f, g).

Definition compress (h : list Z) (block : bytes) : list Z :=
  match h with
  | [a; b; c; d; e; f; g; i] =>
      let ws := rev (schedule 48 (rev (words_of block))) in
      let '(a', b', c', d', e', f', g', i') := foldl sha_round (a, b, c, d, e, f, g, i) (zip sha_K ws) in
      [add32 a a'; add32 b b'; add32 c c'; add32 d d'; add32 e e'; add32 f f'; add32 g g'; add32 i i']
  | _ => h
  end.

(** ** Padding and the digest *)

Definition sha_pad (m : bytes) : bytes :=
  let len := Z.of_nat (length m) in
  let bits := 8 * len in
  m ++ [byte_of 128] ++ replicate (Z.to_nat ((55 - len) mod 64)) (byte_of 0) ++
  word_bytes (w32 (Z.shiftr bits 32)) ++ word_bytes (w32 bits).

Fixpoint sha_blocks (n : nat) (h : list Z) (m : bytes) : list Z :=
  match n with
  | O => h
  | S n => sha_blocks n (compress h (take 64 m)) (drop 64 m)
  end.

Definition Sum256 (m : bytes) : bytes :=
  let p := sha_pad m in
  concat (map word_bytes (sha_blocks (Nat.div (length p) 64) sha_init p)).

(** ** The digest has 32 bytes *)

Lemma length_compress h block : length h = 8%nat -> length (compress h block) = 8%nat.
Proof.
  intros Hh. do 8 (destruct h as [|? h]; [done|]). destruct h; [|done]. unfold compress.
  generalize (zip sha_K (rev (schedule 48 (rev (words_of block))))). intros l.
  destruct (foldl sha_round _ l) as [[[[[[[? ?] ?] ?] ?] ?] ?] ?]. done.
Qed.

Lemma length_sha_blocks n h m : length h = 8%nat -> length (sha_blocks n h m) = 8%nat.
Proof.
  revert h m. induction n as [|n IH]; intros h m Hh; simpl; [done|]. by apply IH, length_compress.
Qed.

Lemma length_Sum256 m : length (Sum256 m) = 32%nat.
Proof.
  unfold Sum256. set (h := sha_blocks _ _ _).
  assert (Hh : length h = 8%nat) by (by apply length_sha_blocks).
  clearbody h. do 8 (destruct h as [|? h]; [done|]). by destruct h.
Qed.

(** The digest of "abc" (FIPS 180-4, example B.1). *)
Example Sum256_abc :
  hex_encode (Sum256 (bytes_of_string "abc")) =
  bytes_of_string "ba7816bf8f01cfea414140de5dae2223b00361a396177a9cb410ff61f20015ad".
Proof. vm_compute. reflexivity. Qed.
