(* ===== verification/Tokens.v ===== *)
(** Opaque tokens and signatures: the rest of [internal/adapter/jwt/token.go],
    [generateOpaqueToken] of [usecase/auth/login.go] and of
    [postgres/review_repository.go], and the context keys of [middleware/hitl.go].

    [crypto/hmac] and the URL alphabet of [encoding/base64] are written out. *)

From stdpp Require Import base strings list numbers vector.
From Stdlib Require Import Ascii.
From S2P Require Import GoPrelude Bytes Uuid Errors Password Sha256.
Open Scope Z_scope.

(** ** [base64.RawURLEncoding] *)

(** The two digits in which the alphabets differ. *)
Definition to_url (c : byte) : byte :=
  if Ascii.eqb c "+" then "-"%char else if Ascii.eqb c "/" then "_"%char else c.
Definition from_url (c : byte) : byte :=
  if Ascii.eqb c "-" then "+"%char else if Ascii.eqb c "_" then "/"%char
  else if Ascii.eqb c "+" || Ascii.eqb c "/" then "="%char else c.

Definition url_Encode (b : bytes) : bytes := map to_url (EncodeToString b).
Definition url_Decode (s : bytes) : option bytes := DecodeString (map from_url s).

(** ** [crypto/hmac] with SHA-256 *)

Definition xor_byte (n : N) (c : byte) : byte := ascii_of_N (N.lxor (N_of_ascii c) n).

(** The key in a block of 64 bytes; a longer one is hashed first. *)
Definition hmac_key (key : bytes) : bytes :=
  let key := if (64 <? length key)%nat then Sum256 key else key in
  key ++ replicate (64 - length key) "000"%char.

Definition hmac_Sum (key data : bytes) : bytes :=
  let k := hmac_key key in
  Sum256 (map (xor_byte 0x5c) k ++ Sum256 (map (xor_byte 0x36) k ++ data)).

(** The second case of RFC 4231, and its case of a key longer than a block. *)
Example hmac_rfc4231_2 :
  hex_encode (hmac_Sum (bytes_of_string "Jefe") (bytes_of_string "what do ya want for nothing?")) =
  bytes_of_string "5bdcc146bf60754e6a042426089575c75a003f089d2739839dec58b964ec3843".
Proof. vm_compute. reflexivity. Qed.

Example hmac_rfc4231_6 :
  hex_encode (hmac_Sum (replicate 131 "170"%char) (bytes_of_string "Test Using Larger Than Block-Size Key - Hash Key First")) =
  bytes_of_string "60e431591ee0b67f0d8a26aacbf5b77f8e0bc6213728c5140546040f0ee37f54".
Proof. vm_compute. reflexivity. Qed.

(** ** [token.go] *)

Definition VerifyHMAC (key data sig : bytes) : bool :=
  let expected := url_Encode (hmac_Sum key data) in bool_decide (expected = sig).

Record RefreshClaims := mkRefreshClaims {
  rfc_UserID : UUID;
  rfc_TenantID : UUID;
  rfc_FamilyID : UUID;
  rfc_TokenHash : string;
  rfc_Revoked : bool;
  rfc_ExpiresAt : Z;
  rfc_CreatedAt : Z;
}.

(** The text, its hash, the family and the expiry. *)
Record IssuedRefresh := mkIssued {
  ir_token : bytes;
  ir_tokenHash : bytes;
  ir_familyID : UUID;
  ir_expiresAt : Z;
}.

(** [tokenBytes] are the 32 bytes read, or the error of reading them; [rnd] is what
    the family is drawn from. The user is not used. *)
Definition IssueRefreshToken (now : Z) (tokenBytes : result error (vec byte 32)) (rnd userID : UUID) : result error IssuedRefresh :=
  match tokenBytes with
  | Err e => Err e
  | Ok b =>
      let token := url_Encode (vec_to_list b) in
      Ok (mkIssued token (url_Encode (Sum256 token)) (NewUUID rnd) (now + 7 * 24 * 3600 * 1000000000))
  end.

Definition VerifyRefreshToken (tokenHash : string) : result error RefreshClaims :=
  Err (EOther "VerifyRefreshToken requires repository").
Definition RotateRefreshToken (oldTokenHash : string) : result error IssuedRefresh :=
  Err (EOther "RotateRefreshToken requires repository").
Definition RevokeRefreshToken (tokenHash : string) : option error := Some (EOther "RevokeRefreshToken requires repository").
Definition RevokeFamily (familyID : UUID) : option error := Some (EOther "RevokeFamily requires repository").

(** ** Opaque tokens *)

(** [fmt.Sprintf("%x", b)]; an error of reading the bytes is not looked at. *)
Definition login_generateOpaqueToken (b : vec byte 32) : string := string_of_bytes (hex_encode (vec_to_list b)).

(** [None] is the panic on an error of reading. *)
Definition review_generateOpaqueToken (b : option (vec byte 32)) : option string :=
  match b with Some b => Some (string_of_bytes (hex_encode (vec_to_list b))) | None => None end.
Definition GenerateOpaqueToken (b : option (vec byte 32)) : option string :=
  match b with Some b => Some (string_of_bytes (hex_encode (vec_to_list b))) | None => None end.

(** * What the tokens promise *)

Lemma from_to_url c : c ∈ std_alphabet -> from_url (to_url c) = c.
Proof.
  intros Hc. assert (forallb (fun c => Ascii.eqb (from_url (to_url c)) c) std_alphabet = true) as H by reflexivity.
  rewrite forallb_forall in H. apply Ascii.eqb_eq, H. by apply list_elem_of_In.
Qed.

Lemma digit64_alphabet n : digit64 n ∈ std_alphabet.
Proof.
  unfold digit64. destruct (Nat.lt_ge_cases (Z.to_nat n) (length std_alphabet)) as [Hl|Hl].
  - apply list_elem_of_In, nth_In, Hl.
  - rewrite nth_overflow by done. vm_compute. by left.
Qed.

(** Three bytes at a time. *)
Lemma bytes_ind3 (P : bytes -> Prop) :
  P [] -> (forall x, P [x]) -> (forall x y, P [x; y]) -> (forall x y z b, P b -> P (x :: y :: z :: b)) -> forall b, P b.
Proof. intros H0 H1 H2 H3. fix IH 1. intros [|x [|y [|z b]]]; [done|apply H1|apply H2|apply H3, IH]. Qed.

Lemma EncodeToString_alphabet b : Forall (fun c => c ∈ std_alphabet) (EncodeToString b).
Proof.
  induction b as [| | |x y z b IH] using bytes_ind3; cbn [EncodeToString app]; rewrite ?Forall_cons; auto 10 using digit64_alphabet.
Qed.

Lemma length_EncodeToString b : length (EncodeToString b) = ((4 * length b + 2) / 3)%nat.
Proof.
  induction b as [| | |x y z b IH] using bytes_ind3; [done..|]. cbn [EncodeToString app length]. rewrite IH.
  replace (4 * S (S (S (length b))) + 2)%nat with (4 * length b + 2 + 4 * 3)%nat by lia.
  rewrite Nat.div_add by done. lia.
Qed.

Lemma url_Decode_Encode b : url_Decode (url_Encode b) = Some b.
Proof.
  unfold url_Decode, url_Encode. rewrite map_map.
  rewrite (map_ext_in _ id), map_id, DecodeString_EncodeToString; [done|].
  intros c Hc. apply from_to_url. pose proof (EncodeToString_alphabet b) as Hb. rewrite Forall_forall in Hb.
  by apply Hb, list_elem_of_In.
Qed.

#[global] Instance url_Encode_inj : Inj (=) (=) url_Encode.
Proof. intros a b H. apply (f_equal url_Decode) in H. rewrite !url_Decode_Encode in H. by injection H. Qed.

Lemma length_url_Encode b : length (url_Encode b) = ((4 * length b + 2) / 3)%nat.
Proof. unfold url_Encode. by rewrite length_map, length_EncodeToString. Qed.

(** A token that is issued is 43 digits that decode to the bytes drawn, so distinct
    draws give distinct tokens; it is stored under the digest of its own text, in
    a family of its own, for seven days. The user plays no part. *)
Theorem refresh_token_issued (now : Z) (b b' : vec byte 32) (rnd rnd' u u' : UUID) :
  exists t t', IssueRefreshToken now (Ok b) rnd u = Ok t /\ IssueRefreshToken now (Ok b') rnd' u' = Ok t' /\
    length (ir_token t) = 43%nat /\ url_Decode (ir_token t) = Some (vec_to_list b) /\
    length (ir_tokenHash t) = 43%nat /\ url_Decode (ir_tokenHash t) = Some (Sum256 (ir_token t)) /\
    version_bits (ir_familyID t) = 4%N /\ ir_expiresAt t = now + 604800000000000 /\
    (ir_token t = ir_token t' <-> b = b') /\
    IssueRefreshToken now (Ok b) rnd u' = Ok t.
Proof.
  eexists _, _. split; [done|]. split; [done|]. cbn [ir_token ir_tokenHash ir_familyID ir_expiresAt].
  rewrite !length_url_Encode, length_vec_to_list, length_Sum256, !url_Decode_Encode. split_and!; try done.
  - apply NewUUID_version_variant.
  - split; [|by intros ->]. intros H. by apply (inj url_Encode), vec_to_list_inj2 in H.
Qed.

(** A signature is accepted exactly when it is the text of the code of the data
    under the key; a key longer than a block counts as its digest. *)
Theorem VerifyHMAC_spec (key data sig : bytes) :
  (VerifyHMAC key data sig = true <-> sig = url_Encode (hmac_Sum key data)) /\
  (VerifyHMAC key data sig = true -> length sig = 43%nat /\ url_Decode sig = Some (hmac_Sum key data)) /\
  ((64 < length key)%nat -> VerifyHMAC key data sig = VerifyHMAC (Sum256 key) data sig).
Proof.
  assert (VerifyHMAC key data sig = true <-> sig = url_Encode (hmac_Sum key data)) as Hv
    by (unfold VerifyHMAC; rewrite bool_decide_eq_true; split; congruence).
  split; [done|]. split.
  - intros ->%Hv. rewrite length_url_Encode, url_Decode_Encode. unfold hmac_Sum. by rewrite length_Sum256.
  - intros Hl. unfold VerifyHMAC, hmac_Sum, hmac_key. rewrite length_Sum256.
    by destruct (Nat.ltb_spec 64 (length key)); [|lia].
Qed.

Lemma VerifyHMAC_spec_witness :
  VerifyHMAC (bytes_of_string "Jefe") (bytes_of_string "data") (url_Encode (hmac_Sum (bytes_of_string "Jefe") (bytes_of_string "data"))) = true /\
  VerifyHMAC (replicate 65 "a"%char) (bytes_of_string "data") [] = VerifyHMAC (Sum256 (replicate 65 "a"%char)) (bytes_of_string "data") [].
Proof.
  split; [by apply (VerifyHMAC_spec (bytes_of_string "Jefe"))|].
  apply (VerifyHMAC_spec (replicate 65 "a"%char) (bytes_of_string "data") []). rewrite length_replicate. lia.
Defined.

(** The opaque tokens of the sessions and of the reviews: 64 hex digits, a text per draw. *)
Theorem opaque_tokens (b b' : vec byte 32) :
  length (bytes_of_string (login_generateOpaqueToken b)) = 64%nat /\
  (login_generateOpaqueToken b = login_generateOpaqueToken b' <-> b = b') /\
  review_generateOpaqueToken (Some b) = Some (login_generateOpaqueToken b) /\
  GenerateOpaqueToken (Some b) = review_generateOpaqueToken (Some b).
Proof.
  unfold login_generateOpaqueToken. rewrite bytes_of_string_of_bytes, length_hex_encode, length_vec_to_list.
  split_and!; try done. split; [|by intros ->]. intros H. apply (f_equal bytes_of_string) in H.
  rewrite !bytes_of_string_of_bytes in H. by apply (inj hex_encode), vec_to_list_inj2 in H.
Qed.
