(* ===== verification/AuditLog.v ===== *)
(** The tamper-evident audit log: [internal/domain/audit.go],
    [internal/adapter/postgres/audit_repository.go], [queries/audit.sql] and the
    audit tables of the migrations.

    Instants are nanoseconds since the epoch (UTC); a table is the list of its
    rows. Every operation is one transaction, and the row lock on
    [audit_chain_locks] serialises those that append for the same tenant. *)

From stdpp Require Import base gmap strings list numbers sorting.
From Stdlib Require Import Ascii.
From S2P Require Import GoPrelude Bytes Uuid Errors Tenancy Sha256.

(** ** Times *)

(** The last [n] decimal digits. *)
Fixpoint pad_dec (n : nat) (z : Z) : bytes :=
  match n with
  | O => []
  | S n => pad_dec n (z / 10) ++ [ascii_of_N (48 + Z.to_N (z mod 10))]
  end.

(** Days since the epoch to year, month, day (proleptic Gregorian). *)
Definition civil_from_days (days : Z) : Z * Z * Z :=
  let z := days + 719468 in
  let era := z / 146097 in
  let doe := z mod 146097 in
  let yoe := (doe - doe / 1460 + doe / 36524 - doe / 146096) / 365 in
  let doy := doe - (365 * yoe + yoe / 4 - yoe / 100) in
  let mp := (5 * doy + 2) / 153 in
  let d := doy - (153 * mp + 2) / 5 + 1 in
  let m := if mp <? 10 then mp + 3 else mp - 9 in
  let y := yoe + era * 400 + (if m <=? 2 then 1 else 0) in
  (y, m, d).

Fixpoint strip_zeros (b : bytes) : bytes :=
  match b with
  | [] => []
  | c :: b' => match strip_zeros b' with
               | [] => if Ascii.eqb c "0"%char then [] else [c]
               | b'' => c :: b''
               end
  end.

Definition colon : byte := ":"%char.
Definition dash : byte := "-"%char.
Definition bar : byte := "|"%char.

(** [t.UTC().Format(time.RFC3339Nano)], for years 0 to 9999. *)
Definition RFC3339Nano (t : Z) : bytes :=
  let secs := t / 1000000000 in
  let '(y, mo, d) := civil_from_days (secs / 86400) in
  let s := secs mod 86400 in
  let frac := strip_zeros (pad_dec 9 (t mod 1000000000)) in
  pad_dec 4 y ++ [dash] ++ pad_dec 2 mo ++ [dash] ++ pad_dec 2 d ++ ["T"%char] ++
  pad_dec 2 (s / 3600) ++ [colon] ++ pad_dec 2 (s / 60 mod 60) ++ [colon] ++ pad_dec 2 (s mod 60) ++
  (match frac with [] => [] | _ => "."%char :: frac end) ++ ["Z"%char].

(** [Truncate(time.Microsecond)] *)
Definition truncate_us (t : Z) : Z := t - t mod 1000.

(** ** JSON

    [json.Unmarshal] into an [interface{}] followed by [json.Marshal] ([None] if
    the text is not JSON), and the text PostgreSQL gives back for a value stored
    in a [jsonb] column ([None] if it refuses it). *)
Class JsonText := {
  json_remarshal : string -> option string;
  jsonb_out : string -> option string;
}.

(** What the log relies on: a marshalled text is not empty and is its own
    canonical form. Nothing is assumed of [jsonb]: it may give back another value
    (it stores the number -0 as 0, which [json.Marshal] writes differently). *)
Class JsonTextLaws `{JsonText} : Prop := {
  remarshal_empty : json_remarshal "{}" = Some "{}";
  remarshal_stable : forall p c, json_remarshal p = Some c -> c <> "" /\ json_remarshal c = Some c;
}.

(** ** Events and rows *)

Record AuditEvent := mkAuditEvent {
  ae_ID : UUID;
  ae_TenantID : UUID;
  ae_Seq : Z;
  ae_PrevHash : bytes;      (* hex text *)
  ae_ChainHash : bytes;     (* hex text *)
  ae_ActorUserID : option UUID;
  ae_Action : string;
  ae_EntityType : string;
  ae_EntityID : option UUID;
  ae_Payload : string;
  ae_Severity : string;
  ae_CreatedAt : Z;
}.

(** A row of [audit_events]; a NULL [prev_hash] is scanned as the empty slice. *)
Record audit_row := mkAuditRow {
  ar_ID : UUID;
  ar_TenantID : UUID;
  ar_Seq : Z;
  ar_ActorType : string;
  ar_ActorID : option UUID;
  ar_Action : string;
  ar_EntityType : option string;
  ar_EntityID : option UUID;
  ar_Payload : string;
  ar_Severity : string;
  ar_PrevHash : bytes;
  ar_Hash : bytes;
  ar_CreatedAt : Z;
}.

Record AuditDb := mkAuditDb { au_rows : list audit_row; au_locks : gset UUID }.

Definition convertSQLCAuditEvent (e : audit_row) : AuditEvent :=
  mkAuditEvent (ar_ID e) (ar_TenantID e) (ar_Seq e) (hex_encode (ar_PrevHash e)) (hex_encode (ar_Hash e))
    (ar_ActorID e) (ar_Action e) (default "" (ar_EntityType e)) (ar_EntityID e) (ar_Payload e)
    (ar_Severity e) (ar_CreatedAt e).

(** ** The hashed text *)

Definition opt_uuid_text (u : option UUID) : bytes :=
  match u with Some u => uuid_text u | None => [] end.

(** The nine fields, separated by bars. *)
Definition chain_text (prevHash : bytes) (seq : Z) (tenant : UUID) (actor : option UUID)
    (action entityType : string) (entity : option UUID) (payload : string) (created : bytes) : bytes :=
  prevHash ++ bar :: FormatInt seq ++ bar :: uuid_text tenant ++ bar :: opt_uuid_text actor ++ bar ::
  bytes_of_string action ++ bar :: bytes_of_string entityType ++ bar :: opt_uuid_text entity ++ bar ::
  bytes_of_string payload ++ bar :: created.

Section Json.
Context `{JsonText}.

Definition canonicalizePayload (payload : string) : option string :=
  if bool_decide (payload = "") then Some "{}" else json_remarshal payload.

(** [ChainInput] hashes the empty object when the payload does not decode. *)
Definition event_payload (payload : string) : string := default "{}" (canonicalizePayload payload).

(** The payload comes back from its [jsonb] column with the canonical text that
    was hashed (or is not stored at all). *)
Definition survives (payload : string) : bool :=
  match canonicalizePayload payload with
  | Some c => match jsonb_out c with Some stored => bool_decide (event_payload stored = c) | None => true end
  | None => true
  end.

Definition ChainInput (a : AuditEvent) : bytes :=
  chain_text (ae_PrevHash a) (ae_Seq a) (ae_TenantID a) (ae_ActorUserID a) (ae_Action a) (ae_EntityType a)
    (ae_EntityID a) (event_payload (ae_Payload a)) (RFC3339Nano (truncate_us (ae_CreatedAt a))).

Definition ComputeChainHash (a : AuditEvent) : bytes := hex_encode (Sum256 (ChainInput a)).

Definition VerifyChainInput (a : AuditEvent) : bool := bool_decide (ae_ChainHash a = ComputeChainHash a).

Definition computeChainInput (prevHash : bytes) (seq : Z) (tenantID : UUID) (actorID : option UUID)
    (action entityType : string) (entityID : option UUID) (payload : string) (createdAt : Z) : bytes :=
  chain_text prevHash seq tenantID actorID action entityType entityID payload
    (RFC3339Nano (truncate_us createdAt)).

(** ** Statements *)

(** [ORDER BY seq ASC], rows of equal key in table order. *)
Fixpoint insert_by_seq (row : audit_row) (l : list audit_row) : list audit_row :=
  match l with
  | [] => [row]
  | r :: l' => if ar_Seq row <=? ar_Seq r then row :: l else r :: insert_by_seq row l'
  end.
Definition order_by_seq (l : list audit_row) : list audit_row := foldr insert_by_seq [] l.

(** [WHERE tenant_id = t] over the rows the connection may see. *)
Definition tenant_rows (env : DbEnv) (c : Conn) (t : UUID) (rows : list audit_row) : list audit_row :=
  List.filter (fun r => rls_visible env c (ar_TenantID r) && bool_decide (ar_TenantID r = t)) rows.

Definition last_row (env : DbEnv) (c : Conn) (t : UUID) (rows : list audit_row) : option audit_row :=
  list.last (order_by_seq (tenant_rows env c t rows)).

Definition getLastEventTx (env : DbEnv) (c : Conn) (t : UUID) (db : AuditDb) : option AuditEvent :=
  convertSQLCAuditEvent <$> last_row env c t (au_rows db).

Definition GetLastEvent (env : DbEnv) (t : UUID) (db : AuditDb) : AuditDb * result error AuditEvent :=
  WithTenantTx env t (fun c db =>
    match getLastEventTx env c t db with
    | Some e => (db, Ok e)
    | None => (db, Err ESqlNoRows)
    end) db.

Definition zero_hash : bytes := replicate 32 (byte_of 0).
Definition genesisHash : bytes := hex_encode zero_hash.

Definition severity_check (s : string) : bool :=
  bool_decide (s = "info") || bool_decide (s = "warn") || bool_decide (s = "critical").

(** The INSERT of [CreateAuditEvent]: the database computes the sequence number
    and the previous hash itself. [id] is the value of [gen_random_uuid()]. *)
Definition CreateAuditEvent (env : DbEnv) (c : Conn) (id tenant : UUID) (actor : option UUID)
    (action : string) (entityType : option string) (entity : option UUID) (payload severity : string)
    (hash : bytes) (createdAt : Z) (db : AuditDb) : AuditDb * result error audit_row :=
  let prev := last_row env c tenant (au_rows db) in
  let seq := match prev with Some p => ar_Seq p | None => 0 end + 1 in
  if negb (rls_visible env c tenant) then (db, Err rls_check_error)
  else if negb (severity_check severity) then (db, Err (EOther "new row violates check constraint"))
  else match jsonb_out payload with
  | None => (db, Err (EOther "invalid input syntax for type json"))
  | Some stored =>
      let row := mkAuditRow id tenant seq "user" actor action entityType entity stored severity
                   (match prev with Some p => ar_Hash p | None => zero_hash end) hash createdAt in
      if existsb (fun r => bool_decide (ar_TenantID r = tenant) &&
                           (bool_decide (ar_Seq r = seq) || bool_decide (ar_ID r = id))) (au_rows db)
      then (db, Err unique_error)
      else if negb (db_tenants env tenant) then (db, Err tenant_fk_error)
      else (mkAuditDb (au_rows db ++ [row]) (au_locks db), Ok row)
  end.

(** [now] is the clock reading, [id] the identifier the database will draw. *)
Definition AppendWithTx (env : DbEnv) (now : Z) (id : UUID) (event : AuditEvent) (c : Conn) (db : AuditDb)
    : AuditDb * result error AuditEvent :=
  let t := ae_TenantID event in
  if negb (rls_visible env c t) then (db, Err (EWrap "failed to ensure lock row" rls_check_error))
  else if bool_decide (t ∉ au_locks db) && negb (db_tenants env t) then (db, Err (EWrap "failed to ensure lock row" tenant_fk_error))
  else
    let db := mkAuditDb (au_rows db) ({[ t ]} ∪ au_locks db) in
    let createdAt := truncate_us now in
    let lastEvent := getLastEventTx env c t db in
    let prevHash := match lastEvent with Some e => ae_ChainHash e | None => genesisHash end in
    let seq := match lastEvent with Some e => ae_Seq e + 1 | None => 1 end in
    match canonicalizePayload (ae_Payload event) with
    | None => (db, Err (EWrap "failed to canonicalize payload" (EOther "invalid JSON")))
    | Some canonicalPayload =>
        let hash := Sum256 (computeChainInput prevHash seq t (ae_ActorUserID event) (ae_Action event)
                      (ae_EntityType event) (ae_EntityID event) canonicalPayload createdAt) in
        let entityType := if bool_decide (ae_EntityType event = "") then None else Some (ae_EntityType event) in
        match CreateAuditEvent env c id t (ae_ActorUserID event) (ae_Action event) entityType
                (ae_EntityID event) canonicalPayload (ae_Severity event) hash createdAt db with
        | (db, Err e) => (db, Err (EWrap "failed to insert audit event" e))
        | (db, Ok created) =>
            if negb (bool_decide (ar_Seq created = seq)) then (db, Err (EOther "sequence mismatch"))
            else if negb (bool_decide (hex_encode (ar_PrevHash created) = prevHash))
            then (db, Err (EOther "prev_hash mismatch"))
            else if negb (bool_decide (truncate_us (ar_CreatedAt created) = createdAt))
            then (db, Err (EOther "created_at mismatch"))
            else (db, Ok (mkAuditEvent (ar_ID created) t (ar_Seq created) (hex_encode (ar_PrevHash created))
                            (hex_encode (ar_Hash created)) (ae_ActorUserID event) (ae_Action event)
                            (ae_EntityType event) (ae_EntityID event) canonicalPayload (ae_Severity event)
                            (ar_CreatedAt created)))
        end
    end.

Definition Append (env : DbEnv) (now : Z) (id : UUID) (event : AuditEvent) (db : AuditDb)
    : AuditDb * result error AuditEvent :=
  WithTenantTx env (ae_TenantID event) (AppendWithTx env now id event) db.

(** ** Queries *)

Record AuditFilter := mkAuditFilter {
  af_TenantID : UUID;
  af_ActorID : option UUID;
  af_Action : string;
  af_EntityType : string;
  af_EntityID : option UUID;
  af_Severity : string;
  af_From : option Z;
  af_To : option Z;
  af_Limit : Z;
  af_Offset : Z;
}.

(** The conditions appended to the WHERE clause for the filters that are set. *)
Definition filter_matches (f : AuditFilter) (r : audit_row) : bool :=
  (match af_From f with Some t => t <=? ar_CreatedAt r | None => true end) &&
  (match af_To f with Some t => ar_CreatedAt r <=? t | None => true end) &&
  (bool_decide (af_Action f = "") || bool_decide (ar_Action r = af_Action f)) &&
  (bool_decide (af_EntityType f = "") || bool_decide (ar_EntityType r = Some (af_EntityType f))) &&
  (match af_ActorID f with Some a => bool_decide (ar_ActorID r = Some a) | None => true end) &&
  (match af_EntityID f with Some e => bool_decide (ar_EntityID r = Some e) | None => true end) &&
  (bool_decide (af_Severity f = "") || bool_decide (ar_Severity r = af_Severity f)).

(** [ORDER BY created_at DESC]. *)
Fixpoint insert_newest (row : audit_row) (l : list audit_row) : list audit_row :=
  match l with
  | [] => [row]
  | r :: l' => if ar_CreatedAt r <=? ar_CreatedAt row then row :: l else r :: insert_newest row l'
  end.

Definition Query (env : DbEnv) (f : AuditFilter) (db : AuditDb) : AuditDb * result error (list AuditEvent) :=
  WithTenantTx env (af_TenantID f) (fun c db =>
    let rows := foldr insert_newest []
                  (List.filter (filter_matches f) (tenant_rows env c (af_TenantID f) (au_rows db))) in
    let rows := if af_Offset f >? 0 then drop (Z.to_nat (af_Offset f)) rows else rows in
    let rows := if af_Limit f >? 0 then take (Z.to_nat (af_Limit f)) rows else rows in
    (db, Ok (map convertSQLCAuditEvent rows))) db.

(** ** Verification *)

Record VerifyResult := mkVerifyResult {
  vr_Valid : bool;
  vr_BrokenSeq : Z;
  vr_TotalSeen : Z;
  vr_Error : option string;
}.

(** The scan; [prev] is what the next row's [prev_hash] must be, and [what] the
    complaint if it is not. *)
Fixpoint verify_loop (prev : bytes) (what : string) (seen : Z) (rows : list audit_row) : VerifyResult :=
  match rows with
  | [] => mkVerifyResult true 0 seen None
  | i :: rows =>
      let seen := seen + 1 in
      let event := convertSQLCAuditEvent i in
      if negb (bool_decide (ar_PrevHash i = prev)) then mkVerifyResult false (ae_Seq event) seen (Some what)
      else if negb (VerifyChainInput event)
      then mkVerifyResult false (ae_Seq event) seen (Some "chain_hash mismatch")
      else verify_loop (ar_Hash i) "prev_hash mismatch" seen rows
  end.

Definition in_range (fromSeq toSeq : Z) (r : audit_row) : bool := (fromSeq <=? ar_Seq r) && (ar_Seq r <=? toSeq).

Definition VerifyChain (env : DbEnv) (tenantID : UUID) (fromSeq toSeq : Z) (db : AuditDb)
    : AuditDb * result error VerifyResult :=
  WithTenantTx env tenantID (fun c db =>
    let rows := order_by_seq (List.filter (in_range fromSeq toSeq) (tenant_rows env c tenantID (au_rows db))) in
    (db, Ok (verify_loop zero_hash "genesis event has invalid prev_hash" 0 rows))) db.
End Json.

(** ** The text determines the fields *)

Lemma pad_dec_no c n z : c ∉ bytes_of_string "0123456789" -> c ∉ pad_dec n z.
Proof.
  intros Hc. revert z. induction n as [|n IH]; intros z; simpl; [apply not_elem_of_nil|].
  rewrite not_elem_of_app, list_elem_of_singleton. split; [apply IH|]. intros ->. apply Hc. simpl.
  pose proof (Z.mod_pos_bound z 10 ltac:(lia)) as Hb.
  assert (Hd : exists k, (k < 10)%nat /\ z mod 10 = Z.of_nat k) by (exists (Z.to_nat (z mod 10)); lia).
  destruct Hd as (k & Hk & ->). rewrite !elem_of_cons.
  do 10 (destruct k as [|k]; [simpl; tauto|]). lia.
Qed.

Lemma strip_zeros_incl c b : c ∈ strip_zeros b -> c ∈ b.
Proof.
  induction b as [|x b IH]; simpl; [done|]. rewrite elem_of_cons.
  destruct (strip_zeros b) as [|y l]; [destruct (Ascii.eqb x "0")|].
  - intros Hc. by apply elem_of_nil in Hc.
  - rewrite list_elem_of_singleton. auto.
  - rewrite elem_of_cons. intros [->|Hc]; auto.
Qed.

Lemma RFC3339Nano_no_bar t : bar ∉ RFC3339Nano t.
Proof.
  assert (Hd : forall n z, bar ∉ pad_dec n z).
  { intros n z. apply pad_dec_no. apply (bool_decide_unpack _). vm_compute. exact I. }
  unfold RFC3339Nano. destruct (civil_from_days _) as [[y mo] d].
  rewrite !not_elem_of_app, !list_elem_of_singleton. repeat split; try apply Hd; try done.
  pose proof (strip_zeros_incl bar (pad_dec 9 (t mod 1000000000))) as Hs.
  destruct (strip_zeros _) as [|x l]; [apply not_elem_of_nil|].
  rewrite not_elem_of_cons. split; [done|]. intros Hin. by apply (Hd 9%nat (t mod 1000000000)), Hs.
Qed.

Lemma uuid_text_no_bar u : bar ∉ uuid_text u.
Proof. by apply uuid_text_no. Qed.

Lemma opt_uuid_text_no_bar u : bar ∉ opt_uuid_text u.
Proof. destruct u; [apply uuid_text_no_bar|apply not_elem_of_nil]. Qed.

Lemma opt_uuid_text_inj u v : opt_uuid_text u = opt_uuid_text v -> u = v.
Proof.
  destruct u as [u|], v as [v|]; simpl; intros E; try done.
  - f_equal. by apply (inj uuid_text).
  - apply (f_equal length) in E. by rewrite length_uuid_text in E.
  - apply (f_equal length) in E. by rewrite length_uuid_text in E.
Qed.

Lemma hex_no_bar b : bar ∉ hex_encode b.
Proof. by apply hex_encode_no. Qed.

Lemma FormatInt_no_bar z : bar ∉ FormatInt z.
Proof. apply FormatInt_no. apply (bool_decide_unpack _). vm_compute. exact I. Qed.

Definition no_bar (s : string) : Prop := bar ∉ bytes_of_string s.

#[export] Hint Resolve RFC3339Nano_no_bar uuid_text_no_bar opt_uuid_text_no_bar hex_no_bar FormatInt_no_bar : gateway.

(** Equal texts have equal fields, as long as the two free-form names have no
    bar in them; the payload may. *)
Lemma chain_text_inj p1 p2 q1 q2 t1 t2 a1 a2 act1 act2 et1 et2 en1 en2 pay1 pay2 c1 c2 :
  no_bar act1 -> no_bar act2 -> no_bar et1 -> no_bar et2 -> bar ∉ c1 -> bar ∉ c2 ->
  chain_text (hex_encode p1) q1 t1 a1 act1 et1 en1 pay1 c1 =
  chain_text (hex_encode p2) q2 t2 a2 act2 et2 en2 pay2 c2 ->
  p1 = p2 /\ q1 = q2 /\ t1 = t2 /\ a1 = a2 /\ act1 = act2 /\ et1 = et2 /\ en1 = en2 /\ pay1 = pay2 /\ c1 = c2.
Proof.
  unfold chain_text. intros Ha1 Ha2 He1 He2 Hc1 Hc2 E.
  apply split_first in E as [E1 E]; [|auto with gateway..].
  apply split_first in E as [E2 E]; [|auto with gateway..].
  apply split_first in E as [E3 E]; [|auto with gateway..].
  apply split_first in E as [E4 E]; [|auto with gateway..].
  apply split_first in E as [E5 E]; [|done..].
  apply split_first in E as [E6 E]; [|done..].
  apply split_first in E as [E7 E]; [|auto with gateway..].
  apply split_last in E as [E8 E9]; [|done..].
  split_and!; [by apply (inj hex_encode)|by apply FormatInt_inj|by apply (inj uuid_text)|
    by apply opt_uuid_text_inj|by apply bytes_of_string_inj|by apply bytes_of_string_inj|
    by apply opt_uuid_text_inj|by apply bytes_of_string_inj|done].
Qed.

(** ** Chains *)

Section Chain.
Context `{JsonTextLaws}.

(** The text of a row with [payload] for its payload, and the text its
    verification hashes, with the payload the column gives back. *)
Definition row_text_as (payload : string) (r : audit_row) : bytes :=
  chain_text (hex_encode (ar_PrevHash r)) (ar_Seq r) (ar_TenantID r) (ar_ActorID r) (ar_Action r)
    (default "" (ar_EntityType r)) (ar_EntityID r) payload (RFC3339Nano (truncate_us (ar_CreatedAt r))).
Definition row_text (r : audit_row) : bytes := ChainInput (convertSQLCAuditEvent r).

Lemma row_text_eq r : row_text r = row_text_as (event_payload (ar_Payload r)) r.
Proof. reflexivity. Qed.

Definition hash_ok (r : audit_row) : Prop := ar_Hash r = Sum256 (row_text r).

(** Every row holds the hash of the row before it. *)
Fixpoint chained (prev : bytes) (rows : list audit_row) : Prop :=
  match rows with
  | [] => True
  | r :: rows => ar_PrevHash r = prev /\ chained (ar_Hash r) rows
  end.

Lemma VerifyChainInput_iff r : VerifyChainInput (convertSQLCAuditEvent r) = true <-> hash_ok r.
Proof.
  unfold VerifyChainInput, ComputeChainHash, hash_ok. rewrite bool_decide_eq_true. simpl. split.
  - intros E. by apply (inj hex_encode) in E.
  - intros E. unfold row_text in E. by rewrite <- E.
Qed.

Lemma verify_loop_valid prev what seen rows :
  vr_Valid (verify_loop prev what seen rows) = true <-> chained prev rows /\ Forall hash_ok rows.
Proof.
  revert prev what seen. induction rows as [|r rows IH]; intros prev what seen; simpl; [by rewrite Forall_nil|].
  rewrite list.Forall_cons, <- VerifyChainInput_iff. case_bool_decide as E; simpl; [|split; [done|tauto]].
  destruct (VerifyChainInput (convertSQLCAuditEvent r)); simpl; [rewrite IH; tauto|].
  split; [done|intros (_ & ? & _); done].
Qed.

(** A chain is scanned up to its first row whose hash is not that of its text. *)
Lemma verify_loop_seen prev what seen rows :
  chained prev rows -> Forall hash_ok rows ->
  verify_loop prev what seen rows = mkVerifyResult true 0 (seen + Z.of_nat (length rows)) None.
Proof.
  revert prev what seen. induction rows as [|r rows IH]; intros prev what seen Hl Hh; cbn [verify_loop].
  - simpl. f_equal. lia.
  - destruct Hl as (Hp & Hl). apply list.Forall_cons in Hh as [Hr Hh]. rewrite bool_decide_true by done. simpl.
    rewrite (proj2 (VerifyChainInput_iff r) Hr). simpl. rewrite IH by done. f_equal. lia.
Qed.

Lemma verify_loop_bad prev what seen rows k r :
  chained prev rows -> rows !! k = Some r -> Forall hash_ok (take k rows) -> ~ hash_ok r ->
  verify_loop prev what seen rows =
    mkVerifyResult false (ar_Seq r) (seen + Z.of_nat k + 1) (Some "chain_hash mismatch").
Proof.
  revert prev what seen k. induction rows as [|x rows IH]; intros prev what seen k Hl Hk Hok Hbad; [done|].
  destruct Hl as (Hp & Hl). cbn [verify_loop]. rewrite bool_decide_true by done. simpl.
  destruct k as [|k]; simpl in Hk.
  - injection Hk as ->. destruct (VerifyChainInput (convertSQLCAuditEvent r)) eqn:E; simpl.
    + by apply VerifyChainInput_iff in E.
    + f_equal. lia.
  - apply list.Forall_cons in Hok as [Hx Hok]. rewrite (proj2 (VerifyChainInput_iff x) Hx). simpl.
    rewrite (IH _ _ _ k) by done. f_equal. lia.
Qed.

Lemma chained_app prev a b :
  chained prev (a ++ b) <-> chained prev a /\ chained (default prev (ar_Hash <$> list.last a)) b.
Proof.
  revert prev. induction a as [|r a IH]; intros prev; simpl; [tauto|].
  rewrite IH. destruct a as [|x a]; [simpl; tauto|].
  change (list.last (r :: x :: a)) with (list.last (x :: a)).
  destruct (list.last (x :: a)) eqn:El; [simpl; tauto|]. by apply last_None in El.
Qed.

(** Two inputs of SHA-256 with one digest, or an input with the all-zero digest:
    what a forger would have to find. *)
Definition collision : Prop := exists x y, x <> y /\ Sum256 x = Sum256 y.
Definition zero_preimage : Prop := exists x, Sum256 x = zero_hash.

(** What the text of a row covers. *)
Definition hashed (r : audit_row) :=
  (ar_PrevHash r, ar_Seq r, ar_TenantID r, ar_ActorID r, ar_Action r, default "" (ar_EntityType r),
   ar_EntityID r, event_payload (ar_Payload r), RFC3339Nano (truncate_us (ar_CreatedAt r))).

Definition plain_names (r : audit_row) : Prop := no_bar (ar_Action r) /\ no_bar (default "" (ar_EntityType r)).

(** What two rows with one text have in common: all that is hashed, up to the
    place of the bars in the two free-form names. *)
Definition same_text (r1 r2 : audit_row) : Prop :=
  row_text r1 = row_text r2 /\
  ar_PrevHash r1 = ar_PrevHash r2 /\ ar_Seq r1 = ar_Seq r2 /\ ar_TenantID r1 = ar_TenantID r2 /\
  ar_ActorID r1 = ar_ActorID r2 /\
  (plain_names r1 -> plain_names r2 -> hashed r1 = hashed r2).

Lemma row_text_same r1 r2 : row_text r1 = row_text r2 -> same_text r1 r2.
Proof.
  intros E. split; [done|]. pose proof E as E'. rewrite !row_text_eq in E'. unfold row_text_as, chain_text in E'.
  apply split_first in E' as [E1 E']; [|auto with gateway..].
  apply split_first in E' as [E2 E']; [|auto with gateway..].
  apply split_first in E' as [E3 E']; [|auto with gateway..].
  apply split_first in E' as [E4 _]; [|auto with gateway..].
  split; [by apply (inj hex_encode)|]. split; [by apply FormatInt_inj|]. split; [by apply (inj uuid_text)|].
  split; [by apply opt_uuid_text_inj|].
  intros [Ha1 He1] [Ha2 He2]. rewrite !row_text_eq in E. unfold row_text_as in E.
  apply chain_text_inj in E as (F1 & F2 & F3 & F4 & F5 & F6 & F7 & F8 & F9); auto with gateway.
  unfold hashed. by rewrite F1, F2, F3, F4, F5, F6, F7, F8, F9.
Qed.

Lemma row_text_as_inj p q r : row_text_as p r = row_text_as q r -> p = q.
Proof.
  unfold row_text_as, chain_text. intros E. do 7 (apply app_inv_head in E; injection E as E).
  apply app_inv_tail in E. by apply bytes_of_string_inj.
Qed.

Lemma chained_snoc prev l r :
  chained prev (l ++ [r]) <-> chained prev l /\ ar_PrevHash r = default prev (ar_Hash <$> list.last l).
Proof. rewrite chained_app. simpl. tauto. Qed.

(** Two chains that verify and end in the same hash are the same chain. *)
Lemma chained_unique l1 l2 :
  chained zero_hash l1 -> chained zero_hash l2 -> Forall hash_ok l1 -> Forall hash_ok l2 ->
  (ar_Hash <$> list.last l1) = (ar_Hash <$> list.last l2) ->
  Forall2 same_text l1 l2 \/ collision \/ zero_preimage.
Proof.
  revert l2. induction l1 as [|r1 l1 IH] using rev_ind; intros l2 H1 H2 P1 P2 Hlast.
  - destruct l2 as [|r2 l2] using rev_ind; [by left|]. by rewrite last_snoc in Hlast.
  - destruct l2 as [|r2 l2 _] using rev_ind; [by rewrite last_snoc in Hlast|].
    rewrite !last_snoc in Hlast. simpl in Hlast. injection Hlast as Hh.
    apply chained_snoc in H1 as (L1 & Hp1). apply chained_snoc in H2 as (L2 & Hp2).
    apply Forall_app in P1 as [P1 Q1]. apply Forall_app in P2 as [P2 Q2].
    rewrite list.Forall_singleton in Q1, Q2. unfold hash_ok in Q1, Q2.
    destruct (decide (row_text r1 = row_text r2)) as [Et|Et].
    2:{ right. left. exists (row_text r1), (row_text r2). split; [done|]. congruence. }
    pose proof (row_text_same _ _ Et) as Heq.
    assert (Hprev : default zero_hash (ar_Hash <$> list.last l1) = default zero_hash (ar_Hash <$> list.last l2)).
    { destruct Heq as (_ & Heq & _). congruence. }
    assert (Hzero : forall l, Forall hash_ok l -> forall x, list.last l = Some x -> ar_Hash x = Sum256 (row_text x)).
    { intros l Hl x Hx. apply last_Some in Hx as [l' ->]. apply Forall_app in Hl as [_ Hl].
      by rewrite list.Forall_singleton in Hl. }
    destruct (list.last l1) as [x1|] eqn:E1, (list.last l2) as [x2|] eqn:E2; simpl in Hprev.
    + destruct (IH l2) as [?|?]; [done..| | |by right]. { rewrite E2. simpl. by rewrite Hprev. }
      left. apply Forall2_app; [done|]. by constructor.
    + right. right. exists (row_text x1). by rewrite <- (Hzero l1).
    + right. right. exists (row_text x2). by rewrite <- (Hzero l2).
    + apply last_None in E1 as ->. apply last_None in E2 as ->. left. by constructor.
Qed.

(** ** Appending *)

Definition rows_of (t : UUID) (db : AuditDb) : list audit_row :=
  List.filter (fun r => bool_decide (ar_TenantID r = t)) (au_rows db).

(** Every tenant's rows are numbered from one and hold each other's hashes. *)
Record audit_ok (db : AuditDb) : Prop := {
  ok_seqs : forall t k r, rows_of t db !! k = Some r -> ar_Seq r = Z.of_nat k + 1;
  ok_chained : forall t, chained zero_hash (rows_of t db);
}.

Lemma tenant_rows_own env t rows :
  tenant_rows env (tx_conn t) t rows = List.filter (fun r => bool_decide (ar_TenantID r = t)) rows.
Proof.
  apply List.filter_ext. intros r. case_bool_decide as E; [|apply andb_false_r].
  rewrite E, rls_visible_own. done.
Qed.

Definition seq_sorted (l : list audit_row) : Prop := StronglySorted (fun a b => ar_Seq a <= ar_Seq b) l.

Lemma order_by_seq_sorted l : seq_sorted l -> order_by_seq l = l.
Proof.
  induction 1 as [|r l Hl IH Hr]; simpl; [done|]. rewrite IH. destruct l as [|x l]; simpl; [done|].
  apply Forall_inv in Hr. destruct (Z.leb_spec (ar_Seq r) (ar_Seq x)); [done|lia].
Qed.

Lemma numbered_sorted l n :
  (forall k r, l !! k = Some r -> ar_Seq r = Z.of_nat k + n) -> seq_sorted l.
Proof.
  revert n. induction l as [|x l IH]; intros n Hn; [constructor|]. constructor.
  - apply (IH (n + 1)). intros k r Hk. rewrite (Hn (S k) r Hk). lia.
  - apply list.Forall_forall. intros r (k & Hk)%list_elem_of_lookup.
    rewrite (Hn 0%nat x eq_refl), (Hn (S k) r Hk). lia.
Qed.

Lemma last_row_own env t db :
  audit_ok db -> last_row env (tx_conn t) t (au_rows db) = list.last (rows_of t db).
Proof.
  intros Hok. unfold last_row. rewrite tenant_rows_own, order_by_seq_sorted; [done|].
  eapply numbered_sorted, ok_seqs, Hok.
Qed.

Lemma last_seq t db r :
  audit_ok db -> list.last (rows_of t db) = Some r -> ar_Seq r = Z.of_nat (length (rows_of t db)).
Proof.
  intros Hok Hl. apply last_Some in Hl as [l' E].
  pose proof (ok_seqs db Hok t (length l') r) as Hs. rewrite E in Hs |- *.
  rewrite Hs, length_app by (by apply list_lookup_middle). simpl. lia.
Qed.

Lemma rows_of_append t rows r locks :
  rows_of t (mkAuditDb (rows ++ [r]) locks) =
  rows_of t (mkAuditDb rows locks) ++ (if bool_decide (ar_TenantID r = t) then [r] else []).
Proof. unfold rows_of. simpl. rewrite List.filter_app. done. Qed.

(** A row that continues its tenant's chain keeps the log a chain. *)
Lemma audit_ok_append rows locks r :
  audit_ok (mkAuditDb rows locks) ->
  ar_Seq r = Z.of_nat (length (rows_of (ar_TenantID r) (mkAuditDb rows locks))) + 1 ->
  ar_PrevHash r = default zero_hash (ar_Hash <$> list.last (rows_of (ar_TenantID r) (mkAuditDb rows locks))) ->
  audit_ok (mkAuditDb (rows ++ [r]) locks).
Proof.
  intros Hok Hseq Hprev. constructor.
  - intros t k x. rewrite rows_of_append. case_bool_decide as E; [|rewrite app_nil_r; apply (ok_seqs _ Hok)].
    subst t. intros [Hk|[Hk Hx]]%lookup_app_Some; [by apply (ok_seqs _ Hok) in Hk|].
    apply list_lookup_singleton_Some in Hx as [Hx <-]. rewrite Hseq. lia.
  - intros t. rewrite rows_of_append. case_bool_decide as E; [|rewrite app_nil_r; apply (ok_chained _ Hok)].
    subst t. apply chained_snoc. split; [apply (ok_chained _ Hok)|done].
Qed.

Lemma truncate_us_idem t : truncate_us (truncate_us t) = truncate_us t.
Proof. unfold truncate_us. rewrite Zminus_mod_idemp_r, Z.sub_diag, Z.mod_0_l by lia. lia. Qed.

Lemma canonical_stable p c : canonicalizePayload p = Some c -> event_payload c = c.
Proof.
  intros Hc. assert (Hr : c <> "" /\ json_remarshal c = Some c).
  { unfold canonicalizePayload in Hc. case_bool_decide; [|by eapply remarshal_stable].
    injection Hc as <-. split; [done|apply remarshal_empty]. }
  destruct Hr as [Hne Hr]. unfold event_payload, canonicalizePayload.
  rewrite bool_decide_false by done. by rewrite Hr.
Qed.

Definition set_locks (db : AuditDb) (l : gset UUID) : AuditDb := mkAuditDb (au_rows db) l.

Lemma audit_ok_locks db l : audit_ok db -> audit_ok (set_locks db l).
Proof. intros [H1 H2]. by constructor. Qed.

(** What a successful append adds. *)
Definition appended (event : AuditEvent) (now : Z) (id : UUID) (prev : option audit_row) (r : audit_row) : Prop :=
  ar_ID r = id /\ ar_TenantID r = ae_TenantID event /\ ar_ActorID r = ae_ActorUserID event /\
  ar_Action r = ae_Action event /\ default "" (ar_EntityType r) = ae_EntityType event /\
  ar_EntityID r = ae_EntityID event /\ ar_Severity r = ae_Severity event /\ ar_CreatedAt r = truncate_us now /\
  ar_PrevHash r = default zero_hash (ar_Hash <$> prev) /\
  exists canonical, canonicalizePayload (ae_Payload event) = Some canonical /\
    jsonb_out canonical = Some (ar_Payload r) /\ ar_Hash r = Sum256 (row_text_as canonical r).

(** The row the INSERT makes for an event, given its predecessor. *)
Definition new_row (event : AuditEvent) (now : Z) (id : UUID) (prev : option audit_row) (canonical stored : string)
    : audit_row :=
  let seq := match prev with Some p => ar_Seq p | None => 0 end + 1 in
  let prevHash := default zero_hash (ar_Hash <$> prev) in
  mkAuditRow id (ae_TenantID event) seq "user" (ae_ActorUserID event) (ae_Action event)
    (if bool_decide (ae_EntityType event = "") then None else Some (ae_EntityType event)) (ae_EntityID event)
    stored (ae_Severity event) prevHash
    (Sum256 (computeChainInput (hex_encode prevHash) seq (ae_TenantID event) (ae_ActorUserID event)
       (ae_Action event) (ae_EntityType event) (ae_EntityID event) canonical (truncate_us now)))
    (truncate_us now).

Lemma new_row_appended event now id prev canonical stored :
  canonicalizePayload (ae_Payload event) = Some canonical -> jsonb_out canonical = Some stored ->
  appended event now id prev (new_row event now id prev canonical stored).
Proof.
  intros Hc Hj.
  assert (Het : default "" (if bool_decide (ae_EntityType event = "") then None else Some (ae_EntityType event)) = ae_EntityType event)
    by (case_bool_decide as E; simpl; congruence).
  unfold appended. simpl. split_and!; try done. exists canonical. split_and!; try done.
  unfold row_text_as, computeChainInput. simpl. by rewrite Het, truncate_us_idem.
Qed.

(** Its own verification succeeds exactly when the payload survives, SHA-256
    collisions apart. *)
Lemma appended_hash_ok event now id prev r :
  appended event now id prev r -> if survives (ae_Payload event) then hash_ok r else ~ hash_ok r \/ collision.
Proof.
  intros (_ & _ & _ & _ & _ & _ & _ & _ & _ & c & Hc & Hj & Hh).
  unfold survives, hash_ok. rewrite Hc, Hj, Hh, row_text_eq. case_bool_decide as E; [by rewrite E|].
  destruct (decide (Sum256 (row_text_as c r) = Sum256 (row_text_as (event_payload (ar_Payload r)) r))); [|by left].
  right. do 2 eexists. split; [|done]. intros E'%row_text_as_inj. congruence.
Qed.

(** In its own tenant's transaction the insertion sees the tenant's whole chain. *)
Lemma CreateAuditEvent_own env id event now prev canonical db :
  audit_ok db -> prev = list.last (rows_of (ae_TenantID event) db) ->
  forall hash db' r,
  CreateAuditEvent env (tx_conn (ae_TenantID event)) id (ae_TenantID event) (ae_ActorUserID event) (ae_Action event)
    (if bool_decide (ae_EntityType event = "") then None else Some (ae_EntityType event)) (ae_EntityID event)
    canonical (ae_Severity event) hash (truncate_us now) db = (db', Ok r) ->
  hash = ar_Hash (new_row event now id prev canonical (default "" (jsonb_out canonical))) ->
  exists stored, jsonb_out canonical = Some stored /\ r = new_row event now id prev canonical stored /\
    db' = mkAuditDb (au_rows db ++ [r]) (au_locks db).
Proof.
  intros Hok Hprev hash db' r. unfold CreateAuditEvent. rewrite rls_visible_own, last_row_own, <- Hprev by done.
  simpl. destruct (severity_check _); simpl; [|done].
  destruct (jsonb_out canonical) as [stored|]; [|done]. destruct (existsb _ _); [done|].
  destruct (db_tenants _ _); simpl; [|done]. intros [= <- <-] ->. exists stored. split; [done|]. unfold new_row. by destruct prev.
Qed.

Lemma AppendWithTx_Ok env now id event db db' e :
  audit_ok db -> AppendWithTx env now id event (tx_conn (ae_TenantID event)) db = (db', Ok e) ->
  audit_ok db' /\ exists r, au_rows db' = au_rows db ++ [r] /\
    appended event now id (list.last (rows_of (ae_TenantID event) db)) r /\
    ar_Seq r = Z.of_nat (length (rows_of (ae_TenantID event) db)) + 1 /\
    ae_Seq e = ar_Seq r /\ ae_ChainHash e = hex_encode (ar_Hash r) /\ VerifyChainInput e = true.
Proof.
  intros Hok. unfold AppendWithTx. rewrite rls_visible_own. simpl.
  destruct (bool_decide _ && negb _); [done|]. set (db0 := mkAuditDb _ _).
  assert (Hok0 : audit_ok db0) by (by apply (audit_ok_locks db)).
  unfold getLastEventTx. rewrite last_row_own by done.
  change (rows_of (ae_TenantID event) db0) with (rows_of (ae_TenantID event) db).
  set (prev := list.last (rows_of (ae_TenantID event) db)).
  destruct (canonicalizePayload (ae_Payload event)) as [canonical|] eqn:Hcan; [|done].
  destruct (CreateAuditEvent _ _ _ _ _ _ _ _ _ _ _ _ _) as [db1 [r|e1]] eqn:Hcr; [|done].
  apply (CreateAuditEvent_own env id event now prev canonical) in Hcr as (stored & Hst & -> & ->);
    [|done|done|by destruct prev].
  pose proof (new_row_appended event now id prev canonical stored Hcan Hst) as Hnew.
  assert (Hseq : ar_Seq (new_row event now id prev canonical stored) = Z.of_nat (length (rows_of (ae_TenantID event) db)) + 1).
  { simpl. destruct prev as [p|] eqn:Ep; [by rewrite (last_seq _ _ _ Hok Ep)|].
    subst prev. apply last_None in Ep. by rewrite Ep. }
  intros Hret. split.
  - assert (db' = mkAuditDb (au_rows db0 ++ [new_row event now id prev canonical stored]) (au_locks db0)) as -> by (run_guards).
    destruct Hnew as (_ & _ & _ & _ & _ & _ & _ & _ & Hp & _). by apply audit_ok_append.
  - exists (new_row event now id prev canonical stored).
    assert (Hdb : au_rows db' = au_rows db ++ [new_row event now id prev canonical stored]) by (run_guards).
    split; [done|]. split; [done|]. split; [done|].
    repeat (destruct (negb (bool_decide _)); [done|]). injection Hret as _ <-.
    split; [done|]. split; [done|]. unfold VerifyChainInput, ComputeChainHash. apply bool_decide_eq_true. simpl.
    f_equal. f_equal. unfold ChainInput, computeChainInput. simpl.
    rewrite truncate_us_idem. f_equal. symmetry. by eapply canonical_stable.
Qed.

Lemma Append_spec env now id event db db' res :
  audit_ok db -> Append env now id event db = (db', res) ->
  audit_ok db' /\
  match res with
  | Err _ => au_rows db' = au_rows db
  | Ok e => exists r, au_rows db' = au_rows db ++ [r] /\
      appended event now id (list.last (rows_of (ae_TenantID event) db)) r /\
      ar_Seq r = Z.of_nat (length (rows_of (ae_TenantID event) db)) + 1 /\
      ae_Seq e = ar_Seq r /\ ae_ChainHash e = hex_encode (ar_Hash r) /\ VerifyChainInput e = true
  end.
Proof.
  intros Hok Happ. unfold Append in Happ.
  destruct res as [e|e].
  2:{ apply WithTenantTx_rollback in Happ as ->. done. }
  unfold WithTenantTx in Happ. destruct (db_outage env); [done|].
  destruct (AppendWithTx env now id event (tx_conn (ae_TenantID event)) db) as [db1 [e1|e1]] eqn:E; [|done].
  injection Happ as <- <-. revert E. apply AppendWithTx_Ok, Hok.
Qed.
End Chain.

(** ** Properties *)

Section Properties.
Context `{JsonTextLaws}.

Definition empty_db : AuditDb := mkAuditDb [] ∅.

(** A history of appends: clock reading, identifier drawn and event of each. *)
Fixpoint append_all (env : DbEnv) (ops : list (Z * UUID * AuditEvent)) (db : AuditDb) : AuditDb :=
  match ops with
  | [] => db
  | (now, id, event) :: ops => append_all env ops (fst (Append env now id event db))
  end.

(** The events among them that were stored, in order. *)
Fixpoint accepted (env : DbEnv) (ops : list (Z * UUID * AuditEvent)) (db : AuditDb) : list AuditEvent :=
  match ops with
  | [] => []
  | (now, id, event) :: ops =>
      let '(db', res) := Append env now id event db in
      match res with Ok _ => [event] | Err _ => [] end ++ accepted env ops db'
  end.

Definition of_tenant (t : UUID) (events : list AuditEvent) : list AuditEvent :=
  List.filter (fun e => bool_decide (ae_TenantID e = t)) events.

(** The verdict on a log of these events: the place of the first whose payload
    does not survive decides. *)
Definition log_verdict (events : list AuditEvent) : VerifyResult :=
  match list_find (fun e => survives (ae_Payload e) = false) events with
  | None => mkVerifyResult true 0 (Z.of_nat (length events)) None
  | Some (k, _) => mkVerifyResult false (Z.of_nat k + 1) (Z.of_nat k + 1) (Some "chain_hash mismatch")
  end.

Definition verifies_as (e : AuditEvent) (r : audit_row) : Prop :=
  if survives (ae_Payload e) then hash_ok r else ~ hash_ok r \/ collision.

Lemma append_all_ok env ops db : audit_ok db -> audit_ok (append_all env ops db).
Proof.
  revert db. induction ops as [|[[now id] event] ops IH]; intros db Hok; simpl; [done|].
  apply IH. destruct (Append env now id event db) as [db' res] eqn:E.
  by apply Append_spec in E as [? _].
Qed.

Lemma empty_db_ok : audit_ok empty_db.
Proof. by constructor. Qed.

(** Every row of a log is that of one stored event, in order. *)
Lemma append_all_rows env ops db t events :
  audit_ok db -> Forall2 verifies_as events (rows_of t db) ->
  Forall2 verifies_as (events ++ of_tenant t (accepted env ops db)) (rows_of t (append_all env ops db)).
Proof.
  revert db events. induction ops as [|[[now id] event] ops IH]; intros db events Hok Hall; simpl.
  { by rewrite app_nil_r. }
  destruct (Append env now id event db) as [db' res] eqn:E. simpl. apply Append_spec in E as [Hok' E]; [|done].
  unfold of_tenant. rewrite List.filter_app, app_assoc. apply IH; [done|].
  destruct res as [e|e]; simpl; [|unfold rows_of in *; by rewrite E, app_nil_r].
  destruct E as (r & E & Happ & _). unfold rows_of in *. rewrite E, List.filter_app. simpl.
  pose proof Happ as (_ & -> & _). case_bool_decide; [|by rewrite !app_nil_r].
  apply Forall2_app; [done|]. constructor; [|done]. by eapply appended_hash_ok.
Qed.

Lemma verify_loop_surviving prev what events rows :
  chained prev rows -> Forall2 verifies_as events rows -> Forall (fun e => survives (ae_Payload e) = true) events ->
  verify_loop prev what 0 rows = mkVerifyResult true 0 (Z.of_nat (length events)) None.
Proof.
  intros Hl Hall Hs. rewrite verify_loop_seen; [by rewrite Z.add_0_l, (Forall2_length _ _ _ Hall)|done|].
  apply Forall_lookup. intros i x Hx. destruct (Forall2_lookup_r _ _ _ _ _ Hall Hx) as (y & Hy & Hv).
  unfold verifies_as in Hv. by rewrite (Forall_lookup_1 _ _ _ _ Hs Hy) in Hv.
Qed.

Lemma verify_loop_verdict prev what events rows :
  chained prev rows -> (forall k r, rows !! k = Some r -> ar_Seq r = Z.of_nat k + 1) ->
  Forall2 verifies_as events rows ->
  verify_loop prev what 0 rows = log_verdict events \/ collision.
Proof.
  intros Hl Hs Hall. unfold log_verdict. destruct (list_find _ events) as [[k e]|] eqn:Hf.
  - apply list_find_Some in Hf as (He & Hbad & Hbefore).
    destruct (Forall2_lookup_l _ _ _ _ _ Hall He) as (r & Hr & Hv). unfold verifies_as in Hv. rewrite Hbad in Hv.
    destruct Hv as [Hv|]; [|by right]. left. rewrite (verify_loop_bad _ _ _ _ k r); [|done..| |done].
    { by rewrite (Hs k r Hr), Z.add_0_l. }
    apply Forall_lookup. intros i x [Hx Hi]%lookup_take_Some.
    destruct (Forall2_lookup_r _ _ _ _ _ Hall Hx) as (y & Hy & Hv'). unfold verifies_as in Hv'.
    destruct (survives (ae_Payload y)) eqn:Ey; [done|]. by apply (Hbefore i y) in Hi.
  - left. apply verify_loop_surviving; [done..|]. apply list_find_None in Hf.
    eapply list.Forall_impl; [exact Hf|]. intros y. simpl. by destruct (survives (ae_Payload y)).
Qed.

(** The rows a verification of the range scans. *)
Definition scanned (env : DbEnv) (t : UUID) (fromSeq toSeq : Z) (db : AuditDb) : list audit_row :=
  order_by_seq (List.filter (in_range fromSeq toSeq) (tenant_rows env (tx_conn t) t (au_rows db))).

Lemma VerifyChain_scanned env t fromSeq toSeq db :
  db_outage env = None ->
  VerifyChain env t fromSeq toSeq db =
    (db, Ok (verify_loop zero_hash "genesis event has invalid prev_hash" 0 (scanned env t fromSeq toSeq db))).
Proof. intros Ho. unfold VerifyChain, WithTenantTx. by rewrite Ho. Qed.

(** In a chained log a range is a stretch of the chain. *)
Lemma filter_range_numbered l n fromSeq toSeq :
  (forall k r, l !! k = Some r -> ar_Seq r = Z.of_nat k + n) ->
  List.filter (in_range fromSeq toSeq) l =
  take (Z.to_nat (toSeq - n + 1) - Z.to_nat (fromSeq - n)) (drop (Z.to_nat (fromSeq - n)) l).
Proof.
  revert n. induction l as [|x l IH]; intros n Hn; [by rewrite drop_nil, take_nil|].
  assert (Hx : ar_Seq x = n) by (rewrite (Hn 0%nat x eq_refl); lia).
  assert (Hl : forall k r, l !! k = Some r -> ar_Seq r = Z.of_nat k + (n + 1))
    by (intros k r Hk; rewrite (Hn (S k) r Hk); lia).
  cbn [List.filter]. rewrite (IH _ Hl). unfold in_range. rewrite Hx.
  destruct (Z.leb_spec fromSeq n), (Z.leb_spec n toSeq); simpl.
  - replace (Z.to_nat (fromSeq - n)) with 0%nat by lia. replace (Z.to_nat (fromSeq - (n + 1))) with 0%nat by lia.
    replace (Z.to_nat (toSeq - n + 1) - 0)%nat with (S (Z.to_nat (toSeq - (n + 1) + 1) - 0)) by lia. done.
  - replace (Z.to_nat (toSeq - n + 1)) with 0%nat by lia.
    replace (Z.to_nat (toSeq - (n + 1) + 1)) with 0%nat by lia. by rewrite !take_0.
  - replace (Z.to_nat (fromSeq - n)) with (S (Z.to_nat (fromSeq - (n + 1)))) by lia. simpl. f_equal. lia.
  - replace (Z.to_nat (toSeq - n + 1)) with 0%nat by lia.
    replace (Z.to_nat (toSeq - (n + 1) + 1)) with 0%nat by lia. by rewrite !take_0.
Qed.

Lemma take_drop_sorted l i j : seq_sorted l -> seq_sorted (take i (drop j l)).
Proof.
  intros Hs. unfold seq_sorted in *.
  assert (Hd : StronglySorted (fun a b => ar_Seq a <= ar_Seq b) (drop j l)).
  { rewrite <- (take_drop j l) in Hs. by apply StronglySorted_app in Hs as (_ & _ & ?). }
  rewrite <- (take_drop i (drop j l)) in Hd. by apply StronglySorted_app in Hd as (_ & ? & _).
Qed.

Lemma scanned_ok env t fromSeq toSeq db :
  audit_ok db ->
  scanned env t fromSeq toSeq db =
  take (Z.to_nat toSeq - Z.to_nat (fromSeq - 1)) (drop (Z.to_nat (fromSeq - 1)) (rows_of t db)).
Proof.
  intros Hok. unfold scanned. rewrite tenant_rows_own. fold (rows_of t db).
  rewrite (filter_range_numbered _ 1) by (apply (ok_seqs _ Hok)).
  replace (toSeq - 1 + 1) with toSeq by lia. apply order_by_seq_sorted, take_drop_sorted.
  eapply numbered_sorted, ok_seqs, Hok.
Qed.

Lemma scanned_full env t toSeq db :
  audit_ok db -> Z.of_nat (length (rows_of t db)) <= toSeq -> scanned env t 1 toSeq db = rows_of t db.
Proof. intros Hok Hto. rewrite scanned_ok by done. simpl. rewrite drop_0. apply take_ge. lia. Qed.
End Properties.

(** The verdict on a log made by appends alone. *)
Lemma verify_appended `{JsonTextLaws} env ops t toSeq :
  db_outage env = None ->
  let db := append_all env ops empty_db in
  let events := of_tenant t (accepted env ops empty_db) in
  Z.of_nat (length events) <= toSeq ->
  length (rows_of t db) = length events /\
  (Forall (fun e => survives (ae_Payload e) = true) events ->
   snd (VerifyChain env t 1 toSeq db) = Ok (mkVerifyResult true 0 (Z.of_nat (length events)) None)) /\
  (snd (VerifyChain env t 1 toSeq db) = Ok (log_verdict events) \/ collision).
Proof.
  intros Ho db events Hto. assert (Hok : audit_ok db) by apply append_all_ok, empty_db_ok.
  assert (Hall : Forall2 verifies_as events (rows_of t db)).
  { apply (append_all_rows env ops empty_db t []); [apply empty_db_ok|constructor]. }
  pose proof (Forall2_length _ _ _ Hall) as Hlen. split; [done|].
  rewrite VerifyChain_scanned by done. simpl. rewrite scanned_full by (rewrite <- ?Hlen; done). split.
  - intros Hs. by rewrite (verify_loop_surviving _ _ events) by (done || apply (ok_chained _ Hok)).
  - destruct (verify_loop_verdict zero_hash "genesis event has invalid prev_hash" events (rows_of t db)) as [->|];
      [apply (ok_chained _ Hok)|apply (ok_seqs _ Hok)|done|by left|by right].
Qed.

(** C10: whatever events were appended for whatever tenants, in any order and with
    any failures, the log holds for a tenant one row per append of its own that
    succeeded. When each of their payloads survives its [jsonb] column (reads back
    with the canonical text that was hashed), verifying the whole log reports it
    valid and counts exactly those events. Otherwise, although nothing was tampered
    with, it reports the log broken at the first event whose payload does not
    survive, or a SHA-256 collision has been found. *)
Theorem audit_log_verifies `{JsonTextLaws} (env : DbEnv) (ops : list (Z * UUID * AuditEvent)) (t : UUID) (toSeq : Z) :
  db_outage env = None ->
  let db := append_all env ops empty_db in
  let events := of_tenant t (accepted env ops empty_db) in
  Z.of_nat (length events) <= toSeq ->
  length (rows_of t db) = length events /\
  (Forall (fun e => survives (ae_Payload e) = true) events ->
   snd (VerifyChain env t 1 toSeq db) = Ok (mkVerifyResult true 0 (Z.of_nat (length events)) None)) /\
  (snd (VerifyChain env t 1 toSeq db) =
     Ok (match list_find (fun e => survives (ae_Payload e) = false) events with
         | None => mkVerifyResult true 0 (Z.of_nat (length events)) None
         | Some (k, _) =>
             mkVerifyResult false (Z.of_nat k + 1) (Z.of_nat k + 1) (Some "chain_hash mismatch")
         end) \/ collision).
Proof. apply verify_appended. Qed.

(** in a numbered and chained log an append either fails and stores nothing, or
    stores exactly one row: the event's own fields, what [jsonb] makes of the
    canonical payload and the truncated time, the next sequence number of its
    tenant, the hash of the row before it, and the hash of its own text with the
    canonical payload; the event handed back verifies and the log stays numbered
    and chained. *)
Theorem audit_append_exact `{JsonTextLaws} (env : DbEnv) (now : Z) (id : UUID) (event : AuditEvent) (db : AuditDb) :
  audit_ok db ->
  let '(db', res) := Append env now id event db in
  audit_ok db' /\
  match res with
  | Err _ => au_rows db' = au_rows db
  | Ok e => exists r, au_rows db' = au_rows db ++ [r] /\
      appended event now id (list.last (rows_of (ae_TenantID event) db)) r /\
      ar_Seq r = Z.of_nat (length (rows_of (ae_TenantID event) db)) + 1 /\
      ae_Seq e = ar_Seq r /\ ae_ChainHash e = hex_encode (ar_Hash r) /\ VerifyChainInput e = true
  end.
Proof.
  intros Hok. destruct (Append env now id event db) as [db' res] eqn:E. by apply Append_spec in E.
Qed.

(** C8: tampering shows: if two states of the table both verify for a tenant and
    range and their last rows carry the same hash, then they have the same
    number of rows there and agree row by row on the text that is hashed, and so
    on the previous hash, sequence number, tenant and actor; on rows whose action
    and entity type contain no bar they agree also on the action, the entity type,
    the entity, the canonical payload and the time. Or else a SHA-256 collision or
    a preimage of the all-zero digest has been found. (A bar in the action or the
    entity type makes the boundary between the fields after the actor ambiguous.) *)
Theorem audit_tamper_evident `{JsonText} (env : DbEnv) (t : UUID) (fromSeq toSeq : Z) (db1 db2 : AuditDb)
    (r1 r2 : VerifyResult) :
  snd (VerifyChain env t fromSeq toSeq db1) = Ok r1 -> vr_Valid r1 = true ->
  snd (VerifyChain env t fromSeq toSeq db2) = Ok r2 -> vr_Valid r2 = true ->
  (ar_Hash <$> list.last (scanned env t fromSeq toSeq db1)) = (ar_Hash <$> list.last (scanned env t fromSeq toSeq db2)) ->
  Forall2 (fun a b =>
      row_text a = row_text b /\
      ar_PrevHash a = ar_PrevHash b /\ ar_Seq a = ar_Seq b /\ ar_TenantID a = ar_TenantID b /\
      ar_ActorID a = ar_ActorID b /\
      (plain_names a -> plain_names b -> hashed a = hashed b))
    (scanned env t fromSeq toSeq db1) (scanned env t fromSeq toSeq db2) \/
  collision \/ zero_preimage.
Proof.
  destruct (db_outage env) as [e|] eqn:Ho.
  { unfold VerifyChain, WithTenantTx. rewrite Ho. done. }
  rewrite !VerifyChain_scanned by done. simpl. intros [= <-] H1 [= <-] H2 Hlast.
  apply verify_loop_valid in H1 as [H1 P1], H2 as [H2 P2]. by apply chained_unique.
Qed.

(** verifying a range that does not start at the first event reports any
    log made by appends as broken at its first row, whose previous hash is that of the event
    before it and not the genesis value. *)
Theorem verify_from_middle_reports_broken `{JsonTextLaws} (env : DbEnv) (t : UUID) (fromSeq toSeq : Z) (db : AuditDb)
    (p : audit_row) :
  db_outage env = None -> audit_ok db -> 1 < fromSeq <= toSeq -> fromSeq <= Z.of_nat (length (rows_of t db)) ->
  rows_of t db !! Z.to_nat (fromSeq - 2) = Some p -> ar_Hash p <> zero_hash ->
  snd (VerifyChain env t fromSeq toSeq db) =
    Ok (mkVerifyResult false fromSeq 1 (Some "genesis event has invalid prev_hash")).
Proof.
  intros Ho Hok Hft Hlen Hp Hz. rewrite VerifyChain_scanned by done. simpl. rewrite scanned_ok by done.
  destruct (lookup_lt_is_Some_2 (rows_of t db) (Z.to_nat (fromSeq - 1))) as [r Hr]; [lia|].
  rewrite (drop_S _ r) by done.
  replace (Z.to_nat toSeq - Z.to_nat (fromSeq - 1))%nat with (S (Z.to_nat toSeq - Z.to_nat (fromSeq - 1) - 1)) by lia.
  cbn [take verify_loop]. rewrite bool_decide_false; simpl.
  - rewrite (ok_seqs _ Hok _ _ _ Hr). do 2 f_equal. lia.
  - pose proof (ok_chained _ Hok t) as Hl. rewrite <- (take_drop (Z.to_nat (fromSeq - 1)) (rows_of t db)) in Hl.
    apply chained_app in Hl as [_ Hl]. rewrite (drop_S _ r) in Hl by done. destruct Hl as [Hpr _]. rewrite Hpr.
    rewrite last_lookup, length_take, Nat.min_l by lia.
    replace (pred (Z.to_nat (fromSeq - 1))) with (Z.to_nat (fromSeq - 2)) by lia.
    rewrite lookup_take_lt, Hp by lia. done.
Qed.

(** ** What the chain does not cover *)

Section BlindSpots.
Context `{JsonTextLaws}.

(** A row with another identifier, actor type and severity. *)
Definition relabel (f : audit_row -> UUID * string * string) (r : audit_row) : audit_row :=
  let '(id, actorType, severity) := f r in
  mkAuditRow id (ar_TenantID r) (ar_Seq r) actorType (ar_ActorID r) (ar_Action r) (ar_EntityType r)
    (ar_EntityID r) (ar_Payload r) severity (ar_PrevHash r) (ar_Hash r) (ar_CreatedAt r).

Lemma relabel_seq f r : ar_Seq (relabel f r) = ar_Seq r.
Proof. unfold relabel. by destruct (f r) as [[? ?] ?]. Qed.
Lemma relabel_tenant f r : ar_TenantID (relabel f r) = ar_TenantID r.
Proof. unfold relabel. by destruct (f r) as [[? ?] ?]. Qed.

Lemma filter_map_comm {A B} (g : A -> B) (p : B -> bool) (q : A -> bool) l :
  (forall x, p (g x) = q x) -> List.filter p (map g l) = map g (List.filter q l).
Proof.
  intros Hpq. induction l as [|x l IH]; simpl; [done|]. rewrite Hpq. destruct (q x); simpl; by rewrite IH.
Qed.

Lemma order_by_seq_map f l : order_by_seq (map (relabel f) l) = map (relabel f) (order_by_seq l).
Proof.
  induction l as [|r l IH]; simpl; [done|]. fold (order_by_seq (map (relabel f) l)). rewrite IH.
  fold (order_by_seq l). generalize (order_by_seq l). clear. intros l.
  induction l as [|x l IH]; simpl; [done|]. rewrite !relabel_seq.
  destruct (ar_Seq r <=? ar_Seq x); simpl; [done|]. by rewrite IH.
Qed.

Lemma verify_loop_relabel f prev what seen rows :
  verify_loop prev what seen (map (relabel f) rows) = verify_loop prev what seen rows.
Proof.
  revert prev what seen. induction rows as [|r rows IH]; intros prev what seen; simpl; [done|].
  rewrite IH. unfold relabel. destruct (f r) as [[id aty] sev]. reflexivity.
Qed.

Lemma scanned_relabel env t fromSeq toSeq db f :
  scanned env t fromSeq toSeq (mkAuditDb (map (relabel f) (au_rows db)) (au_locks db)) =
  map (relabel f) (scanned env t fromSeq toSeq db).
Proof.
  unfold scanned, tenant_rows. simpl.
  rewrite (filter_map_comm _ _ (fun r => rls_visible env (tx_conn t) (ar_TenantID r) && bool_decide (ar_TenantID r = t)))
    by (intros r; by rewrite relabel_tenant).
  rewrite (filter_map_comm _ _ (in_range fromSeq toSeq)) by (intros r; unfold in_range; by rewrite relabel_seq).
  apply order_by_seq_map.
Qed.

Lemma rows_of_take n t db :
  exists k, rows_of t (mkAuditDb (take n (au_rows db)) (au_locks db)) = take k (rows_of t db).
Proof.
  unfold rows_of. simpl. generalize (au_rows db). intros l. revert n.
  induction l as [|r l IH]; intros [|n]; simpl; try (by exists 0%nat).
  destruct (IH n) as [k Hk]. rewrite Hk. case_bool_decide; [by exists (S k)|by exists k].
Qed.

Lemma audit_ok_take n db : audit_ok db -> audit_ok (mkAuditDb (take n (au_rows db)) (au_locks db)).
Proof.
  intros Hok. constructor; intros t; destruct (rows_of_take n t db) as [k ->].
  - intros i r [Hi _]%lookup_take_Some. by apply (ok_seqs _ Hok) in Hi.
  - pose proof (ok_chained _ Hok t) as Hl. rewrite <- (take_drop k (rows_of t db)) in Hl.
    by apply chained_app in Hl as [? _].
Qed.

Lemma hash_ok_take n t db :
  Forall hash_ok (rows_of t db) -> Forall hash_ok (rows_of t (mkAuditDb (take n (au_rows db)) (au_locks db))).
Proof. intros Hh. destruct (rows_of_take n t db) as [k ->]. by apply Forall_take. Qed.
End BlindSpots.

(** verification cannot see three kinds of change: another identifier, actor
    type or severity on any rows; the removal of the newest rows of a log that verifies;
    and text moved between the action and the entity type across a bar, for two
    events with different actions can have the same hashed text. *)
Theorem audit_chain_blind_spots `{JsonText} (env : DbEnv) (db : AuditDb) (t : UUID) :
  db_outage env = None ->
  (forall f fromSeq toSeq,
     snd (VerifyChain env t fromSeq toSeq (mkAuditDb (map (relabel f) (au_rows db)) (au_locks db))) =
     snd (VerifyChain env t fromSeq toSeq db)) /\
  (audit_ok db -> Forall hash_ok (rows_of t db) -> forall n toSeq, Z.of_nat (length (au_rows db)) <= toSeq ->
     exists seen, snd (VerifyChain env t 1 toSeq (mkAuditDb (take n (au_rows db)) (au_locks db))) =
       Ok (mkVerifyResult true 0 seen None)) /\
  (forall e : AuditEvent, exists e' : AuditEvent,
     no_bar (ae_Action e) -> ae_Action e' <> ae_Action e /\
       ChainInput e' = ChainInput (mkAuditEvent (ae_ID e) (ae_TenantID e) (ae_Seq e) (ae_PrevHash e) (ae_ChainHash e)
         (ae_ActorUserID e) (ae_Action e) ("x|" +:+ ae_EntityType e) (ae_EntityID e) (ae_Payload e)
         (ae_Severity e) (ae_CreatedAt e))).
Proof.
  intros Ho. split; [|split].
  - intros f fromSeq toSeq. rewrite !VerifyChain_scanned by done. simpl. f_equal.
    rewrite scanned_relabel. apply verify_loop_relabel.
  - intros Hok Hh n toSeq Hto. apply (audit_ok_take n) in Hok. eexists.
    rewrite VerifyChain_scanned by done. simpl. rewrite scanned_full; [|done|].
    + rewrite verify_loop_seen; [done|apply (ok_chained _ Hok)|by apply hash_ok_take].
    + unfold rows_of. simpl. etrans; [|exact Hto]. apply Nat2Z.inj_le.
      etrans; [apply List.filter_length_le|]. rewrite length_take. lia.
  - intros e. exists (mkAuditEvent (ae_ID e) (ae_TenantID e) (ae_Seq e) (ae_PrevHash e) (ae_ChainHash e)
      (ae_ActorUserID e) (ae_Action e +:+ "|x") (ae_EntityType e) (ae_EntityID e) (ae_Payload e)
      (ae_Severity e) (ae_CreatedAt e)). intros Hno. split.
    + simpl. intros E. apply (f_equal bytes_of_string) in E. rewrite bytes_of_string_app in E.
      apply Hno. rewrite <- E. apply elem_of_app. right. by left.
    + unfold ChainInput, chain_text. simpl. rewrite !bytes_of_string_app, <- !app_assoc. done.
Qed.

(** ** Concrete instances *)

(** Payloads that are already canonical; the database keeps them as they are, but
    for the number -0, which it stores as 0. *)
#[local] Instance plain_json : JsonText := {
  json_remarshal p := if bool_decide (p = "") then None else Some p;
  jsonb_out p := Some (if bool_decide (p = "-0") then "0" else p);
}.
#[local] Instance plain_json_laws : JsonTextLaws.
Proof.
  constructor.
  - done.
  - simpl. intros p c. case_bool_decide as E; [done|]. intros [= <-]. by rewrite bool_decide_false.
Qed.

Definition ex_audit_env : DbEnv := mkDbEnv false ESqlNoRows None (fun _ => true).
Definition ex_event (tenant : UUID) (action : string) : AuditEvent :=
  mkAuditEvent ZeroUUID tenant 0 [] [] (Some (uuid_n 7)) action "http_request" None "" "info" 0.
Definition ex_ops : list (Z * UUID * AuditEvent) :=
  [(1700000000123456789, uuid_n 21, ex_event (uuid_n 1) "GET /a");
   (1700000001000000000, uuid_n 22, ex_event (uuid_n 2) "GET /b");
   (1700000002000000000, uuid_n 23, ex_event (uuid_n 1) "GET /c")].
Definition ex_db : AuditDb := append_all ex_audit_env ex_ops empty_db.

Lemma ex_db_ok : audit_ok ex_db.
Proof. apply append_all_ok, empty_db_ok. Qed.

Lemma ex_db_rows : length (rows_of (uuid_n 1) ex_db) = 2%nat.
Proof. vm_compute. reflexivity. Qed.

(** The same log with an event in the middle whose payload is the number -0. *)
Definition ex_zero_ops : list (Z * UUID * AuditEvent) :=
  let e := ex_event (uuid_n 1) "GET /z" in
  take 1 ex_ops ++
  [(1700000001500000000, uuid_n 25, mkAuditEvent (ae_ID e) (ae_TenantID e) 0 [] [] (ae_ActorUserID e) (ae_Action e)
     (ae_EntityType e) None "-0" "info" 0)] ++ drop 1 ex_ops.

Lemma ex_db_accepted : of_tenant (uuid_n 1) (accepted ex_audit_env ex_ops empty_db) =
  [ex_event (uuid_n 1) "GET /a"; ex_event (uuid_n 1) "GET /c"].
Proof. vm_compute. reflexivity. Qed.

Lemma ex_zero_verdict : let events := of_tenant (uuid_n 1) (accepted ex_audit_env ex_zero_ops empty_db) in
  length events = 3%nat /\ log_verdict events = mkVerifyResult false 2 2 (Some "chain_hash mismatch").
Proof. vm_compute. split; reflexivity. Qed.

Lemma audit_log_verifies_witness :
  snd (VerifyChain ex_audit_env (uuid_n 1) 1 100 ex_db) = Ok (mkVerifyResult true 0 2 None) /\
  (snd (VerifyChain ex_audit_env (uuid_n 1) 1 100 (append_all ex_audit_env ex_zero_ops empty_db)) =
     Ok (mkVerifyResult false 2 2 (Some "chain_hash mismatch")) \/ collision).
Proof.
  split.
  - pose proof (audit_log_verifies ex_audit_env ex_ops (uuid_n 1) 100 eq_refl) as Hv. cbn zeta in Hv.
    rewrite ex_db_accepted in Hv. apply Hv; [vm_compute; discriminate|].
    repeat (constructor; [vm_compute; reflexivity|]). constructor.
  - destruct ex_zero_verdict as [Hlen Hv].
    rewrite <- Hv. apply (audit_log_verifies ex_audit_env ex_zero_ops (uuid_n 1) 100 eq_refl). rewrite Hlen. lia.
Defined.

Lemma audit_append_exact_witness :
  let '(db', res) := Append ex_audit_env 5000 (uuid_n 24) (ex_event (uuid_n 1) "GET /d") ex_db in audit_ok db'.
Proof.
  pose proof (audit_append_exact ex_audit_env 5000 (uuid_n 24) (ex_event (uuid_n 1) "GET /d") ex_db ex_db_ok) as Ha.
  destruct (Append _ _ _ _ ex_db) as [db' res]. apply Ha.
Defined.

Lemma ex_db_hashes : Forall hash_ok (rows_of (uuid_n 1) ex_db).
Proof.
  assert (Hv : vr_Valid (verify_loop zero_hash "" 0 (rows_of (uuid_n 1) ex_db)) = true) by (vm_compute; reflexivity).
  by apply verify_loop_valid in Hv as [_ Hv].
Qed.

Lemma audit_tamper_evident_witness :
  Forall2 (fun a b => row_text a = row_text b /\ ar_PrevHash a = ar_PrevHash b /\ ar_Seq a = ar_Seq b /\
      ar_TenantID a = ar_TenantID b /\ ar_ActorID a = ar_ActorID b /\
      (plain_names a -> plain_names b -> hashed a = hashed b))
    (scanned ex_audit_env (uuid_n 1) 1 100 ex_db) (scanned ex_audit_env (uuid_n 1) 1 100 ex_db) \/
  collision \/ zero_preimage.
Proof.
  assert (Hv : snd (VerifyChain ex_audit_env (uuid_n 1) 1 100 ex_db) = Ok (mkVerifyResult true 0 2 None)).
  { rewrite VerifyChain_scanned by done. cbn [snd].
    rewrite scanned_full; [|apply ex_db_ok|rewrite ex_db_rows; lia].
    rewrite verify_loop_seen; [by rewrite ex_db_rows|apply (ok_chained _ ex_db_ok)|apply ex_db_hashes]. }
  exact (audit_tamper_evident ex_audit_env (uuid_n 1) 1 100 ex_db ex_db _ _ Hv eq_refl Hv eq_refl eq_refl).
Defined.

Lemma ex_first_hash p : rows_of (uuid_n 1) ex_db !! 0%nat = Some p -> ar_Hash p <> zero_hash.
Proof.
  intros Hp Hz.
  assert (E : option_map (fun r => head (ar_Hash r)) (rows_of (uuid_n 1) ex_db !! 0%nat) = Some (head zero_hash)).
  { rewrite Hp. unfold option_map. by rewrite Hz. }
  vm_compute in E. congruence.
Qed.

Lemma verify_from_middle_reports_broken_witness :
  snd (VerifyChain ex_audit_env (uuid_n 1) 2 2 ex_db) =
    Ok (mkVerifyResult false 2 1 (Some "genesis event has invalid prev_hash")).
Proof.
  destruct (rows_of (uuid_n 1) ex_db !! 0%nat) as [p|] eqn:Hp;
    [|apply lookup_ge_None in Hp; rewrite ex_db_rows in Hp; lia].
  apply (verify_from_middle_reports_broken ex_audit_env (uuid_n 1) 2 2 ex_db p);
    [reflexivity|apply ex_db_ok|lia|rewrite ex_db_rows; lia|exact Hp|by apply ex_first_hash].
Defined.

Lemma audit_chain_blind_spots_witness :
  exists seen, snd (VerifyChain ex_audit_env (uuid_n 1) 1 100 (mkAuditDb (take 2 (au_rows ex_db)) (au_locks ex_db))) =
    Ok (mkVerifyResult true 0 seen None).
Proof.
  apply (proj1 (proj2 (audit_chain_blind_spots ex_audit_env ex_db (uuid_n 1) eq_refl)) ex_db_ok ex_db_hashes).
  vm_compute. discriminate.
Defined.
