(* ===== verification/ToolRepository.v ===== *)
(** The tool registry: [internal/adapter/postgres/tool_repository.go] with
    [queries/tool.sql] and its table, [internal/domain/tool/registry.go], and the
    handlers [internal/api/handlers/admin_tools.go].

    The cache is a third-party LRU with expiry, JSON and its canonical form are
    third-party or standard-library code: classes with laws. SHA-256 is [Sha256]'s.
    Texts are counted in bytes where the table counts characters. *)

From stdpp Require Import base gmap strings list numbers.
From Stdlib Require Import Ascii.
From S2P Require Import GoPrelude Bytes Uuid Errors Tenancy ChatModel Pricing Routing ToolLoop Http Sha256 AuditLog Quota.
Open Scope Z_scope.

(** A definition with its times: the domain's value and the table's row. *)
Record tool_row := mkToolRow { tl_def : ToolDefinition; tl_CreatedAt : Z; tl_UpdatedAt : Z }.

(** [toolDefinitionAuditPayload]; [tp_FullDefinition] is the marshalled definition. *)
Record tool_payload := mkToolPayload {
  tp_Operation : string;
  tp_ToolName : string;
  tp_OldHash : option string;
  tp_NewHash : option string;
  tp_ChangedFields : list string;
  tp_FullDefinition : string;
}.

(** ** JSON *)

(** [hashInput] marshalled ([None] when its parameters are not JSON), RFC 8785
    canonicalisation, and decoding into an [interface{}]: objects then have each
    key once, and numbers a text that is the same for equal numbers. *)
Class ToolJson := {
  marshal_hash_input : string -> string -> string -> option string;
  jcs_Transform : string -> option string;
  json_Unmarshal : string -> option json;
  marshal_definition : tool_row -> string;
  marshal_tool_payload : tool_payload -> string;
  marshal_grants : ToolModuleConfig -> string;
}.

Definition fallback_canonical `{ToolJson} (name description parameters : string) : string :=
  default "" (marshal_hash_input name description parameters).

(** [tool.ComputeHash]; "" stands for nil parameters. *)
Definition tool_ComputeHash `{ToolJson} (name description parameters : string) : string :=
  let parameters := if bool_decide (parameters = "") then "{}" else parameters in
  let canonical :=
    match marshal_hash_input name description parameters with
    | None => fallback_canonical name description parameters
    | Some text => match jcs_Transform text with Some c => c | None => text end
    end in
  string_of_bytes (hex_encode (Sum256 (bytes_of_string canonical))).

(** [jsonEqualValue]: a key that [b] lacks reads as nil there. *)
Definition field_of (fields : list (string * json)) (k : string) : json :=
  match List.find (fun p => bool_decide (fst p = k)) fields with Some p => snd p | None => JNull end.

Fixpoint jsonEqualValue (a b : json) : bool :=
  match a with
  | JObject av =>
      match b with
      | JObject bv =>
          bool_decide (length av = length bv) &&
          (fix all (av : list (string * json)) : bool :=
             match av with [] => true | (k, v) :: av => jsonEqualValue v (field_of bv k) && all av end) av
      | _ => false
      end
  | JArray av =>
      match b with
      | JArray bv =>
          bool_decide (length av = length bv) &&
          (fix all (av bv : list json) : bool :=
             match av, bv with v :: av, w :: bv => jsonEqualValue v w && all av bv | _, _ => true end) av bv
      | _ => false
      end
  | JNull => match b with JNull => true | _ => false end
  | JBool x => match b with JBool y => Bool.eqb x y | _ => false end
  | JNumber x => match b with JNumber y => bool_decide (x = y) | _ => false end
  | JString x => match b with JString y => bool_decide (x = y) | _ => false end
  end.

Definition jsonEqual `{ToolJson} (a b : string) : bool :=
  if bool_decide (a = "") && bool_decide (b = "") then true
  else if bool_decide (a = "") || bool_decide (b = "") then false
  else match json_Unmarshal a, json_Unmarshal b with
  | Some va, Some vb => jsonEqualValue va vb
  | _, _ => false
  end.

(** ** The table *)

Record ToolDb := mkToolDb { tdb_rows : list tool_row; tdb_audit : AuditDb }.

Definition text_too_long : error := EOther "value too long for type character".

(** [char(64)]: shorter texts are padded with blanks. *)
Definition char64 (s : string) : option string :=
  if (64 <? Z.of_nat (String.length s)) then None
  else Some (s +:+ string_of_bytes (replicate (64 - String.length s) " "%char)).

Section Repository.
Context `{ToolJson} `{JsonText}.
Variable env : DbEnv.

Definition row_is (c : Conn) (t : UUID) (name : string) (r : tool_row) : bool :=
  rls_visible env c (td_TenantID (tl_def r)) && bool_decide (td_TenantID (tl_def r) = t) && bool_decide (td_Name (tl_def r) = name).

Definition active_is (c : Conn) (t : UUID) (name : string) (r : tool_row) : bool :=
  row_is c t name r && td_IsActive (tl_def r).

Definition with_active (active : bool) (d : ToolDefinition) : ToolDefinition :=
  mkToolDefinition (td_ID d) (td_TenantID d) (td_Name d) (td_Description d) (td_InputSchema d) (td_Grants d)
    (td_ExecutionTimeoutMs d) (td_MemoryPages d) (td_Hash d) active.

Definition with_id (id : Z) (d : ToolDefinition) : ToolDefinition :=
  mkToolDefinition id (td_TenantID d) (td_Name d) (td_Description d) (td_InputSchema d) (td_Grants d)
    (td_ExecutionTimeoutMs d) (td_MemoryPages d) (td_Hash d) (td_IsActive d).

(** The definition as the row keeps it: [jsonb], [int64] and [int32] parameters,
    [varchar(255)], [char(64)] and the CHECK on the timeout. *)
Definition stored_tool (t : UUID) (def : ToolDefinition) (hash : string) : result error ToolDefinition :=
  match jsonb_out (td_InputSchema def), jsonb_out (td_Grants def), char64 hash with
  | Some schema, Some grants, Some h =>
      let timeout := int64_wrap (td_ExecutionTimeoutMs def) in
      if 255 <? Z.of_nat (String.length (td_Name def)) then Err text_too_long
      else if negb ((0 <? timeout) && (timeout <=? 300000)) then Err check_error
      else Ok (mkToolDefinition 0 t (td_Name def) (td_Description def) schema grants timeout
                 (int32_wrap (td_MemoryPages def)) h (td_IsActive def))
  | _, _, None => Err text_too_long
  | _, _, _ => Err (EOther "invalid input syntax for type json")
  end.

Definition set_tool_rows (db : ToolDb) (rows : list tool_row) : ToolDb := mkToolDb rows (tdb_audit db).

Abbreviation Stmt A := (Conn -> ToolDb -> ToolDb * result error A).

(** The six statements. [id] is drawn by the sequence. *)
Definition q_GetToolDefinitionByName (t : UUID) (name : string) : Stmt tool_row := fun c db =>
  match List.find (active_is c t name) (tdb_rows db) with
  | Some r => (db, Ok r)
  | None => (db, Err (db_no_rows env))
  end.

Definition insert_tool (now id : Z) (c : Conn) (d : ToolDefinition) (db : ToolDb) : ToolDb * result error tool_row :=
  let t := td_TenantID d in
  let r := mkToolRow (with_id id d) (pg_time now) (pg_time now) in
  if negb (rls_visible env c t) then (db, Err rls_check_error)
  else if (td_IsActive d && existsb (fun r => bool_decide (td_TenantID (tl_def r) = t) && bool_decide (td_Name (tl_def r) = td_Name d) &&
                                              td_IsActive (tl_def r)) (tdb_rows db)) ||
          existsb (fun r => bool_decide (td_ID (tl_def r) = id) && bool_decide (td_TenantID (tl_def r) = t)) (tdb_rows db)
  then (db, Err unique_error)
  else if negb (db_tenants env t) then (db, Err tenant_fk_error)
  else (set_tool_rows db (tdb_rows db ++ [r]), Ok r).

Definition q_CreateToolDefinition (now id : Z) (t : UUID) (def : ToolDefinition) (hash : string) : Stmt tool_row := fun c db =>
  match stored_tool t def hash with
  | Err e => (db, Err e)
  | Ok d => insert_tool now id c d db
  end.

(** The row [r] with the columns of [d]. *)
Definition overwritten (now : Z) (d : ToolDefinition) (r : tool_row) : tool_row :=
  mkToolRow (with_id (td_ID (tl_def r)) d) (tl_CreatedAt r) (pg_time now).

(** Active or not, every row of the name is updated. *)
Definition q_UpdateToolDefinition (now : Z) (t : UUID) (def : ToolDefinition) (hash : string) : Stmt tool_row := fun c db =>
  let mine := row_is c t (td_Name def) in
  match List.filter mine (tdb_rows db) with
  | [] => (db, Err (db_no_rows env))
  | r :: rest =>
      match stored_tool t def hash with
      | Err e => (db, Err e)
      | Ok d =>
          if td_IsActive d && negb (bool_decide (rest = [])) then (db, Err unique_error)
          else (set_tool_rows db (map (fun r => if mine r then overwritten now d r else r) (tdb_rows db)), Ok (overwritten now d r))
      end
  end.

Definition q_DeactivateToolDefinition (now : Z) (t : UUID) (name : string) : Stmt unit := fun c db =>
  (set_tool_rows db (map (fun r => if row_is c t name r
     then mkToolRow (with_active false (tl_def r)) (tl_CreatedAt r) (pg_time now) else r) (tdb_rows db)), Ok tt).

(** The arbiter index covers active rows only, so an inactive row is inserted. *)
Definition q_UpsertToolDefinition (now id : Z) (t : UUID) (def : ToolDefinition) (hash : string) : Stmt tool_row := fun c db =>
  match stored_tool t def hash with
  | Err e => (db, Err e)
  | Ok d =>
      match List.find (active_is c t (td_Name def)) (tdb_rows db) with
      | Some r =>
          if td_IsActive d
          then (set_tool_rows db (map (fun r => if active_is c t (td_Name def) r then overwritten now d r else r) (tdb_rows db)),
                Ok (overwritten now d r))
          else insert_tool now id c d db
      | None => insert_tool now id c d db
      end
  end.

(** The numbers of a row read back as unsigned. *)
Definition convertSQLCToolDefinition (r : tool_row) : tool_row :=
  let d := tl_def r in
  mkToolRow (mkToolDefinition (td_ID d) (td_TenantID d) (td_Name d) (td_Description d) (td_InputSchema d) (td_Grants d)
    (td_ExecutionTimeoutMs d mod 2 ^ 64) (td_MemoryPages d mod 2 ^ 32) (td_Hash d) (td_IsActive d)) (tl_CreatedAt r) (tl_UpdatedAt r).

(** ** Audit *)

Definition buildAuditEvent (now : Z) (t : UUID) (def : tool_row) (operation : string) (oldHash newHash : option string)
    (changedFields : list string) (severity : string) : AuditEvent :=
  let payload := mkToolPayload operation (td_Name (tl_def def)) oldHash newHash changedFields (marshal_definition def) in
  mkAuditEvent ZeroUUID t 0 [] [] None ("tool_definition." +:+ string_of_bytes (to_lower (bytes_of_string operation)))
    "tool_definition" None (marshal_tool_payload payload) severity (truncate_us now).

(** Whether an audit repository is given. *)
Variable audited : bool.

Definition append_event (now : Z) (aid : UUID) (ev : AuditEvent) : Stmt unit := fun c db =>
  if negb audited then (db, Ok tt)
  else match AppendWithTx env now aid ev c (tdb_audit db) with
  | (a, Ok _) => (mkToolDb (tdb_rows db) a, Ok tt)
  | (a, Err e) => (mkToolDb (tdb_rows db) a, Err e)
  end.

(** ** The cache *)

Abbreviation cacheKey := (UUID * string)%type.
End Repository.

(** [expirable.LRU]: [cache_view] is what it holds, with the time of adding. *)
Class ToolCache (C : Type) := {
  cache_Get : Z -> UUID * string -> C -> C * option tool_row;
  cache_Add : Z -> UUID * string -> tool_row -> C -> C;
  cache_Remove : UUID * string -> C -> C;
  cache_Purge : C -> C;
  cache_view : C -> gmap (UUID * string) (tool_row * Z);
}.

(** It may forget anything at any time but what was just added, serves nothing older
    than [ttl], and keeps nothing that was removed. *)
Class ToolCacheLaws (C : Type) `{ToolCache C} (ttl : Z) : Prop := {
  cache_Get_hit : forall now k c c' d, cache_Get now k c = (c', Some d) -> exists a, cache_view c !! k = Some (d, a) /\ now < a + ttl;
  cache_Get_view : forall now k c, cache_view (fst (cache_Get now k c)) ⊆ cache_view c;
  cache_Add_view : forall now k d c, cache_view (cache_Add now k d c) ⊆ <[k := (d, now)]> (cache_view c);
  cache_Remove_view : forall k c, cache_view (cache_Remove k c) ⊆ delete k (cache_view c);
  cache_Purge_view : forall c, cache_view (cache_Purge c) = ∅;
  cache_Get_Add : forall now now' k d c, now <= now' < now + ttl -> snd (cache_Get now' k (cache_Add now k d c)) = Some d;
}.

Section Operations.
Context `{ToolJson} `{JsonText} {C : Type} `{ToolCache C}.
Variables (env : DbEnv) (audited : bool).

Record ToolStore := mkToolStore { ts_db : ToolDb; ts_cache : C }.

Definition not_found (e : error) : error := if errors_Is e ESqlNoRows then ErrToolNotFound else e.

Definition GetByNameTx (t : UUID) (name : string) (c : Conn) (db : ToolDb) : ToolDb * result error tool_row :=
  match q_GetToolDefinitionByName env t name c db with
  | (db, Err e) => (db, Err (not_found e))
  | (db, Ok r) => (db, Ok (convertSQLCToolDefinition r))
  end.

Definition GetByName (now : Z) (t : UUID) (name : string) (st : ToolStore) : ToolStore * result error tool_row :=
  match cache_Get now (t, name) (ts_cache st) with
  | (cache, Some cached) => (mkToolStore (ts_db st) cache, Ok cached)
  | (cache, None) =>
      match WithTenantTx env t (GetByNameTx t name) (ts_db st) with
      | (db, Err e) => (mkToolStore db cache, Err e)
      | (db, Ok def) => (mkToolStore db (cache_Add now (t, name) def cache), Ok def)
      end
  end.

Definition with_hash (h : string) (d : ToolDefinition) : ToolDefinition :=
  mkToolDefinition (td_ID d) (td_TenantID d) (td_Name d) (td_Description d) (td_InputSchema d) (td_Grants d)
    (td_ExecutionTimeoutMs d) (td_MemoryPages d) h (td_IsActive d).

Definition with_tenant_id (id : Z) (t : UUID) (d : ToolDefinition) : ToolDefinition :=
  mkToolDefinition id t (td_Name d) (td_Description d) (td_InputSchema d) (td_Grants d)
    (td_ExecutionTimeoutMs d) (td_MemoryPages d) (td_Hash d) (td_IsActive d).

(** The hash given, or else the computed one. *)
Definition effective_hash (d : ToolDefinition) : string :=
  if bool_decide (td_Hash d = "") then tool_ComputeHash (td_Name d) (td_Description d) (td_InputSchema d) else td_Hash d.

(** The body shared by [CreateToolDefinition] and [UpsertToolDefinition]. *)
Definition write_new (q : ToolDefinition -> string -> Conn -> ToolDb -> ToolDb * result error tool_row) (operation : string)
    (now : Z) (aid t : UUID) (def : ToolDefinition) (c : Conn) (db : ToolDb) : ToolDb * result error tool_row :=
  let hash := effective_hash def in
  match q def hash c db with
  | (db, Err e) => (db, Err e)
  | (db, Ok created) =>
      let def := mkToolRow (with_tenant_id (td_ID (tl_def created)) (td_TenantID (tl_def created)) (with_hash hash def))
                   (tl_CreatedAt created) (tl_UpdatedAt created) in
      match append_event env audited now aid (buildAuditEvent now t def operation None (Some hash) [] "info") c db with
      | (db, Err e) => (db, Err e)
      | (db, Ok _) => (db, Ok def)
      end
  end.

Definition CreateToolDefinition (now id : Z) (aid t : UUID) (def : ToolDefinition) (st : ToolStore) : ToolStore * result error tool_row :=
  match WithTenantTx env t (write_new (q_CreateToolDefinition env now id t) "CREATE" now aid t def) (ts_db st) with
  | (db, Err e) => (mkToolStore db (ts_cache st), Err e)
  | (db, Ok def) => (mkToolStore db (cache_Remove (t, td_Name (tl_def def)) (ts_cache st)), Ok def)
  end.

Definition UpsertToolDefinition (now id : Z) (aid t : UUID) (def : ToolDefinition) (st : ToolStore) : ToolStore * result error tool_row :=
  match WithTenantTx env t (write_new (q_UpsertToolDefinition env now id t) "UPSERT" now aid t def) (ts_db st) with
  | (db, r) => (mkToolStore db (ts_cache st), r)
  end.

Definition changed_fields (existing def : ToolDefinition) : list string :=
  (if bool_decide (td_Description existing = td_Description def) then [] else ["description"]) ++
  (if jsonEqual (td_InputSchema existing) (td_InputSchema def) then [] else ["input_schema"]) ++
  (if jsonEqual (td_Grants existing) (td_Grants def) then [] else ["grants"]) ++
  (if bool_decide (td_ExecutionTimeoutMs existing = td_ExecutionTimeoutMs def) then [] else ["execution_timeout_ms"]) ++
  (if bool_decide (td_MemoryPages existing = td_MemoryPages def) then [] else ["memory_pages"]) ++
  (if bool_decide (td_IsActive existing = td_IsActive def) then [] else ["is_active"]).

Definition hash_changed (existing def : ToolDefinition) : bool := negb (bool_decide (td_Hash existing = effective_hash def)).

(** The statement and the event of an update, given the existing definition. *)
Definition update_in_tx (now : Z) (aid t : UUID) (def : tool_row) (existing : ToolDefinition) (c : Conn) (db : ToolDb)
    : ToolDb * result error tool_row :=
  let newHash := effective_hash (tl_def def) in
  let severity := if hash_changed existing (tl_def def) then "critical" else "warn" in
  match q_UpdateToolDefinition env now t (tl_def def) newHash c db with
  | (db, Err e) => (db, Err e)
  | (db, Ok updated) =>
      let u := tl_def updated in
      let def' := mkToolRow (with_tenant_id (td_ID u) (td_TenantID u) (with_hash (td_Hash u) (tl_def def))) (tl_CreatedAt def) (tl_UpdatedAt updated) in
      match append_event env audited now aid (buildAuditEvent now t def' "UPDATE" (Some (td_Hash existing)) (Some newHash)
              (changed_fields existing (tl_def def)) severity) c db with
      | (db, Err e) => (db, Err e)
      | (db, Ok _) => (db, Ok def')
      end
  end.

Definition UpdateToolDefinition (now : Z) (aid t : UUID) (def : tool_row) (st : ToolStore) : ToolStore * result error (bool * tool_row) :=
  match GetByName now t (td_Name (tl_def def)) st with
  | (st, Err e) => (st, Err e)
  | (st, Ok existing) =>
      match WithTenantTx env t (update_in_tx now aid t def (tl_def existing)) (ts_db st) with
      | (db, Err e) => (mkToolStore db (ts_cache st), Err e)
      | (db, Ok def') =>
          (mkToolStore db (cache_Remove (t, td_Name (tl_def def)) (ts_cache st)), Ok (hash_changed (tl_def existing) (tl_def def), def'))
      end
  end.

Definition UpdateToolDefinitionTx (now : Z) (aid t : UUID) (def : tool_row) (c : Conn) (db : ToolDb) : ToolDb * result error (bool * tool_row) :=
  match GetByNameTx t (td_Name (tl_def def)) c db with
  | (db, Err e) => (db, Err e)
  | (db, Ok existing) =>
      match update_in_tx now aid t def (tl_def existing) c db with
      | (db, Err e) => (db, Err e)
      | (db, Ok def') => (db, Ok (hash_changed (tl_def existing) (tl_def def), def'))
      end
  end.

Definition deactivate_in_tx (now : Z) (aid t : UUID) (name : string) (existing : tool_row) (c : Conn) (db : ToolDb) : ToolDb * result error unit :=
  match q_DeactivateToolDefinition env now t name c db with
  | (db, Err e) => (db, Err e)
  | (db, Ok _) => append_event env audited now aid (buildAuditEvent now t existing "DELETE" (Some (td_Hash (tl_def existing))) None [] "warn") c db
  end.

Definition DeactivateToolDefinition (now : Z) (aid t : UUID) (name : string) (st : ToolStore) : ToolStore * result error unit :=
  match GetByName now t name st with
  | (st, Err e) => (st, Err e)
  | (st, Ok existing) =>
      match WithTenantTx env t (deactivate_in_tx now aid t name existing) (ts_db st) with
      | (db, Err e) => (mkToolStore db (ts_cache st), Err e)
      | (db, Ok _) => (mkToolStore db (cache_Remove (t, name) (ts_cache st)), Ok tt)
      end
  end.

(** [draw n] is what the sequence and the audit log draw for the [n]-th tool. *)
Fixpoint seed_tools (now : Z) (t : UUID) (cfg : ToolConfig) (draw : nat -> Z * UUID) (n : nat) (tools : list ToolModuleConfig)
    (c : Conn) (db : ToolDb) : ToolDb * result error unit :=
  match tools with
  | [] => (db, Ok tt)
  | tc :: tools =>
      let hash := tool_ComputeHash (tm_Name tc) "" "{}" in
      let def := mkToolDefinition 0 t (tm_Name tc) "" "{}" (marshal_grants tc) (EffectiveTimeoutMs cfg tc) (EffectiveMemoryPages cfg tc) hash true in
      match q_UpsertToolDefinition env now (fst (draw n)) t def hash c db with
      | (db, Err e) => (db, Err e)
      | (db, Ok _) =>
          let shown := mkToolRow (mkToolDefinition 0 t (tm_Name tc) "" "" "" 0 0 hash false) 0 0 in
          match append_event env audited now (snd (draw n)) (buildAuditEvent now t shown "UPSERT" None (Some hash) [] "info") c db with
          | (db, Err e) => (db, Err e)
          | (db, Ok _) => seed_tools now t cfg draw (S n) tools c db
          end
      end
  end.

Definition InitFromConfig (now : Z) (t : UUID) (cfg : ToolConfig) (draw : nat -> Z * UUID) (st : ToolStore) : ToolStore * result error unit :=
  match WithTenantTx env t (seed_tools now t cfg draw 0 (tcfg_Tools cfg)) (ts_db st) with
  | (db, Err e) => (mkToolStore db (ts_cache st), Err e)
  | (db, Ok _) => (mkToolStore db (cache_Purge (ts_cache st)), Ok tt)
  end.

(** ** The admin handlers *)

Record CreateToolBody := mkCreateToolBody {
  cb_TenantID : string;
  cb_Name : string;
  cb_Description : string;
  cb_Parameters : option string;
  cb_Grants : option string;
  cb_ExecutionTimeoutMs : option Z;
  cb_MemoryPages : option Z;
}.

Record UpdateToolBody := mkUpdateToolBody {
  ub_TenantID : string;
  ub_Description : option string;
  ub_Parameters : option string;
  ub_Grants : option string;
  ub_ExecutionTimeoutMs : option Z;
  ub_MemoryPages : option Z;
  ub_IsActive : option bool;
}.

(** The definition asked for: an omitted limit is zero. *)
Definition created_definition (t : UUID) (b : CreateToolBody) : ToolDefinition :=
  let parameters := default "{}" (cb_Parameters b) in
  mkToolDefinition 0 t (cb_Name b) (cb_Description b) parameters (default "[]" (cb_Grants b))
    (default 0 (cb_ExecutionTimeoutMs b)) (default 0 (cb_MemoryPages b)) (tool_ComputeHash (cb_Name b) (cb_Description b) parameters) true.

Definition handle_CreateTool (now id : Z) (aid : UUID) (body : option CreateToolBody) (st : ToolStore) : ToolStore * (Z * option tool_row) :=
  match body with
  | None => (st, (StatusBadRequest, None))
  | Some b =>
      match ParseUUID (cb_TenantID b) with
      | Err _ => (st, (StatusBadRequest, None))
      | Ok t =>
          match CreateToolDefinition now id aid t (created_definition t b) st with
          | (st, Err _) => (st, (StatusInternalServerError, None))
          | (st, Ok def) => (st, (StatusCreated, Some def))
          end
      end
  end.

Definition updated_definition (t : UUID) (name : string) (existing : ToolDefinition) (b : UpdateToolBody) : ToolDefinition :=
  let description := default (td_Description existing) (ub_Description b) in
  let schema := default (td_InputSchema existing) (ub_Parameters b) in
  mkToolDefinition (td_ID existing) t name description schema (default (td_Grants existing) (ub_Grants b))
    (default (td_ExecutionTimeoutMs existing) (ub_ExecutionTimeoutMs b)) (default (td_MemoryPages existing) (ub_MemoryPages b))
    (tool_ComputeHash name description schema) (default (td_IsActive existing) (ub_IsActive b)).

Definition handle_UpdateTool (now : Z) (aid : UUID) (params : list (string * string)) (body : option UpdateToolBody) (st : ToolStore)
    : ToolStore * (Z * option tool_row) :=
  let name := URLParam params "name" in
  if bool_decide (name = "") then (st, (StatusBadRequest, None))
  else match body with
  | None => (st, (StatusBadRequest, None))
  | Some b =>
      match ParseUUID (ub_TenantID b) with
      | Err _ => (st, (StatusBadRequest, None))
      | Ok t =>
          match GetByName now t name st with
          | (st, Err e) => (st, (if bool_decide (e = ErrToolNotFound) then StatusNotFound else StatusInternalServerError, None))
          | (st, Ok existing) =>
              match UpdateToolDefinition now aid t (mkToolRow (updated_definition t name (tl_def existing) b) 0 0) st with
              | (st, Err _) => (st, (StatusInternalServerError, None))
              | (st, Ok (_, def)) => (st, (StatusOK, Some def))
              end
          end
      end
  end.

Definition handle_DeactivateTool (now : Z) (aid : UUID) (params : list (string * string)) (query_tenant : string) (st : ToolStore) : ToolStore * Z :=
  let name := URLParam params "name" in
  if bool_decide (name = "") then (st, StatusBadRequest)
  else if bool_decide (query_tenant = "") then (st, StatusBadRequest)
  else match ParseUUID query_tenant with
  | Err _ => (st, StatusBadRequest)
  | Ok t =>
      match DeactivateToolDefinition now aid t name st with
      | (st, Err e) => (st, if bool_decide (e = ErrToolNotFound) then StatusNotFound else StatusInternalServerError)
      | (st, Ok _) => (st, StatusNoContent)
      end
  end.
End Operations.
Arguments mkToolStore {C} _ _.
Arguments ts_db {C} _.
Arguments ts_cache {C} _.

(** * What callers see *)

(** An active row of a tenant's tool. *)
Definition active_at (k : UUID * string) (r : tool_row) : bool :=
  bool_decide (td_TenantID (tl_def r) = k.1) && bool_decide (td_Name (tl_def r) = k.2) && td_IsActive (tl_def r).

Definition current (k : UUID * string) (db : ToolDb) : option tool_row :=
  convertSQLCToolDefinition <$> List.find (active_at k) (tdb_rows db).

Lemma row_is_own env t name r :
  row_is env (tx_conn t) t name r = bool_decide (td_TenantID (tl_def r) = t) && bool_decide (td_Name (tl_def r) = name).
Proof.
  unfold row_is. destruct (decide (td_TenantID (tl_def r) = t)) as [E|E].
  - by rewrite E, rls_visible_own, bool_decide_eq_true_2.
  - by rewrite (bool_decide_eq_false_2 _ E), andb_false_r.
Qed.

Lemma active_is_own env t name r : active_is env (tx_conn t) t name r = active_at (t, name) r.
Proof. unfold active_is, active_at. by rewrite row_is_own. Qed.

Section Finds.
Context {A : Type}.

Lemma find_pred_ext (p q : A -> bool) l : (forall x, p x = q x) -> List.find p l = List.find q l.
Proof. intros Hpq. induction l as [|x l IH]; [done|]. cbn. by rewrite Hpq, IH. Qed.

Lemma find_map_frame (p : A -> bool) (f : A -> A) l :
  (forall x, p (f x) = p x) -> (forall x, p x = true -> f x = x) -> List.find p (map f l) = List.find p l.
Proof.
  intros Hp Hf. induction l as [|x l IH]; [done|]. cbn. rewrite Hp. destruct (p x) eqn:E; [by rewrite Hf|done].
Qed.

Lemma find_app_frame (p : A -> bool) l x : p x = false -> List.find p (l ++ [x]) = List.find p l.
Proof. intros Hx. induction l as [|y l IH]; cbn; [by rewrite Hx|]. by rewrite IH. Qed.
End Finds.

(** Two tables that agree on every key but [k]. *)
Definition agree_off (k : UUID * string) (db db' : ToolDb) : Prop := forall k', k' <> k -> current k' db' = current k' db.

Lemma agree_off_refl k db : agree_off k db db.
Proof. done. Qed.

Lemma agree_off_trans k db1 db2 db3 : agree_off k db1 db2 -> agree_off k db2 db3 -> agree_off k db1 db3.
Proof. intros H1 H2 k' Hk. by rewrite H2, H1. Qed.

Lemma active_at_key k k' r : active_at k r = true -> k' <> k -> active_at k' r = false.
Proof.
  unfold active_at. rewrite !andb_true_iff, !bool_decide_eq_true. intros [[Ht Hn] _] Hk.
  destruct (decide (td_TenantID (tl_def r) = k'.1)) as [E1|E1]; [|by rewrite bool_decide_eq_false_2].
  destruct (decide (td_Name (tl_def r) = k'.2)) as [E2|E2]; [|by rewrite (bool_decide_eq_false_2 _ E2), andb_false_r].
  destruct Hk. destruct k, k'; cbn in *; congruence.
Qed.

(** Rows of the key [k] may be rewritten, if they stay rows of it. *)
Lemma agree_off_map k (mine : tool_row -> bool) (f : tool_row -> tool_row) db :
  (forall r, mine r = true -> (td_TenantID (tl_def r), td_Name (tl_def r)) = k) ->
  (forall r, mine r = true -> (td_TenantID (tl_def (f r)), td_Name (tl_def (f r))) = k) ->
  agree_off k db (set_tool_rows db (map (fun r => if mine r then f r else r) (tdb_rows db))).
Proof.
  intros Hm Hf k' Hk. unfold current, set_tool_rows. cbn [tdb_rows]. f_equal.
  assert (forall r, (td_TenantID (tl_def r), td_Name (tl_def r)) = k -> active_at k' r = false) as Hoff.
  { intros r E. unfold active_at. destruct (bool_decide (td_TenantID (tl_def r) = k'.1)) eqn:E1; [|done].
    destruct (bool_decide (td_Name (tl_def r) = k'.2)) eqn:E2; [|done]. rewrite bool_decide_eq_true in E1, E2.
    destruct Hk. destruct k'; cbn in *; congruence. }
  apply find_map_frame.
  - intros r. destruct (mine r) eqn:E; [|done]. by rewrite !Hoff by auto.
  - intros r Hr. destruct (mine r) eqn:E; [|done]. rewrite Hoff in Hr by auto. done.
Qed.

Lemma agree_off_append k r db :
  (td_TenantID (tl_def r), td_Name (tl_def r)) = k -> agree_off k db (set_tool_rows db (tdb_rows db ++ [r])).
Proof.
  intros E k' Hk. unfold current, set_tool_rows. cbn [tdb_rows]. f_equal. apply find_app_frame. unfold active_at.
  destruct (bool_decide (td_TenantID (tl_def r) = k'.1)) eqn:E1; [|done].
  destruct (bool_decide (td_Name (tl_def r) = k'.2)) eqn:E2; [|done]. rewrite bool_decide_eq_true in E1, E2.
  destruct Hk. destruct k'; cbn in *; congruence.
Qed.

Section Frames.
Context `{ToolJson} `{JsonText} {C : Type} `{ToolCache C}.

Lemma GetByName_db env now t name (st : @ToolStore C) : ts_db (GetByName env now t name st).1 = ts_db st.
Proof.
  unfold GetByName, WithTenantTx, GetByNameTx, q_GetToolDefinitionByName. destruct (cache_Get _ _ _) as [c [d|]]; [done|].
  destruct (db_outage env); [done|]. by destruct (List.find _ _).
Qed.

Lemma stored_tool_key t def hash d : stored_tool t def hash = Ok d -> td_TenantID d = t /\ td_Name d = td_Name def /\ td_IsActive d = td_IsActive def.
Proof.
  unfold stored_tool. destruct (jsonb_out (td_InputSchema def)), (jsonb_out (td_Grants def)), (char64 hash); try done.
  destruct (255 <? _); [done|]. destruct (negb _); [done|]. by intros [= <-].
Qed.

Lemma row_is_key env c t name r : row_is env c t name r = true -> (td_TenantID (tl_def r), td_Name (tl_def r)) = (t, name).
Proof. unfold row_is. rewrite !andb_true_iff, !bool_decide_eq_true. intros [[_ ->] ->]. done. Qed.

Lemma insert_tool_frame env now id c d db db' r :
  insert_tool env now id c d db = (db', Ok r) -> agree_off (td_TenantID d, td_Name d) db db'.
Proof.
  unfold insert_tool. destruct (negb _); [done|]. destruct (_ || _); [done|]. destruct (negb _); [done|]. intros [= <- _]. by apply agree_off_append.
Qed.

Lemma q_Create_frame env now id t def hash c db db' r :
  q_CreateToolDefinition env now id t def hash c db = (db', Ok r) -> agree_off (t, td_Name def) db db'.
Proof.
  unfold q_CreateToolDefinition. destruct (stored_tool t def hash) as [d|] eqn:E; [|done].
  apply stored_tool_key in E as (<- & <- & _). apply insert_tool_frame.
Qed.

Lemma q_Update_frame env now t def hash c db db' r :
  q_UpdateToolDefinition env now t def hash c db = (db', Ok r) -> agree_off (t, td_Name def) db db'.
Proof.
  unfold q_UpdateToolDefinition. destruct (List.filter _ _) as [|r0 rest]; [done|].
  destruct (stored_tool t def hash) as [d|] eqn:E; [|done]. apply stored_tool_key in E as (Et & En & _).
  destruct (_ && _); [done|]. intros [= <- _]. apply agree_off_map; [apply row_is_key|]. intros r' _. cbn. congruence.
Qed.

Lemma q_Upsert_frame env now id t def hash c db db' r :
  q_UpsertToolDefinition env now id t def hash c db = (db', Ok r) -> agree_off (t, td_Name def) db db'.
Proof.
  unfold q_UpsertToolDefinition. destruct (stored_tool t def hash) as [d|] eqn:E; [|done].
  apply stored_tool_key in E as (Et & En & _).
  assert (insert_tool env now id c d db = (db', Ok r) -> agree_off (t, td_Name def) db db') as Hins
    by (rewrite <- Et, <- En; apply insert_tool_frame).
  destruct (List.find _ _) as [r0|]; [|done]. destruct (td_IsActive d); [|done].
  intros [= <- _]. apply agree_off_map.
  - intros r' [Hr _]%andb_true_iff. by apply row_is_key in Hr.
  - intros r' _. cbn. congruence.
Qed.

Lemma q_Deactivate_frame env now t name c db db' u :
  q_DeactivateToolDefinition env now t name c db = (db', Ok u) -> agree_off (t, name) db db'.
Proof.
  unfold q_DeactivateToolDefinition. intros [= <- _]. apply agree_off_map; [apply row_is_key|]. intros r Hr. by apply row_is_key in Hr.
Qed.

Lemma append_event_rows env audited now aid ev c db db' u :
  append_event env audited now aid ev c db = (db', u) -> tdb_rows db' = tdb_rows db.
Proof.
  unfold append_event. destruct (negb audited); [by intros [= <- _]|]. destruct (AppendWithTx _ _ _ _ _ _) as [a [x|e]]; by intros [= <- _].
Qed.

Lemma agree_off_rows k db db1 db2 : agree_off k db db1 -> tdb_rows db2 = tdb_rows db1 -> agree_off k db db2.
Proof. intros Ha E k' Hk. unfold current. rewrite E. by apply Ha. Qed.
End Frames.

(** ** The cache is transparent *)

Section Coherence.
Context `{ToolJson} `{JsonText} {C : Type} `{ToolCache C} {ttl : Z} `{!ToolCacheLaws C ttl}.

(** What the cache holds is what the table has, but for some keys. *)
Definition coherent_off (D : gset (UUID * string)) (st : ToolStore) : Prop :=
  forall k d a, k ∉ D -> cache_view (ts_cache st) !! k = Some (d, a) -> current k (ts_db st) = Some d.

(** For no key but what the table has. *)
Definition coherent (st : ToolStore) : Prop := coherent_off ∅ st.

Lemma coherent_shrink D db (c c' : C) : cache_view c' ⊆ cache_view c -> coherent_off D (mkToolStore db c) -> coherent_off D (mkToolStore db c').
Proof. intros Hs Hc k d a HD Hk. by apply (Hc k d a), (lookup_weaken _ _ _ _ Hk). Qed.

(** A change off the cache: the key changed is removed, and is in order again. *)
Lemma coherent_removed D k db db' (c : C) :
  agree_off k db db' -> coherent_off D (mkToolStore db c) -> coherent_off (D ∖ {[k]}) (mkToolStore db' (cache_Remove k c)).
Proof.
  intros Ha Hc k' d a HD Hk. cbn [ts_cache ts_db] in *. pose proof (lookup_weaken _ _ _ _ Hk (cache_Remove_view k c)) as Hk'.
  apply lookup_delete_Some in Hk' as [Hne Hk']. rewrite Ha by done. apply (Hc k' d a); [|done].
  intros Hin. apply HD, elem_of_difference. split; [done|]. intros ?%elem_of_singleton. by subst.
Qed.

(** A change the cache is not told of: the key is out of order. *)
Lemma coherent_unnoticed D k db db' (c : C) :
  agree_off k db db' -> coherent_off D (mkToolStore db c) -> coherent_off (D ∪ {[k]}) (mkToolStore db' c).
Proof.
  intros Ha Hc k' d a HD Hk. cbn [ts_cache ts_db] in *. apply not_elem_of_union in HD as [HD Hne%not_elem_of_singleton].
  rewrite Ha by done. by apply (Hc k' d a).
Qed.

Lemma GetByNameTx_current env t name db :
  db_outage env = None -> snd (WithTenantTx env t (GetByNameTx env t name) db) =
    match current (t, name) db with Some d => Ok d | None => Err (not_found (db_no_rows env)) end.
Proof.
  intros Hup. unfold WithTenantTx, GetByNameTx, q_GetToolDefinitionByName, current. rewrite Hup.
  rewrite (find_pred_ext _ _ _ (active_is_own env t name)). by destruct (List.find _ _).
Qed.

Lemma GetByNameTx_reads env t name db : fst (WithTenantTx env t (GetByNameTx env t name) db) = db.
Proof.
  unfold WithTenantTx, GetByNameTx, q_GetToolDefinitionByName. destruct (db_outage env); [done|]. by destruct (List.find _ _).
Qed.

(** Reading keeps coherence and the table; what it returns is the current row. *)
Lemma GetByName_coherent D env now t name (st st' : ToolStore) r :
  coherent_off D st -> GetByName env now t name st = (st', r) ->
  coherent_off D st' /\ ts_db st' = ts_db st /\
  ((t, name) ∉ D -> forall d, r = Ok d -> current (t, name) (ts_db st) = Some d) /\
  ((t, name) ∉ D -> db_outage env = None -> r = match current (t, name) (ts_db st) with Some d => Ok d | None => Err (not_found (db_no_rows env)) end).
Proof.
  intros Hc. destruct st as [db c]. unfold GetByName. cbn [ts_cache ts_db].
  destruct (cache_Get now (t, name) c) as [c1 [d|]] eqn:Hg.
  - intros [= <- <-]. apply cache_Get_hit in Hg as Hhit. destruct Hhit as (a & Hv & _).
    assert ((t, name) ∉ D -> current (t, name) db = Some d) as Hcur by (intros HD; by apply (Hc (t, name) d a)).
    pose proof (cache_Get_view now (t, name) c) as Hs. rewrite Hg in Hs. cbn in Hs.
    split_and!; [by apply (coherent_shrink D db c)|done|intros HD ? [= <-]; by apply Hcur|intros HD _; by rewrite Hcur].
  - pose proof (cache_Get_view now (t, name) c) as Hs. rewrite Hg in Hs. cbn in Hs. apply (coherent_shrink D db _ _ Hs) in Hc.
    pose proof (GetByNameTx_reads env t name db) as Hr. pose proof (GetByNameTx_current env t name db) as Hval.
    destruct (WithTenantTx env t (GetByNameTx env t name) db) as [db' [d|e]] eqn:Htx; cbn in Hr, Hval; subst db'; intros [= <- <-].
    + assert (current (t, name) db = Some d) as Hcur.
      { destruct (db_outage env) eqn:Ho; [unfold WithTenantTx in Htx; by rewrite Ho in Htx|].
        specialize (Hval eq_refl). destruct (current (t, name) db); congruence. }
      split_and!; [|done|congruence|by rewrite Hcur]. intros k' d' a HD Hk. cbn [ts_cache ts_db] in *.
      pose proof (lookup_weaken _ _ _ _ Hk (cache_Add_view now (t, name) d c1)) as Hk'. apply lookup_insert_Some in Hk' as [[<- [= <- <-]]|[_ Hk']]; [done|].
      by apply (Hc k' d' a).
    + split_and!; [done..|]. intros _. done.
Qed.

Lemma write_new_frame env audited q operation now aid t (def : ToolDefinition) c db db' def' :
  (forall hash c db db' r, q def hash c db = (db', Ok r) -> agree_off (t, td_Name def) db db') ->
  write_new env audited q operation now aid t def c db = (db', Ok def') ->
  agree_off (t, td_Name def) db db' /\ td_Name (tl_def def') = td_Name def.
Proof.
  intros Hq. unfold write_new. destruct (q def (effective_hash def) c db) as [db1 [created|e]] eqn:Eq; [|done].
  destruct (append_event _ _ _ _ _ _ _) as [db2 [u|e]] eqn:Ea; [|done]. intros [= <- <-]. split; [|done].
  eapply agree_off_rows; [by eapply Hq|by eapply append_event_rows].
Qed.

Lemma update_in_tx_frame env audited now aid t (def : tool_row) existing c db db' def' :
  update_in_tx env audited now aid t def existing c db = (db', Ok def') -> agree_off (t, td_Name (tl_def def)) db db'.
Proof.
  unfold update_in_tx. destruct (q_UpdateToolDefinition _ _ _ _ _ _ _) as [db1 [u|e]] eqn:Eq; [|done].
  destruct (append_event _ _ _ _ _ _ _) as [db2 [u'|e]] eqn:Ea; [|done]. intros [= <- _].
  eapply agree_off_rows; [by eapply q_Update_frame|by eapply append_event_rows].
Qed.

Lemma deactivate_in_tx_frame env audited now aid t name existing c db db' u :
  deactivate_in_tx env audited now aid t name existing c db = (db', Ok u) -> agree_off (t, name) db db'.
Proof.
  unfold deactivate_in_tx. destruct (q_DeactivateToolDefinition _ _ _ _ _ _) as [db1 [u1|e]] eqn:Eq; [|done].
  intros Ea. eapply agree_off_rows; [by eapply q_Deactivate_frame|by eapply append_event_rows].
Qed.

Lemma update_tx_frame env audited now aid t (def : tool_row) c db db' res :
  UpdateToolDefinitionTx env audited now aid t def c db = (db', Ok res) -> agree_off (t, td_Name (tl_def def)) db db'.
Proof.
  unfold UpdateToolDefinitionTx, GetByNameTx, q_GetToolDefinitionByName. destruct (List.find _ _) as [r|]; [|done].
  destruct (update_in_tx _ _ _ _ _ _ _ _ _) as [db1 [d|e]] eqn:E; [|done]. intros [= <- _]. by eapply update_in_tx_frame.
Qed.

(** The keys out of order after a call that clears its key when it succeeds. *)
Definition cleared {A} (k : UUID * string) (r : result error A) (D : gset (UUID * string)) : gset (UUID * string) :=
  match r with Ok _ => D ∖ {[k]} | Err _ => D end.

Lemma cleared_empty {A} k (r : result error A) : cleared k r ∅ = ∅.
Proof. destruct r; [|done]. cbn. set_solver. Qed.

(** A transaction on one key whose success removes it from the cache. *)
Lemma tx_coherent {A} D env t k (fn : Conn -> ToolDb -> ToolDb * result error A) (st : ToolStore) db r :
  coherent_off D st -> WithTenantTx env t fn (ts_db st) = (db, r) ->
  (forall c db db' a, fn c db = (db', Ok a) -> agree_off k db db') ->
  coherent_off (cleared k r D) (mkToolStore db (match r with Ok _ => cache_Remove k (ts_cache st) | Err _ => ts_cache st end)).
Proof.
  intros Hc Htx Hf. destruct st as [db0 c0]. cbn [ts_db ts_cache] in *. destruct r as [a|e].
  - apply (coherent_removed D k db0); [|done]. unfold WithTenantTx in Htx. destruct (db_outage env); [done|].
    destruct (fn (tx_conn t) db0) as [db1 [a1|e1]] eqn:E; [|done]. injection Htx as <- <-. by eapply Hf.
  - by apply WithTenantTx_rollback in Htx as ->.
Qed.

(** One on a key that leaves the cache alone. *)
Lemma tx_unnoticed {A} D env t k (fn : Conn -> ToolDb -> ToolDb * result error A) (st : ToolStore) db r :
  coherent_off D st -> WithTenantTx env t fn (ts_db st) = (db, r) ->
  (forall c db db' a, fn c db = (db', Ok a) -> agree_off k db db') ->
  coherent_off (D ∪ {[k]}) (mkToolStore db (ts_cache st)).
Proof.
  intros Hc Htx Hf. destruct st as [db0 c0]. cbn [ts_db ts_cache] in *. apply (coherent_unnoticed D k db0); [|done]. destruct r as [a|e].
  - unfold WithTenantTx in Htx. destruct (db_outage env); [done|].
    destruct (fn (tx_conn t) db0) as [db1 [a1|e1]] eqn:E; [|done]. injection Htx as <- <-. by eapply Hf.
  - by apply WithTenantTx_rollback in Htx as ->.
Qed.

(** One call of the repository, run to its end, every method of it; with the keys
    whose last change the cache was not told of. *)
Inductive tool_step : gset (UUID * string) * @ToolStore C -> gset (UUID * string) * @ToolStore C -> Prop :=
| ts_get env now t name D st : tool_step (D, st) (D, (GetByName env now t name st).1)
| ts_get_tx env t name D st :
    tool_step (D, st) (D, mkToolStore (WithTenantTx env t (GetByNameTx env t name) (ts_db st)).1 (ts_cache st))
| ts_create env audited now id aid t def D st :
    let out := CreateToolDefinition env audited now id aid t def st in
    tool_step (D, st) (cleared (t, td_Name def) out.2 D, out.1)
| ts_update env audited now aid t def D st :
    let out := UpdateToolDefinition env audited now aid t def st in
    tool_step (D, st) (cleared (t, td_Name (tl_def def)) out.2 D, out.1)
| ts_update_tx env audited now aid t def D st :
    tool_step (D, st) (D ∪ {[(t, td_Name (tl_def def))]},
      mkToolStore (WithTenantTx env t (UpdateToolDefinitionTx env audited now aid t def) (ts_db st)).1 (ts_cache st))
| ts_deactivate env audited now aid t name D st :
    let out := DeactivateToolDefinition env audited now aid t name st in
    tool_step (D, st) (cleared (t, name) out.2 D, out.1)
| ts_upsert env audited now id aid t def D st :
    tool_step (D, st) (D ∪ {[(t, td_Name def)]}, (UpsertToolDefinition env audited now id aid t def st).1)
| ts_seed env audited now t cfg draw D st :
    let out := InitFromConfig env audited now t cfg draw st in
    tool_step (D, st) (match out.2 with Ok _ => ∅ | Err _ => D end, out.1).

Lemma create_coherent D env audited now id aid t def st :
  coherent_off D st ->
  let out := CreateToolDefinition env audited now id aid t def st in coherent_off (cleared (t, td_Name def) out.2 D) out.1.
Proof.
  intros Hc. unfold CreateToolDefinition.
  destruct (WithTenantTx env t _ (ts_db st)) as [db r] eqn:Htx.
  pose proof (tx_coherent D env t (t, td_Name def) _ st db r Hc Htx) as Hco.
  destruct r as [def'|e].
  - assert (td_Name (tl_def def') = td_Name def) as En.
    { unfold WithTenantTx in Htx. destruct (db_outage env); [done|].
      destruct (write_new _ _ _ _ _ _ _ _ _ _) as [db1 [d1|e1]] eqn:Ew; [|done]. injection Htx as <- <-.
      apply write_new_frame in Ew as [_ En]; [done|]. intros. by eapply q_Create_frame. }
    cbn [fst snd]. rewrite En. apply Hco. intros c db1 db2 d Hw. eapply write_new_frame, Hw. intros. by eapply q_Create_frame.
  - apply Hco. intros c db1 db2 d Hw. eapply write_new_frame, Hw. intros. by eapply q_Create_frame.
Qed.

Lemma deactivate_coherent D env audited now aid t name st :
  coherent_off D st ->
  let out := DeactivateToolDefinition env audited now aid t name st in coherent_off (cleared (t, name) out.2 D) out.1.
Proof.
  intros Hc. unfold DeactivateToolDefinition. destruct (GetByName _ _ _ _ _) as [st1 [ex|e]] eqn:E; apply (GetByName_coherent D) in E as (Hc1 & _); [|done|done|done].
  destruct (WithTenantTx env t _ (ts_db st1)) as [db r] eqn:Htx.
  pose proof (tx_coherent D env t (t, name) _ st1 db r Hc1 Htx) as Hco.
  destruct r; apply Hco; intros c0 db1 db2 a0 Hw; by eapply deactivate_in_tx_frame.
Qed.

Lemma tool_step_coherent (s s' : gset (UUID * string) * @ToolStore C) : coherent_off s.1 s.2 -> tool_step s s' -> coherent_off s'.1 s'.2.
Proof.
  intros Hc. destruct 1 as [env now t name D st|env t name D st|env audited now id aid t def D st|env audited now aid t def D st
    |env audited now aid t def D st|env audited now aid t name D st|env audited now id aid t def D st|env audited now t cfg draw D st]; cbn [fst snd] in *.
  - destruct (GetByName env now t name st) as [st1 r] eqn:E. by apply (GetByName_coherent D) in E as [? _].
  - rewrite GetByNameTx_reads. by destruct st.
  - by apply create_coherent.
  - subst out. unfold UpdateToolDefinition. destruct (GetByName _ _ _ _ _) as [st1 [ex|e]] eqn:E; apply (GetByName_coherent D) in E as (Hc1 & _); [|done|done|done].
    destruct (WithTenantTx env t _ (ts_db st1)) as [db r] eqn:Htx.
    pose proof (tx_coherent D env t (t, td_Name (tl_def def)) _ st1 db r Hc1 Htx) as Hco.
    destruct r; apply Hco; intros c0 db1 db2 a0 Hw; by eapply update_in_tx_frame.
  - destruct (WithTenantTx env t _ (ts_db st)) as [db r] eqn:Htx. eapply tx_unnoticed; [done|exact Htx|]. intros. by eapply update_tx_frame.
  - by apply deactivate_coherent.
  - unfold UpsertToolDefinition. destruct (WithTenantTx env t _ (ts_db st)) as [db r] eqn:Htx. cbn [fst].
    eapply tx_unnoticed; [done|exact Htx|]. intros c db1 db2 d Hw. eapply write_new_frame, Hw. intros. by eapply q_Upsert_frame.
  - subst out. unfold InitFromConfig. destruct (WithTenantTx env t _ (ts_db st)) as [db [u|e]] eqn:Htx; cbn [fst snd].
    + intros k d a _ Hk. cbn [ts_cache] in Hk. rewrite cache_Purge_view in Hk. by rewrite lookup_empty in Hk.
    + apply WithTenantTx_rollback in Htx as ->. by destruct st.
Qed.

(** C37: What the cache of one process answers, its calls made one after the other.
    From a coherent start (an empty cache is one), after any sequence of the
    repository's calls, with their failures, a look-up answers what the table holds
    at that moment, served from the cache or not, unless the name was last changed
    by an upsert or by an update in the caller's own transaction: neither tells the
    cache, and an entry that is in it is served unchanged after an upsert. A later
    creation, update or deactivation of the name, or a seeding, puts it in order. *)
Theorem tool_cache_transparent (st st' : ToolStore) (D : gset (UUID * string)) (env : DbEnv) (now : Z) (t : UUID) (name : string) :
  coherent st -> rtc tool_step (∅, st) (D, st') ->
  (db_outage env = None -> (t, name) ∉ D ->
   snd (GetByName env now t name st') =
     match current (t, name) (ts_db st') with Some d => Ok d | None => Err (not_found (db_no_rows env)) end) /\
  (forall env2 audited now2 id aid t2 def cached,
     snd (cache_Get now (t, name) (ts_cache st')) = Some cached ->
     snd (GetByName env now t name (UpsertToolDefinition env2 audited now2 id aid t2 def st').1) = Ok cached).
Proof.
  intros Hc Hr. split.
  - intros Hup HD. assert (forall s s', rtc tool_step s s' -> coherent_off s.1 s.2 -> coherent_off s'.1 s'.2) as Hall
      by (induction 1; eauto using tool_step_coherent).
    specialize (Hall _ _ Hr Hc). cbn [fst snd] in Hall.
    destruct (GetByName env now t name st') as [st1 r] eqn:E. apply (GetByName_coherent D) in E as (_ & _ & _ & Hv); [|done]. by apply Hv.
  - intros env2 audited now2 id aid t2 def cached Hcached. unfold UpsertToolDefinition.
    destruct (WithTenantTx env2 t2 _ (ts_db st')) as [db r]. unfold GetByName. cbn [fst ts_cache].
    destruct (cache_Get _ _ _) as [c1 o]. cbn in Hcached. by subst o.
Qed.

(** ** A deactivated tool can be served on *)

(** A look-up that misses is a read and, later, an addition to the cache: between
    the two, other calls may run to their ends. *)
Definition load_tool (env : DbEnv) (t : UUID) (name : string) (st : @ToolStore C) : result error tool_row :=
  snd (WithTenantTx env t (GetByNameTx env t name) (ts_db st)).
Definition keep_tool (now : Z) (t : UUID) (name : string) (def : tool_row) (st : @ToolStore C) : ToolStore :=
  mkToolStore (ts_db st) (cache_Add now (t, name) def (ts_cache st)).

Lemma GetByName_phases env now t name (st : ToolStore) :
  snd (cache_Get now (t, name) (ts_cache st)) = None ->
  let st1 := mkToolStore (ts_db st) (fst (cache_Get now (t, name) (ts_cache st))) in
  GetByName env now t name st =
    match load_tool env t name st1 with Err e => (st1, Err e) | Ok def => (keep_tool now t name def st1, Ok def) end.
Proof.
  unfold GetByName, load_tool, keep_tool. cbn [ts_db ts_cache]. destruct (cache_Get now (t, name) (ts_cache st)) as [c1 o]. cbn. intros ->.
  pose proof (GetByNameTx_reads env t name (ts_db st)) as Hr. by destruct (WithTenantTx _ _ _ _) as [db [d|e]]; cbn in *; subst.
Qed.

Lemma deactivated_none env now t name db db' u :
  q_DeactivateToolDefinition env now t name (tx_conn t) db = (db', Ok u) -> current (t, name) db' = None.
Proof.
  unfold q_DeactivateToolDefinition. intros [= <- _]. unfold current, set_tool_rows. cbn [tdb_rows].
  destruct (List.find _ _) as [r|] eqn:Hf; [|done]. exfalso. apply List.find_some in Hf as [Hin Hact].
  apply in_map_iff in Hin as (r0 & <- & _). revert Hact. destruct (row_is env (tx_conn t) t name r0) eqn:E.
  - unfold active_at. cbn. by rewrite andb_false_r.
  - rewrite row_is_own in E. unfold active_at. cbn [fst snd]. by rewrite E.
Qed.

Lemma load_tool_active env t name (st : @ToolStore C) def : load_tool env t name st = Ok def -> active_at (t, name) def = true.
Proof.
  unfold load_tool. destruct (db_outage env) eqn:Ho; [unfold WithTenantTx; by rewrite Ho|]. rewrite GetByNameTx_current by done.
  unfold current. destruct (List.find _ _) as [r|] eqn:Hf; [|done]. cbn. intros [= <-]. apply List.find_some in Hf as [_ Ha]. exact Ha.
Qed.

(** A deactivated tool can be served on. If a look-up has read a tool before a
    deactivation and adds it to the cache after the deactivation has committed and
    cleared the cache, then until the entry expires every look-up answers that
    definition, as an active one, though the table holds no active one. *)
Theorem deactivated_tool_served_from_cache (env : DbEnv) (audited : bool) (now now2 now3 : Z) (aid t : UUID) (name : string)
    (def : tool_row) (st st1 : @ToolStore C) :
  load_tool env t name st = Ok def ->
  DeactivateToolDefinition env audited now aid t name st = (st1, Ok tt) ->
  now2 <= now3 < now2 + ttl ->
  current (t, name) (ts_db st1) = None /\
  snd (GetByName env now3 t name (keep_tool now2 t name def st1)) = Ok def /\ active_at (t, name) def = true.
Proof.
  intros Hl Hd Hnow. split_and!; [| |by eapply load_tool_active].
  - unfold DeactivateToolDefinition in Hd. destruct (GetByName _ _ _ _ _) as [st0 [ex|e]]; [|done].
    unfold WithTenantTx in Hd. destruct (db_outage env); [done|].
    destruct (deactivate_in_tx _ _ _ _ _ _ _ _ _) as [db1 [u|e]] eqn:Hx; [|done]. injection Hd as <-.
    unfold deactivate_in_tx in Hx. destruct (q_DeactivateToolDefinition _ _ _ _ _ _) as [db2 [u2|e]] eqn:Hq; [|done].
    apply deactivated_none in Hq. apply append_event_rows in Hx. unfold current in *. cbn [ts_db]. by rewrite Hx.
  - unfold GetByName, keep_tool. cbn [ts_cache ts_db].
    pose proof (cache_Get_Add now2 now3 (t, name) def (ts_cache st1) Hnow) as Hg.
    destruct (cache_Get now3 (t, name) _) as [c1 o]. cbn in Hg. by subst o.
Qed.

(** ** A tool created anew *)

Definition key_is (k : UUID * string) (r : tool_row) : bool :=
  bool_decide (td_TenantID (tl_def r) = k.1) && bool_decide (td_Name (tl_def r) = k.2).

Definition copies (k : UUID * string) (db : ToolDb) : nat := length (List.filter (key_is k) (tdb_rows db)).

Lemma copies_rows k db db' : tdb_rows db' = tdb_rows db -> copies k db' = copies k db.
Proof. intros E. unfold copies. by rewrite E. Qed.

Lemma copies_map k (f : tool_row -> tool_row) db :
  (forall r, key_is k (f r) = key_is k r) -> copies k (set_tool_rows db (map f (tdb_rows db))) = copies k db.
Proof.
  intros Hf. unfold copies, set_tool_rows. cbn [tdb_rows]. induction (tdb_rows db) as [|r l IH]; [done|].
  cbn. rewrite Hf. destruct (key_is k r); cbn; by rewrite IH.
Qed.

Lemma current_copies k db d : current k db = Some d -> (1 <= copies k db)%nat.
Proof.
  unfold current. destruct (List.find _ _) as [r|] eqn:Hf; [|done]. intros _. apply List.find_some in Hf as [Hin Ha].
  unfold copies. assert (List.In r (List.filter (key_is k) (tdb_rows db))) as Hin'.
  { apply filter_In. split; [done|]. unfold active_at in Ha. by apply andb_true_iff in Ha as [? _]. }
  destruct (List.filter _ _); [done|]. cbn. lia.
Qed.

Lemma deactivate_copies env audited now aid t name st st1 u :
  coherent st -> DeactivateToolDefinition env audited now aid t name st = (st1, Ok u) -> (1 <= copies (t, name) (ts_db st1))%nat.
Proof.
  intros Hc. unfold DeactivateToolDefinition. destruct (GetByName _ _ _ _ _) as [st0 [ex|e]] eqn:Hg; [|done].
  apply (GetByName_coherent ∅) in Hg as (_ & Edb & Hcur & _); [|done]. specialize (Hcur (not_elem_of_empty _) ex eq_refl).
  unfold WithTenantTx. destruct (db_outage env); [done|].
  destruct (deactivate_in_tx _ _ _ _ _ _ _ _ _) as [db1 [u1|e]] eqn:Hx; [|done]. intros [= <- _]. cbn [ts_db].
  unfold deactivate_in_tx in Hx. destruct (q_DeactivateToolDefinition _ _ _ _ _ _) as [db2 [u2|e]] eqn:Hq; [|done].
  apply append_event_rows in Hx. rewrite (copies_rows _ _ _ Hx). unfold q_DeactivateToolDefinition in Hq. injection Hq as <- _.
  rewrite copies_map by (intros r; by destruct (row_is _ _ _ _ r)). rewrite Edb. by eapply current_copies.
Qed.

Lemma create_copies env audited now id aid t def st st1 d :
  CreateToolDefinition env audited now id aid t def st = (st1, Ok d) ->
  copies (t, td_Name def) (ts_db st1) = S (copies (t, td_Name def) (ts_db st)).
Proof.
  unfold CreateToolDefinition, WithTenantTx. destruct (db_outage env); [done|].
  destruct (write_new _ _ _ _ _ _ _ _ _ _) as [db1 [d1|e]] eqn:Hw; [|done]. intros [= <- _]. cbn [ts_db].
  unfold write_new in Hw. destruct (q_CreateToolDefinition _ _ _ _ _ _ _ _) as [db2 [r|e]] eqn:Hq; [|done].
  destruct (append_event _ _ _ _ _ _ _) as [db3 [u|e]] eqn:Ha; [|done]. injection Hw as <- _.
  apply append_event_rows in Ha. rewrite (copies_rows _ _ _ Ha). unfold q_CreateToolDefinition in Hq.
  destruct (stored_tool t def (effective_hash def)) as [sd|] eqn:Es; [|done]. apply stored_tool_key in Es as (Et & En & _).
  unfold insert_tool in Hq. destruct (negb _); [done|]. destruct (_ || _); [done|]. destruct (negb _); [done|]. injection Hq as <- _.
  unfold copies, set_tool_rows. cbn [tdb_rows]. rewrite filter_app, length_app. cbn [List.filter]. unfold key_is at 2. cbn.
  rewrite Et, En, !bool_decide_eq_true_2 by done. cbn. lia.
Qed.

(** A tool that was deactivated and created again can no longer be updated: the
    update rewrites the inactive row with the active one, and the unique index on
    active names refuses it, whatever is changed. *)
Theorem recreated_tool_cannot_be_updated (env env2 env3 : DbEnv) (audited audited2 audited3 : bool) (now now2 now3 id2 : Z)
    (aid aid2 aid3 t : UUID) (name : string) (def2 : ToolDefinition) (d2 upd : tool_row) (st st1 st2 : @ToolStore C) :
  coherent st ->
  DeactivateToolDefinition env audited now aid t name st = (st1, Ok tt) ->
  CreateToolDefinition env2 audited2 now2 id2 aid2 t def2 st1 = (st2, Ok d2) -> td_Name def2 = name ->
  td_Name (tl_def upd) = name -> td_IsActive (tl_def upd) = true ->
  exists st3 e, UpdateToolDefinition env3 audited3 now3 aid3 t upd st2 = (st3, Err e) /\ ts_db st3 = ts_db st2.
Proof.
  intros Hc Hd Hcr En Eu Ha.
  assert (coherent st1) as Hc1.
  { pose proof (deactivate_coherent ∅ env audited now aid t name st Hc) as Hs. cbn zeta in Hs. rewrite cleared_empty, Hd in Hs. exact Hs. }
  assert (coherent st2) as Hc2.
  { pose proof (create_coherent ∅ env2 audited2 now2 id2 aid2 t def2 st1 Hc1) as Hs. cbn zeta in Hs. rewrite cleared_empty, Hcr in Hs. exact Hs. }
  assert (2 <= copies (t, name) (ts_db st2))%nat as Hn.
  { apply deactivate_copies in Hd; [|done]. apply create_copies in Hcr. rewrite En in Hcr. lia. }
  unfold UpdateToolDefinition. rewrite Eu. destruct (GetByName _ _ _ _ _) as [st3 [ex|e]] eqn:Hg;
    apply (GetByName_coherent ∅) in Hg as (_ & Edb & _); [|done|eauto|done].
  assert (exists e, WithTenantTx env3 t (update_in_tx env3 audited3 now3 aid3 t upd (tl_def ex)) (ts_db st3) = (ts_db st3, Err e)) as [e ->].
  { unfold WithTenantTx. destruct (db_outage env3); [eauto|]. unfold update_in_tx, q_UpdateToolDefinition. rewrite Eu.
    rewrite Edb. unfold copies in Hn.
    assert (List.filter (row_is env3 (tx_conn t) t name) (tdb_rows (ts_db st2)) = List.filter (key_is (t, name)) (tdb_rows (ts_db st2))) as ->
      by (apply filter_ext; intros r; apply row_is_own).
    destruct (List.filter _ _) as [|r1 [|r2 rest]]; cbn in Hn; [lia|lia|].
    destruct (stored_tool t (tl_def upd) _) as [sd|] eqn:Es; [|eauto]. apply stored_tool_key in Es as (_ & _ & ->).
    rewrite Ha. cbn. eauto. }
  cbn. eauto.
Qed.
End Coherence.

(** ** Every change is recorded *)

Section Recorded.
Context `{ToolJson} `{JsonTextLaws} {C : Type} `{ToolCache C}.
Variable env : DbEnv.

(** One more row of the log, of this tenant, action and severity. *)
Definition recorded (t : UUID) (action severity : string) (db db' : ToolDb) : Prop :=
  audit_ok (tdb_audit db') /\ exists r, au_rows (tdb_audit db') = au_rows (tdb_audit db) ++ [r] /\
    ar_TenantID r = t /\ ar_Action r = "tool_definition." +:+ action /\ ar_Severity r = severity.

Lemma append_event_recorded now aid t def op old new changed severity db db' u :
  audit_ok (tdb_audit db) ->
  append_event env true now aid (buildAuditEvent now t def op old new changed severity) (tx_conn t) db = (db', Ok u) ->
  recorded t (string_of_bytes (to_lower (bytes_of_string op))) severity db db'.
Proof.
  intros Hok. unfold append_event. cbn [negb].
  destruct (AppendWithTx _ _ _ _ _ _) as [a [x|e]] eqn:Ha; [|done]. intros [= <- _].
  apply (AppendWithTx_Ok env now aid (buildAuditEvent now t def op old new changed severity)) in Ha as (Hok' & r & Hrows & Happ & _); [|done].
  destruct Happ as (_ & Ht & _ & Hact & _ & _ & Hsev & _). split; [done|]. by exists r.
Qed.

(** The statements leave the log alone. *)
Lemma insert_tool_audit now id c d db db' r : insert_tool env now id c d db = (db', r) -> tdb_audit db' = tdb_audit db.
Proof. unfold insert_tool. destruct (negb _); [by intros [= <- _]|]. destruct (_ || _); [by intros [= <- _]|]. destruct (negb _); by intros [= <- _]. Qed.

Lemma write_new_recorded q op now aid t def db db' d :
  (forall hash c db db' r, q def hash c db = (db', r) -> tdb_audit db' = tdb_audit db) ->
  audit_ok (tdb_audit db) -> write_new env true q op now aid t def (tx_conn t) db = (db', Ok d) ->
  recorded t (string_of_bytes (to_lower (bytes_of_string op))) "info" db db'.
Proof.
  intros Hq Hok. unfold write_new. destruct (q def _ _ db) as [db1 [r|e]] eqn:Eq; [|done]. apply Hq in Eq.
  destruct (append_event _ _ _ _ _ _ _) as [db2 [u|e]] eqn:Ea; [|done]. intros [= <- _].
  apply append_event_recorded in Ea; [|by rewrite Eq]. unfold recorded in *. by rewrite <- Eq.
Qed.

(** No change to the registry goes unrecorded. A creation, update or deactivation
    that succeeds has appended to the audit chain exactly one event, of its tenant
    and kind, critical for an update that changed the hash; one that fails has left
    both the tools and the chain as they were. *)
Theorem tool_changes_recorded (now id : Z) (aid t : UUID) (name : string) (def : ToolDefinition) (upd : tool_row) (st : @ToolStore C) :
  audit_ok (tdb_audit (ts_db st)) ->
  match CreateToolDefinition env true now id aid t def st with
  | (st', Ok _) => recorded t "create" "info" (ts_db st) (ts_db st')
  | (st', Err _) => ts_db st' = ts_db st
  end /\
  match UpdateToolDefinition env true now aid t upd st with
  | (st', Ok (hashChanged, _)) => recorded t "update" (if hashChanged then "critical" else "warn") (ts_db st) (ts_db st')
  | (st', Err _) => ts_db st' = ts_db st
  end /\
  match DeactivateToolDefinition env true now aid t name st with
  | (st', Ok _) => recorded t "delete" "warn" (ts_db st) (ts_db st')
  | (st', Err _) => ts_db st' = ts_db st
  end.
Proof.
  intros Hok. split_and!.
  - unfold CreateToolDefinition. destruct (WithTenantTx env t _ (ts_db st)) as [db [d|e]] eqn:Htx; cbn [ts_db].
    + unfold WithTenantTx in Htx. destruct (db_outage env); [done|]. destruct (write_new _ _ _ _ _ _ _ _ _ _) as [db1 [d1|e1]] eqn:Hw; [|done].
      injection Htx as <- <-. apply (write_new_recorded _ "CREATE" now aid t def) in Hw; [exact Hw| |done].
      intros hash c db0 db' r. unfold q_CreateToolDefinition. destruct (stored_tool _ _ _); [apply insert_tool_audit|by intros [= <- _]].
    + by apply WithTenantTx_rollback in Htx.
  - unfold UpdateToolDefinition. pose proof (GetByName_db env now t (td_Name (tl_def upd)) st) as Hdb.
    destruct (GetByName env now t (td_Name (tl_def upd)) st) as [st0 [ex|e]]; cbn in Hdb; [|done].
    destruct (WithTenantTx env t _ (ts_db st0)) as [db [d|e]] eqn:Htx; cbn [ts_db].
    + unfold WithTenantTx in Htx. destruct (db_outage env); [done|]. destruct (update_in_tx _ _ _ _ _ _ _ _ _) as [db1 [d1|e1]] eqn:Hw; [|done].
      injection Htx as <- <-. unfold update_in_tx in Hw. destruct (q_UpdateToolDefinition _ _ _ _ _ _ _) as [db2 [r|e]] eqn:Hq; [|done].
      assert (tdb_audit db2 = tdb_audit (ts_db st)) as Eau.
      { revert Hq. rewrite Hdb. unfold q_UpdateToolDefinition. destruct (List.filter _ _); [done|]. destruct (stored_tool _ _ _); [|done].
        destruct (_ && _); [done|]. by intros [= <- _]. }
      destruct (append_event _ _ _ _ _ _ _) as [db3 [u|e]] eqn:Ea; [|done]. injection Hw as <- _.
      apply append_event_recorded in Ea; [|by rewrite Eau]. unfold recorded in *. by rewrite <- Eau.
    + apply WithTenantTx_rollback in Htx. congruence.
  - unfold DeactivateToolDefinition. pose proof (GetByName_db env now t name st) as Hdb.
    destruct (GetByName env now t name st) as [st0 [ex|e]]; cbn in Hdb; [|done].
    destruct (WithTenantTx env t _ (ts_db st0)) as [db [d|e]] eqn:Htx; cbn [ts_db].
    + unfold WithTenantTx in Htx. destruct (db_outage env); [done|]. destruct (deactivate_in_tx _ _ _ _ _ _ _ _ _) as [db1 [d1|e1]] eqn:Hw; [|done].
      injection Htx as <- <-. unfold deactivate_in_tx in Hw. destruct (q_DeactivateToolDefinition _ _ _ _ _ _) as [db2 [r|e]] eqn:Hq; [|done].
      assert (tdb_audit db2 = tdb_audit (ts_db st)) as Eau by (unfold q_DeactivateToolDefinition in Hq; injection Hq as <- _; by rewrite <- Hdb).
      apply append_event_recorded in Hw; [|by rewrite Eau]. unfold recorded in *. by rewrite <- Eau.
    + apply WithTenantTx_rollback in Htx. congruence.
Qed.
End Recorded.

(** ** Corners *)

(** A key missing on one side counts as null: the comparison is neither symmetric
    nor an equality. *)
Lemma jsonEqualValue_null :
  jsonEqualValue (JObject [("a", JNull)]) (JObject [("b", JNumber "1")]) = true /\
  jsonEqualValue (JObject [("b", JNumber "1")]) (JObject [("a", JNull)]) = false.
Proof. split; reflexivity. Qed.

(** A tool created without a timeout is refused by the table, not defaulted. *)
Lemma create_without_timeout_refused `{ToolJson} `{JsonText} {C : Type} `{ToolCache C} env audited now id aid (b : CreateToolBody) (st : @ToolStore C) :
  cb_ExecutionTimeoutMs b = None -> snd (handle_CreateTool env audited now id aid (Some b) st) = (StatusBadRequest, None) \/
  snd (handle_CreateTool env audited now id aid (Some b) st) = (StatusInternalServerError, None).
Proof.
  intros Hb. unfold handle_CreateTool. destruct (ParseUUID _) as [t|]; [|by left]. right.
  unfold CreateToolDefinition, WithTenantTx. destruct (db_outage env); [done|]. unfold write_new, q_CreateToolDefinition.
  assert (forall hash, exists e, stored_tool t (created_definition t b) hash = Err e) as Hs.
  { intros hash. unfold stored_tool. destruct (jsonb_out (td_InputSchema (created_definition t b))), (jsonb_out (td_Grants (created_definition t b))), (char64 hash); eauto. destruct (255 <? _); [eauto|].
    cbn [created_definition td_ExecutionTimeoutMs]. rewrite Hb. cbn. eauto. }
  destruct (Hs (effective_hash (created_definition t b))) as [e ->]. done.
Qed.

(** * Witnesses *)

Section Toys.
#[local] Instance toy_json : JsonText := {
  json_remarshal p := if bool_decide (p = "") then None else Some p;
  jsonb_out p := if bool_decide (p = "") then None else Some p;
}.
#[local] Instance toy_json_laws : JsonTextLaws.
Proof.
  constructor; [done|].
  intros p c. cbn. case_bool_decide as E; [done|]. intros [= <-]. by rewrite bool_decide_eq_false_2.
Qed.

#[local] Instance toy_tool_json : ToolJson := {
  marshal_hash_input name desc params := Some (name +:+ "|" +:+ desc +:+ "|" +:+ params);
  jcs_Transform := Some;
  json_Unmarshal _ := Some JNull;
  marshal_definition _ := "{}";
  marshal_tool_payload _ := "{}";
  marshal_grants _ := "[]";
}.

Definition toy_ttl : Z := 300 * 1000000000.

#[local] Instance toy_cache : ToolCache (gmap (UUID * string) (tool_row * Z)) := {
  cache_Get now k c := (c, match c !! k with Some (d, a) => if now <? a + toy_ttl then Some d else None | None => None end);
  cache_Add now k d c := <[k := (d, now)]> c;
  cache_Remove k c := delete k c;
  cache_Purge _ := ∅;
  cache_view c := c;
}.
#[local] Instance toy_cache_laws : ToolCacheLaws (gmap (UUID * string) (tool_row * Z)) toy_ttl.
Proof.
  constructor; try done.
  - intros now k c c' d [= <- Hg]. destruct (c !! k) as [[d' a]|] eqn:E; [|done]. cbn [cache_view toy_cache].
    destruct (Z.ltb_spec now (a + toy_ttl)); [|done]. injection Hg as ->. exists a. by split.
  - intros now now' k d c Hnow. cbn. rewrite lookup_insert_eq. destruct (Z.ltb_spec now' (now + toy_ttl)); [done|lia].
Qed.

Definition ex_tool : ToolDefinition := mkToolDefinition 0 (uuid_n 1) "echo" "says it again" "{}" "[]" 1000 16 "" true.
Definition ex_env : DbEnv := mkDbEnv false ESqlNoRows None (fun _ => true).
Definition ex_store : @ToolStore (gmap (UUID * string) (tool_row * Z)) := mkToolStore (mkToolDb [] empty_db) ∅.
Definition ex_created : @ToolStore (gmap (UUID * string) (tool_row * Z)) :=
  fst (CreateToolDefinition ex_env false 1000 1 (uuid_n 9) (uuid_n 1) ex_tool ex_store).
Definition ex_loaded : tool_row := match load_tool ex_env (uuid_n 1) "echo" ex_created with Ok d => d | Err _ => mkToolRow ex_tool 0 0 end.
Definition ex_deactivated : @ToolStore (gmap (UUID * string) (tool_row * Z)) :=
  fst (DeactivateToolDefinition ex_env false 2000 (uuid_n 10) (uuid_n 1) "echo" ex_created).

(** After an upsert with another description the old definition is still served. *)
Lemma tool_cache_transparent_witness :
  snd (GetByName ex_env 1500 (uuid_n 1) "echo" ex_created) = Ok ex_loaded /\ td_Name (tl_def ex_loaded) = "echo" /\
  let looked_up := (GetByName ex_env 1500 (uuid_n 1) "echo" ex_created).1 in
  let upserted := mkToolDefinition 0 (uuid_n 1) "echo" "new" "{}" "[]" 1000 16 "" true in
  snd (GetByName ex_env 1600 (uuid_n 1) "echo" (UpsertToolDefinition ex_env false 1550 2 (uuid_n 10) (uuid_n 1) upserted looked_up).1) = Ok ex_loaded.
Proof.
  assert (coherent ex_store) as Hc by (intros k d a _ Hk; cbn in Hk; by rewrite lookup_empty in Hk).
  assert (rtc tool_step (∅, ex_store) (∅, ex_created)) as Hr.
  { apply rtc_once. rewrite <- (cleared_empty (uuid_n 1, td_Name ex_tool) (snd (CreateToolDefinition ex_env false 1000 1 (uuid_n 9) (uuid_n 1) ex_tool ex_store))) at 2.
    apply ts_create. }
  split_and!.
  - etransitivity; [by apply (tool_cache_transparent (ttl := toy_ttl) ex_store ex_created ∅ ex_env 1500 (uuid_n 1) "echo")|].
    vm_compute. reflexivity.
  - vm_compute. reflexivity.
  - cbn zeta. apply (tool_cache_transparent (ttl := toy_ttl) ex_store _ ∅ ex_env 1600 (uuid_n 1) "echo").
    + done.
    + eapply rtc_r; [exact Hr|]. apply ts_get.
    + vm_compute. reflexivity.
Defined.

Lemma deactivated_tool_served_from_cache_witness :
  current (uuid_n 1, "echo") (ts_db ex_deactivated) = None /\
  snd (GetByName ex_env 4000 (uuid_n 1) "echo" (keep_tool 3000 (uuid_n 1) "echo" ex_loaded ex_deactivated)) = Ok ex_loaded /\
  active_at (uuid_n 1, "echo") ex_loaded = true.
Proof.
  apply (deactivated_tool_served_from_cache (ttl := toy_ttl) ex_env false 2000 3000 4000 (uuid_n 10) (uuid_n 1) "echo" ex_loaded ex_created ex_deactivated).
  - vm_compute. reflexivity.
  - vm_compute. reflexivity.
  - unfold toy_ttl. lia.
Defined.

Definition ex_recreated : @ToolStore (gmap (UUID * string) (tool_row * Z)) * result error tool_row :=
  CreateToolDefinition ex_env false 3000 2 (uuid_n 11) (uuid_n 1) ex_tool ex_deactivated.

Lemma recreated_tool_cannot_be_updated_witness :
  exists st3 e, UpdateToolDefinition ex_env false 4000 (uuid_n 12) (uuid_n 1) (mkToolRow ex_tool 0 0) (fst ex_recreated) = (st3, Err e) /\
    ts_db st3 = ts_db (fst ex_recreated).
Proof.
  apply (recreated_tool_cannot_be_updated (ttl := toy_ttl) ex_env ex_env ex_env false false false 2000 3000 4000 2 (uuid_n 10) (uuid_n 11) (uuid_n 12) (uuid_n 1)
    "echo" ex_tool (match snd ex_recreated with Ok d => d | Err _ => mkToolRow ex_tool 0 0 end) (mkToolRow ex_tool 0 0) ex_created ex_deactivated (fst ex_recreated)).
  - pose proof (create_coherent (ttl := toy_ttl) ∅ ex_env false 1000 1 (uuid_n 9) (uuid_n 1) ex_tool ex_store) as Hc.
    cbn zeta in Hc. rewrite cleared_empty in Hc. apply Hc. intros k d a _ Hk. cbn in Hk. by rewrite lookup_empty in Hk.
  - vm_compute. reflexivity.
  - vm_compute. reflexivity.
  - reflexivity.
  - reflexivity.
  - reflexivity.
Defined.

Lemma tool_changes_recorded_witness :
  exists st' d, CreateToolDefinition ex_env true 1000 1 (uuid_n 9) (uuid_n 1) ex_tool ex_store = (st', Ok d) /\
    recorded (uuid_n 1) "create" "info" (ts_db ex_store) (ts_db st').
Proof.
  destruct (tool_changes_recorded ex_env 1000 1 (uuid_n 9) (uuid_n 1) "echo" ex_tool (mkToolRow ex_tool 0 0) ex_store empty_db_ok) as (Hc & _ & _).
  destruct (CreateToolDefinition ex_env true 1000 1 (uuid_n 9) (uuid_n 1) ex_tool ex_store) as [st' [d|e]] eqn:E.
  - exists st', d. split; [reflexivity|exact Hc].
  - exfalso. apply (f_equal (fun x => is_ok (snd x))) in E. vm_compute in E. discriminate E.
Defined.
End Toys.
