(* ===== verification/GuardrailMW.v ===== *)
(** The guardrails middleware, [internal/middleware/guardrails.go], and the
    repository of violations, [internal/adapter/postgres/guardrail_repository.go]
    with [queries/guardrail.sql] and [migrations/0012_guardrail_violations.up.sql]. *)

From stdpp Require Import base gmap strings list numbers.
From Stdlib Require Import QArith.
From S2P Require Import GoPrelude Bytes Regex Errors Uuid Tenancy Http ChatModel AuditLog Guardrail CompositeGuardrail.
Open Scope Z_scope.

(** ** The repository *)

Record violation_row := mkViolationRow {
  vr_ID : UUID;
  vr_TenantID : UUID;
  vr_RequestID : option UUID;
  vr_Direction : GuardrailPhase;   (* the CHECK admits the two texts *)
  vr_RuleID : string;
  vr_Severity : string;
  vr_PayloadExcerpt : string;
  vr_Metadata : string;
  vr_CreatedAt : Z;
}.

Definition convertSQLCGuardrailViolation (v : violation_row) : GuardrailViolation :=
  mkViolation (vr_ID v) (vr_TenantID v) (vr_RequestID v) (vr_Direction v) (vr_RuleID v) (vr_Severity v)
    (vr_PayloadExcerpt v) (vr_Metadata v) (vr_CreatedAt v).

Record GuardrailViolationFilter := mkViolationFilter {
  vf_TenantID : UUID;
  vf_Direction : string;
  vf_RuleID : string;
  vf_Severity : string;
  vf_RequestID : option UUID;
  vf_Limit : Z;
  vf_Offset : Z;
}.

Section Repository.
Context `{JsonText}.
Variable env : DbEnv.

(** [Create] answers the violation with the identifier and time the database drew. *)
Definition violation_Create (now : Z) (id : UUID) (v : GuardrailViolation) : list violation_row -> list violation_row * result error GuardrailViolation :=
  WithTenant env (gv_TenantID v) (fun c rows =>
    let metadata := if bool_decide (gv_Context v = "") then "{}" else gv_Context v in
    if negb (rls_visible env c (gv_TenantID v)) then (rows, Err rls_check_error)
    else if negb (severity_check (gv_Severity v)) then (rows, Err (EOther "new row violates check constraint"))
    else match jsonb_out metadata with
    | None => (rows, Err (EOther "invalid input syntax for type json"))
    | Some stored =>
        let row := mkViolationRow id (gv_TenantID v) (gv_RequestID v) (gv_Phase v) (gv_Rule v) (gv_Severity v)
                     (gv_Message v) stored (pg_time now) in
        if negb (db_tenants env (gv_TenantID v)) then (rows, Err tenant_fk_error) else
        (rows ++ [row],
         Ok (mkViolation id (gv_TenantID v) (gv_RequestID v) (gv_Phase v) (gv_Rule v) (gv_Severity v) (gv_Message v)
               (gv_Context v) (pg_time now)))
    end).

Definition violation_GetByID (tenantID id : UUID) : list violation_row -> list violation_row * result error GuardrailViolation :=
  WithTenant env tenantID (fun c rows =>
    match List.find (fun r => rls_visible env c (vr_TenantID r) && bool_decide (vr_TenantID r = tenantID) && bool_decide (vr_ID r = id)) rows with
    | Some row => (rows, Ok (convertSQLCGuardrailViolation row))
    | None => (rows, Err (if bool_decide (db_no_rows env = ESqlNoRows) then (ErrNotFound : error) else db_no_rows env))
    end).

Definition violation_matches (f : GuardrailViolationFilter) (r : violation_row) : bool :=
  bool_decide (vr_TenantID r = vf_TenantID f) &&
  (bool_decide (vf_Direction f = "") || bool_decide (phase_text (vr_Direction r) = vf_Direction f)) &&
  (bool_decide (vf_RuleID f = "") || bool_decide (vr_RuleID r = vf_RuleID f)) &&
  (bool_decide (vf_Severity f = "") || bool_decide (vr_Severity r = vf_Severity f)) &&
  (bool_decide (default ZeroUUID (vf_RequestID f) = ZeroUUID) || bool_decide (vr_RequestID r = vf_RequestID f)).

(** [ORDER BY created_at DESC] *)
Fixpoint insert_violation (row : violation_row) (l : list violation_row) : list violation_row :=
  match l with
  | [] => [row]
  | r :: l' => if vr_CreatedAt r <=? vr_CreatedAt row then row :: l else r :: insert_violation row l'
  end.

(** A negative LIMIT or OFFSET is an error of the statement. *)
Definition violation_List (f : GuardrailViolationFilter) : list violation_row -> list violation_row * result error (list GuardrailViolation) :=
  WithTenant env (vf_TenantID f) (fun c rows =>
    let limit := int32_wrap (vf_Limit f) in
    let offset := int32_wrap (vf_Offset f) in
    if (limit <? 0) || (offset <? 0) then (rows, Err (EOther "LIMIT or OFFSET must not be negative"))
    else
      let found := foldr insert_violation []
        (List.filter (fun r => rls_visible env c (vr_TenantID r) && violation_matches f r) rows) in
      (rows, Ok (map convertSQLCGuardrailViolation (take (Z.to_nat limit) (drop (Z.to_nat offset) found))))).
End Repository.

(** ** The middleware *)

(** The checker the middleware is given. *)
Class GuardrailChecker (W : Type) := {
  CheckInput : UUID -> string -> W -> W * result error (option GuardrailViolation);
  CheckOutput : UUID -> string -> W -> W * result error (option GuardrailViolation);
}.

(** Its stores: the table of violations, if it is given one, and the audit log.
    Their errors are logged and dropped. *)
Class GuardrailStores (W : Type) := {
  store_violation : option (GuardrailViolation -> W -> W * result error GuardrailViolation);
  append_event : AuditEvent -> W -> W;
}.

(** What a handler does with its response writer, and to the world. *)
Inductive handler_prog (W : Type) :=
| Done
| WriteHeader (statusCode : Z) (k : handler_prog W)
| Write (p : string) (k : handler_prog W)
| Act (f : W -> W) (k : W -> handler_prog W).
Arguments Done {_}.
Arguments WriteHeader {_} _ _.
Arguments Write {_} _ _.
Arguments Act {_} _ _.

(** Calls that reach the connection. *)
Inductive wire := WireHeader (statusCode : Z) | WireBody (p : string).

Fixpoint run_plain {W} (h : handler_prog W) (w : W) : W * list wire :=
  match h with
  | Done => (w, [])
  | WriteHeader code k => let '(w, out) := run_plain k w in (w, WireHeader code :: out)
  | Write p k => let '(w, out) := run_plain k w in (w, WireBody p :: out)
  | Act f k => run_plain (k (f w)) (f w)
  end.

Section Middleware.
Context {W : Type} `{GuardrailChecker W} `{GuardrailStores W}.
(** [json.Marshal], and whether a request's body can be read. *)
Variables (json_Marshal : json -> string) (ReadAll : Request -> option string).

Definition guardrail_event (tenantID : UUID) (v : GuardrailViolation) : AuditEvent :=
  let payload := json_Marshal (JObject
    [("rule", JString (gv_Rule v)); ("severity", JString (gv_Severity v)); ("phase", JString (phase_text (gv_Phase v)));
     ("message", JString (gv_Message v)); ("context", JString (gv_Context v)); ("violation_id", JString (uuid_String (gv_ID v)))]) in
  let severity := if bool_decide (gv_Severity v = "critical") then "critical" else "warn" in
  mkAuditEvent ZeroUUID tenantID 0 [] [] None "guardrail.violation" "guardrail_violation" None payload severity (gv_CreatedAt v).

Definition emitGuardrailAudit (tenantID : UUID) (v : GuardrailViolation) (w : W) : W := append_event (guardrail_event tenantID v) w.

Definition writeGuardrailError (v : GuardrailViolation) : Response :=
  mkResponse StatusBadRequest (json_Marshal (JObject
    [("error", JString "guardrail_violation");
     ("details", JObject [("rule", JString (gv_Rule v)); ("severity", JString (gv_Severity v)); ("phase", JString (phase_text (gv_Phase v)));
        ("message", JString (gv_Message v)); ("context", JString (gv_Context v))])])).

Definition keep_violation (v : GuardrailViolation) (w : W) : W * GuardrailViolation :=
  match store_violation with
  | None => (w, v)
  | Some create => match create v w with (w, Ok v) => (w, v) | (w, Err _) => (w, v) end
  end.

(** The checks before the handler; [true] when its writer is wrapped. *)
Definition guardrails_gate (r : Request) (w : W) : W * (Response + Request * bool) :=
  if negb (bool_decide (Path r = "/v1/chat/completions")) then (w, inr (r, false))
  else match GetTenantID r with
  | None => (w, inr (r, false))
  | Some tenantID =>
      match ReadAll r with
      | None => (w, inr (r, false))
      | Some input =>
          match CheckInput tenantID input w with
          | (w, Err _) => (w, inr (r, true))
          | (w, Ok None) => (w, inr (r, true))
          | (w, Ok (Some violation)) =>
              let '(w, violation) := keep_violation (set_tenant tenantID violation) w in
              (emitGuardrailAudit tenantID violation w, inl (writeGuardrailError violation))
          end
      end
  end.

(** [flushGuardrails]: what the masked text is computed for is dropped. *)
Definition flushGuardrails (tenantID : UUID) (body : string) (w : W) : W :=
  if bool_decide (body = "") then w
  else match CheckOutput tenantID body w with
  | (w, Err _) => w
  | (w, Ok None) => w
  | (w, Ok (Some violation)) => emitGuardrailAudit tenantID (set_tenant tenantID violation) w
  end.

(** The wrapped writer. *)
Fixpoint run_wrapped (tenantID : UUID) (body : string) (h : handler_prog W) (w : W) : W * list wire :=
  match h with
  | Done => (w, [])
  | WriteHeader code k =>
      let '(w, out) := run_wrapped tenantID body k (flushGuardrails tenantID body w) in (w, WireHeader code :: out)
  | Write p k => let '(w, out) := run_wrapped tenantID (body +:+ p) k w in (w, WireBody p :: out)
  | Act f k => run_wrapped tenantID body (k (f w)) (f w)
  end.

Definition response_wire (resp : Response) : list wire := [WireHeader (StatusCode resp); WireBody (RespBody resp)].

Definition NewGuardrails (next : Request -> handler_prog W) (r : Request) (w : W) : W * list wire :=
  match guardrails_gate r w with
  | (w, inl resp) => (w, response_wire resp)
  | (w, inr (r, false)) => run_plain (next r) w
  | (w, inr (r, true)) => run_wrapped (default ZeroUUID (GetTenantID r)) "" (next r) w
  end.
End Middleware.

(** ** As the gateway wires it *)

Record GuardWorld := mkGuardWorld { gw_audit : AuditDb; gw_violations : list violation_row; gw_now : Z; gw_ids : Z -> UUID }.

Section Wiring.
Context `{JsonText} `{GoText}.
Variables (env : DbEnv) (cfg : GuardrailsConfig) (external : option (ExternalClassifier GuardWorld)) (config : CompositeConfig)
  (order1 order2 : list categoryInfo -> list categoryInfo) (latency : Z).

(** The composite over the local rules and the external classifier. *)
#[export] Instance composite_checker : GuardrailChecker GuardWorld := {
  CheckInput t s w := adapter_CheckInput (Some (local_classifier cfg)) external (NewCompositeGuardrail config) order1 order2 latency
                        (gw_ids w 0) (gw_now w) t s w;
  CheckOutput t s w := adapter_CheckOutput (Some (local_classifier cfg)) external (NewCompositeGuardrail config) order1 order2 latency
                         (gw_ids w 0) (gw_now w) t s w;
}.

(** [main] gives the middleware no violation repository. *)
#[export] Instance gateway_stores : GuardrailStores GuardWorld := {
  store_violation := None;
  append_event e w :=
    mkGuardWorld (fst (Append env (gw_now w) (gw_ids w 1) e (gw_audit w))) (gw_violations w) (gw_now w) (gw_ids w);
}.
End Wiring.

(** * What the middleware does *)

(** ** Output *)

(** Every status is written before the first byte of body, as each handler of the
    gateway does. *)
Fixpoint header_first {W} (wrote : bool) (h : handler_prog W) : Prop :=
  match h with
  | Done => True
  | WriteHeader _ k => wrote = false /\ header_first false k
  | Write _ k => header_first true k
  | Act _ k => forall w, header_first wrote (k w)
  end.

Lemma run_wrapped_plain {W} `{GuardrailChecker W} `{GuardrailStores W} json_Marshal tenantID (h : handler_prog W) w :
  header_first false h -> run_wrapped json_Marshal tenantID "" h w = run_plain h w.
Proof.
  intros Hh. assert (forall wrote body w, header_first wrote h -> (wrote = false -> body = "") ->
    run_wrapped json_Marshal tenantID body h w = run_plain h w) as Hgen; [|by apply (Hgen false)].
  clear Hh w. induction h as [|code k IH|p k IH|f k IH]; intros wrote body w Hh Hb; cbn [run_wrapped run_plain].
  - done.
  - destruct Hh as [-> Hh]. rewrite (Hb eq_refl). unfold flushGuardrails. rewrite bool_decide_eq_true_2 by done.
    by rewrite (IH false).
  - by rewrite (IH true).
  - by rewrite (IH (f w) wrote).
Qed.

(** The output check never acts: for a handler that writes its status before
    its body, a request the middleware does not refuse is answered with exactly
    what the handler writes, from the world the input check leaves; [CheckOutput]
    is not called and nothing is recorded about the output. *)
Theorem output_never_checked {W} `{GuardrailChecker W} `{GuardrailStores W} (json_Marshal : json -> string)
    (ReadAll : Request -> option string) (next : Request -> handler_prog W) (r : Request) (w : W) :
  header_first false (next r) ->
  NewGuardrails json_Marshal ReadAll next r w =
    match guardrails_gate json_Marshal ReadAll r w with
    | (w', inl resp) => (w', response_wire resp)
    | (w', inr _) => run_plain (next r) w'
    end.
Proof.
  intros Hh. unfold NewGuardrails.
  assert (forall w' r' b, guardrails_gate json_Marshal ReadAll r w = (w', inr (r', b)) -> r' = r) as Hr.
  { intros w' r' b. unfold guardrails_gate. split_case; [by intros [= <- <- <-]|]. split_case; [|by intros [= <- <- <-]].
    split_case; [|by intros [= <- <- <-]]. split_case. split_case; [split_case|]; try by intros [= <- <- <-].
    by destruct (keep_violation _ _). }
  destruct (guardrails_gate json_Marshal ReadAll r w) as [w' [resp|[r' []]]]; [done| |]; rewrite (Hr _ _ _ eq_refl); [|done].
  by apply run_wrapped_plain.
Qed.

(** ** Input *)

Section Wired.
Context `{JsonText} `{GoText}.
Variables (env : DbEnv) (cfg : GuardrailsConfig) (external : option (ExternalClassifier GuardWorld)) (config : CompositeConfig)
  (order1 order2 : list categoryInfo -> list categoryInfo) (latency : Z) (json_Marshal : json -> string) (ReadAll : Request -> option string).

Definition wired_guardrails : (Request -> handler_prog GuardWorld) -> Request -> GuardWorld -> GuardWorld * list wire :=
  @NewGuardrails GuardWorld (composite_checker cfg external config order1 order2 latency) (gateway_stores env) json_Marshal ReadAll.
End Wired.

(** A failing external classifier under a behaviour other than the default. *)
Lemma failing_external_admits `{GoText} (cfg : GuardrailsConfig) (external : option (ExternalClassifier GuardWorld)) (config : CompositeConfig)
    order1 order2 latency id now t body (w : GuardWorld) e :
  snd (run_classifier (if SendContentExternal config then external else None) body true w) = Some (Err e) ->
  FailBehavior config = "fail_open" \/ FailBehavior config = "fail_closed" ->
  exists w' res, adapter_CheckInput (Some (local_classifier cfg)) external config order1 order2 latency id now t body w = (w', res) /\
    forall v, res <> Ok (Some v).
Proof.
  intros He Hf. unfold adapter_CheckInput, adapter_check, classify. rewrite bool_decide_eq_true_2 by done.
  cbn [run_classifier local_classifier ClassifyInput].
  destruct (run_classifier _ body true w) as [w' r]. cbn [snd] in He. subst r.
  destruct (LocalClassifyInput _ _ _ _ _) as [viol cats expl lat prov mdl].
  exists w'. destruct Hf as [-> | ->]; cbn; eexists; (split; [reflexivity|]); done.
Qed.

(** C27: A request for a completion whose body the local rules refuse under a named
    rule, under the default merge. If the external classifier is absent, answers
    (with named categories, whatever they say), or fails under the default fail
    behaviour, the request is answered 400 with the violation, without its handler,
    and the violation is offered to the audit log and to nothing else. If the
    external classifier fails under "fail_open" or "fail_closed", the request is
    admitted: its handler runs as if there were no guardrail. *)
Theorem local_violation_refused `{JsonText} `{GoText} (env : DbEnv) (cfg : GuardrailsConfig)
    (external : option (ExternalClassifier GuardWorld)) (config : CompositeConfig)
    (order1 order2 : list categoryInfo -> list categoryInfo) (latency now : Z) (json_Marshal : json -> string)
    (ReadAll : Request -> option string) (next : Request -> handler_prog GuardWorld) (r : Request) (w : GuardWorld)
    (id fresh t : UUID) (body : string) (v : GuardrailViolation) :
  (forall l, Permutation (order1 l) l) -> (forall l, Permutation (order2 l) l) ->
  MergeLogic config = "" \/ MergeLogic config = "any_violation" ->
  Path r = "/v1/chat/completions" -> GetTenantID r = Some t -> ReadAll r = Some body ->
  LocalCheckInput cfg id fresh now t body = Some v -> gv_Rule v <> "" ->
  let guarded := wired_guardrails env cfg external config order1 order2 latency json_Marshal ReadAll next r w in
  let answer := snd (run_classifier (if SendContentExternal config then external else None) body true w) in
  let refused := exists w' v', gv_TenantID v' = t /\ gv_Phase v' = GuardrailPhaseInput /\
    guarded = (@append_event _ (gateway_stores env) (guardrail_event json_Marshal t v') w',
               [WireHeader 400; WireBody (RespBody (writeGuardrailError json_Marshal v'))]) in
  match answer with
  | None => refused
  | Some (Ok e) => named (Categories e) -> refused
  | Some (Err _) =>
      if bool_decide (FailBehavior config = "fail_open") || bool_decide (FailBehavior config = "fail_closed")
      then header_first false (next r) -> exists w', guarded = run_plain (next r) w'
      else refused
  end.
Proof.
  intros Hp1 Hp2 Hl Hpath Ht Hbody Hv Hne guarded answer refused.
  assert (external_harmless external (NewCompositeGuardrail config) body w -> refused) as Hrefused.
  { intros Hext. assert (MergeLogic (NewCompositeGuardrail config) = "any_violation") as Hl'.
    { cbn. destruct Hl as [-> | ->]; by case_bool_decide. }
    destruct (local_violation_stands cfg external (NewCompositeGuardrail config) order1 order2 latency now (gw_now w)
      id (gw_ids w 0) fresh t t body v w Hp1 Hp2 Hl' Hext Hv Hne) as (w' & v' & Hc & Ht' & Hph).
    exists w', (set_tenant t v'). split; [done|]. split; [done|].
    unfold guarded, wired_guardrails, NewGuardrails, guardrails_gate. rewrite Hpath, bool_decide_eq_true_2, Ht, Hbody by done. cbn [negb].
    cbn [CheckInput composite_checker]. by rewrite Hc. }
  unfold external_harmless in Hrefused. change (SendContentExternal (NewCompositeGuardrail config)) with (SendContentExternal config) in Hrefused.
  fold answer in Hrefused. destruct answer as [[e|e]|] eqn:Ea; [auto| |auto].
  assert (forall s, s <> "" -> FailBehavior config = s -> FailBehavior (NewCompositeGuardrail config) = s) as Hkeep.
  { intros s Hs E. cbn. rewrite E. by rewrite bool_decide_eq_false_2. }
  destruct (bool_decide (FailBehavior config = "fail_open") || bool_decide (FailBehavior config = "fail_closed")) eqn:Ef.
  - intros Hh. apply orb_true_iff in Ef. rewrite !bool_decide_eq_true in Ef.
    destruct (failing_external_admits cfg external (NewCompositeGuardrail config) order1 order2 latency (gw_ids w 0) (gw_now w) t body w e Ea)
      as (w' & res & Hc & Hres); [destruct Ef; [left|right]; by apply Hkeep|].
    exists w'. unfold guarded, wired_guardrails, NewGuardrails, guardrails_gate. rewrite Hpath, bool_decide_eq_true_2, Ht, Hbody by done.
    cbn [negb CheckInput composite_checker]. rewrite Hc.
    destruct res as [[x|]|x]; [by destruct (Hres x)|by apply run_wrapped_plain|by apply run_wrapped_plain].
  - apply Hrefused. apply orb_false_iff in Ef. rewrite !bool_decide_eq_false in Ef. destruct Ef as [E1 E2]. cbn.
    case_bool_decide; split; congruence.
Qed.

(** "fail_closed" lets every request through while the external classifier
    fails: the composite answers an error, which the middleware takes for consent,
    and what the local rules found is dropped. *)
Theorem fail_closed_admits `{JsonText} `{GoText} (env : DbEnv) (cfg : GuardrailsConfig)
    (ext : ExternalClassifier GuardWorld) (config : CompositeConfig)
    (order1 order2 : list categoryInfo -> list categoryInfo) (latency : Z) (json_Marshal : json -> string)
    (ReadAll : Request -> option string) (next : Request -> handler_prog GuardWorld) (r : Request) (w : GuardWorld) :
  FailBehavior config = "fail_closed" -> SendContentExternal config = true ->
  (forall text w, exists w' e, ClassifyInput ext text w = (w', Err e)) -> header_first false (next r) ->
  exists w', wired_guardrails env cfg (Some ext) config order1 order2 latency json_Marshal ReadAll next r w = run_plain (next r) w'.
Proof.
  intros Hfail Hsend Hext Hh. unfold wired_guardrails, NewGuardrails, guardrails_gate.
  destruct (negb (bool_decide (Path r = "/v1/chat/completions"))); [by exists w|].
  destruct (GetTenantID r) as [t|]; [|by exists w]. destruct (ReadAll r) as [body|]; [|by exists w].
  cbn [CheckInput composite_checker]. unfold adapter_CheckInput, adapter_check, classify. rewrite bool_decide_eq_true_2 by done.
  cbn [SendContentExternal NewCompositeGuardrail FailBehavior]. rewrite Hsend, Hfail. cbn [run_classifier local_classifier ClassifyInput].
  destruct (Hext body w) as (w' & e & ->). cbn. exists w'. by apply run_wrapped_plain.
Qed.

(** * Witnesses *)

#[local] Existing Instance ascii_text.
#[local] Existing Instance plain_json.

Definition chat_request (body : string) : Request :=
  mkRequest "POST" "/v1/chat/completions" "" body (mkContext None (Some (uuid_n 3)) (Some (uuid_n 1)) None None None None None).
Definition answer_ok (r : Request) : handler_prog GuardWorld := WriteHeader 200 (Write "{}" Done).
Definition ex_guard_world : GuardWorld := mkGuardWorld empty_db [] 1000 (fun z => uuid_n (Z.to_N (z + 7))).
Definition ex_marshal (v : json) : string := "{}".

Lemma output_never_checked_witness :
  let h := WriteHeader 200 (Write "my SSN is 123-45-6789" Done) in
  @NewGuardrails GuardWorld (composite_checker ex_guardrails None (ex_composite "" "") id id 5) (gateway_stores ex_audit_env)
    ex_marshal (fun r => Some (ReqBody r)) (fun _ => h) (chat_request "hello") ex_guard_world =
  (ex_guard_world, [WireHeader 200; WireBody "my SSN is 123-45-6789"]).
Proof.
  cbn zeta. etrans; [apply output_never_checked; cbn; done|]. vm_compute. reflexivity.
Defined.

(** The same input is refused when the external classifier finds nothing, and
    admitted when it fails under "fail_closed". *)
Lemma local_violation_refused_witness :
  (exists w' v', wired_guardrails ex_audit_env ex_guardrails (Some quiet_classifier) (ex_composite "" "") id id 5 ex_marshal (fun r => Some (ReqBody r))
      answer_ok (chat_request "my SSN is 123-45-6789") ex_guard_world =
    (w', [WireHeader 400; WireBody (RespBody (writeGuardrailError ex_marshal v'))])) /\
  exists w', wired_guardrails ex_audit_env ex_guardrails (Some failing_classifier) (ex_composite "fail_closed" "") id id 5 ex_marshal
      (fun r => Some (ReqBody r)) answer_ok (chat_request "my SSN is 123-45-6789") ex_guard_world =
    run_plain (answer_ok (chat_request "my SSN is 123-45-6789")) w'.
Proof.
  destruct (LocalCheckInput ex_guardrails ZeroUUID ZeroUUID 0 (uuid_n 1) "my SSN is 123-45-6789") as [v|] eqn:E;
    [|vm_compute in E; discriminate].
  assert (gv_Rule v <> "") as Hne by (intros Hr; apply (f_equal (fmap gv_Rule)) in E; cbn in E; rewrite Hr in E; vm_compute in E; discriminate).
  split.
  - destruct (local_violation_refused ex_audit_env ex_guardrails (Some quiet_classifier) (ex_composite "" "") id id 5 0 ex_marshal
      (fun r => Some (ReqBody r)) answer_ok (chat_request "my SSN is 123-45-6789") ex_guard_world ZeroUUID ZeroUUID (uuid_n 1)
      "my SSN is 123-45-6789" v (fun _ => Permutation_refl _) (fun _ => Permutation_refl _) (or_introl eq_refl) eq_refl eq_refl eq_refl E Hne)
      as (w' & v' & _ & _ & H).
    + intros c ->%list_elem_of_singleton. done.
    + eexists _, v'. exact H.
  - refine (local_violation_refused ex_audit_env ex_guardrails (Some failing_classifier) (ex_composite "fail_closed" "") id id 5 0 ex_marshal
      (fun r => Some (ReqBody r)) answer_ok (chat_request "my SSN is 123-45-6789") ex_guard_world ZeroUUID ZeroUUID (uuid_n 1)
      "my SSN is 123-45-6789" v (fun _ => Permutation_refl _) (fun _ => Permutation_refl _) (or_introl eq_refl) eq_refl eq_refl eq_refl E Hne _).
    cbn. done.
Defined.

Lemma fail_closed_admits_witness :
  exists w', wired_guardrails ex_audit_env ex_guardrails (Some failing_classifier) (ex_composite "fail_closed" "") id id 5 ex_marshal
      (fun r => Some (ReqBody r)) answer_ok (chat_request "my SSN is 123-45-6789") ex_guard_world =
    run_plain (answer_ok (chat_request "my SSN is 123-45-6789")) w'.
Proof.
  apply (fail_closed_admits ex_audit_env ex_guardrails failing_classifier (ex_composite "fail_closed" "")); try reflexivity.
  - intros text w. by eexists _, _.
  - cbn. done.
Defined.
