(* ===== verification/Auth.v ===== *)
(** Access tokens and the middlewares at the head and tail of the chain:
    [internal/adapter/jwt/token.go], [internal/middleware/{auth,tenant,audit,hitl}.go]
    and [internal/domain/tenant.go].

    Signing, decoding and verifying a JSON web token is third-party code: the
    class [JwtLib], with what its documentation says as the laws. *)

From stdpp Require Import base gmap strings list numbers pretty.
From Stdlib Require Import Ascii.
From S2P Require Import GoPrelude Bytes Uuid Errors Tenancy Http AuditLog.
Open Scope Z_scope.

(** ** Keys *)

Record KeyStore := mkKeyStore { CurrentKID : string; SigningKey : bytes; Keys : gmap string bytes }.

Definition NewKeyStore (currentKID : string) (signingKey : bytes) (keys : option (gmap string bytes)) : KeyStore :=
  mkKeyStore currentKID signingKey (<[currentKID := signingKey]> (default ∅ keys)).

Definition RotateKey (newKID : string) (newKey : bytes) (ks : KeyStore) : KeyStore :=
  mkKeyStore newKID newKey (<[newKID := newKey]> (Keys ks)).

Definition GetSigningKey (ks : KeyStore) : string * bytes := (CurrentKID ks, SigningKey ks).
Definition GetVerificationKey (kid : string) (ks : KeyStore) : option bytes := Keys ks !! kid.

(** ** The library *)

Inductive SigningMethod := HS256 | HS384 | HS512 | OtherMethod (name : string).

#[global] Instance SigningMethod_eq_dec : EqDecision SigningMethod.
Proof. solve_decision. Defined.

(** The claims as a token carries them; times in seconds. *)
Record JwtClaims := mkJwtClaims {
  jc_Claims : Claims;
  jc_Issuer : string;
  jc_Audience : list string;
  jc_IssuedAt : option Z;
  jc_ExpiresAt : option Z;
  jc_NotBefore : option Z;
}.

(** What the parser validates at [now] (nanoseconds) by default, with an issuer
    and an audience asked for. *)
Definition claims_valid (now : Z) (issuer audience : string) (c : JwtClaims) : Prop :=
  (forall e, jc_ExpiresAt c = Some e -> now < e * 1000000000) /\
  (forall n, jc_NotBefore c = Some n -> n * 1000000000 <= now) /\
  jc_Issuer c = issuer /\ audience ∈ jc_Audience c.

Abbreviation Keyfunc := (SigningMethod -> option string -> result error bytes).

Class JwtLib := {
  (* [NewWithClaims(HS256, c)] with header [kid], then [SignedString(key)] *)
  SignedString : string -> bytes -> JwtClaims -> result error string;
  ParseWithClaims : Z -> string -> Keyfunc -> string -> string -> result error JwtClaims;
  (* the token carries these claims and a signature of the method under the key *)
  carries : string -> SigningMethod -> option string -> bytes -> JwtClaims -> Prop;
}.

Class JwtLaws `{JwtLib} : Prop := {
  sign_carries : forall kid key c tok, SignedString kid key c = Ok tok -> carries tok HS256 (Some kid) key c;
  parse_complete : forall now tok m kid key c (kf : Keyfunc) issuer audience,
    carries tok m kid key c -> kf m kid = Ok key -> claims_valid now issuer audience c ->
    ParseWithClaims now tok kf issuer audience = Ok c;
  parse_sound : forall now tok (kf : Keyfunc) issuer audience c,
    ParseWithClaims now tok kf issuer audience = Ok c ->
    exists m kid key, kf m kid = Ok key /\ carries tok m kid key c /\ claims_valid now issuer audience c;
}.

(** ** The token service *)

Definition ErrInvalidAlgorithm : error := EOther "invalid algorithm: only HS256 is allowed".

Definition fifteen_minutes : Z := 15 * 60 * 1000000000.

Section Service.
Context `{JwtLib}.
Variables (keystore : KeyStore) (issuer audience : string).

Definition registered (now : Z) (claims : Claims) : JwtClaims :=
  mkJwtClaims claims issuer [audience] (Some (now / 1000000000)) (Some ((now + fifteen_minutes) / 1000000000)) (Some (now / 1000000000)).

Definition IssueAccessToken (now : Z) (claims : Claims) : result error string :=
  let '(kid, key) := GetSigningKey keystore in SignedString kid key (registered now claims).

Definition IssueSuperAdminToken (now : Z) (superAdminID : UUID) : result error string :=
  IssueAccessToken now (mkClaims (uuid_String superAdminID) "" "super_admin" ["*"]).

(** The type test is for the HMAC family. *)
Definition is_hmac (m : SigningMethod) : bool := match m with OtherMethod _ => false | _ => true end.

Definition keyfunc (m : SigningMethod) (kid : option string) : result error bytes :=
  if negb (is_hmac m) then Err ErrInvalidAlgorithm
  else match kid with
  | None => Err (EOther "missing kid header")
  | Some kid =>
      match GetVerificationKey kid keystore with
      | None => Err (EOther ("unknown kid: " +:+ kid))
      | Some key => Ok key
      end
  end.

Definition ParseAccessToken (now : Z) (tokenString : string) : result error JwtClaims :=
  ParseWithClaims now tokenString keyfunc issuer audience.

(** ** [NewAuth] *)

(** [strings.EqualFold(s, "Bearer")]: none of its letters folds outside ASCII. *)
Definition is_bearer (s : bytes) : bool := bool_decide (to_lower s = bytes_of_string "bearer").

Definition set_auth (r : Request) (c : Claims) (userID : UUID) (tenantID : option UUID) : Request :=
  let ctx := ReqCtx r in
  with_ctx r (mkContext (Some c) (Some userID) (match tenantID with Some t => Some t | None => TenantIDKey ctx end)
    (Some (claim_Role c)) (Some (claim_Scopes c)) (GrantKey ctx) (RootGrantKey ctx) (AncestorsKey ctx)).

Definition auth_gate (now : Z) (r : Request) : Response + Request :=
  let refuse e := inl (WriteError StatusUnauthorized e) in
  if bool_decide (Authorization r = "") then refuse (ErrUnauthorized : error)
  else match Cut " " (bytes_of_string (Authorization r)) with
  | None => refuse (ErrUnauthorized : error)
  | Some (scheme, token) =>
      if negb (is_bearer scheme) then refuse (ErrUnauthorized : error)
      else match ParseAccessToken now (string_of_bytes token) with
      | Err _ => refuse (ErrUnauthorized : error)
      | Ok jc =>
          let claims := jc_Claims jc in
          match ParseUUID (claim_UserID claims) with
          | Err _ => refuse (ErrInvalidToken : error)
          | Ok userID =>
              if bool_decide (claim_TenantID claims = "") then inr (set_auth r claims userID None)
              else match ParseUUID (claim_TenantID claims) with
              | Err _ => refuse (ErrInvalidToken : error)
              | Ok tenantID => inr (set_auth r claims userID (Some tenantID))
              end
          end
      end
  end.
End Service.

(** ** [NewTenant] *)

Record Tenant := mkTenant { tn_ID : UUID; tn_Name : string; tn_Status : string; tn_CreatedAt : Z }.

Definition tenant_IsActive (t : Tenant) : bool := bool_decide (tn_Status t = "active").

Abbreviation TenantTable := (gmap UUID Tenant).

(** The table has no row-level security. *)
Definition tenant_gate (env : DbEnv) (tenants : TenantTable) (r : Request) : Response + Request :=
  match GetTenantID r with
  | None => inl (WriteError StatusUnauthorized ErrUnauthorized)
  | Some tenantID =>
      match db_outage env, tenants !! tenantID with
      | None, Some t =>
          if negb (tenant_IsActive t) then inl (WriteError StatusForbidden ErrForbidden)
          else inr (with_ctx r (set_TenantIDKey (ReqCtx r) (Some tenantID)))
      | _, _ => inl (WriteError StatusNotFound ErrNotFound)
      end
  end.

(** ** [NewAudit] *)

(** The store; an error of it is logged only. *)
Class AuditStore (W : Type) := audit_append : AuditEvent -> W -> W.

Definition audit_severity (status : Z) : string :=
  if status >=? 500 then "critical" else if status >=? 400 then "warn" else "info".

Definition http_event (r : Request) (entityType payload severity : string) (now : Z) : AuditEvent :=
  mkAuditEvent ZeroUUID (default ZeroUUID (GetTenantID r)) 0 [] [] (Some (fst (GetUserID r))) (Method r +:+ " " +:+ Path r)
    entityType None payload severity now.

Definition response_payload (status duration_ms : Z) : string :=
  let field k v := quote +:+ k +:+ quote +:+ ":" +:+ pretty v in
  "{" +:+ field "duration_ms" duration_ms +:+ "," +:+ field "status_code" status +:+ "}".

Definition NewAudit {W} `{Clock W} (store : option (AuditStore W)) (next : Handler W) : Handler W :=
  fun r w =>
    let append e w := match store with Some s => @audit_append W s e w | None => w end in
    let start := time_now w in
    let w := append (http_event r "http_request" "{}" "info" start) w in
    let '(w, resp) := next r w in
    let finish := time_now w in
    let payload := response_payload (StatusCode resp) ((finish - start) / 1000000) in
    (append (http_event r "http_response" payload (audit_severity (StatusCode resp)) finish) w, resp).

(** ** [NewHITL] *)

(** [len(path) >= 9 && path[:9] == "/v1/reviews"] *)
Definition isHITLEndpoint (path : string) : bool :=
  (9 <=? Z.of_nat (String.length path)) && bool_decide (String.substring 0 9 path = "/v1/reviews").

Definition NewHITL {W} (next : Handler W) : Handler W := fun r w => next r w.

Definition ExtractReviewToken (header query : string) : option string :=
  if negb (bool_decide (header = "")) then Some header
  else if negb (bool_decide (query = "")) then Some query else None.

Definition ValidateReviewToken (storedHash presentedToken : string) : bool := negb (Z.of_nat (String.length presentedToken) <? 32).

(** * What the chain's head promises *)

(** The store keeps the current key among the verification keys. *)
Definition keystore_ok (ks : KeyStore) : Prop := Keys ks !! CurrentKID ks = Some (SigningKey ks).

Lemma NewKeyStore_ok kid key keys : keystore_ok (NewKeyStore kid key keys).
Proof. apply lookup_insert_eq. Qed.

Definition rotate_all (rotations : list (string * bytes)) (ks : KeyStore) : KeyStore :=
  foldl (fun ks '(kid, key) => RotateKey kid key ks) ks rotations.

Lemma rotate_all_ok rotations ks : keystore_ok ks -> keystore_ok (rotate_all rotations ks).
Proof.
  revert ks. induction rotations as [|[kid key] rotations IH]; intros ks Hok; [done|]. apply IH. apply lookup_insert_eq.
Qed.

(** Keys are not forgotten. *)
Lemma rotate_all_keeps rotations ks kid :
  kid ∉ rotations.*1 -> Keys (rotate_all rotations ks) !! kid = Keys ks !! kid.
Proof.
  revert ks. induction rotations as [|[kid' key'] rotations IH]; intros ks Hn; [done|].
  cbn [fmap list_fmap fst] in Hn. apply not_elem_of_cons in Hn as [H1 H2].
  cbn [rotate_all foldl]. fold (rotate_all rotations (RotateKey kid' key' ks)). rewrite IH by done.
  cbn [RotateKey Keys]. by rewrite lookup_insert_ne.
Qed.

Lemma bearer_no_space s : is_bearer s = true -> " "%char ∉ s.
Proof.
  unfold is_bearer. rewrite bool_decide_eq_true. intros E Hin.
  assert (" "%char ∈ to_lower s) as H by (apply (list_elem_of_fmap_2 lower_byte s " "%char Hin)).
  rewrite E in H. revert H. apply (bool_decide_eq_true_1 (~ _)). vm_compute. reflexivity.
Qed.

(** The tenant named by the claims: none for an empty text. *)
Definition claims_tenant (c : Claims) : result uuid_error (option UUID) :=
  if bool_decide (claim_TenantID c = "") then Ok None
  else match ParseUUID (claim_TenantID c) with Ok t => Ok (Some t) | Err e => Err e end.

(** A token the service issued authenticates its bearer for fifteen minutes
    (to the second), as the user and tenant it was issued for, with its role and
    scopes, and still does after any rotations to other key ids. *)
Theorem issued_token_authenticates `{JwtLaws} (ks : KeyStore) (rotations : list (string * bytes)) (issuer audience : string)
    (issued now : Z) (claims : Claims) (tok : string) (scheme : bytes) (r : Request) (u : UUID) (t : option UUID) :
  keystore_ok ks -> CurrentKID ks ∉ rotations.*1 ->
  IssueAccessToken ks issuer audience issued claims = Ok tok ->
  ParseUUID (claim_UserID claims) = Ok u -> claims_tenant claims = Ok t ->
  is_bearer scheme = true -> bytes_of_string (Authorization r) = scheme ++ " "%char :: bytes_of_string tok ->
  issued <= now < (issued + fifteen_minutes) / 1000000000 * 1000000000 ->
  auth_gate (rotate_all rotations ks) issuer audience now r = inr (set_auth r claims u t).
Proof.
  intros Hok Hrot Hiss Hu Ht Hb Ha Hnow. unfold auth_gate.
  rewrite bool_decide_eq_false_2 by (intros E; rewrite E in Ha; by destruct scheme).
  rewrite Ha, Cut_app, Hb, string_of_bytes_of_string by by apply bearer_no_space. cbn [negb].
  assert (ParseAccessToken (rotate_all rotations ks) issuer audience now tok = Ok (registered issuer audience issued claims)) as ->.
  { apply (parse_complete now tok HS256 (Some (CurrentKID ks)) (SigningKey ks)).
    - by apply sign_carries.
    - cbn [keyfunc is_hmac negb]. unfold GetVerificationKey. by rewrite rotate_all_keeps, Hok.
    - unfold claims_valid, registered. cbn [jc_ExpiresAt jc_NotBefore jc_Issuer jc_Audience]. split_and!.
      + intros e [= <-]. lia.
      + intros n [= <-]. pose proof (Z.mul_div_le issued 1000000000 ltac:(lia)). lia.
      + done.
      + by left. }
  cbn [jc_Claims registered]. rewrite Hu. revert Ht. unfold claims_tenant. case_bool_decide; [by intros [= <-]|].
  destruct (ParseUUID (claim_TenantID claims)); [|done]. by intros [= <-].
Qed.

(** C20: A request passes the authentication only with a bearer token signed by an
    HMAC method under a key of the store, named by its key id, for this issuer and
    audience and within its times; what the context then says of user, tenant, role
    and scopes is what the token says. *)
Theorem authentication_sound `{JwtLaws} (ks : KeyStore) (issuer audience : string) (now : Z) (r r' : Request) :
  auth_gate ks issuer audience now r = inr r' ->
  exists scheme tok m kid key jc u t,
    bytes_of_string (Authorization r) = scheme ++ " "%char :: bytes_of_string tok /\ is_bearer scheme = true /\
    is_hmac m = true /\ GetVerificationKey kid ks = Some key /\ carries tok m (Some kid) key jc /\
    claims_valid now issuer audience jc /\
    ParseUUID (claim_UserID (jc_Claims jc)) = Ok u /\ claims_tenant (jc_Claims jc) = Ok t /\
    r' = set_auth r (jc_Claims jc) u t.
Proof.
  unfold auth_gate. case_bool_decide; [done|].
  destruct (Cut " " (bytes_of_string (Authorization r))) as [[scheme token]|] eqn:Hcut; [|done].
  destruct (is_bearer scheme) eqn:Hb; [|done]. cbn [negb].
  destruct (ParseAccessToken ks issuer audience now (string_of_bytes token)) as [jc|] eqn:Hp; [|done].
  destruct (ParseUUID (claim_UserID (jc_Claims jc))) as [u|] eqn:Hu; [|done].
  assert (bytes_of_string (Authorization r) = scheme ++ " "%char :: bytes_of_string (string_of_bytes token)) as Ha.
  { rewrite bytes_of_string_of_bytes. by apply Cut_Some. }
  apply parse_sound in Hp as (m & kid & key & Hk & Hc & Hv).
  unfold keyfunc in Hk. destruct (is_hmac m) eqn:Hm; [|done]. cbn [negb] in Hk. destruct kid as [kid|]; [|done].
  destruct (GetVerificationKey kid ks) as [key'|] eqn:Hkey; [|done]. injection Hk as ->.
  intros Hr. assert (exists t, claims_tenant (jc_Claims jc) = Ok t /\ r' = set_auth r (jc_Claims jc) u t) as (t & Ht & Er).
  { revert Hr. unfold claims_tenant. case_bool_decide; [intros [= <-]; eauto|].
    destruct (ParseUUID (claim_TenantID (jc_Claims jc))); [|done]. intros [= <-]. eauto. }
  exists scheme, (string_of_bytes token), m, kid, key, jc, u, t. split_and!; done.
Qed.

(** The comparison is between nine bytes and eleven. *)
Lemma isHITLEndpoint_false path : isHITLEndpoint path = false.
Proof.
  unfold isHITLEndpoint. apply andb_false_intro2, bool_decide_eq_false_2. intros E.
  apply (f_equal String.length) in E. revert E.
  destruct path as [|c1 [|c2 [|c3 [|c4 [|c5 [|c6 [|c7 [|c8 [|c9 path]]]]]]]]]; cbn; try done.
  by destruct path.
Qed.

(** The response does not depend on the audit store, whatever it does, for a
    handler that answers alike in the worlds it leaves. *)
Lemma NewAudit_response {W} `{Clock W} (store : option (AuditStore W)) (next : Handler W) r w :
  (forall w1 w2, snd (next r w1) = snd (next r w2)) -> snd (NewAudit store next r w) = snd (next r w).
Proof.
  intros Hn. unfold NewAudit. set (w1 := match store with Some s => _ | None => w end).
  destruct (next r w1) as [w2 resp] eqn:E. cbn [snd]. rewrite <- (Hn w1 w). by rewrite E.
Qed.

(** * Witnesses *)

(** A library whose tokens spell out, in bits, the key id, key and claims. *)
Definition token_body : Type :=
  string * bytes * ((string * string * string * list string) * (string * list string * (option Z * option Z * option Z))).

Definition body_of (kid : string) (key : bytes) (c : JwtClaims) : token_body :=
  (kid, key, ((claim_UserID (jc_Claims c), claim_TenantID (jc_Claims c), claim_Role (jc_Claims c), claim_Scopes (jc_Claims c)),
    (jc_Issuer c, jc_Audience c, (jc_IssuedAt c, jc_ExpiresAt c, jc_NotBefore c)))).

Definition claims_of (b : token_body) : JwtClaims :=
  let '(_, _, ((u, t, r, sc), (iss, aud, (iat, exp, nbf)))) := b in mkJwtClaims (mkClaims u t r sc) iss aud iat exp nbf.

Lemma claims_of_body kid key c : claims_of (body_of kid key c) = c.
Proof. by destruct c as [[] ? ? ? ? ?]. Qed.

Fixpoint bits (p : positive) : string :=
  match p with xH => "" | xO p => String "0" (bits p) | xI p => String "1" (bits p) end.

Fixpoint of_bits (s : string) : positive :=
  match s with EmptyString => xH | String c s => if Ascii.eqb c "0" then xO (of_bits s) else xI (of_bits s) end.

Lemma of_bits_bits p : of_bits (bits p) = p.
Proof. by induction p as [p IH|p IH|]; cbn; rewrite ?IH. Qed.

Definition spell (b : token_body) : string := bits (encode b).
Definition unspell (s : string) : option token_body := decode (of_bits s).

Lemma unspell_spell b : unspell (spell b) = Some b.
Proof. unfold unspell, spell. rewrite of_bits_bits. apply decode_encode. Qed.

#[global] Instance claims_valid_dec now issuer audience c : Decision (claims_valid now issuer audience c).
Proof.
  unfold claims_valid. destruct (jc_ExpiresAt c) as [e|], (jc_NotBefore c) as [n|].
  - destruct (decide (now < e * 1000000000)); [|right; naive_solver].
    destruct (decide (n * 1000000000 <= now)); [|right; naive_solver].
    destruct (decide (jc_Issuer c = issuer /\ audience ∈ jc_Audience c)); [left; naive_solver|right; naive_solver].
  - destruct (decide (now < e * 1000000000)); [|right; naive_solver].
    destruct (decide (jc_Issuer c = issuer /\ audience ∈ jc_Audience c)); [left; naive_solver|right; naive_solver].
  - destruct (decide (n * 1000000000 <= now)); [|right; naive_solver].
    destruct (decide (jc_Issuer c = issuer /\ audience ∈ jc_Audience c)); [left; naive_solver|right; naive_solver].
  - destruct (decide (jc_Issuer c = issuer /\ audience ∈ jc_Audience c)); [left; naive_solver|right; naive_solver].
Defined.

#[local] Instance toy_jwt : JwtLib := {
  SignedString kid key c := Ok (spell (body_of kid key c));
  carries tok m kid key c := m = HS256 /\ exists kid', kid = Some kid' /\ tok = spell (body_of kid' key c);
  ParseWithClaims now tok kf issuer audience :=
    match unspell tok with
    | None => Err (EOther "token is malformed")
    | Some b =>
        if negb (bool_decide (tok = spell b)) then Err (EOther "token is malformed")
        else match kf HS256 (Some (b.1.1)) with
        | Err e => Err e
        | Ok key =>
            if negb (bool_decide (key = b.1.2)) then Err (EOther "signature is invalid")
            else if negb (bool_decide (claims_valid now issuer audience (claims_of b))) then Err (EOther "token has invalid claims")
            else Ok (claims_of b)
        end
    end;
}.

#[local] Instance toy_jwt_laws : JwtLaws.
Proof.
  constructor.
  - intros kid key c tok [= <-]. split; [done|]. eauto.
  - intros now tok m kid key c kf issuer audience (-> & kid' & -> & ->) Hk Hv. cbn [ParseWithClaims toy_jwt].
    rewrite unspell_spell, bool_decide_eq_true_2 by done. cbn [negb fst snd body_of]. rewrite Hk, bool_decide_eq_true_2 by done.
    cbn [negb]. change (kid', key, _) with (body_of kid' key c). rewrite claims_of_body, bool_decide_eq_true_2 by done. done.
  - intros now tok kf issuer audience c. cbn [ParseWithClaims toy_jwt]. destruct (unspell tok) as [b|]; [|done].
    case_bool_decide as E; [|done]. cbn [negb]. destruct (kf HS256 (Some b.1.1)) as [key|] eqn:Hk; [|done].
    case_bool_decide as Ek; [|done]. cbn [negb]. case_bool_decide as Ev; [|done]. cbn [negb]. intros [= <-].
    exists HS256, (Some b.1.1), key. split; [done|]. split; [|done]. split; [done|]. exists b.1.1. split; [done|].
    rewrite E. f_equal. rewrite Ek. by destruct b as [[kid bkey] [[[[? ?] ?] ?] [[? ?] [[? ?] ?]]]].
Qed.

Definition ex_keystore : KeyStore := NewKeyStore "k1" (bytes_of_string "sekret") None.
Definition ex_claims : Claims := mkClaims (uuid_String (uuid_n 3)) (uuid_String (uuid_n 1)) "admin" ["*"].
Definition ex_token : string := default "" (match IssueAccessToken ex_keystore "gateway" "agents" 1000000000 ex_claims with Ok t => Some t | Err _ => None end).
Definition ex_bearer : Request := mkRequest "GET" "/v1/reviews" ("bearer " +:+ ex_token) "" background.

Lemma ParseUUID_n n : ParseUUID (uuid_String (uuid_n n)) = Ok (uuid_n n).
Proof. apply ParseUUID_String. Qed.

Lemma issued_token_authenticates_witness :
  auth_gate (rotate_all [("k2", bytes_of_string "other")] ex_keystore) "gateway" "agents" 5000000000 ex_bearer =
    inr (set_auth ex_bearer ex_claims (uuid_n 3) (Some (uuid_n 1))).
Proof.
  apply (issued_token_authenticates ex_keystore [("k2", bytes_of_string "other")] "gateway" "agents" 1000000000 5000000000 ex_claims
    ex_token (bytes_of_string "bearer") ex_bearer (uuid_n 3) (Some (uuid_n 1))).
  - apply NewKeyStore_ok.
  - apply (bool_decide_eq_true_1 (~ _)). vm_compute. reflexivity.
  - reflexivity.
  - apply ParseUUID_String.
  - unfold claims_tenant. cbn [claim_TenantID ex_claims]. rewrite ParseUUID_String, bool_decide_eq_false_2; [done|].
    apply (bool_decide_eq_false_1 _). vm_compute. reflexivity.
  - reflexivity.
  - cbn [Authorization ex_bearer]. by rewrite bytes_of_string_app.
  - vm_compute. split; congruence.
Defined.

Lemma authentication_sound_witness :
  exists m kid key jc, is_hmac m = true /\ GetVerificationKey kid ex_keystore = Some key /\ carries ex_token m (Some kid) key jc.
Proof.
  assert (auth_gate ex_keystore "gateway" "agents" 5000000000 ex_bearer = inr (set_auth ex_bearer ex_claims (uuid_n 3) (Some (uuid_n 1)))) as E.
  { vm_compute. reflexivity. }
  destruct (authentication_sound ex_keystore "gateway" "agents" 5000000000 ex_bearer _ E)
    as (scheme & tok & m & kid & key & jc & u & t & H1 & H2 & H3 & H4 & H5 & _).
  exists m, kid, key, jc. split; [exact H3|]. split; [exact H4|].
  cbn [Authorization ex_bearer] in H1. rewrite bytes_of_string_app in H1.
  assert (tok = ex_token) as <-; [|exact H5].
  apply (f_equal (Cut " ")) in H1. rewrite Cut_app in H1 by by apply bearer_no_space.
  change (Cut " " (bytes_of_string "bearer " ++ bytes_of_string ex_token)) with
    (Cut " " (bytes_of_string "bearer" ++ " "%char :: bytes_of_string ex_token)) in H1.
  rewrite Cut_app in H1 by (apply (bool_decide_eq_true_1 (~ _)); vm_compute; reflexivity).
  injection H1 as _ H1. apply bytes_of_string_inj. by symmetry.
Defined.
