(* ===== verification/Sessions.v ===== *)
(** Sessions: [internal/usecase/auth/*.go], [internal/domain/{refresh_token,user}.go],
    the refresh-token and user repositories with their queries and tables.
    [refresh_tokens] is global: it has no row-level security; [users] has it.
    Times are nanoseconds; the clock of the program and of the database is one. *)

From stdpp Require Import base gmap strings list numbers sorting.
From S2P Require Import GoPrelude Bytes Uuid Errors Tenancy Sha256 Http.

(** ** Data *)

Record User := mkUser {
  usr_ID : UUID;
  usr_TenantID : UUID;
  usr_Email : string;
  usr_PasswordHash : string;
  usr_Status : string;
  usr_CreatedAt : Z;
  usr_UpdatedAt : Z;
}.

Definition user_IsActive (u : User) : bool := bool_decide (usr_Status u = "active").

(** A row of [refresh_tokens]. *)
Record token_row := mkToken {
  tk_ID : UUID;
  tk_UserID : UUID;
  tk_TenantID : UUID;
  tk_TokenHash : bytes;
  tk_FamilyID : UUID;
  tk_Revoked : bool;
  tk_ExpiresAt : Z;
  tk_UserAgent : option string;
  tk_IP : option string;
  tk_CreatedAt : Z;
  tk_LastUsedAt : option Z;
  tk_RotatedFrom : option UUID;
}.

Definition token_IsExpired (now : Z) (t : token_row) : bool := tk_ExpiresAt t <? now.
Definition token_IsActive (now : Z) (t : token_row) : bool :=
  negb (tk_Revoked t) && negb (token_IsExpired now t).

Abbreviation TokenTable := (gmap UUID token_row).

(** Users are keyed by (id, tenant). *)
Record AuthDb := mkAuthDb { ad_users : gmap (UUID * UUID) User; ad_tokens : TokenTable }.

Definition set_tokens (db : AuthDb) (t : TokenTable) : AuthDb := mkAuthDb (ad_users db) t.

Definition set_revoked (t : token_row) : token_row :=
  mkToken (tk_ID t) (tk_UserID t) (tk_TenantID t) (tk_TokenHash t) (tk_FamilyID t) true (tk_ExpiresAt t)
    (tk_UserAgent t) (tk_IP t) (tk_CreatedAt t) (tk_LastUsedAt t) (tk_RotatedFrom t).

Definition set_last_used (now : Z) (t : token_row) : token_row :=
  mkToken (tk_ID t) (tk_UserID t) (tk_TenantID t) (tk_TokenHash t) (tk_FamilyID t) (tk_Revoked t) (tk_ExpiresAt t)
    (tk_UserAgent t) (tk_IP t) (tk_CreatedAt t) (Some (pg_time now)) (tk_RotatedFrom t).

(** What the use case gets from elsewhere: password hashing (Argon2), token
    signing (the JWT library), IP address parsing, and the case folding of the
    [citext] column type. *)
Class AuthEnv := {
  HashPassword : string -> result error string;
  VerifyPassword : string -> string -> option error;   (* [Some EPanic] when it panics *)
  IssueAccessToken : Z -> Claims -> result error string;
  ParseAddr : string -> option string;
  citext_lower : string -> string;
}.

(** The random draws of one request: the opaque token, a family and a row id. *)
Record Draw := mkDraw { dr_token : string; dr_family : UUID; dr_id : UUID }.

Definition HashToken (token : string) : bytes := Sum256 (bytes_of_string token).

Definition seven_days : Z := 7 * 24 * 3600 * 1000000000.

(** ** Repositories *)

Section Repositories.
Context `{AuthEnv} (env : DbEnv).

Definition user_Lookup (tenantID : UUID) (p : User -> bool) : AuthDb -> AuthDb * result error User :=
  WithTenant env tenantID (fun c db =>
    let visible := List.filter (fun u => rls_visible env c (usr_TenantID u) && bool_decide (usr_TenantID u = tenantID) && p u)
                     (map snd (map_to_list (ad_users db))) in
    match visible with
    | u :: _ => (db, Ok u)
    | [] => (db, Err (no_rows env))
    end).

Definition user_GetByEmail (tenantID : UUID) (email : string) : AuthDb -> AuthDb * result error User :=
  user_Lookup tenantID (fun u => bool_decide (citext_lower (usr_Email u) = citext_lower email)).

Definition user_GetByID (tenantID id : UUID) : AuthDb -> AuthDb * result error User :=
  user_Lookup tenantID (fun u => bool_decide (usr_ID u = id)).

(** [Create]: the id is drawn by the database; [email] has no unique index. *)
Definition user_Create (now : Z) (id tenantID : UUID) (email passwordHash : string) : AuthDb -> AuthDb * result error User :=
  WithTenant env tenantID (fun c db =>
    let u := mkUser id tenantID email passwordHash "active" (pg_time now) (pg_time now) in
    if negb (rls_visible env c tenantID) then (db, Err rls_check_error)
    else match ad_users db !! (id, tenantID) with
    | Some _ => (db, Err unique_error)
    | None =>
        if negb (db_tenants env tenantID) then (db, Err tenant_fk_error)
        else (mkAuthDb (<[(id, tenantID) := u]> (ad_users db)) (ad_tokens db), Ok u)
    end).

Definition user_status_check (s : string) : bool :=
  bool_decide (s ∈ ["active"; "suspended"; "deleted"]).

Definition user_Update (now : Z) (tenantID : UUID) (user : User) : AuthDb -> AuthDb * result error unit :=
  WithTenant env tenantID (fun c db =>
    match ad_users db !! (usr_ID user, tenantID) with
    | Some old =>
        if negb (rls_visible env c tenantID) then (db, Err (db_no_rows env))
        else if negb (user_status_check (usr_Status user)) then (db, Err check_error)
        else
          let u := mkUser (usr_ID old) tenantID (usr_Email user) (usr_PasswordHash user) (usr_Status user)
                     (usr_CreatedAt old) (pg_time now) in
          (mkAuthDb (<[(usr_ID user, tenantID) := u]> (ad_users db)) (ad_tokens db), Ok tt)
    | None => (db, Err (db_no_rows env))
    end).

Definition nullable (s : string) : option string := if bool_decide (s = "") then None else Some s.
Definition nullable_ip (s : string) : option string := if bool_decide (s = "") then None else ParseAddr s.

(** The INSERT shared by [CreateRefreshToken] and [RotateRefreshToken]. *)
Definition insert_token (row : token_row) (tokens : TokenTable) : result error TokenTable :=
  match tokens !! tk_ID row with
  | Some _ => Err unique_error
  | None => if negb (db_tenants env (tk_TenantID row)) then Err tenant_fk_error else Ok (<[tk_ID row := row]> tokens)
  end.

Definition Store (row : token_row) : AuthDb -> AuthDb * result error unit :=
  on_pool env (fun db =>
    match insert_token row (ad_tokens db) with
    | Ok tokens => (set_tokens db tokens, Ok tt)
    | Err e => (db, Err e)
    end).

Definition FindByTokenHash (hash : bytes) : AuthDb -> AuthDb * result error token_row :=
  on_pool env (fun db =>
    match List.find (fun t => bool_decide (tk_TokenHash t = hash)) (map snd (map_to_list (ad_tokens db))) with
    | Some t => (db, Ok t)
    | None => (db, Err (no_rows env))
    end).

(** [UPDATE refresh_tokens SET revoked = true WHERE p]. *)
Definition revoke_where (p : token_row -> bool) (tokens : TokenTable) : TokenTable :=
  (fun t => if p t then set_revoked t else t) <$> tokens.

Definition fk_error : error := EOther "violates foreign key constraint refresh_tokens_rotated_from_fkey".

(** One statement: the new row goes in and the old one is revoked, both or none.
    The old row is revoked whatever its state; it must exist ([rotated_from]). *)
Definition Rotate (oldTokenID : UUID) (row : token_row) : AuthDb -> AuthDb * result error unit :=
  on_pool env (fun db =>
    match insert_token row (revoke_where (fun t => bool_decide (tk_ID t = oldTokenID)) (ad_tokens db)) with
    | Ok tokens =>
        match ad_tokens db !! oldTokenID with
        | Some _ => (set_tokens db tokens, Ok tt)
        | None => (db, Err fk_error)
        end
    | Err e => (db, Err e)
    end).

Definition Revoke (tokenID : UUID) : AuthDb -> AuthDb * result error unit :=
  on_pool env (fun db => (set_tokens db (revoke_where (fun t => bool_decide (tk_ID t = tokenID)) (ad_tokens db)), Ok tt)).

Definition in_family (f : UUID) (t : token_row) : bool := bool_decide (tk_FamilyID t = f).
Definition live_in_family (f : UUID) (t : token_row) : bool := in_family f t && negb (tk_Revoked t).

Definition RevokeFamily (familyID : UUID) : AuthDb -> AuthDb * result error unit :=
  on_pool env (fun db => (set_tokens db (revoke_where (live_in_family familyID) (ad_tokens db)), Ok tt)).

Definition RevokeAllSessions (tenantID userID : UUID) : AuthDb -> AuthDb * result error unit :=
  WithTenant env tenantID (fun _ db =>
    (set_tokens db (revoke_where (fun t => bool_decide (tk_UserID t = userID) && bool_decide (tk_TenantID t = tenantID) &&
                                           negb (tk_Revoked t)) (ad_tokens db)), Ok tt)).

Definition newer (a b : token_row) : Prop := tk_CreatedAt b <= tk_CreatedAt a.

#[global] Instance newer_dec a b : Decision (newer a b).
Proof. unfold newer. apply _. Defined.

(** [WHERE user_id = u AND tenant_id = t AND revoked = false AND expires_at > now()
    ORDER BY created_at DESC], of both list queries. *)
Definition active_tokens (now : Z) (tenantID userID : UUID) (tokens : TokenTable) : list token_row :=
  merge_sort newer
    (List.filter (fun t => bool_decide (tk_UserID t = userID) && bool_decide (tk_TenantID t = tenantID) &&
                           negb (tk_Revoked t) && (now <? tk_ExpiresAt t)) (map snd (map_to_list tokens))).

Definition ListActiveTokens (now : Z) (tenantID userID : UUID) : AuthDb -> AuthDb * result error (list token_row) :=
  on_pool env (fun db => (db, Ok (active_tokens now tenantID userID (ad_tokens db)))).

Definition UpdateLastUsed (now : Z) (tokenID : UUID) : AuthDb -> AuthDb * result error unit :=
  on_pool env (fun db =>
    (set_tokens db ((fun t => if bool_decide (tk_ID t = tokenID) then set_last_used now t else t) <$> ad_tokens db), Ok tt)).

Record Session := mkSession {
  ss_ID : UUID;
  ss_UserID : UUID;
  ss_CreatedAt : Z;
  ss_LastUsedAt : option Z;
  ss_UserAgent : option string;
  ss_IP : string;
}.

Definition session_of (t : token_row) : Session :=
  mkSession (tk_ID t) (tk_UserID t) (tk_CreatedAt t) (tk_LastUsedAt t) (tk_UserAgent t) (default "" (tk_IP t)).

Definition ListSessions (now : Z) (tenantID userID : UUID) : AuthDb -> AuthDb * result error (list Session) :=
  WithTenant env tenantID (fun _ db => (db, Ok (map session_of (active_tokens now tenantID userID (ad_tokens db))))).

(** ** Use cases *)

Record LoginRequest := mkLoginRequest {
  lr_Email : string;
  lr_Password : string;
  lr_TenantID : UUID;
  lr_UserAgent : string;
  lr_IP : string;
}.

Record TokenResponse := mkTokenResponse { AccessToken : string; RefreshToken : string; ExpiresIn : Z }.

(** The claims every session gets: the role is not looked up. *)
Definition session_claims (user tenant : UUID) : Claims :=
  mkClaims (uuid_String user) (uuid_String tenant) "admin" ["*"].

Definition Login (now : Z) (d : Draw) (req : LoginRequest) (db : AuthDb) : AuthDb * result error TokenResponse :=
  match user_GetByEmail (lr_TenantID req) (lr_Email req) db with
  | (db, Err _) => (db, Err (ErrInvalidCredentials : error))
  | (db, Ok user) =>
      match VerifyPassword (lr_Password req) (usr_PasswordHash user) with
      | Some e => (db, Err (unless_panic e ErrInvalidCredentials))
      | None =>
          if negb (user_IsActive user) then (db, Err (ErrForbidden : error))
          else match IssueAccessToken now (session_claims (usr_ID user) (lr_TenantID req)) with
          | Err e => (db, Err e)
          | Ok accessToken =>
              let row := mkToken (dr_id d) (usr_ID user) (lr_TenantID req) (HashToken (dr_token d)) (dr_family d)
                           false (pg_time (now + seven_days)) (nullable (lr_UserAgent req)) (nullable_ip (lr_IP req)) (pg_time now) None None in
              match Store row db with
              | (db, Err e) => (db, Err e)
              | (db, Ok _) => (db, Ok (mkTokenResponse accessToken (dr_token d) 900))
              end
          end
      end
  end.

Record RefreshRequest := mkRefreshRequest { rr_RefreshToken : string; rr_UserAgent : string; rr_IP : string }.

(** [Refresh] up to the rotation: look-up, replay, expiry and user checks. *)
Definition refresh_check (now : Z) (req : RefreshRequest) (db : AuthDb)
    : AuthDb * result error (token_row * User * string) :=
  match FindByTokenHash (HashToken (rr_RefreshToken req)) db with
  | (db, Err _) => (db, Err (ErrInvalidToken : error))
  | (db, Ok storedToken) =>
      if tk_Revoked storedToken then
        match RevokeFamily (tk_FamilyID storedToken) db with
        | (db, Err e) => (db, Err e)
        | (db, Ok _) => (db, Err (ErrReplayDetected : error))
        end
      else if token_IsExpired now storedToken then (db, Err (ErrExpired : error))
      else match user_GetByID (tk_TenantID storedToken) (tk_UserID storedToken) db with
      | (db, Err _) => (db, Err (ErrInvalidToken : error))
      | (db, Ok user) =>
          if negb (user_IsActive user) then (db, Err (ErrForbidden : error))
          else match IssueAccessToken now (session_claims (usr_ID user) (tk_TenantID storedToken)) with
          | Err e => (db, Err e)
          | Ok accessToken => (db, Ok (storedToken, user, accessToken))
          end
      end
  end.

Definition rotated_row (now : Z) (d : Draw) (req : RefreshRequest) (storedToken : token_row) (user : User) : token_row :=
  mkToken (dr_id d) (usr_ID user) (tk_TenantID storedToken) (HashToken (dr_token d)) (tk_FamilyID storedToken)
    false (pg_time (now + seven_days)) (nullable (rr_UserAgent req)) (nullable_ip (rr_IP req)) (pg_time now) None (Some (tk_ID storedToken)).

Definition refresh_commit (now : Z) (d : Draw) (req : RefreshRequest) (checked : token_row * User * string) (db : AuthDb)
    : AuthDb * result error TokenResponse :=
  let '(storedToken, user, accessToken) := checked in
  match Rotate (tk_ID storedToken) (rotated_row now d req storedToken user) db with
  | (db, Err e) => (db, Err e)
  | (db, Ok _) => (db, Ok (mkTokenResponse accessToken (dr_token d) 900))
  end.

Definition Refresh (now : Z) (d : Draw) (req : RefreshRequest) (db : AuthDb) : AuthDb * result error TokenResponse :=
  match refresh_check now req db with
  | (db, Err e) => (db, Err e)
  | (db, Ok checked) => refresh_commit now d req checked db
  end.

Record LogoutRequest := mkLogoutRequest { lo_RefreshToken : string; lo_RevokeAll : bool }.

Definition Logout (req : LogoutRequest) (db : AuthDb) : AuthDb * result error unit :=
  match FindByTokenHash (HashToken (lo_RefreshToken req)) db with
  | (db, Err _) => (db, Err (ErrInvalidToken : error))
  | (db, Ok storedToken) =>
      if lo_RevokeAll req then RevokeFamily (tk_FamilyID storedToken) db
      else Revoke (tk_ID storedToken) db
  end.

Record RegisterRequest := mkRegisterRequest {
  rg_Email : string;
  rg_Password : string;
  rg_TenantID : UUID;
  rg_Role : string;
}.

(** The requested role is defaulted and then dropped. *)
Definition Register (now : Z) (d : Draw) (req : RegisterRequest) (db : AuthDb) : AuthDb * result error User :=
  match user_GetByEmail (rg_TenantID req) (rg_Email req) db with
  | (db, Ok _) => (db, Err (ErrConflict : error))
  | (db, Err _) =>
      match HashPassword (rg_Password req) with
      | Err e => (db, Err e)
      | Ok passwordHash => user_Create now (dr_id d) (rg_TenantID req) (rg_Email req) passwordHash db
      end
  end.
End Repositories.

(** * Sessions as a transition system

    One step is one request, run to its end: each has its own clock, random
    draws and database circumstances. Interleavings inside a request are treated
    at the end of the file. *)

(** The draws collide with nothing stored: 32 random bytes and a random UUID. *)
Definition fresh_draw (d : Draw) (tokens : TokenTable) : Prop :=
  forall k t, tokens !! k = Some t -> tk_TokenHash t <> HashToken (dr_token d) /\ tk_FamilyID t <> dr_family d.

Inductive session_step `{AuthEnv} (db : AuthDb) : AuthDb -> Prop :=
| step_login (env : DbEnv) (now : Z) (d : Draw) (req : LoginRequest) :
    fresh_draw d (ad_tokens db) -> session_step db (fst (Login env now d req db))
| step_refresh (env : DbEnv) (now : Z) (d : Draw) (req : RefreshRequest) :
    fresh_draw d (ad_tokens db) -> session_step db (fst (Refresh env now d req db))
| step_logout env req : session_step db (fst (Logout env req db))
| step_revoke_all env tenantID userID : session_step db (fst (RevokeAllSessions env tenantID userID db))
| step_register env now d req : session_step db (fst (Register env now d req db))
| step_update_user env now tenantID user : session_step db (fst (user_Update env now tenantID user db))
| step_last_used env now tokenID : session_step db (fst (UpdateLastUsed env now tokenID db)).

(** One statement of a request, with whatever the request has read before for its
    arguments: any interleaving of requests is a sequence of these. *)
Definition fresh_hash (row : token_row) (tokens : TokenTable) : Prop :=
  forall k t, tokens !! k = Some t -> tk_TokenHash t <> tk_TokenHash row.

Inductive statement_step `{AuthEnv} (db : AuthDb) : AuthDb -> Prop :=
| stmt_store env row : fresh_hash row (ad_tokens db) -> statement_step db (fst (Store env row db))
| stmt_rotate env old row : fresh_hash row (ad_tokens db) -> statement_step db (fst (Rotate env old row db))
| stmt_revoke env id : statement_step db (fst (Revoke env id db))
| stmt_revoke_family env f : statement_step db (fst (RevokeFamily env f db))
| stmt_revoke_all env tenantID userID : statement_step db (fst (RevokeAllSessions env tenantID userID db))
| stmt_last_used env now id : statement_step db (fst (UpdateLastUsed env now id db))
| stmt_create_user env now id tenantID email hash : statement_step db (fst (user_Create env now id tenantID email hash db))
| stmt_update_user env now tenantID user : statement_step db (fst (user_Update env now tenantID user db)).

(** The table invariant: rows sit under their id and no two rows have one hash;
    and a family has at most one token that is not revoked. *)
Record rows_ok (tokens : TokenTable) : Prop := mkRowsOk {
  ok_key : forall k t, tokens !! k = Some t -> tk_ID t = k;
  ok_hash : forall k1 k2 t1 t2, tokens !! k1 = Some t1 -> tokens !! k2 = Some t2 ->
    tk_TokenHash t1 = tk_TokenHash t2 -> k1 = k2;
}.
Record tokens_ok (tokens : TokenTable) : Prop := mkTokensOk {
  ok_rows : rows_ok tokens;
  ok_family : forall f, (map_count (live_in_family f) tokens <= 1)%nat;
}.

(** What a row keeps for ever: identity, owner, hash, family and expiry; and a
    revoked token stays revoked. *)
Definition row_later (t t' : token_row) : Prop :=
  tk_ID t' = tk_ID t /\ tk_UserID t' = tk_UserID t /\ tk_TenantID t' = tk_TenantID t /\
  tk_TokenHash t' = tk_TokenHash t /\ tk_FamilyID t' = tk_FamilyID t /\ tk_ExpiresAt t' = tk_ExpiresAt t /\
  (tk_Revoked t = true -> tk_Revoked t' = true).

(** The four things a request does to the token table. *)
Inductive token_effect (tokens : TokenTable) : TokenTable -> Prop :=
| effect_none : token_effect tokens tokens
| effect_update (g : token_row -> token_row) :
    (forall t, row_later t (g t)) -> token_effect tokens (g <$> tokens)
| effect_issue row :
    tokens !! tk_ID row = None ->
    (forall k t, tokens !! k = Some t -> tk_TokenHash t <> tk_TokenHash row) ->
    (forall k t, tokens !! k = Some t -> tk_FamilyID t <> tk_FamilyID row) ->
    token_effect tokens (<[tk_ID row := row]> tokens)
| effect_rotate old row :
    tokens !! tk_ID old = Some old -> tk_Revoked old = false ->
    tk_FamilyID row = tk_FamilyID old -> tokens !! tk_ID row = None ->
    (forall k t, tokens !! k = Some t -> tk_TokenHash t <> tk_TokenHash row) ->
    token_effect tokens (<[tk_ID row := row]> (revoke_where (fun t => bool_decide (tk_ID t = tk_ID old)) tokens)).

(** ** Row updates *)

Lemma row_later_refl t : row_later t t.
Proof. repeat split; tauto. Qed.

Lemma row_later_trans a b c : row_later a b -> row_later b c -> row_later a c.
Proof. unfold row_later. intuition congruence. Qed.

Lemma row_later_revoke (p : token_row -> bool) t : row_later t (if p t then set_revoked t else t).
Proof. destruct (p t); [repeat split|apply row_later_refl]. Qed.
#[export] Hint Resolve row_later_refl row_later_revoke : gateway.

Lemma row_later_live f t t' : row_later t t' -> live_in_family f t' = true -> live_in_family f t = true.
Proof.
  unfold row_later, live_in_family, in_family. intros (_ & _ & _ & _ & -> & _ & Hr).
  rewrite !andb_true_iff, !negb_true_iff. intros [? Hl]. split; [done|].
  destruct (tk_Revoked t); [|done]. rewrite Hr in Hl; done.
Qed.

Lemma revoke_where_lookup p (tokens : TokenTable) k t' :
  revoke_where p tokens !! k = Some t' <->
  exists t, tokens !! k = Some t /\ t' = (if p t then set_revoked t else t).
Proof. unfold revoke_where. rewrite lookup_fmap, fmap_Some. naive_solver. Qed.

Lemma revoke_where_none p (tokens : TokenTable) k : revoke_where p tokens !! k = None <-> tokens !! k = None.
Proof. unfold revoke_where. rewrite lookup_fmap, fmap_None. done. Qed.

(** ** The effects keep the invariant *)

Lemma update_rows_ok g tokens :
  (forall t, row_later t (g t)) -> rows_ok tokens -> rows_ok (g <$> tokens).
Proof.
  intros Hg [Hk Hh]. split.
  - intros k t'. rewrite lookup_fmap, fmap_Some. intros (t & Ht & ->).
    rewrite <- (Hk k t Ht). apply Hg.
  - intros k1 k2 t1 t2. rewrite !lookup_fmap, !fmap_Some.
    intros (u1 & H1 & ->) (u2 & H2 & ->) He. apply (Hh k1 k2 u1 u2 H1 H2).
    destruct (Hg u1) as (_ & _ & _ & <- & _), (Hg u2) as (_ & _ & _ & <- & _). done.
Qed.

Lemma update_ok g tokens :
  (forall t, row_later t (g t)) -> tokens_ok tokens -> tokens_ok (g <$> tokens).
Proof.
  intros Hg [Hr Hf]. split; [by apply update_rows_ok|].
  intros f. apply map_count_le_one. intros k1 k2 v1 v2.
  rewrite !lookup_fmap, !fmap_Some. intros (u1 & H1 & ->) (u2 & H2 & ->) L1 L2.
  specialize (Hf f). rewrite map_count_le_one in Hf.
  apply (Hf k1 k2 u1 u2 H1 H2); eapply row_later_live; eauto.
Qed.

Lemma revoke_where_ok p tokens : tokens_ok tokens -> tokens_ok (revoke_where p tokens).
Proof. apply update_ok. exact (row_later_revoke p). Qed.

Lemma insert_rows_ok row tokens :
  tokens !! tk_ID row = None -> fresh_hash row tokens -> rows_ok tokens -> rows_ok (<[tk_ID row := row]> tokens).
Proof.
  intros Hnew Hhash [Hk Hh]. split.
  - intros k t. rewrite lookup_insert_Some. naive_solver.
  - intros k1 k2 t1 t2. rewrite !lookup_insert_Some.
    intros [[<- <-]|[? H1]] [[<- <-]|[? H2]] He; try done.
    + by destruct (Hhash k2 t2).
    + by destruct (Hhash k1 t1).
    + by eapply Hh.
Qed.

Lemma insert_ok row tokens :
  tokens !! tk_ID row = None -> fresh_hash row tokens ->
  map_count (live_in_family (tk_FamilyID row)) tokens = 0%nat ->
  tokens_ok tokens -> tokens_ok (<[tk_ID row := row]> tokens).
Proof.
  intros Hnew Hhash Hdead [Hr Hf]. split; [by apply insert_rows_ok|].
  intros f. rewrite map_count_insert_new by done.
  specialize (Hf f). destruct (live_in_family f row) eqn:Hl; [|lia].
  unfold live_in_family, in_family in Hl. apply andb_true_iff in Hl as [Hl _].
  apply bool_decide_eq_true in Hl. subst f. lia.
Qed.

Lemma fresh_hash_revoke p row tokens : fresh_hash row tokens -> fresh_hash row (revoke_where p tokens).
Proof.
  intros Hh k t'. rewrite revoke_where_lookup. intros (t & Ht & ->).
  destruct (row_later_revoke p t) as (_ & _ & _ & -> & _). by eapply Hh.
Qed.

Lemma rotate_family_dead old tokens :
  tokens_ok tokens -> tokens !! tk_ID old = Some old -> tk_Revoked old = false ->
  map_count (live_in_family (tk_FamilyID old)) (revoke_where (fun t => bool_decide (tk_ID t = tk_ID old)) tokens) = 0%nat.
Proof.
  intros [[Hk _] Hf] Hold Hlive. apply map_count_zero. intros k t'.
  rewrite revoke_where_lookup. intros (t & Ht & ->). pose proof (Hk k t Ht) as Hid.
  destruct (bool_decide (tk_ID t = tk_ID old)) eqn:Heq.
  - unfold live_in_family. cbn [set_revoked tk_Revoked]. apply andb_false_r.
  - apply bool_decide_eq_false in Heq. apply not_true_is_false. intros Hl.
    specialize (Hf (tk_FamilyID old)). rewrite map_count_le_one in Hf.
    apply Heq. rewrite Hid. apply (Hf k (tk_ID old) t old Ht Hold Hl).
    unfold live_in_family, in_family. rewrite Hlive. by rewrite bool_decide_eq_true_2.
Qed.

Lemma token_effect_ok tokens tokens' : token_effect tokens tokens' -> tokens_ok tokens -> tokens_ok tokens'.
Proof.
  intros [|g Hg|row Hnew Hh Hfam|old row Hold Hlive Hfam Hnew Hh] Hok; [done|by apply update_ok| |].
  - apply insert_ok; try done. apply map_count_zero. intros k t Ht.
    unfold live_in_family, in_family. rewrite bool_decide_eq_false_2; [done|]. by eapply Hfam.
  - apply insert_ok.
    + by apply revoke_where_none.
    + by apply fresh_hash_revoke.
    + rewrite Hfam. by apply rotate_family_dead.
    + by apply revoke_where_ok.
Qed.

(** ** The effects only move rows forward *)

Definition table_later (tokens tokens' : TokenTable) : Prop :=
  forall k t, tokens !! k = Some t -> exists t', tokens' !! k = Some t' /\ row_later t t'.

#[export] Instance table_later_preorder : PreOrder table_later.
Proof.
  split.
  - intros tokens k t Ht. eauto using row_later_refl.
  - intros a b c Hab Hbc k t Ht. destruct (Hab k t Ht) as (t' & Ht' & ?).
    destruct (Hbc k t' Ht') as (t'' & Ht'' & ?). eauto using row_later_trans.
Qed.

Lemma update_later g tokens : (forall t, row_later t (g t)) -> table_later tokens (g <$> tokens).
Proof. intros Hg k t Ht. exists (g t). by rewrite lookup_fmap, Ht. Qed.

Lemma revoke_where_later p tokens : table_later tokens (revoke_where p tokens).
Proof. apply update_later. exact (row_later_revoke p). Qed.

Lemma insert_later k row tokens : tokens !! k = None -> table_later tokens (<[k := row]> tokens).
Proof.
  intros Hnew i t Ht. exists t. rewrite lookup_insert_ne by congruence.
  split; [done|apply row_later_refl].
Qed.

Lemma token_effect_later tokens tokens' : token_effect tokens tokens' -> table_later tokens tokens'.
Proof.
  intros [|g Hg|row Hnew _ _|old row _ _ _ Hnew _]; [reflexivity|by apply update_later|by apply insert_later|].
  transitivity (revoke_where (fun t => bool_decide (tk_ID t = tk_ID old)) tokens).
  - apply revoke_where_later.
  - apply insert_later. by apply revoke_where_none.
Qed.

(** ** Every request is one of the effects *)

Lemma find_row h (tokens : TokenTable) t :
  List.find (fun t => bool_decide (tk_TokenHash t = h)) (map snd (map_to_list tokens)) = Some t ->
  exists k, tokens !! k = Some t /\ tk_TokenHash t = h.
Proof.
  intros [Hin Hh]%find_some. apply bool_decide_eq_true in Hh.
  apply in_map_iff in Hin as ([k v] & Hv & Hin). cbn in Hv. subst v.
  exists k. split; [|done]. by apply elem_of_map_to_list, list_elem_of_In.
Qed.

Lemma find_row_none h (tokens : TokenTable) k t :
  List.find (fun t => bool_decide (tk_TokenHash t = h)) (map snd (map_to_list tokens)) = None ->
  tokens !! k = Some t -> tk_TokenHash t <> h.
Proof.
  intros Hn Hk Hh. apply (find_none _ _) with (x := t) in Hn.
  - apply bool_decide_eq_false in Hn. done.
  - apply in_map_iff. exists (k, t). split; [done|]. by apply list_elem_of_In, elem_of_map_to_list.
Qed.

Section Effects.
Context `{AuthEnv} (env : DbEnv).

Lemma find_by_hash_spec h db db' r :
  FindByTokenHash env h db = (db', r) ->
  db' = db /\
  match r with
  | Ok t => db_outage env = None /\ exists k, ad_tokens db !! k = Some t /\ tk_TokenHash t = h
  | Err _ => db_outage env <> None \/ forall k t, ad_tokens db !! k = Some t -> tk_TokenHash t <> h
  end.
Proof.
  unfold FindByTokenHash, on_pool. destruct (db_outage env); [intros [= <- <-]; naive_solver|].
  destruct (List.find _ _) eqn:Hf; intros [= <- <-]; (split; [done|]).
  - split; [done|]. by apply find_row.
  - right. intros k t. by apply find_row_none.
Qed.

Lemma user_lookup_db tenantID p db : fst (user_Lookup env tenantID p db) = db.
Proof. unfold user_Lookup, WithTenant. by run_guards. Qed.

Lemma user_lookup_tokens tenantID p db db' r : user_Lookup env tenantID p db = (db', r) -> db' = db.
Proof. intros Hl. by rewrite <- (user_lookup_db tenantID p db), Hl. Qed.

Lemma revoke_family_effect f db db' r :
  RevokeFamily env f db = (db', r) -> token_effect (ad_tokens db) (ad_tokens db').
Proof.
  unfold RevokeFamily, on_pool. destruct (db_outage env); intros [= <- <-]; [constructor|].
  apply effect_update. exact (row_later_revoke _).
Qed.

Lemma revoke_effect id db db' r :
  Revoke env id db = (db', r) -> token_effect (ad_tokens db) (ad_tokens db').
Proof.
  unfold Revoke, on_pool. destruct (db_outage env); intros [= <- <-]; [constructor|].
  apply effect_update. exact (row_later_revoke _).
Qed.

Lemma revoke_all_effect tenantID userID db :
  token_effect (ad_tokens db) (ad_tokens (fst (RevokeAllSessions env tenantID userID db))).
Proof.
  unfold RevokeAllSessions, WithTenant. destruct (db_outage env); cbn; [constructor|].
  apply effect_update. exact (row_later_revoke _).
Qed.

Lemma last_used_effect now id db :
  token_effect (ad_tokens db) (ad_tokens (fst (UpdateLastUsed env now id db))).
Proof.
  unfold UpdateLastUsed, on_pool. destruct (db_outage env); cbn; [constructor|].
  apply effect_update. intros t. destruct (bool_decide _); [repeat split; tauto|apply row_later_refl].
Qed.

Lemma logout_effect req db : token_effect (ad_tokens db) (ad_tokens (fst (Logout env req db))).
Proof.
  unfold Logout. destruct (FindByTokenHash _ _ _) as [db' r] eqn:Hf.
  apply find_by_hash_spec in Hf as [-> _]. destruct r as [t|e]; [|constructor].
  destruct (lo_RevokeAll req).
  - destruct (RevokeFamily _ _ _) eqn:E. by eapply revoke_family_effect.
  - destruct (Revoke _ _ _) eqn:E. by eapply revoke_effect.
Qed.

Lemma login_effect now d req db :
  fresh_draw d (ad_tokens db) -> token_effect (ad_tokens db) (ad_tokens (fst (Login env now d req db))).
Proof.
  intros Hd. unfold Login. destruct (user_GetByEmail _ _ _ _) as [db' r] eqn:Hu.
  apply user_lookup_tokens in Hu as ->. destruct r as [u|e]; [|constructor].
  destruct (VerifyPassword _ _); [constructor|]. destruct (negb _); [constructor|].
  destruct (IssueAccessToken _ _); [|constructor].
  unfold Store, on_pool, insert_token. destruct (db_outage env); [constructor|].
  cbn [tk_ID]. destruct (ad_tokens db !! dr_id d) eqn:Hid; [constructor|]. destruct (negb _); [constructor|].
  cbn [fst set_tokens ad_tokens]. apply effect_issue; [done|..]; intros k t Ht; apply (Hd k t Ht).
Qed.

(** The checks of [Refresh] leave the tables alone, or end in a family revocation. *)
Lemma refresh_check_spec now req db db' r :
  refresh_check env now req db = (db', r) ->
  match r with
  | Ok (t, u, a) =>
      db' = db /\ IssueAccessToken now (session_claims (usr_ID u) (tk_TenantID t)) = Ok a /\ tk_TokenHash t = HashToken (rr_RefreshToken req) /\ tk_Revoked t = false /\
      token_IsExpired now t = false /\ user_IsActive u = true /\ (exists k, ad_tokens db !! k = Some t)
  | Err _ => token_effect (ad_tokens db) (ad_tokens db')
  end.
Proof.
  unfold refresh_check. destruct (FindByTokenHash _ _ _) as [db1 r1] eqn:Hf.
  apply find_by_hash_spec in Hf as [-> Hf]. destruct r1 as [t|e]; [|intros [= <- <-]; constructor].
  destruct Hf as [_ [k [Hk Hh]]]. destruct (tk_Revoked t) eqn:Hr.
  { destruct (RevokeFamily _ _ _) as [db2 r2] eqn:Hrf. apply revoke_family_effect in Hrf.
    destruct r2; intros [= <- <-]; done. }
  destruct (token_IsExpired now t) eqn:He; [intros [= <- <-]; constructor|].
  destruct (user_GetByID _ _ _ _) as [db2 r2] eqn:Hu. apply user_lookup_tokens in Hu as ->.
  destruct r2 as [u|e]; [|intros [= <- <-]; constructor].
  destruct (user_IsActive u) eqn:Ha; cbn [negb]; [|intros [= <- <-]; constructor].
  destruct (IssueAccessToken _ _) eqn:Hi; intros [= <- <-]; [|constructor]. repeat split; eauto.
Qed.

Lemma refresh_effect now d req db :
  tokens_ok (ad_tokens db) -> fresh_draw d (ad_tokens db) ->
  token_effect (ad_tokens db) (ad_tokens (fst (Refresh env now d req db))).
Proof.
  intros Hok Hd. unfold Refresh. destruct (refresh_check _ _ _ _) as [db' r] eqn:Hc.
  apply refresh_check_spec in Hc. destruct r as [[[t u] a]|e]; [|done].
  destruct Hc as (-> & _ & _ & Hr & _ & _ & k & Hk). pose proof (ok_key _ (ok_rows _ Hok) k t Hk) as Hid.
  unfold refresh_commit, Rotate, on_pool, insert_token. destruct (db_outage env); [constructor|].
  cbn [rotated_row tk_ID]. destruct (revoke_where _ _ !! dr_id d) eqn:Hnew; [constructor|].
  destruct (negb _); [constructor|]. apply revoke_where_none in Hnew. destruct (ad_tokens db !! tk_ID t) eqn:Hold; [|constructor].
  cbn [fst set_tokens ad_tokens]. rewrite Hid in Hold.
  apply (effect_rotate (ad_tokens db) t (rotated_row now d req t u)); try done.
  - congruence.
  - intros i x Hx. apply (Hd i x Hx).
Qed.

Lemma register_effect now d req db : token_effect (ad_tokens db) (ad_tokens (fst (Register env now d req db))).
Proof.
  unfold Register. destruct (user_GetByEmail _ _ _ _) as [db' r] eqn:Hu.
  apply user_lookup_tokens in Hu as ->. destruct r; [constructor|].
  destruct (HashPassword _); [|constructor]. unfold user_Create, WithTenant.
  destruct (db_outage env); [constructor|]. destruct (negb _); [constructor|].
  destruct (_ !! _); [constructor|]. destruct (negb _); constructor.
Qed.

Lemma update_user_effect now tenantID user db :
  token_effect (ad_tokens db) (ad_tokens (fst (user_Update env now tenantID user db))).
Proof.
  unfold user_Update, WithTenant. destruct (db_outage env); [constructor|].
  destruct (_ !! _); [|constructor]. destruct (negb _); [constructor|]. destruct (negb _); constructor.
Qed.
End Effects.

Lemma session_step_effect `{AuthEnv} db db' :
  tokens_ok (ad_tokens db) -> session_step db db' -> token_effect (ad_tokens db) (ad_tokens db').
Proof.
  intros Hok []; eauto using login_effect, refresh_effect, logout_effect, revoke_all_effect,
    register_effect, update_user_effect, last_used_effect.
Qed.

Lemma session_steps_ok `{AuthEnv} db db' :
  rtc session_step db db' -> tokens_ok (ad_tokens db) ->
  tokens_ok (ad_tokens db') /\ table_later (ad_tokens db) (ad_tokens db').
Proof.
  induction 1 as [db|db db1 db2 Hstep _ IH]; intros Hok; [split; [done|reflexivity]|].
  apply session_step_effect in Hstep; [|done].
  destruct (IH (token_effect_ok _ _ Hstep Hok)) as [Hok2 Hl].
  split; [done|]. transitivity (ad_tokens db1); [by apply token_effect_later|done].
Qed.

(** ** Interleaved statements *)

Lemma insert_token_ok env row tokens tokens' :
  insert_token env row tokens = Ok tokens' -> fresh_hash row tokens ->
  table_later tokens tokens' /\ (rows_ok tokens -> rows_ok tokens').
Proof.
  unfold insert_token. destruct (tokens !! tk_ID row) eqn:Hid; [done|]. destruct (negb _); [done|].
  intros [= <-] Hf. split; [by apply insert_later|]. by apply insert_rows_ok.
Qed.

Lemma statement_step_ok `{AuthEnv} db db' :
  statement_step db db' ->
  table_later (ad_tokens db) (ad_tokens db') /\ (rows_ok (ad_tokens db) -> rows_ok (ad_tokens db')).
Proof.
  assert (forall tokens tokens', (exists g, (forall t, row_later t (g t)) /\ tokens' = g <$> tokens) \/ tokens' = tokens ->
    table_later tokens tokens' /\ (rows_ok tokens -> rows_ok tokens')) as Hupd.
  { intros tokens tokens' [(g & Hg & ->)| ->]; [|by split]. split; [by apply update_later|by apply update_rows_ok]. }
  intros [env row Hf|env old row Hf|env id|env f|env tenantID userID|env now id|env now id tenantID email hash|env now tenantID user].
  - unfold Store, on_pool. destruct (db_outage env); [by split|].
    destruct (insert_token _ _ _) eqn:E; [|by split]. by apply insert_token_ok in E.
  - unfold Rotate, on_pool. destruct (db_outage env); [by split|].
    destruct (insert_token _ _ _) as [tokens|] eqn:E; [|by split]. destruct (_ !! old); [|by split].
    apply insert_token_ok in E as [E1 E2]; [|by apply fresh_hash_revoke]. cbn [fst set_tokens ad_tokens]. split.
    + etransitivity; [apply revoke_where_later|exact E1].
    + intros Hr. apply E2. apply update_rows_ok; [|done]. exact (row_later_revoke _).
  - unfold Revoke, on_pool. apply Hupd. destruct (db_outage env); [by right|]. left. eexists. split; [|done].
    exact (row_later_revoke _).
  - unfold RevokeFamily, on_pool. apply Hupd. destruct (db_outage env); [by right|]. left. eexists. split; [|done].
    exact (row_later_revoke _).
  - unfold RevokeAllSessions, WithTenant. apply Hupd. destruct (db_outage env); [by right|]. left. eexists. split; [|done].
    exact (row_later_revoke _).
  - unfold UpdateLastUsed, on_pool. apply Hupd. destruct (db_outage env); [by right|]. left. eexists. split; [|done].
    intros t. cbn beta. case_bool_decide; [unfold row_later; split_and!; done|apply row_later_refl].
  - unfold user_Create, WithTenant. apply Hupd. right. by run_guards.
  - unfold user_Update, WithTenant. apply Hupd. right. by run_guards.
Qed.

Lemma statement_steps_ok `{AuthEnv} db db' :
  rtc statement_step db db' ->
  table_later (ad_tokens db) (ad_tokens db') /\ (rows_ok (ad_tokens db) -> rows_ok (ad_tokens db')).
Proof.
  induction 1 as [db|db db1 db2 Hstep _ [IH1 IH2]]; [by split|].
  apply statement_step_ok in Hstep as [H1 H2]. split; [by etransitivity|auto].
Qed.

(** A request run to its end is some of these statements. *)
Lemma session_step_statements `{AuthEnv} db db' : session_step db db' -> rtc statement_step db db'.
Proof.
  assert (forall db2, statement_step db db2 -> rtc statement_step db db2) as Hone by (intros; by apply rtc_once).
  intros [env now d req Hd|env now d req Hd|env req|env t u|env now d req|env now t u|env now id]; try (apply Hone; by constructor).
  - unfold Login. destruct (user_GetByEmail _ _ _ _) as [db1 r] eqn:Hu. apply user_lookup_tokens in Hu as ->.
    destruct r as [u|e]; [|reflexivity]. destruct (VerifyPassword _ _); [reflexivity|]. destruct (negb _); [reflexivity|].
    destruct (IssueAccessToken _ _); [|reflexivity]. match goal with |- context [Store env ?row db] =>
      assert (statement_step db (fst (Store env row db))) as Hs by (constructor; intros k t Ht; apply (Hd k t Ht));
      destruct (Store env row db) as [db2 [v|e]] end; by apply Hone.
  - unfold Refresh. destruct (refresh_check _ _ _ _) as [db1 r] eqn:Hc. unfold refresh_check in Hc.
    destruct (FindByTokenHash _ _ _) as [db2 r2] eqn:Hf. apply find_by_hash_spec in Hf as [-> _].
    destruct r2 as [t|e]; [|injection Hc as <- <-; reflexivity]. destruct (tk_Revoked t).
    { pose proof (stmt_revoke_family db env (tk_FamilyID t)) as Hs.
      destruct (RevokeFamily _ _ _) as [db3 [v|e]]; injection Hc as <- <-; by apply Hone. }
    destruct (token_IsExpired now t); [injection Hc as <- <-; reflexivity|].
    destruct (user_GetByID _ _ _ _) as [db3 r3] eqn:Hu. apply user_lookup_tokens in Hu as ->.
    destruct r3 as [u|e]; [|injection Hc as <- <-; reflexivity]. destruct (negb _); [injection Hc as <- <-; reflexivity|].
    destruct (IssueAccessToken _ _); injection Hc as <- <-; [|reflexivity]. unfold refresh_commit.
    match goal with |- context [Rotate env ?old ?row db] =>
      assert (statement_step db (fst (Rotate env old row db))) as Hs by (constructor; intros k x Hx; apply (Hd k x Hx));
      destruct (Rotate env old row db) as [db2 [v|e]] end; by apply Hone.
  - unfold Logout. destruct (FindByTokenHash _ _ _) as [db2 r2] eqn:Hf. apply find_by_hash_spec in Hf as [-> _].
    destruct r2 as [t|e]; [|reflexivity]. destruct (lo_RevokeAll req); apply Hone; constructor.
  - unfold Register. destruct (user_GetByEmail _ _ _ _) as [db1 r] eqn:Hu. apply user_lookup_tokens in Hu as ->.
    destruct r as [u|e]; [reflexivity|]. destruct (HashPassword _); [|reflexivity]. apply Hone. constructor.
Qed.

(** * What the sessions promise *)

(** C9: In every state that requests run one after the other, with fresh draws, can
    reach, the refresh-token table is well-formed: one row per id, one row per token
    hash, at most one token of a family not revoked. However the statements of
    concurrent requests interleave, no request removes a row, changes a row's hash,
    family, owner or expiry, or revives a revoked token, and there is still one row
    per id and per hash; one live token per family is not kept then. *)
Theorem sessions_invariant `{AuthEnv} db db' :
  (tokens_ok (ad_tokens db) -> rtc session_step db db' ->
   (forall k t, ad_tokens db' !! k = Some t -> tk_ID t = k) /\
   (forall k1 k2 t1 t2, ad_tokens db' !! k1 = Some t1 -> ad_tokens db' !! k2 = Some t2 ->
      tk_TokenHash t1 = tk_TokenHash t2 -> k1 = k2) /\
   (forall f, (map_count (live_in_family f) (ad_tokens db') <= 1)%nat) /\
   (forall k t, ad_tokens db !! k = Some t -> exists t', ad_tokens db' !! k = Some t' /\ row_later t t')) /\
  (rows_ok (ad_tokens db) -> rtc statement_step db db' ->
   (forall k t, ad_tokens db' !! k = Some t -> tk_ID t = k) /\
   (forall k1 k2 t1 t2, ad_tokens db' !! k1 = Some t1 -> ad_tokens db' !! k2 = Some t2 ->
      tk_TokenHash t1 = tk_TokenHash t2 -> k1 = k2) /\
   (forall k t, ad_tokens db !! k = Some t -> exists t', ad_tokens db' !! k = Some t' /\ row_later t t')).
Proof.
  split.
  - intros Hok Hs. destruct (session_steps_ok _ _ Hs Hok) as [[[Hk Hh] Hf] Hl]. done.
  - intros Hok Hs. destruct (statement_steps_ok _ _ Hs) as [Hl Hr]. destruct (Hr Hok) as [Hk Hh]. done.
Qed.

Lemma refresh_commit_ok `{AuthEnv} env now d req t u a db db' resp :
  refresh_commit env now d req (t, u, a) db = (db', Ok resp) ->
  db_outage env = None /\ ad_tokens db !! dr_id d = None /\ resp = mkTokenResponse a (dr_token d) 900 /\
  db' = set_tokens db (<[dr_id d := rotated_row now d req t u]>
                         (revoke_where (fun t' => bool_decide (tk_ID t' = tk_ID t)) (ad_tokens db))).
Proof.
  unfold refresh_commit, Rotate, on_pool, insert_token. destruct (db_outage env); [done|].
  cbn [rotated_row tk_ID]. destruct (revoke_where _ _ !! dr_id d) eqn:Hnew; [done|].
  destruct (negb _); [done|]. apply revoke_where_none in Hnew. destruct (ad_tokens db !! tk_ID t); intros [= <- <-]. done.
Qed.

(** A successful refresh spends the presented token: the presented token was
    stored, not revoked, not expired, and its user active; afterwards its row is
    revoked, one new row of the same family, rotated from it and carrying the hash
    of the returned token, is live, and every other row is as it was. The access
    token is signed with role "admin" and scope "*" whoever the user is. *)
Theorem refresh_rotates `{AuthEnv} env now d req db db' resp :
  tokens_ok (ad_tokens db) ->
  Refresh env now d req db = (db', Ok resp) ->
  exists k t u,
    ad_tokens db !! k = Some t /\ tk_TokenHash t = HashToken (rr_RefreshToken req) /\
    tk_Revoked t = false /\ now <= tk_ExpiresAt t /\ usr_Status u = "active" /\
    IssueAccessToken now (mkClaims (uuid_String (usr_ID u)) (uuid_String (tk_TenantID t)) "admin" ["*"]) = Ok (AccessToken resp) /\
    ad_tokens db' !! k = Some (set_revoked t) /\
    (exists n, ad_tokens db !! dr_id d = None /\ ad_tokens db' !! dr_id d = Some n /\ tk_Revoked n = false /\
       tk_FamilyID n = tk_FamilyID t /\ tk_RotatedFrom n = Some k /\ tk_TokenHash n = HashToken (RefreshToken resp)) /\
    (forall i, i <> k -> i <> dr_id d -> ad_tokens db' !! i = ad_tokens db !! i).
Proof.
  intros Hok. unfold Refresh. destruct (refresh_check _ _ _ _) as [db1 r] eqn:Hc.
  apply refresh_check_spec in Hc as Hs. destruct r as [[[t u] a]|e]; [|done].
  destruct Hs as (-> & Hi & Hh & Hr & He & Ha & k & Hk). pose proof (ok_key _ (ok_rows _ Hok) k t Hk) as Hid.
  intros (_ & Hnew & -> & ->)%refresh_commit_ok. exists k, t, u.
  unfold token_IsExpired, user_IsActive in *. reflect_bools. cbn [set_tokens ad_tokens AccessToken RefreshToken].
  assert (dr_id d <> k) as Hne by congruence.
  split_and!; try done.
  - rewrite lookup_insert_ne by done. apply revoke_where_lookup. exists t.
    split; [done|]. by rewrite bool_decide_eq_true_2.
  - eexists. split; [done|]. rewrite lookup_insert_eq. split; [done|].
    cbn [rotated_row tk_Revoked tk_FamilyID tk_RotatedFrom tk_TokenHash]. by rewrite Hid.
  - intros i Hi1 Hi2. rewrite lookup_insert_ne by done. unfold revoke_where. rewrite lookup_fmap.
    destruct (ad_tokens db !! i) as [x|] eqn:Hx; [|done]. cbn. rewrite bool_decide_eq_false_2; [done|].
    rewrite (ok_key _ (ok_rows _ Hok) i x Hx). congruence.
Qed.

(** Looking a stored hash up finds its row. *)
Lemma find_by_hash_found `{AuthEnv} env db k t :
  tokens_ok (ad_tokens db) -> db_outage env = None -> ad_tokens db !! k = Some t ->
  FindByTokenHash env (tk_TokenHash t) db = (db, Ok t).
Proof.
  intros Hok Ho Hk. destruct (FindByTokenHash _ _ _) as [db' r] eqn:Hf.
  apply find_by_hash_spec in Hf as [-> Hf]. destruct r as [t'|e].
  - destruct Hf as (_ & k' & Hk' & Hh). assert (k' = k) as -> by (eapply (ok_hash _ (ok_rows _ Hok)); eauto). congruence.
  - destruct Hf as [?|Hf]; [done|]. by destruct (Hf k t).
Qed.

(** C13: A refresh token that was spent stays spent: however many requests follow,
    presenting it again gives ErrReplayDetected, revokes every token of its family
    and touches no other row. *)
Theorem refresh_replay_detected `{AuthEnv} env now d req db db1 resp db2 env2 now2 d2 req2 :
  tokens_ok (ad_tokens db) -> fresh_draw d (ad_tokens db) ->
  Refresh env now d req db = (db1, Ok resp) ->
  rtc session_step db1 db2 ->
  rr_RefreshToken req2 = rr_RefreshToken req -> db_outage env2 = None ->
  exists t db3,
    Refresh env2 now2 d2 req2 db2 = (db3, Err (ErrReplayDetected : error)) /\
    tk_TokenHash t = HashToken (rr_RefreshToken req) /\
    (forall k x, ad_tokens db3 !! k = Some x -> tk_FamilyID x = tk_FamilyID t -> tk_Revoked x = true) /\
    (forall k x, ad_tokens db2 !! k = Some x -> tk_FamilyID x <> tk_FamilyID t -> ad_tokens db3 !! k = Some x).
Proof.
  intros Hok Hd Hr Hs Hreq Ho.
  assert (tokens_ok (ad_tokens db1)) as Hok1.
  { eapply token_effect_ok; [|exact Hok]. replace db1 with (fst (Refresh env now d req db)) by by rewrite Hr.
    by apply refresh_effect. }
  destruct (session_steps_ok _ _ Hs Hok1) as [Hok2 Hl].
  revert Hr. unfold Refresh at 1. destruct (refresh_check _ _ _ _) as [db' r] eqn:Hc.
  apply refresh_check_spec in Hc. destruct r as [[[t u] a]|e]; [|done].
  destruct Hc as (-> & _ & Hh & _ & _ & _ & k & Hk). pose proof (ok_key _ (ok_rows _ Hok) k t Hk) as Hid.
  intros (_ & Hnew & _ & ->)%refresh_commit_ok.
  assert (exists t2, ad_tokens db2 !! k = Some t2 /\ row_later (set_revoked t) t2) as (t2 & Hk2 & Hl2).
  { apply Hl. cbn [set_tokens ad_tokens]. rewrite lookup_insert_ne by congruence.
    apply revoke_where_lookup. exists t. split; [done|]. by rewrite bool_decide_eq_true_2. }
  destruct Hl2 as (_ & _ & _ & Hh2 & Hf2 & _ & Hr2). cbn in Hh2, Hf2, Hr2.
  unfold Refresh, refresh_check. rewrite Hreq, <- Hh, <- Hh2.
  rewrite (find_by_hash_found env2 db2 k t2) by done. rewrite Hr2 by done.
  unfold RevokeFamily, on_pool. rewrite Ho. exists t. eexists. split; [done|]. split; [congruence|].
  cbn [set_tokens ad_tokens]. rewrite Hf2. split.
  - intros i x. rewrite revoke_where_lookup. intros (y & _ & ->) Hfam.
    destruct (live_in_family _ y) eqn:Hlive; [done|]. unfold live_in_family, in_family in Hlive.
    rewrite bool_decide_eq_true_2 in Hlive by done. by destruct (tk_Revoked y).
  - intros i x Hx Hfam. apply revoke_where_lookup. exists x. split; [done|].
    unfold live_in_family, in_family. by rewrite bool_decide_eq_false_2.
Qed.

(** The rotation does not check that the token it revokes is still live: two
    refreshes of one token whose checks both come before either rotation both
    succeed, leaving two live tokens in the family. *)
Theorem concurrent_refresh_forks `{AuthEnv} env now1 now2 d1 d2 req1 req2 db c1 c2 :
  tokens_ok (ad_tokens db) -> db_outage env = None -> db_tenants env (tk_TenantID (fst (fst c1))) = true ->
  rr_RefreshToken req1 = rr_RefreshToken req2 ->
  refresh_check env now1 req1 db = (db, Ok c1) -> refresh_check env now2 req2 db = (db, Ok c2) ->
  ad_tokens db !! dr_id d1 = None -> ad_tokens db !! dr_id d2 = None -> dr_id d1 <> dr_id d2 ->
  exists db1 resp1 db2 resp2,
    refresh_commit env now1 d1 req1 c1 db = (db1, Ok resp1) /\
    refresh_commit env now2 d2 req2 c2 db1 = (db2, Ok resp2) /\
    (exists f n1 n2, ad_tokens db2 !! dr_id d1 = Some n1 /\ live_in_family f n1 = true /\
                     ad_tokens db2 !! dr_id d2 = Some n2 /\ live_in_family f n2 = true) /\
    ~ tokens_ok (ad_tokens db2).
Proof.
  intros Hok Ho Htn Hreq Hc1 Hc2 Hn1 Hn2 Hne.
  apply refresh_check_spec in Hc1, Hc2. destruct c1 as [[t u1] a1], c2 as [[t' u2] a2].
  destruct Hc1 as (_ & _ & Hh & _ & _ & _ & k & Hk), Hc2 as (_ & _ & Hh' & _ & _ & _ & k' & Hk').
  assert (k' = k) as -> by (eapply (ok_hash _ (ok_rows _ Hok)); [done..|]; congruence).
  assert (t' = t) as -> by congruence. pose proof (ok_key _ (ok_rows _ Hok) k t Hk) as Hid.
  set (p := fun x => bool_decide (tk_ID x = tk_ID t)).
  set (n1 := rotated_row now1 d1 req1 t u1). set (n2 := rotated_row now2 d2 req2 t u2).
  set (t1 := <[dr_id d1 := n1]> (revoke_where p (ad_tokens db))).
  assert (t1 !! dr_id d1 = Some n1) as L1 by by apply lookup_insert_eq.
  assert (t1 !! tk_ID t = Some (set_revoked t)) as Lt.
  { unfold t1. rewrite lookup_insert_ne by congruence. apply revoke_where_lookup.
    exists t. rewrite Hid. split; [done|]. unfold p. by rewrite bool_decide_eq_true_2. }
  assert (revoke_where p t1 !! dr_id d2 = None) as Ln2.
  { apply revoke_where_none. unfold t1. rewrite lookup_insert_ne by done. by apply revoke_where_none. }
  set (t2 := <[dr_id d2 := n2]> (revoke_where p t1)).
  assert (t2 !! dr_id d1 = Some n1) as M1.
  { unfold t2. rewrite lookup_insert_ne by done. apply revoke_where_lookup. exists n1.
    split; [done|]. unfold p, n1. cbn [rotated_row tk_ID]. rewrite bool_decide_eq_false_2; [done|]. congruence. }
  assert (t2 !! dr_id d2 = Some n2) as M2 by by apply lookup_insert_eq.
  assert (live_in_family (tk_FamilyID t) n1 = true /\ live_in_family (tk_FamilyID t) n2 = true) as [V1 V2].
  { unfold live_in_family, in_family. cbn. by rewrite bool_decide_eq_true_2. }
  exists (set_tokens db t1), (mkTokenResponse a1 (dr_token d1) 900), (set_tokens db t2), (mkTokenResponse a2 (dr_token d2) 900).
  unfold refresh_commit, Rotate, on_pool, insert_token. rewrite Ho. cbn [set_tokens ad_tokens rotated_row tk_ID].
  fold p n1 n2. cbn [fst] in Htn. change (tk_TenantID n1) with (tk_TenantID t). change (tk_TenantID n2) with (tk_TenantID t).
  rewrite Htn. cbn [negb]. split_and!.
  - assert (revoke_where p (ad_tokens db) !! dr_id d1 = None) as -> by by apply revoke_where_none.
    rewrite Hid, Hk. done.
  - rewrite Ln2, Lt. done.
  - naive_solver.
  - intros [_ Hf]. specialize (Hf (tk_FamilyID t)). rewrite map_count_le_one in Hf. eauto.
Qed.

Lemma set_revoked_id t : tk_Revoked t = true -> set_revoked t = t.
Proof. destruct t. cbn. intros ->. done. Qed.

(** Logging out with a stored token revokes that token, or with [RevokeAll]
    exactly the tokens of its family, and nothing else: the sessions the same user
    opened with other logins stay live. *)
Theorem logout_scope `{AuthEnv} env req db k t :
  tokens_ok (ad_tokens db) -> db_outage env = None ->
  ad_tokens db !! k = Some t -> tk_TokenHash t = HashToken (lo_RefreshToken req) ->
  exists db', Logout env req db = (db', Ok tt) /\ ad_users db' = ad_users db /\
    forall i, ad_tokens db' !! i =
      (fun x => if (if lo_RevokeAll req then bool_decide (tk_FamilyID x = tk_FamilyID t) else bool_decide (i = k))
                then set_revoked x else x) <$> ad_tokens db !! i.
Proof.
  intros Hok Ho Hk Hh. unfold Logout. rewrite <- Hh, (find_by_hash_found env db k t) by done.
  unfold RevokeFamily, Revoke, on_pool. rewrite Ho.
  destruct (lo_RevokeAll req); eexists; (split; [done|]); (split; [done|]);
    intros i; cbn [set_tokens ad_tokens]; unfold revoke_where; rewrite lookup_fmap;
    (destruct (ad_tokens db !! i) as [x|] eqn:Hi; [|done]); cbn; f_equal.
  - unfold live_in_family, in_family. destruct (bool_decide _); [|done].
    destruct (tk_Revoked x) eqn:Hr; [|done]. by rewrite set_revoked_id.
  - rewrite (ok_key _ (ok_rows _ Hok) i x Hi), (ok_key _ (ok_rows _ Hok) k t Hk). done.
Qed.

(** After an administrator revoked a user's sessions none is listed. *)
Lemma revoke_all_lists_nothing `{AuthEnv} env now tenantID userID db :
  db_outage env = None ->
  ListSessions env now tenantID userID (fst (RevokeAllSessions env tenantID userID db)) =
    (fst (RevokeAllSessions env tenantID userID db), Ok []).
Proof.
  intros Ho. unfold ListSessions, RevokeAllSessions, WithTenant. rewrite Ho. cbn [fst set_tokens ad_tokens].
  unfold active_tokens. match goal with |- context [List.filter ?p ?l] => assert (List.filter p l = []) as -> end; [|done].
  match goal with |- ?l = [] => destruct l as [|x l'] eqn:Hl end; [done|exfalso].
  assert (In x (x :: l')) as Hin by by left. rewrite <- Hl in Hin. apply filter_In in Hin as [Hin Hp].
  apply in_map_iff in Hin as ([k v] & Hv & Hin). cbn in Hv. subst v.
  apply list_elem_of_In, elem_of_map_to_list, revoke_where_lookup in Hin as (y & _ & ->).
  reflect_bools. revert H0 H1 H2. cbn beta.
  destruct (bool_decide _ && _ && _) eqn:Hc; [cbn; done|]. intros. rewrite !bool_decide_eq_true_2, H2 in Hc by done. done.
Qed.

(** Under row-level security nobody logs in and nobody registers: the user
    statements run on a pool connection whose tenant is unset. *)
Lemma auth_blind_under_rls `{AuthEnv} env now d req rreq db :
  db_bypass_rls env = false ->
  Login env now d req db = (db, Err (ErrInvalidCredentials : error)) /\
  fst (Register env now d rreq db) = db /\ is_ok (snd (Register env now d rreq db)) = false.
Proof.
  intros Hb. assert (Hl : forall t p, exists e, user_Lookup env t p db = (db, Err e)).
  { intros t p. unfold user_Lookup, WithTenant. destruct (db_outage env); [eauto|].
    match goal with |- context [List.filter ?q ?l] => assert (List.filter q l = []) as -> end; [|eauto].
    induction (map snd _) as [|u l IH]; [done|]. cbn. by rewrite rls_visible_pool, Hb. }
  unfold Login, Register, user_GetByEmail. split.
  - by destruct (Hl (lr_TenantID req) (fun u => bool_decide (citext_lower (usr_Email u) = citext_lower (lr_Email req)))) as [e ->].
  - destruct (Hl (rg_TenantID rreq) (fun u => bool_decide (citext_lower (usr_Email u) = citext_lower (rg_Email rreq)))) as [e ->].
    destruct (HashPassword _); [|done]. unfold user_Create, WithTenant.
    destruct (db_outage env); [done|]. by rewrite rls_visible_pool, Hb.
Qed.

(** * Concrete sessions *)

Definition ex_auth : AuthEnv := {|
  HashPassword p := Ok ("hash:" +:+ p);
  VerifyPassword p h := if bool_decide (h = "hash:" +:+ p) then None else Some (EOther "invalid password");
  IssueAccessToken _ c := Ok ("jwt:" +:+ claim_UserID c);
  ParseAddr s := Some s;
  citext_lower s := s;
|}.

Definition ex_login_user : User := mkUser (uuid_n 3) (uuid_n 1) "ana@example.com" "hash:secret" "active" 0 0.
Definition ex_session (n : N) (family : N) (token : string) : token_row :=
  mkToken (uuid_n n) (uuid_n 3) (uuid_n 1) (HashToken token) (uuid_n family) false 1000000 None None 0 None None.
Definition ex_sessions : TokenTable :=
  <[uuid_n 11 := ex_session 11 51 "first"]> (<[uuid_n 12 := ex_session 12 52 "other"]> ∅).
Definition ex_auth_db : AuthDb := mkAuthDb {[(uuid_n 3, uuid_n 1) := ex_login_user]} ex_sessions.
Definition ex_auth_env : DbEnv := mkDbEnv true ESqlNoRows None (fun _ => true).
Definition ex_draw (token : string) (n : N) : Draw := mkDraw token (uuid_n (n + 100)) (uuid_n n).
Definition ex_refresh : RefreshRequest := mkRefreshRequest "first" "agent" "10.0.0.1".

Example ex_login_ok :
  snd (@Login ex_auth ex_auth_env 500 (ex_draw "third" 13)
        (mkLoginRequest "ana@example.com" "secret" (uuid_n 1) "" "") ex_auth_db) =
  Ok (mkTokenResponse ("jwt:" +:+ uuid_String (uuid_n 3)) "third" 900).
Proof. vm_compute. reflexivity. Qed.

Lemma ex_sessions_cases k t :
  ex_sessions !! k = Some t ->
  k = uuid_n 11 /\ t = ex_session 11 51 "first" \/ k = uuid_n 12 /\ t = ex_session 12 52 "other".
Proof. unfold ex_sessions. rewrite !lookup_insert_Some. rewrite lookup_empty. naive_solver. Qed.

(** Disequalities of closed hashes and identifiers, by evaluation. *)
Lemma hash_differ a b : bool_decide (HashToken a = HashToken b) = false -> HashToken a <> HashToken b.
Proof. apply bool_decide_eq_false_1. Qed.
Lemma uuid_differ a b : bool_decide (uuid_n a = uuid_n b) = false -> uuid_n a <> uuid_n b.
Proof. apply bool_decide_eq_false_1. Qed.

Ltac differ := first [apply hash_differ | apply uuid_differ]; vm_compute; reflexivity.

Lemma ex_sessions_ok : tokens_ok ex_sessions.
Proof.
  assert (HashToken "first" <> HashToken "other") as Hh by differ.
  assert (HashToken "other" <> HashToken "first") as Hh' by differ.
  assert (uuid_n 51 <> uuid_n 52) as Hf by differ.
  split; [split|].
  - intros k t [[-> ->]|[-> ->]]%ex_sessions_cases; reflexivity.
  - intros k1 k2 t1 t2 [[-> ->]|[-> ->]]%ex_sessions_cases [[-> ->]|[-> ->]]%ex_sessions_cases;
      cbn [ex_session tk_TokenHash]; intros E; [reflexivity|case (Hh E)|case (Hh' E)|reflexivity].
  - intros f. apply map_count_le_one.
    intros k1 k2 t1 t2 [[-> ->]|[-> ->]]%ex_sessions_cases [[-> ->]|[-> ->]]%ex_sessions_cases;
      [reflexivity| | |reflexivity]; unfold live_in_family, in_family;
      intros [E1 _]%andb_true_iff [E2 _]%andb_true_iff;
      apply bool_decide_eq_true in E1; apply bool_decide_eq_true in E2;
      cbn [ex_session tk_FamilyID] in E1, E2; case Hf.
    + exact (eq_trans E1 (eq_sym E2)).
    + exact (eq_trans E2 (eq_sym E1)).
Qed.

Lemma ex_draw_fresh token n :
  HashToken "first" <> HashToken token -> HashToken "other" <> HashToken token ->
  uuid_n 51 <> uuid_n (n + 100) -> uuid_n 52 <> uuid_n (n + 100) ->
  fresh_draw (ex_draw token n) ex_sessions.
Proof.
  intros H1 H2 H3 H4 k t [[-> ->]|[-> ->]]%ex_sessions_cases;
    cbn [ex_draw ex_session tk_TokenHash tk_FamilyID dr_token dr_family]; [exact (conj H1 H3)|exact (conj H2 H4)].
Qed.

Lemma ex_third_fresh : fresh_draw (ex_draw "third" 13) ex_sessions.
Proof. apply ex_draw_fresh; differ. Qed.

Lemma ex_refresh_ok :
  snd (@Refresh ex_auth ex_auth_env 500 (ex_draw "third" 13) ex_refresh ex_auth_db) =
  Ok (mkTokenResponse ("jwt:" +:+ uuid_String (uuid_n 3)) "third" 900).
Proof. vm_compute. reflexivity. Qed.

Definition ex_refreshed : AuthDb :=
  fst (@Refresh ex_auth ex_auth_env 500 (ex_draw "third" 13) ex_refresh ex_auth_db).

Lemma ex_refresh_eq :
  @Refresh ex_auth ex_auth_env 500 (ex_draw "third" 13) ex_refresh ex_auth_db =
  (ex_refreshed, Ok (mkTokenResponse ("jwt:" +:+ uuid_String (uuid_n 3)) "third" 900)).
Proof. rewrite <- ex_refresh_ok. apply surjective_pairing. Qed.

Definition ex_checked : token_row * User * string :=
  (ex_session 11 51 "first", ex_login_user, "jwt:" +:+ uuid_String (uuid_n 3)).

Lemma ex_check_eq now :
  now = 500 \/ now = 600 ->
  @refresh_check ex_auth ex_auth_env now ex_refresh ex_auth_db = (ex_auth_db, Ok ex_checked).
Proof. intros [-> | ->]; vm_compute; reflexivity. Qed.

(** The second half at the interleaving that leaves two live tokens in a family. *)
Lemma sessions_invariant_witness :
  (forall f, (map_count (live_in_family f) (ad_tokens ex_refreshed) <= 1)%nat) /\
  let row2 := @rotated_row ex_auth 600 (ex_draw "fourth" 14) ex_refresh (ex_session 11 51 "first") ex_login_user in
  let forked := fst (Rotate ex_auth_env (uuid_n 11) row2 ex_refreshed) in
  map_count (live_in_family (uuid_n 51)) (ad_tokens forked) = 2%nat /\
  forall k t, ad_tokens ex_refreshed !! k = Some t -> exists t', ad_tokens forked !! k = Some t' /\ row_later t t'.
Proof.
  assert (@session_step ex_auth ex_auth_db ex_refreshed) as Hs.
  { apply (@step_refresh ex_auth ex_auth_db). exact ex_third_fresh. }
  destruct (proj1 (@sessions_invariant ex_auth ex_auth_db ex_refreshed) ex_sessions_ok (rtc_once _ _ Hs)) as (H1 & H2 & H3 & _).
  split; [exact H3|]. cbn zeta. split; [vm_compute; reflexivity|].
  set (row2 := rotated_row _ _ _ _ _).
  assert (fresh_hash row2 (ad_tokens ex_refreshed)) as Hf.
  { assert (forallb (fun kt => bool_decide (tk_TokenHash (snd kt) <> tk_TokenHash row2)) (map_to_list (ad_tokens ex_refreshed)) = true) as Hb
      by (vm_compute; reflexivity).
    rewrite forallb_forall in Hb. intros k t Ht. apply elem_of_map_to_list, list_elem_of_In, Hb in Ht.
    by apply bool_decide_eq_true in Ht. }
  refine (proj2 (proj2 (proj2 (@sessions_invariant ex_auth ex_refreshed _) (mkRowsOk _ H1 H2) _))).
  apply rtc_once. exact (@stmt_rotate ex_auth ex_refreshed ex_auth_env (uuid_n 11) row2 Hf).
Defined.

Lemma refresh_rotates_witness :
  exists k t, ex_sessions !! k = Some t /\ tk_TokenHash t = HashToken "first" /\
    ad_tokens ex_refreshed !! k = Some (set_revoked t).
Proof.
  destruct (@refresh_rotates ex_auth ex_auth_env 500 (ex_draw "third" 13) ex_refresh ex_auth_db ex_refreshed _
              ex_sessions_ok ex_refresh_eq) as (k & t & u & H1 & H2 & _ & _ & _ & _ & H3 & _).
  exists k, t. exact (conj H1 (conj H2 H3)).
Defined.

Lemma refresh_replay_detected_witness :
  snd (@Refresh ex_auth ex_auth_env 700 (ex_draw "fourth" 14) ex_refresh ex_refreshed) = Err (ErrReplayDetected : error).
Proof.
  destruct (@refresh_replay_detected ex_auth ex_auth_env 500 (ex_draw "third" 13) ex_refresh ex_auth_db ex_refreshed _
              ex_refreshed ex_auth_env 700 (ex_draw "fourth" 14) ex_refresh ex_sessions_ok
              ex_third_fresh ex_refresh_eq (rtc_refl _ _) eq_refl eq_refl) as (t & db3 & H & _).
  exact (f_equal snd H).
Defined.

Lemma concurrent_refresh_forks_witness :
  exists db2, ~ tokens_ok (ad_tokens db2) /\
    exists f n1 n2, ad_tokens db2 !! uuid_n 13 = Some n1 /\ live_in_family f n1 = true /\
      ad_tokens db2 !! uuid_n 14 = Some n2 /\ live_in_family f n2 = true.
Proof.
  assert (ex_sessions !! uuid_n 13 = None) as H13 by (vm_compute; reflexivity).
  assert (ex_sessions !! uuid_n 14 = None) as H14 by (vm_compute; reflexivity).
  assert (uuid_n 13 <> uuid_n 14) as Hne by (apply (bool_decide_eq_false_1 _); vm_compute; reflexivity).
  destruct (@concurrent_refresh_forks ex_auth ex_auth_env 500 600 (ex_draw "third" 13) (ex_draw "fourth" 14)
              ex_refresh ex_refresh ex_auth_db ex_checked ex_checked ex_sessions_ok eq_refl eq_refl eq_refl
              (ex_check_eq 500 (or_introl eq_refl)) (ex_check_eq 600 (or_intror eq_refl)) H13 H14 Hne)
    as (db1 & r1 & db2 & r2 & _ & _ & Hl & Hno).
  exists db2. exact (conj Hno Hl).
Defined.

Lemma logout_scope_witness :
  exists db', @Logout ex_auth_env (mkLogoutRequest "first" true) ex_auth_db = (db', Ok tt) /\
    ad_tokens db' !! uuid_n 12 = Some (ex_session 12 52 "other").
Proof.
  assert (ex_sessions !! uuid_n 11 = Some (ex_session 11 51 "first")) as Hk by (vm_compute; reflexivity).
  assert (tk_TokenHash (ex_session 11 51 "first") = HashToken (lo_RefreshToken (mkLogoutRequest "first" true))) as Hh
    by (cbn [ex_session tk_TokenHash lo_RefreshToken]; reflexivity).
  destruct (@logout_scope ex_auth ex_auth_env (mkLogoutRequest "first" true) ex_auth_db (uuid_n 11)
              (ex_session 11 51 "first") ex_sessions_ok eq_refl Hk Hh) as (db' & H & _ & Hr).
  exists db'. split; [exact H|]. rewrite Hr.
  assert (ad_tokens ex_auth_db !! uuid_n 12 = Some (ex_session 12 52 "other")) as -> by (vm_compute; reflexivity).
  cbn [lo_RevokeAll fmap option_fmap option_map].
  assert (bool_decide (uuid_n 52 = uuid_n 51) = false) as Hb by (vm_compute; reflexivity).
  change (tk_FamilyID (ex_session 12 52 "other")) with (uuid_n 52).
  change (tk_FamilyID (ex_session 11 51 "first")) with (uuid_n 51). rewrite Hb. reflexivity.
Defined.
