(* ===== verification/TenantAdmin.v ===== *)
(** Administration of tenants, roles and users: [internal/usecase/{tenant,role,user}],
    their repositories with [queries/{tenant,role}.sql], the handlers
    [internal/api/handlers/admin_{tenants,roles,users}.go] and
    [internal/domain/{role,permission}.go]. Listings are ordered as in the C collation. *)

From stdpp Require Import base gmap sets strings list sorting numbers.
From S2P Require Import GoPrelude Errors Bytes Uuid Tenancy Http Quota Auth Sessions.
Open Scope Z_scope.

(** ** Data *)

Record Role := mkRole { rl_ID : UUID; rl_Name : string; rl_Description : string; rl_CreatedAt : Z }.

Record Permission := mkPermission { pm_Resource : string; pm_Action : string; pm_Description : string }.

Definition permission_String (p : Permission) : string := pm_Resource p +:+ ":" +:+ pm_Action p.
Definition ParsePermission (s : string) : Permission := mkPermission s "" "".

(** [tenants] and [roles] are global tables; [role_permissions], a set of (role,
    tenant, permission), has row-level security. *)
Record AdminDb := mkAdminDb {
  am_tenants : TenantTable;
  am_roles : gmap UUID Role;
  am_perms : gset (UUID * UUID * string);
}.

Definition set_tenants (db : AdminDb) (t : TenantTable) : AdminDb := mkAdminDb t (am_roles db) (am_perms db).
Definition set_perms (db : AdminDb) (p : gset (UUID * UUID * string)) : AdminDb := mkAdminDb (am_tenants db) (am_roles db) p.

Definition fk_violation : error := EOther "violates foreign key constraint".

(** The answer of an admin handler: an error's status and text, or a value. *)
Inductive Reply (A : Type) := Refused (e : error) | Replied (status : Z) (a : A).
Arguments Refused {_} e.
Arguments Replied {_} status a.

Definition reply_status {A} (r : Reply A) : Z :=
  match r with Refused e => admin_status e | Replied status _ => status end.

Definition reply_of {A B} (status : Z) (f : A -> B) (r : result error A) : Reply B :=
  match r with Ok a => Replied status (f a) | Err e => Refused e end.

Section Admin.
Variable env : DbEnv.

(** ** Tenants *)

Definition tenant_status_check (s : string) : bool := bool_decide (s ∈ ["active"; "suspended"]).

Definition tenant_find_name (name : string) (t : TenantTable) : option Tenant :=
  snd <$> List.find (fun p => bool_decide (tn_Name (snd p) = name)) (map_to_list t).

Definition tenant_Create (now : Z) (id : UUID) (name : string) : AdminDb -> AdminDb * result error Tenant :=
  on_pool env (fun db =>
    match am_tenants db !! id, tenant_find_name name (am_tenants db) with
    | None, None => let t := mkTenant id name "active" (pg_time now) in (set_tenants db (<[id := t]> (am_tenants db)), Ok t)
    | _, _ => (db, Err unique_error)
    end).

Definition found {A} (o : option A) : result error A := match o with Some a => Ok a | None => Err (no_rows env) end.

Definition tenant_GetByID (id : UUID) : AdminDb -> AdminDb * result error Tenant :=
  on_pool env (fun db => (db, found (am_tenants db !! id))).

Definition tenant_GetByName (name : string) : AdminDb -> AdminDb * result error Tenant :=
  on_pool env (fun db => (db, found (tenant_find_name name (am_tenants db)))).

Definition tenant_UpdateStatus (id : UUID) (status : string) : AdminDb -> AdminDb * result error unit :=
  on_pool env (fun db =>
    match am_tenants db !! id with
    | None => (db, Err (db_no_rows env))
    | Some t =>
        if negb (tenant_status_check status) then (db, Err check_error)
        else (set_tenants db (<[id := mkTenant (tn_ID t) (tn_Name t) status (tn_CreatedAt t)]> (am_tenants db)), Ok tt)
    end).

Definition tenant_newer (a b : Tenant) : Prop := tn_CreatedAt b <= tn_CreatedAt a.
#[global] Instance tenant_newer_dec a b : Decision (tenant_newer a b).
Proof. unfold tenant_newer. apply _. Defined.

Definition negative_limit : error := EOther "LIMIT or OFFSET must not be negative".

Definition ListTenants (limit offset : Z) : AdminDb -> AdminDb * result error (list Tenant) :=
  on_pool env (fun db =>
    let limit := int32_wrap limit in let offset := int32_wrap offset in
    if (limit <? 0) || (offset <? 0) then (db, Err negative_limit)
    else (db, Ok (take (Z.to_nat limit) (drop (Z.to_nat offset) (merge_sort tenant_newer (map_to_list (am_tenants db)).*2))))).

Definition tenant_uc_Create (now : Z) (id : UUID) (name : string) (db : AdminDb) : AdminDb * result error Tenant :=
  match tenant_GetByName name db with
  | (db, Ok _) => (db, Err (ErrConflict : error))
  | (db, Err _) => tenant_Create now id name db
  end.

Definition tenant_uc_Get (id : UUID) : AdminDb -> AdminDb * result error Tenant := tenant_GetByID id.

Definition tenant_uc_List (limit offset : Z) : AdminDb -> AdminDb * result error (list Tenant) :=
  let limit := if limit <=? 0 then 50 else limit in
  let limit := if 100 <? limit then 100 else limit in
  let offset := if offset <? 0 then 0 else offset in
  ListTenants limit offset.

Definition tenant_uc_UpdateStatus (id : UUID) (status : string) (db : AdminDb) : AdminDb * result error Tenant :=
  match tenant_GetByID id db with
  | (db, Err e) => (db, Err e)
  | (db, Ok t) =>
      match tenant_UpdateStatus id status db with
      | (db, Err e) => (db, Err e)
      | (db, Ok _) => (db, Ok (mkTenant (tn_ID t) (tn_Name t) status (tn_CreatedAt t)))
      end
  end.

Definition tenant_uc_Delete (id : UUID) (db : AdminDb) : AdminDb * result error unit :=
  match tenant_GetByID id db with
  | (db, Err e) => (db, Err e)
  | (db, Ok _) => (db, Err (ErrNotImplemented : error))
  end.

(** The handlers; a body is [None] when it does not decode. *)

Definition refuse {A} (e : DomainError) (db : AdminDb) : AdminDb * Reply A := (db, Refused e).

Definition admin_CreateTenant (now : Z) (id : UUID) (body : option string) (db : AdminDb) : AdminDb * Reply Tenant :=
  match body with
  | None => refuse ErrValidation db
  | Some name =>
      if bool_decide (name = "") then refuse ErrValidation db
      else let '(db, r) := tenant_uc_Create now id name db in (db, reply_of StatusCreated (fun t => t) r)
  end.

Definition admin_ListTenants (db : AdminDb) : AdminDb * Reply (list Tenant) :=
  let '(db, r) := tenant_uc_List 50 0 db in (db, reply_of StatusOK (fun l => l) r).

(** Most handlers begin with the id of the route. *)
Definition with_id {S A} (params : list (string * string)) (f : UUID -> S -> S * Reply A) (s : S) : S * Reply A :=
  match ParseUUID (URLParam params "id") with
  | Err _ => (s, Refused ErrValidation)
  | Ok id => f id s
  end.

Definition admin_GetTenant (params : list (string * string)) : AdminDb -> AdminDb * Reply Tenant :=
  with_id params (fun id db => let '(db, r) := tenant_uc_Get id db in (db, reply_of StatusOK (fun t => t) r)).

Definition admin_UpdateTenant (params : list (string * string)) (body : option string) : AdminDb -> AdminDb * Reply Tenant :=
  with_id params (fun id db =>
    match body with
    | None => refuse ErrValidation db
    | Some status =>
        if negb (bool_decide (status = "active")) && negb (bool_decide (status = "suspended")) then refuse ErrValidation db
        else let '(db, r) := tenant_uc_UpdateStatus id status db in (db, reply_of StatusOK (fun t => t) r)
    end).

Definition admin_DeleteTenant (params : list (string * string)) : AdminDb -> AdminDb * Reply unit :=
  with_id params (fun id db => let '(db, r) := tenant_uc_Delete id db in (db, reply_of StatusNoContent (fun t => t) r)).

(** ** Roles *)

Definition role_Create (now : Z) (id : UUID) (name description : string) : AdminDb -> AdminDb * result error Role :=
  on_pool env (fun db =>
    match am_roles db !! id, List.find (fun p => bool_decide (rl_Name (snd p) = name)) (map_to_list (am_roles db)) with
    | None, None =>
        let r := mkRole id name description (pg_time now) in
        (mkAdminDb (am_tenants db) (<[id := r]> (am_roles db)) (am_perms db), Ok r)
    | _, _ => (db, Err unique_error)
    end).

Definition role_GetByID (id : UUID) : AdminDb -> AdminDb * result error Role :=
  on_pool env (fun db => (db, found (am_roles db !! id))).

Definition role_le (a b : Role) : Prop := String.le (rl_Name a) (rl_Name b).
#[global] Instance role_le_dec a b : Decision (role_le a b).
Proof. unfold role_le. apply _. Defined.

(** The permissions of a role in a tenant that a connection sees. *)
Definition visible_perms (c : Conn) (tenantID roleID : UUID) (db : AdminDb) : list string :=
  (List.filter (fun '(r, t, _) => bool_decide (r = roleID) && bool_decide (t = tenantID) && rls_visible env c t)
    (elements (am_perms db))).*2.

Definition role_ListByTenant (tenantID : UUID) : AdminDb -> AdminDb * result error (list Role) :=
  WithTenant env tenantID (fun c db =>
    (db, Ok (merge_sort role_le
      (List.filter (fun r => negb (bool_decide (visible_perms c tenantID (rl_ID r) db = []))) (map_to_list (am_roles db)).*2)))).

(** One statement: all the rows go in, those already there apart, or none. *)
Definition role_AssignPermissions (tenantID roleID : UUID) (permissions : list string) : AdminDb -> AdminDb * result error unit :=
  WithTenant env tenantID (fun c db =>
    if bool_decide (permissions = []) then (db, Ok tt)
    else if negb (rls_visible env c tenantID) then (db, Err rls_check_error)
    else match am_roles db !! roleID, am_tenants db !! tenantID with
    | Some _, Some _ => (set_perms db (am_perms db ∪ list_to_set (map (fun p => (roleID, tenantID, p)) permissions)), Ok tt)
    | _, _ => (db, Err fk_violation)
    end).

Definition role_GetPermissions (tenantID roleID : UUID) : AdminDb -> AdminDb * result error (list string) :=
  WithTenant env tenantID (fun c db => (db, Ok (merge_sort String.le (visible_perms c tenantID roleID db)))).

(** The permissions go with the role, in every tenant. *)
Definition role_Delete (id : UUID) : AdminDb -> AdminDb * result error unit :=
  on_pool env (fun db =>
    (mkAdminDb (am_tenants db) (delete id (am_roles db)) (filter (fun p => p.1.1 <> id) (am_perms db)), Ok tt)).

Definition role_RevokePermissions (tenantID roleID : UUID) : AdminDb -> AdminDb * result error unit :=
  WithTenant env tenantID (fun c db =>
    if rls_visible env c tenantID
    then (set_perms db (filter (fun p => ~ (p.1.1 = roleID /\ p.1.2 = tenantID)) (am_perms db)), Ok tt)
    else (db, Ok tt)).

(** The use case. [Create] builds a role whose id and time the repository overwrites
    with the row's; all operations but [AssignPermissions] are the repository's. *)
Definition role_uc_Create (now : Z) (id : UUID) (name description : string) : AdminDb -> AdminDb * result error Role := role_Create now id name description.
Definition role_uc_GetByID (id : UUID) : AdminDb -> AdminDb * result error Role := role_GetByID id.
Definition role_uc_ListByTenant (tenantID : UUID) : AdminDb -> AdminDb * result error (list Role) := role_ListByTenant tenantID.
Definition role_uc_GetPermissions (tenantID roleID : UUID) : AdminDb -> AdminDb * result error (list string) := role_GetPermissions tenantID roleID.
Definition role_uc_RevokePermissions (tenantID roleID : UUID) : AdminDb -> AdminDb * result error unit := role_RevokePermissions tenantID roleID.
Definition role_uc_Delete (id : UUID) : AdminDb -> AdminDb * result error unit := role_Delete id.

Definition role_uc_AssignPermissions (tenantID roleID : UUID) (permissions : list string) (db : AdminDb) : AdminDb * result error unit :=
  match role_GetByID roleID db with
  | (db, Err e) => (db, Err e)
  | (db, Ok _) => role_AssignPermissions tenantID roleID permissions db
  end.

Definition admin_ListRoles (tenantID : option UUID) (db : AdminDb) : AdminDb * Reply (list Role) :=
  match tenantID with
  | None => refuse ErrUnauthorized db
  | Some t => let '(db, r) := role_uc_ListByTenant t db in (db, reply_of StatusOK (fun l => l) r)
  end.

Definition admin_CreateRole (now : Z) (id : UUID) (body : option (string * string)) (db : AdminDb) : AdminDb * Reply Role :=
  match body with
  | None => refuse ErrValidation db
  | Some (name, description) =>
      if bool_decide (name = "") then refuse ErrValidation db
      else let '(db, r) := role_uc_Create now id name description db in (db, reply_of StatusCreated (fun x => x) r)
  end.

Definition admin_GetRole (params : list (string * string)) : AdminDb -> AdminDb * Reply Role :=
  with_id params (fun id db => let '(db, r) := role_uc_GetByID id db in (db, reply_of StatusOK (fun x => x) r)).

(** The changed role is not stored. *)
Definition admin_UpdateRole (params : list (string * string)) (body : option (string * string)) : AdminDb -> AdminDb * Reply unit :=
  with_id params (fun id db =>
    match body with
    | None => refuse ErrValidation db
    | Some _ =>
        match role_uc_GetByID id db with
        | (db, Err e) => (db, Refused e)
        | (db, Ok _) => refuse ErrNotImplemented db
        end
    end).

Definition admin_DeleteRole (params : list (string * string)) : AdminDb -> AdminDb * Reply unit :=
  with_id params (fun id db => let '(db, r) := role_uc_Delete id db in (db, reply_of StatusNoContent (fun x => x) r)).

(** The tenant is the one of the body. *)
Definition admin_AssignPermissions (params : list (string * string)) (body : option (string * list string)) : AdminDb -> AdminDb * Reply unit :=
  with_id params (fun id db =>
    match body with
    | None => refuse ErrValidation db
    | Some (tenant, permissions) =>
        if bool_decide (tenant = "") || bool_decide (permissions = []) then refuse ErrValidation db
        else match ParseUUID tenant with
        | Err _ => refuse ErrValidation db
        | Ok tenantID => let '(db, r) := role_uc_AssignPermissions tenantID id permissions db in (db, reply_of StatusNoContent (fun x => x) r)
        end
    end).

(** The tenant is a parameter of the route. *)
Definition with_tenant_param {A} (params : list (string * string)) (f : UUID -> AdminDb -> AdminDb * Reply A) (db : AdminDb) : AdminDb * Reply A :=
  let tenantIDStr := URLParam params "tenant_id" in
  if bool_decide (tenantIDStr = "") then refuse ErrValidation db
  else match ParseUUID tenantIDStr with
  | Err _ => refuse ErrValidation db
  | Ok tenantID => f tenantID db
  end.

Definition admin_GetPermissions (params : list (string * string)) : AdminDb -> AdminDb * Reply (list string) :=
  with_id params (fun id => with_tenant_param params (fun t db =>
    let '(db, r) := role_uc_GetPermissions t id db in (db, reply_of StatusOK (fun x => x) r))).

Definition admin_RevokePermissions (params : list (string * string)) : AdminDb -> AdminDb * Reply unit :=
  with_id params (fun id => with_tenant_param params (fun t db =>
    let '(db, r) := role_uc_RevokePermissions t id db in (db, reply_of StatusNoContent (fun x => x) r))).

(** ** Users *)

Context `{AuthEnv}.

(** [Create] of the use case: the password is dropped. *)
Definition user_uc_Create (now : Z) (id tenantID : UUID) (email : string) (db : AuthDb) : AuthDb * result error User :=
  match user_GetByEmail env tenantID email db with
  | (db, Ok _) => (db, Err (ErrConflict : error))
  | (db, Err _) => user_Create env now id tenantID email "" db
  end.

Definition user_uc_GetByEmail (tenantID : UUID) (email : string) : AuthDb -> AuthDb * result error User := user_GetByEmail env tenantID email.
Definition user_uc_GetByID (tenantID id : UUID) : AuthDb -> AuthDb * result error User := user_GetByID env tenantID id.
Definition user_uc_ListSessions (now : Z) (tenantID userID : UUID) : AuthDb -> AuthDb * result error (list Session) := ListSessions env now tenantID userID.
Definition user_uc_RevokeAllSessions (tenantID userID : UUID) : AuthDb -> AuthDb * result error unit := RevokeAllSessions env tenantID userID.

Definition with_user (u : User) (email status : string) : User :=
  mkUser (usr_ID u) (usr_TenantID u) (if bool_decide (email = "") then usr_Email u else email) (usr_PasswordHash u)
    (if bool_decide (status = "") then usr_Status u else status) (usr_CreatedAt u) (usr_UpdatedAt u).

Definition touched (now : Z) (u : User) : User :=
  mkUser (usr_ID u) (usr_TenantID u) (usr_Email u) (usr_PasswordHash u) (usr_Status u) (usr_CreatedAt u) now.

Definition user_uc_Update (now : Z) (tenantID : UUID) (u : User) (db : AuthDb) : AuthDb * result error User :=
  match user_Update env now tenantID (touched now u) db with
  | (db, Err e) => (db, Err e)
  | (db, Ok _) => (db, Ok (touched (pg_time now) u))
  end.

(** The deleted status is not stored. *)
Definition user_uc_Delete (tenantID id : UUID) (db : AuthDb) : AuthDb * result error unit :=
  match user_GetByID env tenantID id db with
  | (db, Err e) => (db, Err e)
  | (db, Ok _) => (db, Err (ErrNotImplemented : error))
  end.

(** The tenant of the context, then the id of the route. *)
Definition in_tenant {S A} (tenantID : option UUID) (f : UUID -> S -> S * Reply A) (s : S) : S * Reply A :=
  match tenantID with None => (s, Refused ErrUnauthorized) | Some t => f t s end.

Definition admin_ListUsers (tenantID : option UUID) : AuthDb -> AuthDb * Reply (list User) :=
  in_tenant tenantID (fun _ db => (db, Refused ErrNotImplemented)).

Definition admin_CreateUser (tenantID : option UUID) (body : option (string * string)) : AuthDb -> AuthDb * Reply User :=
  in_tenant tenantID (fun _ db =>
    match body with
    | None => (db, Refused ErrValidation)
    | Some (email, password) =>
        if bool_decide (email = "") || bool_decide (password = "") then (db, Refused ErrValidation)
        else (db, Refused ErrNotImplemented)
    end).

Definition admin_GetUser (tenantID : option UUID) (params : list (string * string)) : AuthDb -> AuthDb * Reply User :=
  in_tenant tenantID (fun t => with_id params (fun id db =>
    let '(db, r) := user_uc_GetByID t id db in (db, reply_of StatusOK (fun u => u) r))).

Definition admin_UpdateUser (now : Z) (tenantID : option UUID) (params : list (string * string)) (body : option (string * string))
    : AuthDb -> AuthDb * Reply User :=
  in_tenant tenantID (fun t => with_id params (fun id db =>
    match body with
    | None => (db, Refused ErrValidation)
    | Some (email, status) =>
        match user_uc_GetByID t id db with
        | (db, Err e) => (db, Refused e)
        | (db, Ok u) =>
            let '(db, r) := user_uc_Update now t (with_user u email status) db in (db, reply_of StatusOK (fun u => u) r)
        end
    end)).

Definition admin_DeleteUser (tenantID : option UUID) (params : list (string * string)) : AuthDb -> AuthDb * Reply unit :=
  in_tenant tenantID (fun t => with_id params (fun id db =>
    let '(db, r) := user_uc_Delete t id db in (db, reply_of StatusNoContent (fun u => u) r))).
End Admin.

(** * The tables stay well typed *)

(** One request to the tenant or role handlers. *)
Inductive admin_step : AdminDb -> AdminDb -> Prop :=
| as_create_tenant env now id body db : admin_step db (admin_CreateTenant env now id body db).1
| as_list_tenants env db : admin_step db (admin_ListTenants env db).1
| as_get_tenant env params db : admin_step db (admin_GetTenant env params db).1
| as_update_tenant env params body db : admin_step db (admin_UpdateTenant env params body db).1
| as_delete_tenant env params db : admin_step db (admin_DeleteTenant env params db).1
| as_list_roles env t db : admin_step db (admin_ListRoles env t db).1
| as_create_role env now id body db : admin_step db (admin_CreateRole env now id body db).1
| as_get_role env params db : admin_step db (admin_GetRole env params db).1
| as_update_role env params body db : admin_step db (admin_UpdateRole env params body db).1
| as_delete_role env params db : admin_step db (admin_DeleteRole env params db).1
| as_assign env params body db : admin_step db (admin_AssignPermissions env params body db).1
| as_permissions env params db : admin_step db (admin_GetPermissions env params db).1
| as_revoke env params db : admin_step db (admin_RevokePermissions env params db).1.

(** A table of named rows: the key is the id, names are unique. *)
Definition named_ok {A} (id_of : A -> UUID) (name_of : A -> string) (t : gmap UUID A) : Prop :=
  (forall i a, t !! i = Some a -> id_of a = i) /\
  (forall i j a b, t !! i = Some a -> t !! j = Some b -> name_of a = name_of b -> i = j).

Definition admin_db_ok (db : AdminDb) : Prop :=
  named_ok tn_ID tn_Name (am_tenants db) /\ named_ok rl_ID rl_Name (am_roles db) /\
  (forall i t, am_tenants db !! i = Some t -> tn_Status t = "active" \/ tn_Status t = "suspended") /\
  (forall i t, am_tenants db !! i = Some t -> tn_Name t <> "") /\
  (forall i r, am_roles db !! i = Some r -> rl_Name r <> "") /\
  (forall r t p, (r, t, p) ∈ am_perms db -> is_Some (am_roles db !! r) /\ is_Some (am_tenants db !! t)).

Section Named.
Context {A : Type} (id_of : A -> UUID) (name_of : A -> string).

Lemma find_named_None (t : gmap UUID A) name :
  List.find (fun p => bool_decide (name_of (snd p) = name)) (map_to_list t) = None ->
  forall i a, t !! i = Some a -> name_of a <> name.
Proof.
  intros Hf i a Hi En. apply elem_of_map_to_list, list_elem_of_In in Hi.
  pose proof (List.find_none _ _ Hf _ Hi) as Hb. cbn [snd] in Hb. apply bool_decide_eq_false in Hb. done.
Qed.

(** A new name under a new id. *)
Lemma named_insert (t : gmap UUID A) i a :
  named_ok id_of name_of t -> id_of a = i -> (forall j b, t !! j = Some b -> name_of b <> name_of a) ->
  named_ok id_of name_of (<[i := a]> t).
Proof.
  intros [Hk Hn] Ha Hnew. split; [intros j b; rewrite lookup_insert_Some; naive_solver|].
  intros j k b c. rewrite !lookup_insert_Some. intros [[<- <-]|[Hj Hb]] [[<- <-]|[Hk' Hc]] E; naive_solver.
Qed.

(** A row replaced by one of the same id and name. *)
Lemma named_update (t : gmap UUID A) i a a' :
  named_ok id_of name_of t -> t !! i = Some a -> id_of a' = id_of a -> name_of a' = name_of a ->
  named_ok id_of name_of (<[i := a']> t).
Proof.
  intros [Hk Hn] Hi Hid Hname. split.
  - intros j b. rewrite lookup_insert_Some. intros [[<- <-]|[_ Hb]]; [rewrite Hid|]; by apply Hk.
  - intros j k b c. rewrite !lookup_insert_Some. intros [[<- <-]|[Hj Hb]] [[<- <-]|[Hk' Hc]] E; try done.
    + apply (Hn i k a c); congruence.
    + apply (Hn j i b a); congruence.
    + by apply (Hn j k b c).
Qed.

Lemma named_delete (t : gmap UUID A) i : named_ok id_of name_of t -> named_ok id_of name_of (delete i t).
Proof.
  intros [Hk Hn]. split; [intros j b; rewrite lookup_delete_Some; naive_solver|].
  intros j k b c. rewrite !lookup_delete_Some. naive_solver.
Qed.
End Named.

Section Preserve.
Variable env : DbEnv.

Lemma tenant_Create_ok now id name db :
  name <> "" -> admin_db_ok db -> admin_db_ok (tenant_Create env now id name db).1.
Proof.
  intros Hne (Ht & Hr & Hs & Htn & Hrn & Hp). unfold tenant_Create, on_pool. destruct (db_outage env); [done|].
  destruct (am_tenants db !! id) as [|] eqn:Hid; [done|]. destruct (tenant_find_name name (am_tenants db)) as [|] eqn:Hf; [done|].
  unfold tenant_find_name in Hf. rewrite fmap_None in Hf. pose proof (find_named_None tn_Name _ _ Hf) as Hnew.
  unfold admin_db_ok, set_tenants. cbn [fst am_tenants am_roles am_perms]. split_and!; try done.
  - apply named_insert; [done..|]. intros j b Hb. cbn. by apply (Hnew j).
  - intros i t. rewrite lookup_insert_Some. intros [[<- <-]|[_ Hi]]; [by left|by apply (Hs i)].
  - intros i t. rewrite lookup_insert_Some. intros [[<- <-]|[_ Hi]]; [done|by apply (Htn i)].
  - intros r t' p Hin. destruct (Hp _ _ _ Hin). split; [done|]. rewrite lookup_insert_is_Some'. by right.
Qed.

Lemma tenant_UpdateStatus_ok id status db : admin_db_ok db -> admin_db_ok (tenant_UpdateStatus env id status db).1.
Proof.
  intros (Ht & Hr & Hs & Htn & Hrn & Hp). unfold tenant_UpdateStatus, on_pool. destruct (db_outage env); [done|].
  destruct (am_tenants db !! id) as [t|] eqn:Hid; [|done]. destruct (tenant_status_check status) eqn:Hc; [|done].
  apply bool_decide_eq_true in Hc. cbn [negb fst]. unfold admin_db_ok, set_tenants. cbn [am_tenants am_roles am_perms]. split_and!; try done.
  - by apply (named_update _ _ _ _ t).
  - intros i u. rewrite lookup_insert_Some. intros [[<- <-]|[_ Hi]]; [|by apply (Hs i)]. cbn.
    apply elem_of_cons in Hc as [->|Hc]; [by left|]. apply list_elem_of_singleton in Hc. by right.
  - intros i u. rewrite lookup_insert_Some. intros [[<- <-]|[_ Hi]]; [cbn; by apply (Htn id t)|by apply (Htn i)].
  - intros r t' p Hin. destruct (Hp _ _ _ Hin). split; [done|]. rewrite lookup_insert_is_Some'. by right.
Qed.

Lemma role_Create_ok now id name description db :
  name <> "" -> admin_db_ok db -> admin_db_ok (role_Create env now id name description db).1.
Proof.
  intros Hne (Ht & Hr & Hs & Htn & Hrn & Hp). unfold role_Create, on_pool. destruct (db_outage env); [done|].
  destruct (am_roles db !! id) as [|] eqn:Hid; [done|]. destruct (List.find _ _) as [|] eqn:Hf; [done|].
  pose proof (find_named_None rl_Name _ _ Hf) as Hnew. unfold admin_db_ok. cbn [fst am_tenants am_roles am_perms]. split_and!; try done.
  - apply named_insert; [done..|]. intros j b Hb. cbn. by apply (Hnew j).
  - intros i r. rewrite lookup_insert_Some. intros [[<- <-]|[_ Hi]]; [done|by apply (Hrn i)].
  - intros r t' p Hin. destruct (Hp _ _ _ Hin). split; [|done]. rewrite lookup_insert_is_Some'. by right.
Qed.

Lemma role_Delete_ok id db : admin_db_ok db -> admin_db_ok (role_Delete env id db).1.
Proof.
  intros (Ht & Hr & Hs & Htn & Hrn & Hp). unfold role_Delete, on_pool. destruct (db_outage env); [done|].
  unfold admin_db_ok. cbn [fst am_tenants am_roles am_perms]. split_and!; try done.
  - by apply named_delete.
  - intros i r. rewrite lookup_delete_Some. intros [_ Hi]. by apply (Hrn i).
  - intros r t p. rewrite elem_of_filter. intros [Hne Hin]. destruct (Hp _ _ _ Hin) as [[x Hx] ?]. split; [|done].
    exists x. by rewrite lookup_delete_ne.
Qed.

Lemma role_AssignPermissions_ok t r ps db : admin_db_ok db -> admin_db_ok (role_AssignPermissions env t r ps db).1.
Proof.
  intros (Ht & Hr & Hs & Htn & Hrn & Hp). unfold role_AssignPermissions, WithTenant. destruct (db_outage env); [done|].
  case_bool_decide; [done|]. destruct (rls_visible _ _ _); [|done]. cbn [negb].
  destruct (am_roles db !! r) eqn:Er; [|done]. destruct (am_tenants db !! t) eqn:Et; [|done].
  unfold admin_db_ok, set_perms. cbn [fst am_tenants am_roles am_perms]. split_and!; try done.
  intros r' t' p. rewrite elem_of_union, elem_of_list_to_set, list_elem_of_fmap. intros [Hin|(q & E & _)]; [by eapply Hp|].
  injection E as -> -> ->. rewrite Er, Et. by split.
Qed.

Lemma role_RevokePermissions_ok t r db : admin_db_ok db -> admin_db_ok (role_RevokePermissions env t r db).1.
Proof.
  intros (Ht & Hr & Hs & Htn & Hrn & Hp). unfold role_RevokePermissions, WithTenant. destruct (db_outage env); [done|].
  destruct (rls_visible _ _ _); [|done]. unfold admin_db_ok, set_perms. cbn [fst am_tenants am_roles am_perms]. split_and!; try done.
  intros r' t' p. rewrite elem_of_filter. intros [_ Hin]. by eapply Hp.
Qed.

End Preserve.

(** A handler that only reads leaves the tables: every branch of its body does. *)
Ltac reads :=
  repeat first [done | progress cbn | match goal with
    |- context [match ?x with _ => _ end] => lazymatch type of x with prod _ _ => fail | _ => destruct x; try done end
  end].

(** C38: Whatever the tenant and role handlers are asked, in whatever order, the
    tables stay well typed: rows are filed under their id, tenant and role names
    are unique and not empty, every tenant is active or suspended, and a
    permission belongs to an existing role and an existing tenant. *)
Theorem admin_tables_well_typed db db' : rtc admin_step db db' -> admin_db_ok db -> admin_db_ok db'.
Proof.
  induction 1 as [|db db1 db2 Hstep _ IH]; [done|]. intros Hok. apply IH. clear IH.
  destruct Hstep.
  - unfold admin_CreateTenant. destruct body as [name|]; [|done]. case_bool_decide as Hne; [done|].
    pose proof (tenant_Create_ok env now id name db Hne Hok) as Hc. unfold tenant_uc_Create, tenant_GetByName, on_pool.
    destruct (db_outage env) eqn:Ho; [by destruct (tenant_Create _ _ _ _ _)|].
    destruct (found _ _); [done|by destruct (tenant_Create _ _ _ _ _)].
  - unfold admin_ListTenants, tenant_uc_List, ListTenants, on_pool. reads.
  - unfold admin_GetTenant, with_id, tenant_uc_Get, tenant_GetByID, on_pool. reads.
  - unfold admin_UpdateTenant, with_id. destruct (ParseUUID _) as [id|]; [|done]. destruct body as [status|]; [|done].
    destruct (negb _ && negb _); [done|]. pose proof (tenant_UpdateStatus_ok env id status db Hok) as Hu.
    unfold tenant_uc_UpdateStatus, tenant_GetByID, on_pool. destruct (db_outage env) eqn:Ho; [done|].
    destruct (found _ _); [|done]. by destruct (tenant_UpdateStatus _ _ _ _) as [? []].
  - unfold admin_DeleteTenant, with_id, tenant_uc_Delete, tenant_GetByID, on_pool. reads.
  - unfold admin_ListRoles, role_uc_ListByTenant, role_ListByTenant, WithTenant. reads.
  - unfold admin_CreateRole, role_uc_Create. destruct body as [[name description]|]; [|done]. case_bool_decide as Hne; [done|].
    pose proof (role_Create_ok env now id name description db Hne Hok) as Hc. by destruct (role_Create _ _ _ _ _ _).
  - unfold admin_GetRole, with_id, role_uc_GetByID, role_GetByID, on_pool. reads.
  - unfold admin_UpdateRole, with_id, role_uc_GetByID, role_GetByID, on_pool. reads.
  - unfold admin_DeleteRole, with_id, role_uc_Delete. destruct (ParseUUID _) as [id|]; [|done].
    pose proof (role_Delete_ok env id db Hok) as Hd. by destruct (role_Delete _ _ _).
  - unfold admin_AssignPermissions, with_id. destruct (ParseUUID _) as [id|]; [|done]. destruct body as [[t ps]|]; [|done].
    destruct (_ || _); [done|]. destruct (ParseUUID t) as [tid|]; [|done].
    pose proof (role_AssignPermissions_ok env tid id ps db Hok) as Ha. unfold role_uc_AssignPermissions, role_GetByID, on_pool.
    destruct (db_outage env) eqn:Ho; [done|]. destruct (found _ _); [by destruct (role_AssignPermissions _ _ _ _ _)|done].
  - unfold admin_GetPermissions, with_id, with_tenant_param, role_uc_GetPermissions, role_GetPermissions, WithTenant. reads.
  - unfold admin_RevokePermissions, with_id, with_tenant_param, role_uc_RevokePermissions. destruct (ParseUUID _) as [id|]; [|done].
    case_bool_decide; [done|]. destruct (ParseUUID _) as [tid|]; [|done].
    pose proof (role_RevokePermissions_ok env tid id db Hok) as Hr. by destruct (role_RevokePermissions _ _ _ _).
Qed.

(** ** What the handlers do not do *)

(** The route of the two handlers has the parameter [id] only. *)
Lemma permissions_routes_refuse env id db :
  reply_status (admin_GetPermissions env [("id", id)] db).2 = 400 /\
  admin_RevokePermissions env [("id", id)] db = (db, Refused ErrValidation).
Proof.
  unfold admin_GetPermissions, admin_RevokePermissions, with_id. destruct (ParseUUID _); split; reflexivity.
Qed.

(** The tenant written to is that of the body, whoever asks. *)
Lemma assign_permissions_of_body env role t permissions rl tn db :
  db_outage env = None -> db_bypass_rls env = true -> permissions <> [] ->
  am_roles db !! role = Some rl -> am_tenants db !! t = Some tn ->
  admin_AssignPermissions env [("id", uuid_String role)] (Some (uuid_String t, permissions)) db =
    (set_perms db (am_perms db ∪ list_to_set (map (fun p => (role, t, p)) permissions)), Replied StatusNoContent tt).
Proof.
  intros Hup Hrls Hne Hr Ht. unfold admin_AssignPermissions, with_id.
  change (URLParam [("id", uuid_String role)] "id") with (uuid_String role). rewrite ParseUUID_String.
  assert (bool_decide (uuid_String t = "") || bool_decide (permissions = []) = false) as ->.
  { rewrite (bool_decide_eq_false_2 (permissions = [])), orb_false_r by done. apply bool_decide_eq_false_2.
    intros E. pose proof (ParseUUID_String t) as P. rewrite E in P. discriminate P. }
  rewrite ParseUUID_String. unfold role_uc_AssignPermissions, role_GetByID, role_AssignPermissions, on_pool, WithTenant.
  rewrite Hup, Hr. cbn [found]. rewrite bool_decide_eq_false_2, rls_visible_pool, Hrls, Ht by done. done.
Qed.

Lemma permission_print_parse s : permission_String (ParsePermission s) = s +:+ ":".
Proof. done. Qed.

Lemma admin_tables_well_typed_witness :
  let env := mkDbEnv true ESqlNoRows None (fun _ => true) in
  admin_db_ok (admin_CreateTenant env 0 (uuid_n 1) (Some "acme") (mkAdminDb ∅ ∅ ∅)).1.
Proof.
  intros env. apply (admin_tables_well_typed (mkAdminDb ∅ ∅ ∅)).
  - apply rtc_once, as_create_tenant.
  - unfold admin_db_ok, named_ok. cbn [am_tenants am_roles am_perms]. split_and!; try (intros *; rewrite lookup_empty; discriminate).
Defined.
