(* ===== verification/AuthHandlers.v ===== *)
(** The authentication end points: [internal/api/handlers/handlers.go] and
    [internal/usecase/auth/super_admin_login.go], over the use cases of [Sessions]
    with the password hashes of [Password] and the tokens of [Auth]. *)

From stdpp Require Import base gmap strings list numbers.
From S2P Require Import GoPrelude Bytes Uuid Errors Tenancy Http Password Quota Auth Sessions.
Open Scope Z_scope.

(** ** What the use cases run on *)

(** [salt] is what the random source gives the one hash of a request. *)
Definition gateway_auth `{Argon2, JwtLib} (ks : KeyStore) (issuer audience : string) (salt : bytes)
    (parse_addr : string -> option string) (lower : string -> string) : AuthEnv := {|
  HashPassword pw :=
    match argon2_HashPassword (Some DefaultParams) salt pw with Some hash => Ok hash | None => Err EPanic end;
  VerifyPassword pw hash :=
    match argon2_VerifyPassword pw hash with
    | Some (Ok _) => None
    | Some (Err e) => Some (EOther (password_error_text e))
    | None => Some EPanic
    end;
  Sessions.IssueAccessToken := Auth.IssueAccessToken ks issuer audience;
  ParseAddr := parse_addr;
  citext_lower := lower;
|}.

(** An answer of these handlers: an error under a status, or a value. *)
Inductive Answer (A : Type) := Failure (status : Z) (e : error) | Success (status : Z) (a : A).
Arguments Failure {_} status e.
Arguments Success {_} status a.

(** The answer to an error of a use case; a panic is answered by the router's
    [Recoverer]. *)
Definition failure {A} (status : Z) (answer e : error) : Answer A :=
  if bool_decide (e = EPanic) then Failure StatusInternalServerError EPanic else Failure status answer.

(** What the server knows of the client. *)
Record Client := mkClient { cl_UserAgent : string; cl_RemoteAddr : string }.

Section Handlers.
Context `{AuthEnv}.
Variable env : DbEnv.

(** A body is [None] when it does not decode. *)
Definition decoded {B A} (body : option B) (f : B -> AuthDb -> AuthDb * Answer A) (db : AuthDb) : AuthDb * Answer A :=
  match body with None => (db, Failure StatusBadRequest ErrValidation) | Some b => f b db end.

Record LoginBody := mkLoginBody { lb_Email : string; lb_Password : string; lb_TenantID : string }.

Definition handle_Login (now : Z) (d : Draw) (c : Client) (body : option LoginBody) : AuthDb -> AuthDb * Answer TokenResponse :=
  decoded body (fun b db =>
    match ParseUUID (lb_TenantID b) with
    | Err _ => (db, Failure StatusBadRequest ErrValidation)
    | Ok tenantID =>
        match Login env now d (mkLoginRequest (lb_Email b) (lb_Password b) tenantID (cl_UserAgent c) (cl_RemoteAddr c)) db with
        | (db, Err e) => (db, failure StatusUnauthorized ErrInvalidCredentials e)
        | (db, Ok resp) => (db, Success StatusOK resp)
        end
    end).

Definition handle_Refresh (now : Z) (d : Draw) (c : Client) (body : option string) : AuthDb -> AuthDb * Answer TokenResponse :=
  decoded body (fun b db =>
    match Refresh env now d (mkRefreshRequest b (cl_UserAgent c) (cl_RemoteAddr c)) db with
    | (db, Err e) => (db, Failure StatusUnauthorized e)
    | (db, Ok resp) => (db, Success StatusOK resp)
    end).

Record RegisterBody := mkRegisterBody { gb_Email : string; gb_Password : string; gb_TenantID : string; gb_Role : string }.

Definition handle_Register (now : Z) (d : Draw) (body : option RegisterBody) : AuthDb -> AuthDb * Answer User :=
  decoded body (fun b db =>
    match ParseUUID (gb_TenantID b) with
    | Err _ => (db, Failure StatusBadRequest ErrValidation)
    | Ok tenantID =>
        match Register env now d (mkRegisterRequest (gb_Email b) (gb_Password b) tenantID (gb_Role b)) db with
        | (db, Err e) => (db, failure StatusConflict e e)
        | (db, Ok u) => (db, Success StatusCreated u)
        end
    end).

Definition handle_Logout (body : option (string * bool)) : AuthDb -> AuthDb * Answer unit :=
  decoded body (fun '(token, all) db =>
    match Logout env (mkLogoutRequest token all) db with
    | (db, Err e) => (db, Failure StatusUnauthorized e)
    | (db, Ok _) => (db, Success StatusOK tt)
    end).

Definition handle_ListSessions (now : Z) (r : Request) (db : AuthDb) : AuthDb * Answer (list Session) :=
  match GetUserID r, GetTenantID r with
  | (userID, true), Some tenantID =>
      match ListSessions env now tenantID userID db with
      | (db, Err e) => (db, Failure StatusInternalServerError e)
      | (db, Ok l) => (db, Success StatusOK l)
      end
  | _, _ => (db, Failure StatusUnauthorized ErrUnauthorized)
  end.

Definition handle_RevokeAllSessions (r : Request) (db : AuthDb) : AuthDb * Answer unit :=
  match GetUserID r, GetTenantID r with
  | (userID, true), Some tenantID =>
      match RevokeAllSessions env tenantID userID db with
      | (db, Err e) => (db, Failure StatusInternalServerError e)
      | (db, Ok _) => (db, Success StatusOK tt)
      end
  | _, _ => (db, Failure StatusUnauthorized ErrUnauthorized)
  end.

Definition handle_RevokeUserSessions (params : list (string * string)) (r : Request) (db : AuthDb) : AuthDb * Answer unit :=
  match ParseUUID (URLParam params "id") with
  | Err _ => (db, Failure StatusBadRequest ErrValidation)
  | Ok userID =>
      match GetTenantID r with
      | None => (db, Failure StatusUnauthorized ErrUnauthorized)
      | Some tenantID =>
          match RevokeAllSessions env tenantID userID db with
          | (db, Err e) => (db, Failure StatusInternalServerError e)
          | (db, Ok _) => (db, Success StatusOK tt)
          end
      end
  end.

(** ** Super administrators *)

Record SuperAdmin := mkSuperAdmin { sa_ID : UUID; sa_Email : string; sa_PasswordHash : string }.

(** [refresh] is the text of the random draw; it is stored nowhere. *)
Definition SuperAdminLogin `{JwtLib} (ks : KeyStore) (issuer audience : string) (now : Z) (refresh email password : string)
    (admins : list SuperAdmin) : result error TokenResponse :=
  match db_outage env, List.find (fun a => bool_decide (citext_lower (sa_Email a) = citext_lower email)) admins with
  | None, Some a =>
      match VerifyPassword password (sa_PasswordHash a) with
      | Some e => Err (unless_panic e ErrInvalidCredentials)
      | None =>
          match IssueSuperAdminToken ks issuer audience now (sa_ID a) with
          | Err e => Err e
          | Ok accessToken => Ok (mkTokenResponse accessToken refresh 900)
          end
      end
  | _, _ => Err (ErrInvalidCredentials : error)
  end.

Definition handle_SuperAdminLogin `{JwtLib} (ks : KeyStore) (issuer audience : string) (now : Z) (refresh : string)
    (body : option (string * string)) (admins : list SuperAdmin) : Answer TokenResponse :=
  match body with
  | None => Failure StatusBadRequest ErrValidation
  | Some (email, password) =>
      match SuperAdminLogin ks issuer audience now refresh email password admins with
      | Err e => failure StatusUnauthorized ErrInvalidCredentials e
      | Ok resp => Success StatusOK resp
      end
  end.

(** A token that is not stored is refused. *)
Lemma unstored_token_refused now d c refresh db :
  (forall t, t ∈ (map_to_list (ad_tokens db)).*2 -> tk_TokenHash t <> HashToken refresh) ->
  snd (handle_Refresh now d c (Some refresh) db) = Failure StatusUnauthorized ErrInvalidToken.
Proof.
  intros Hn. cbn [handle_Refresh decoded]. unfold Refresh, refresh_check, FindByTokenHash, on_pool. cbn [rr_RefreshToken].
  destruct (db_outage env); [done|]. destruct (List.find _ _) as [t|] eqn:Hf; [|done].
  apply List.find_some in Hf as [Hin Hb]. apply bool_decide_eq_true in Hb.
  destruct (Hn t); [|done]. by apply list_elem_of_In.
Qed.
End Handlers.

(** * Registration *)

Definition bearer_request (tok : string) : Request := mkRequest "GET" "/" ("Bearer " +:+ tok) "" background.

Section Registration.
Context `{Argon2Laws} `{JwtLaws}.
Variables (ks : KeyStore) (issuer audience : string) (salt : bytes).
Variables (parse_addr : string -> option string) (lower : string -> string).
#[local] Instance genv : AuthEnv := gateway_auth ks issuer audience salt parse_addr lower.
Variable env : DbEnv.

(** The pool's role sees every row and the server answers. *)
Context (Hup : db_outage env = None) (Hrls : db_bypass_rls env = true).

Definition email_free (t : UUID) (email : string) (db : AuthDb) : Prop :=
  forall k u, ad_users db !! k = Some u -> usr_TenantID u = t -> lower (usr_Email u) <> lower email.

Lemma filter_none {A} (p : A -> bool) l : (forall x, x ∈ l -> p x = false) -> List.filter p l = [].
Proof.
  induction l as [|x l IH]; intros Hp; [done|]. cbn. rewrite (Hp x) by (by left). apply IH. intros y Hy. apply Hp. by right.
Qed.

Lemma elem_of_values {K A} `{Countable K} (m : gmap K A) x : x ∈ map snd (map_to_list m) -> exists k, m !! k = Some x.
Proof.
  rewrite list_elem_of_fmap. intros ([k y] & -> & Hin). exists k. by apply elem_of_map_to_list.
Qed.

Lemma user_GetByEmail_none t email db :
  email_free t email db -> snd (user_GetByEmail env t email db) = Err (no_rows env).
Proof.
  intros Hfree. unfold user_GetByEmail, user_Lookup, WithTenant. rewrite Hup, filter_none; [done|].
  intros u Hu. apply elem_of_values in Hu as [k Hk]. destruct (bool_decide (usr_TenantID u = t)) eqn:Et; [|by rewrite andb_false_r].
  apply bool_decide_eq_true in Et. rewrite (bool_decide_eq_false_2 (_ = citext_lower email)); [by rewrite andb_false_r|].
  by apply (Hfree k).
Qed.

Lemma filter_unique {A} (p : A -> bool) l u :
  u ∈ l -> p u = true -> (forall x, x ∈ l -> p x = true -> x = u) -> exists rest, List.filter p l = u :: rest.
Proof.
  intros Hin Hp Hu. induction l as [|x l IH]; [by apply not_elem_of_nil in Hin|]. cbn. destruct (p x) eqn:Ex.
  - rewrite (Hu x ltac:(left) Ex). eauto.
  - apply elem_of_cons in Hin as [->|Hin]; [congruence|]. apply IH; [done|]. intros y Hy. apply Hu. by right.
Qed.

(** The user just registered is the one found under its address. *)
Lemma registered_found t email u db :
  email_free t email db -> usr_TenantID u = t -> lower (usr_Email u) = lower email ->
  let db' := mkAuthDb (<[(usr_ID u, t) := u]> (ad_users db)) (ad_tokens db) in
  user_GetByEmail env t email db' = (db', Ok u).
Proof.
  intros Hfree Ht He db'. unfold user_GetByEmail, user_Lookup, WithTenant. rewrite Hup.
  destruct (filter_unique (fun v => rls_visible env pool_conn (usr_TenantID v) && bool_decide (usr_TenantID v = t) &&
    bool_decide (citext_lower (usr_Email v) = citext_lower email)) (map snd (map_to_list (ad_users db'))) u) as [rest Hr].
  - apply list_elem_of_fmap. exists ((usr_ID u, t), u). split; [done|]. apply elem_of_map_to_list, lookup_insert_eq.
  - rewrite rls_visible_pool, Hrls, !bool_decide_eq_true_2 by done. done.
  - intros v Hv Hb. apply elem_of_values in Hv as [k Hk]. rewrite !andb_true_iff, !bool_decide_eq_true in Hb.
    destruct Hb as [[_ Hvt] Hve]. cbn [ad_users db'] in Hk. apply lookup_insert_Some in Hk as [[_ <-]|[_ Hk]]; [done|]. by destruct (Hfree k v).
  - by rewrite Hr.
Qed.

(** C4: Registration is open and grants everything: when the database answers and the
    pool's role bypasses row-level security, whoever registers an unused address in
    a tenant that exists, asking for any role, can log in, and the access token then
    authenticates them in that tenant with the role admin and the scope "*". In a
    tenant that does not exist the registration is refused and stores nothing. (Under
    enforced row-level security nobody registers or logs in: [auth_blind_under_rls].) *)
Theorem registration_grants_admin (now1 now2 now3 : Z) (d1 d2 : Draw) (c : Client) (email password role : string) (t : UUID)
    (tok : string) (db : AuthDb) :
  keystore_ok ks -> email_free t email db ->
  ad_users db !! (dr_id d1, t) = None -> ad_tokens db !! dr_id d2 = None ->
  Auth.IssueAccessToken ks issuer audience now2 (session_claims (dr_id d1) t) = Ok tok ->
  now2 <= now3 < (now2 + fifteen_minutes) / 1000000000 * 1000000000 ->
  let body := Some (mkRegisterBody email password (uuid_String t) role) in
  if db_tenants env t then
  exists db1 u db2 resp,
    handle_Register env now1 d1 body db = (db1, Success StatusCreated u) /\
    handle_Login env now2 d2 c (Some (mkLoginBody email password (uuid_String t))) db1 = (db2, Success StatusOK resp) /\
    auth_gate ks issuer audience now3 (bearer_request (AccessToken resp)) =
      inr (with_ctx (bearer_request (AccessToken resp)) (mkContext (Some (session_claims (dr_id d1) t)) (Some (dr_id d1)) (Some t)
        (Some "admin") (Some ["*"]) None None None))
  else handle_Register env now1 d1 body db = (db, Failure StatusConflict tenant_fk_error).
Proof.
  intros Hks Hfree Hu Htk Htok Hnow.
  destruct (default_hash salt password) as (hash & Hhash & Haccept).
  set (u := mkUser (dr_id d1) t email hash "active" (pg_time now1) (pg_time now1)).
  set (db1 := mkAuthDb (<[(dr_id d1, t) := u]> (ad_users db)) (ad_tokens db)).
  assert (handle_Register env now1 d1 (Some (mkRegisterBody email password (uuid_String t) role)) db =
    if db_tenants env t then (db1, Success StatusCreated u) else (db, Failure StatusConflict tenant_fk_error)) as H1'.
  { unfold handle_Register, decoded. cbn [gb_TenantID gb_Email gb_Password gb_Role]. rewrite ParseUUID_String. unfold Register.
    cbn [rg_TenantID rg_Email rg_Password]. pose proof (user_GetByEmail_none t email db Hfree) as Hn.
    destruct (user_GetByEmail env t email db) as [db' r] eqn:Eg. cbn in Hn. subst r.
    assert (db' = db) as ->.
    { revert Eg. unfold user_GetByEmail, user_Lookup, WithTenant. rewrite Hup. destruct (List.filter _ _); congruence. }
    cbn [HashPassword genv gateway_auth]. rewrite Hhash. unfold user_Create, WithTenant. rewrite Hup, rls_visible_pool, Hrls.
    cbn [negb]. rewrite Hu. by destruct (db_tenants env t). }
  destruct (db_tenants env t) eqn:Htn; [|exact H1'].
  assert (VerifyPassword password hash = None) as Hv.
  { cbn [VerifyPassword genv gateway_auth]. by rewrite Haccept. }
  eexists db1, u, _, (mkTokenResponse tok (dr_token d2) 900). split; [exact H1'|]. split.
  - unfold handle_Login, decoded. cbn [lb_TenantID lb_Email lb_Password]. rewrite ParseUUID_String. unfold Login.
    cbn [lr_TenantID lr_Email lr_Password]. assert (user_GetByEmail env t email db1 = (db1, Ok u)) as ->
      by (by apply (registered_found t email u db Hfree)). cbn [usr_PasswordHash u]. rewrite Hv. cbn [user_IsActive usr_Status u usr_ID].
    change (Sessions.IssueAccessToken now2) with (Auth.IssueAccessToken ks issuer audience now2).
    rewrite Htok. unfold Store, on_pool, insert_token. rewrite Hup. cbn [tk_ID tk_TenantID ad_tokens db1]. rewrite Htk, Htn. done.
  - cbn [AccessToken].
    rewrite (issued_token_authenticates ks [] issuer audience now2 now3 (session_claims (dr_id d1) t) tok (bytes_of_string "Bearer")
      (bearer_request tok) (dr_id d1) (Some t)); try done.
    + apply not_elem_of_nil.
    + apply ParseUUID_String.
    + unfold claims_tenant. cbn [claim_TenantID session_claims]. rewrite ParseUUID_String, bool_decide_eq_false_2; [done|].
      intros E. pose proof (ParseUUID_String t) as P. rewrite E in P. discriminate P.
Qed.
End Registration.

(** * Witnesses *)

#[local] Existing Instance toy_jwt.
#[local] Existing Instance toy_jwt_laws.
#[local] Existing Instance toy_argon2.
#[local] Existing Instance toy_argon2_laws.

Definition ex_db_env : DbEnv := mkDbEnv true ESqlNoRows None (fun _ => true).
Definition ex_salt : bytes := bytes_of_string "0123456789abcdef".
Definition ex_draw (n : N) : Draw := mkDraw "opaque" (uuid_n (20 + n)) (uuid_n n).

Lemma registration_grants_admin_witness :
  let genv := gateway_auth ex_keystore "gateway" "agents" ex_salt Some (fun s => s) in
  exists db1 u db2 resp,
    @handle_Register genv ex_db_env 500 (ex_draw 7) (Some (mkRegisterBody "eve@x.io" "pw" (uuid_String (uuid_n 1)) "viewer")) (mkAuthDb ∅ ∅) =
      (db1, Success StatusCreated u) /\
    @handle_Login genv ex_db_env 1000000000 (ex_draw 8) (mkClient "curl" "10.0.0.1:4000")
      (Some (mkLoginBody "eve@x.io" "pw" (uuid_String (uuid_n 1)))) db1 = (db2, Success StatusOK resp) /\
    auth_gate ex_keystore "gateway" "agents" 2000000000 (bearer_request (AccessToken resp)) =
      inr (with_ctx (bearer_request (AccessToken resp)) (mkContext (Some (session_claims (uuid_n 7) (uuid_n 1))) (Some (uuid_n 7))
        (Some (uuid_n 1)) (Some "admin") (Some ["*"]) None None None)).
Proof.
  apply (registration_grants_admin ex_keystore "gateway" "agents" ex_salt Some (fun s => s) ex_db_env eq_refl eq_refl
    500 1000000000 2000000000 (ex_draw 7) (ex_draw 8) (mkClient "curl" "10.0.0.1:4000") "eve@x.io" "pw" "viewer" (uuid_n 1)
    (default "" (match Auth.IssueAccessToken ex_keystore "gateway" "agents" 1000000000 (session_claims (uuid_n 7) (uuid_n 1)) with
                 | Ok t => Some t | Err _ => None end)) (mkAuthDb ∅ ∅)).
  - apply NewKeyStore_ok.
  - intros k u Hk. cbn [ad_users] in Hk. by rewrite lookup_empty in Hk.
  - reflexivity.
  - reflexivity.
  - reflexivity.
  - vm_compute. split; congruence.
Defined.
