(* ===== verification/AuditHandlers.v ===== *)
(** The audit end points, [internal/api/handlers/admin_audit.go], over the log of
    [AuditLog]. *)

From stdpp Require Import base gmap strings list numbers pretty sorting.
From Stdlib Require Import Ascii.
From S2P Require Import GoPrelude Bytes Uuid Errors Tenancy Http AuditLog Auth AuthHandlers.
Open Scope Z_scope.

(** ** strconv.Atoi *)

Definition in_int64 (z : Z) : bool := (- 2 ^ 63 <=? z) && (z <? 2 ^ 63).

(** An optional sign and decimal digits, within 64 bits. *)
Definition Atoi (s : string) : option Z :=
  let '(neg, digits) := match bytes_of_string s with
    | "-"%char :: d => (true, d)
    | "+"%char :: d => (false, d)
    | d => (false, d)
    end in
  match digits with
  | [] => None
  | _ =>
      match dec_from 0 digits with
      | (n, []) => let z := if neg then - Z.of_N n else Z.of_N n in if in_int64 z then Some z else None
      | _ => None
      end
  end.

Lemma Atoi_pretty z : 0 <= z < 2 ^ 63 -> Atoi (pretty z) = Some z.
Proof.
  intros Hz. pose proof (dec_FormatInt z ltac:(lia)) as Hd.
  assert (in_int64 z = true) as Hb by (unfold in_int64; apply andb_true_iff; split; [apply Z.leb_le|apply Z.ltb_lt]; lia).
  assert (forall c, c ∈ bytes_of_string (pretty z) -> c <> "+"%char) as Hplus.
  { intros c Hc ->. apply (FormatInt_no "+"%char z) in Hc; [done|]. apply (bool_decide_eq_true_1 (~ _)). vm_compute. reflexivity. }
  assert (head (bytes_of_string (pretty z)) <> Some "-"%char) as Hneg.
  { intros Hh. destruct (bytes_of_string (pretty z)) as [|c d]; [done|]. injection Hh as ->.
    change (dec_from 0 ("-"%char :: d)) with (0%N, "-"%char :: d) in Hd. discriminate Hd. }
  unfold Atoi. destruct (bytes_of_string (pretty z)) as [|c d] eqn:E.
  { cbn in Hd. injection Hd as Hd. assert (z = 0) as -> by lia. done. }
  assert (forall X : option Z, (let '(neg, digits) := match c :: d with
      | "-"%char :: d => (true, d) | "+"%char :: d => (false, d) | d => (false, d) end in
    match digits with [] => None | _ => match dec_from 0 digits with
      | (n, []) => let z := if neg then - Z.of_N n else Z.of_N n in if in_int64 z then Some z else None | _ => None end end) = X <->
    (match dec_from 0 (c :: d) with (n, []) => if in_int64 (Z.of_N n) then Some (Z.of_N n) else None | _ => None end) = X) as Hsame.
  { intros X. specialize (Hplus c ltac:(left)). destruct c as [[] [] [] [] [] [] [] []]; tauto. }
  apply Hsame. rewrite Hd, Z2N.id by lia. by rewrite Hb.
Qed.

(** ** The handlers *)

(** The values of the query string, "" for an absent one. *)
Abbreviation QueryValues := (string -> string).

(** [parse_time] is [time.Parse(time.RFC3339, _)]. *)
Section Handlers.
Context `{JsonText}.
Variables (env : DbEnv) (parse_time : string -> option Z).

Definition opt_param {A} (parse : string -> option A) (s : string) : option (option A) :=
  if bool_decide (s = "") then Some None else Some <$> parse s.

Definition parse_id (s : string) : option UUID := match ParseUUID s with Ok u => Some u | Err _ => None end.
Definition parse_limit (s : string) : option Z := Atoi s ≫= fun n => if n <=? 0 then None else Some n.
Definition parse_offset (s : string) : option Z := Atoi s ≫= fun n => if n <? 0 then None else Some n.

(** The filter of a query, [None] when a parameter does not parse. *)
Definition audit_filter (tenantID : UUID) (q : QueryValues) : option AuditFilter :=
  opt_param parse_id (q "actor_id") ≫= fun actor =>
  opt_param parse_id (q "entity_id") ≫= fun entity =>
  opt_param parse_time (q "from") ≫= fun from =>
  opt_param parse_time (q "to") ≫= fun to =>
  opt_param parse_limit (q "limit") ≫= fun limit =>
  opt_param parse_offset (q "offset") ≫= fun offset =>
  Some (mkAuditFilter tenantID actor (q "action") (q "entity_type") entity (q "severity") from to
          (default 50 limit) (default 0 offset)).

(** The events with the limit and offset they were read with. *)
Definition handle_ListAuditEvents (r : Request) (q : QueryValues) (db : AuditDb) : AuditDb * Answer (list AuditEvent * Z * Z) :=
  match GetTenantID r with
  | None => (db, Failure StatusUnauthorized ErrUnauthorized)
  | Some tenantID =>
      match audit_filter tenantID q with
      | None => (db, Failure StatusBadRequest ErrValidation)
      | Some filter =>
          match Query env filter db with
          | (db, Err e) => (db, Failure StatusInternalServerError e)
          | (db, Ok events) => (db, Success StatusOK (events, af_Limit filter, af_Offset filter))
          end
      end
  end.

Record VerifyBody := mkVerifyBody { vb_TenantID : string; vb_FromSeq : Z; vb_ToSeq : Z }.

Record VerifyAnswer := mkVerifyAnswer {
  va_valid : bool;
  va_from_seq : Z;
  va_to_seq : Z;
  va_total_seen : Z;
  va_broken : option (Z * option string);
}.

Definition verify_target (tenantID : UUID) (req : VerifyBody) : option UUID :=
  if bool_decide (vb_TenantID req = "") then Some tenantID else parse_id (vb_TenantID req).

Definition verify_until (targetTenantID : UUID) (toSeq : Z) (db : AuditDb) : AuditDb * result error Z :=
  if toSeq =? 0 then
    match GetLastEvent env targetTenantID db with
    | (db, Err e) => (db, Err e)
    | (db, Ok lastEvent) => (db, Ok (ae_Seq lastEvent))
    end
  else (db, Ok toSeq).

Definition handle_VerifyChain (r : Request) (body : option VerifyBody) (db : AuditDb) : AuditDb * Answer VerifyAnswer :=
  match GetTenantID r with
  | None => (db, Failure StatusUnauthorized ErrUnauthorized)
  | Some tenantID =>
      match body with
      | None => (db, Failure StatusBadRequest ErrValidation)
      | Some req =>
          match verify_target tenantID req with
          | None => (db, Failure StatusBadRequest ErrValidation)
          | Some target =>
              let fromSeq := if vb_FromSeq req =? 0 then 1 else vb_FromSeq req in
              match verify_until target (vb_ToSeq req) db with
              | (db, Err e) => (db, Failure StatusInternalServerError e)
              | (db, Ok toSeq) =>
                  match VerifyChain env target fromSeq toSeq db with
                  | (db, Err e) => (db, Failure StatusInternalServerError e)
                  | (db, Ok result) =>
                      (db, Success StatusOK (mkVerifyAnswer (vr_Valid result) fromSeq toSeq (vr_TotalSeen result)
                             (if vr_Valid result then None else Some (vr_BrokenSeq result, vr_Error result))))
                  end
              end
          end
      end
  end.
End Handlers.

(** * What the end points promise *)

Section Promises.
Context `{JsonTextLaws}.

Lemma GetLastEvent_ok (env : DbEnv) t db :
  db_outage env = None -> audit_ok db ->
  GetLastEvent env t db = (db, match list.last (rows_of t db) with Some row => Ok (convertSQLCAuditEvent row) | None => Err ESqlNoRows end).
Proof.
  intros Ho Hok. unfold GetLastEvent, WithTenantTx, getLastEventTx. rewrite Ho. cbn. rewrite last_row_own by done.
  by destruct (list.last (rows_of t db)).
Qed.

Definition answer_of (result : VerifyResult) (fromSeq toSeq : Z) : VerifyAnswer :=
  mkVerifyAnswer (vr_Valid result) fromSeq toSeq (vr_TotalSeen result)
    (if vr_Valid result then None else Some (vr_BrokenSeq result, vr_Error result)).

(** The end point asked with no bounds runs the verification to the last event. *)
Lemma handle_VerifyChain_whole (env : DbEnv) (r : Request) (caller target : UUID) (db : AuditDb) :
  db_outage env = None -> GetTenantID r = Some caller -> audit_ok db ->
  let count := Z.of_nat (length (rows_of target db)) in
  handle_VerifyChain env r (Some (mkVerifyBody (uuid_String target) 0 0)) db =
    if count =? 0 then (db, Failure StatusInternalServerError ESqlNoRows)
    else match snd (VerifyChain env target 1 count db) with
         | Ok result => (db, Success StatusOK (answer_of result 1 count))
         | Err e => (db, Failure StatusInternalServerError e)
         end.
Proof.
  intros Ho Hr Hok count.
  assert (verify_target caller (mkVerifyBody (uuid_String target) 0 0) = Some target) as Ht.
  { unfold verify_target, parse_id. cbn [vb_TenantID]. rewrite ParseUUID_String, bool_decide_eq_false_2; [done|].
    intros E. pose proof (ParseUUID_String target) as P. rewrite E in P. discriminate P. }
  unfold handle_VerifyChain. rewrite Hr, Ht. cbn [vb_FromSeq vb_ToSeq]. unfold verify_until. cbn [Z.eqb]. rewrite GetLastEvent_ok by done.
  destruct (list.last (rows_of target db)) as [row|] eqn:Hl.
  - assert (ae_Seq (convertSQLCAuditEvent row) = count) as -> by (by apply (last_seq target db row)).
    assert (count =? 0 = false) as ->.
    { apply Z.eqb_neq. unfold count. apply last_Some in Hl as [l ->]. rewrite length_app. cbn. lia. }
    by rewrite !VerifyChain_scanned by done.
  - apply last_None in Hl. unfold count. by rewrite Hl.
Qed.

(** C11: The verification end point, asked with no bounds about a log made by
    appends, answers 500 for a tenant without events. For a tenant whose events all
    have payloads that survive their [jsonb] column it reports the log valid, from
    one to its last event and with all of its events counted, whatever was appended
    for whom before; otherwise it reports it broken at the first event whose payload
    does not survive, or SHA-256 has collided. The tenant asked about need not be
    the caller's: any authenticated caller may name any tenant. *)
Theorem verify_endpoint_reports_valid (env : DbEnv) (ops : list (Z * UUID * AuditEvent)) (r : Request) (caller target : UUID) :
  db_outage env = None -> GetTenantID r = Some caller ->
  let db := append_all env ops empty_db in
  let events := of_tenant target (accepted env ops empty_db) in
  let count := Z.of_nat (length events) in
  let answer := handle_VerifyChain env r (Some (mkVerifyBody (uuid_String target) 0 0)) db in
  (events = [] -> answer = (db, Failure StatusInternalServerError ESqlNoRows)) /\
  (events <> [] -> Forall (fun e => survives (ae_Payload e) = true) events ->
   answer = (db, Success StatusOK (mkVerifyAnswer true 1 count count None))) /\
  (forall k e, list_find (fun e => survives (ae_Payload e) = false) events = Some (k, e) ->
   answer = (db, Success StatusOK (mkVerifyAnswer false 1 count (Z.of_nat k + 1)
                   (Some (Z.of_nat k + 1, Some "chain_hash mismatch")))) \/ collision).
Proof.
  intros Ho Hr db events count answer. assert (audit_ok db) as Hok by apply append_all_ok, empty_db_ok.
  destruct (verify_appended env ops target count Ho (Z.le_refl _)) as (Hlen & Hall & Hverdict).
  fold db events in Hlen, Hall, Hverdict. fold count in Hall.
  pose proof (handle_VerifyChain_whole env r caller target db Ho Hr Hok) as Ha. fold answer in Ha.
  cbv zeta in Ha. rewrite Hlen in Ha. fold count in Ha.
  assert (events <> [] -> count =? 0 = false) as Hne.
  { intros Hne. apply Z.eqb_neq. unfold count. destruct events; cbn; [done|lia]. }
  split_and!.
  - intros E. rewrite Ha. unfold count. by rewrite E.
  - intros E Hs. by rewrite Ha, Hne, (Hall Hs).
  - intros k e Hf. destruct Hverdict as [Hv|]; [|by right]. left. rewrite Ha, Hv, Hne.
    + unfold log_verdict. by rewrite Hf.
    + intros E. by rewrite E in Hf.
Qed.

(** ** Pages *)

(** The matching rows of a tenant, newest first. *)
Definition matching (f : AuditFilter) (db : AuditDb) : list audit_row :=
  List.filter (filter_matches f) (rows_of (af_TenantID f) db).

Definition newest_first (l : list audit_row) : Prop := StronglySorted (fun a b => ar_CreatedAt b <= ar_CreatedAt a) l.

Lemma insert_newest_perm row l : insert_newest row l ≡ₚ row :: l.
Proof. induction l as [|x l IH]; cbn; [done|]. destruct (_ <=? _); [done|]. rewrite IH. apply Permutation_swap. Qed.

Lemma insert_newest_sorted row l : newest_first l -> newest_first (insert_newest row l).
Proof.
  induction 1 as [|x l Hl IH Hx]; cbn; [repeat constructor|]. destruct (Z.leb_spec (ar_CreatedAt x) (ar_CreatedAt row)) as [Hle|Hlt].
  - constructor; [by constructor|]. constructor; [done|]. eapply Forall_impl; [exact Hx|]. cbn. lia.
  - constructor; [exact IH|]. rewrite insert_newest_perm. constructor; [lia|done].
Qed.

Lemma newest_sort l : newest_first (foldr insert_newest [] l) /\ foldr insert_newest [] l ≡ₚ l.
Proof.
  induction l as [|x l [IH1 IH2]]; cbn; [repeat constructor|]. split; [by apply insert_newest_sorted|]. by rewrite insert_newest_perm, IH2.
Qed.

Lemma newest_unique l l1 l2 :
  NoDup (ar_CreatedAt <$> l) -> newest_first l1 -> newest_first l2 -> l1 ≡ₚ l -> l2 ≡ₚ l -> l1 = l2.
Proof.
  intros Hnd H1 H2 P1 P2. eapply StronglySorted_unique_strong; [|exact H1|exact H2|by rewrite P1, P2].
  intros x y Hx Hy Hxy Hyx. cbn in Hxy, Hyx. rewrite P1 in Hx. rewrite P2 in Hy. apply list_elem_of_lookup in Hx as [i Hi]. apply list_elem_of_lookup in Hy as [j Hj].
  assert (i = j) as ->; [|congruence].
  eapply NoDup_lookup; [exact Hnd|rewrite list_lookup_fmap, Hi; done|rewrite list_lookup_fmap, Hj; cbn; f_equal; lia].
Qed.

(** The query parameters of page [k]. *)
Definition page_query (q : QueryValues) (limit k : Z) : QueryValues := fun name =>
  if bool_decide (name = "limit") then pretty limit else if bool_decide (name = "offset") then pretty (k * limit) else q name.

Lemma pretty_nonempty (z : Z) : 0 <= z -> pretty z <> "".
Proof. intros Hz E. pose proof (dec_FormatInt z Hz) as Hd. rewrite E in Hd. cbn in Hd. injection Hd as Hd. assert (z = 0) as -> by lia. discriminate E. Qed.

Lemma page_filter parse_time t q limit k f :
  0 < limit -> 0 <= k -> k * limit < 2 ^ 63 -> limit < 2 ^ 63 -> audit_filter parse_time t (page_query q limit 0) = Some f ->
  audit_filter parse_time t (page_query q limit k) =
    Some (mkAuditFilter t (af_ActorID f) (af_Action f) (af_EntityType f) (af_EntityID f) (af_Severity f) (af_From f) (af_To f) limit (k * limit)).
Proof.
  intros Hl Hk Hb Hb2.
  assert (forall j, 0 <= j -> j * limit < 2 ^ 63 -> opt_param parse_offset (page_query q limit j "offset") = Some (Some (j * limit))) as Hoff.
  { intros j Hj Hjb. unfold opt_param. change (page_query q limit j "offset") with (pretty (j * limit)).
    rewrite bool_decide_eq_false_2 by (apply pretty_nonempty; lia). unfold parse_offset. rewrite Atoi_pretty by lia. cbn.
    destruct (Z.ltb_spec (j * limit) 0); [lia|done]. }
  assert (forall j, opt_param parse_limit (page_query q limit j "limit") = Some (Some limit)) as Hlim.
  { intros j. unfold opt_param. change (page_query q limit j "limit") with (pretty limit).
    rewrite bool_decide_eq_false_2 by (apply pretty_nonempty; lia). unfold parse_limit. rewrite Atoi_pretty by lia. cbn.
    destruct (Z.leb_spec limit 0); [lia|done]. }
  unfold audit_filter. rewrite !Hlim, !Hoff by lia.
  assert (forall name, name <> "limit" -> name <> "offset" -> page_query q limit k name = page_query q limit 0 name) as Hq.
  { intros name H1 H2. unfold page_query. by rewrite !bool_decide_eq_false_2. }
  rewrite !Hq by done.
  destruct (opt_param parse_id (page_query q limit 0 "actor_id")); [|done]. destruct (opt_param parse_id (page_query q limit 0 "entity_id")); [|done].
  destruct (opt_param parse_time (page_query q limit 0 "from")); [|done]. destruct (opt_param parse_time (page_query q limit 0 "to")); [|done].
  by intros [= <-].
Qed.

Lemma page_rows (l : list audit_row) (limit k : nat) :
  concat ((fun i => take limit (drop (i * limit) l)) <$> seq 0 k) = take (k * limit) l.
Proof.
  induction k as [|k IH]; [done|]. rewrite seq_S, fmap_app, concat_app, IH. cbn. rewrite app_nil_r.
  rewrite <- (take_drop (k * limit) (take (limit + k * limit) l)), take_take, take_drop_commute.
  f_equal; [f_equal; lia|do 2 f_equal; lia].
Qed.

Lemma filter_tenant parse_time t q f : audit_filter parse_time t q = Some f -> af_TenantID f = t.
Proof.
  unfold audit_filter. destruct (opt_param parse_id (q "actor_id")); [|done]. destruct (opt_param parse_id (q "entity_id")); [|done].
  destruct (opt_param parse_time (q "from")); [|done]. destruct (opt_param parse_time (q "to")); [|done].
  destruct (opt_param parse_limit (q "limit")); [|done]. destruct (opt_param parse_offset (q "offset")); [|done]. by intros [= <-].
Qed.

(** The matching rows as a page is cut from them. *)
Definition newest (f : AuditFilter) (db : AuditDb) : list audit_row := foldr insert_newest [] (matching f db).

Lemma list_page env parse_time r t q limit (k : nat) f db :
  db_outage env = None -> GetTenantID r = Some t -> 0 < limit < 2 ^ 63 -> Z.of_nat k * limit < 2 ^ 63 ->
  audit_filter parse_time t (page_query q limit 0) = Some f ->
  handle_ListAuditEvents env parse_time r (page_query q limit (Z.of_nat k)) db =
    (db, Success StatusOK (convertSQLCAuditEvent <$> take (Z.to_nat limit) (drop (k * Z.to_nat limit) (newest f db)),
                           limit, Z.of_nat k * limit)).
Proof.
  intros Ho Hr Hl Hkb Hf. unfold handle_ListAuditEvents. rewrite Hr.
  rewrite (page_filter parse_time t q limit (Z.of_nat k) f) by (done || lia).
  unfold Query, WithTenantTx. rewrite Ho. cbn [af_TenantID af_Limit af_Offset]. rewrite tenant_rows_own. fold (rows_of t db).
  pose proof (filter_tenant _ _ _ _ Hf) as Ht.
  set (g := mkAuditFilter t _ _ _ _ _ _ _ _ _). assert (List.filter (filter_matches g) (rows_of t db) = matching f db) as ->
    by (unfold matching; by rewrite Ht). fold (newest f db). rewrite (proj2 (Z.gtb_lt limit 0)) by lia.
  do 5 f_equal. destruct (Z.gtb_spec (Z.of_nat k * limit) 0) as [Hpos|Hz].
  - do 2 f_equal. rewrite Z2Nat.inj_mul by lia. by rewrite Nat2Z.id.
  - assert (k = 0%nat) as -> by nia. done.
Qed.

(** Rows newer than all of a log go before them. *)
Lemma newest_shift f db db' fresh :
  NoDup (ar_CreatedAt <$> matching f db') -> matching f db' ≡ₚ fresh ++ matching f db ->
  (forall x y, x ∈ fresh -> y ∈ matching f db -> ar_CreatedAt y <= ar_CreatedAt x) ->
  exists first, length first = length fresh /\ newest f db' = first ++ newest f db.
Proof.
  intros Hnd Hp Hnew. destruct (newest_sort (matching f db)) as [Hs Hps]. destruct (newest_sort fresh) as [Hs' Hps'].
  destruct (newest_sort (matching f db')) as [Hs'' Hps''].
  exists (foldr insert_newest [] fresh). split; [by rewrite Hps'|].
  apply (newest_unique (matching f db')); [done..| |done|by rewrite Hps', Hps, Hp].
  unfold newest_first. apply StronglySorted_app. split_and!; [|exact Hs'|exact Hs].
  intros x y Hx Hy. rewrite Hps' in Hx. rewrite Hps in Hy. by apply Hnew.
Qed.

(** C12: Reading the log page by page, when nothing is recorded between the reads
    and the events that match the query have distinct times: the pages of any size
    up to the last hold exactly those events of the caller's tenant, each once and
    newest first; no page read writes. A page read after newer matching events have
    been recorded (the audit middleware records two for each request) starts as
    many rows too early: it repeats what the pages before it have shown. *)
Theorem audit_pages_partition (env : DbEnv) (parse_time : string -> option Z) (r : Request) (t : UUID) (q : QueryValues) (limit : Z)
    (pages : nat) (f : AuditFilter) (db : AuditDb) :
  db_outage env = None -> GetTenantID r = Some t -> 0 < limit < 2 ^ 63 -> Z.of_nat pages * limit < 2 ^ 63 ->
  audit_filter parse_time t (page_query q limit 0) = Some f ->
  NoDup (ar_CreatedAt <$> matching f db) -> Z.of_nat (length (matching f db)) <= Z.of_nat pages * limit ->
  exists all : list audit_row, newest_first all /\ all ≡ₚ matching f db /\
    (forall other, newest_first other -> other ≡ₚ matching f db -> other = all) /\
    (exists answers : list (list AuditEvent),
      concat answers = convertSQLCAuditEvent <$> all /\ length answers = pages /\
      forall k events, answers !! k = Some events ->
        handle_ListAuditEvents env parse_time r (page_query q limit (Z.of_nat k)) db =
          (db, Success StatusOK (events, limit, Z.of_nat k * limit))) /\
    (forall (k : nat) (fresh : list audit_row) (db' : AuditDb),
      (k < pages)%nat -> (length fresh <= k * Z.to_nat limit)%nat ->
      NoDup (ar_CreatedAt <$> matching f db') -> matching f db' ≡ₚ fresh ++ matching f db ->
      (forall x y, x ∈ fresh -> y ∈ matching f db -> ar_CreatedAt y <= ar_CreatedAt x) ->
      handle_ListAuditEvents env parse_time r (page_query q limit (Z.of_nat k)) db' =
        (db', Success StatusOK (convertSQLCAuditEvent <$>
                take (Z.to_nat limit) (drop (k * Z.to_nat limit - length fresh) all), limit, Z.of_nat k * limit))).
Proof.
  intros Ho Hr Hl Hpages Hf Hnd Hlen. destruct (newest_sort (matching f db)) as [Hs Hp]. fold (newest f db) in Hs, Hp.
  exists (newest f db). split; [done|]. split; [done|]. split; [intros other Ho1 Ho2; by apply (newest_unique (matching f db))|]. split.
  - exists ((fun k => convertSQLCAuditEvent <$> take (Z.to_nat limit) (drop (k * Z.to_nat limit) (newest f db))) <$> seq 0 pages). split_and!.
    + rewrite <- (take_ge (newest f db) (pages * Z.to_nat limit)) at 1 by (rewrite Hp; nia). rewrite <- page_rows.
      generalize (seq 0 pages). intros ks. induction ks as [|k ks IH]; cbn; [done|]. by rewrite IH, fmap_app.
    + by rewrite length_fmap, length_seq.
    + intros k events (k' & -> & [-> Hk]%lookup_seq)%list_lookup_fmap_Some_1. cbn [Nat.add].
      apply (list_page env parse_time r t); [done..|nia|done].
  - intros k fresh db' Hk Hfresh Hnd' Hperm Hnew.
    destruct (newest_shift f db db' fresh Hnd' Hperm Hnew) as (first & Hfirst & Hall).
    rewrite (list_page env parse_time r t q limit k f) by (done || nia).
    rewrite Hall, drop_app_ge by lia. by rewrite Hfirst.
Qed.
End Promises.

(** * Witnesses *)

#[local] Existing Instance plain_json.
#[local] Existing Instance plain_json_laws.

Definition ex_auditor : Request := mkRequest "GET" "/v1/admin/audit" "" "" (set_TenantIDKey background (Some (uuid_n 1))).

(** The caller's tenant is not the one asked about. *)
Lemma verify_endpoint_reports_valid_witness :
  handle_VerifyChain ex_audit_env ex_auditor (Some (mkVerifyBody (uuid_String (uuid_n 2)) 0 0)) ex_db =
    (ex_db, Success StatusOK (mkVerifyAnswer true 1 1 1 None)).
Proof.
  pose proof (verify_endpoint_reports_valid ex_audit_env ex_ops ex_auditor (uuid_n 1) (uuid_n 2) eq_refl eq_refl) as H.
  cbv zeta in H. unfold ex_db.
  assert (of_tenant (uuid_n 2) (accepted ex_audit_env ex_ops empty_db) = [ex_event (uuid_n 2) "GET /b"]) as E by (vm_compute; reflexivity).
  rewrite E in H. apply H; [done|]. repeat (constructor; [vm_compute; reflexivity|]). constructor.
Defined.

Definition ex_no_query : QueryValues := fun _ => "".
Definition ex_all_filter : AuditFilter := mkAuditFilter (uuid_n 1) None "" "" None "" None None 1 0.

Lemma audit_pages_partition_witness :
  exists all, newest_first all /\ all ≡ₚ matching ex_all_filter ex_db /\
    exists answers : list (list AuditEvent), concat answers = convertSQLCAuditEvent <$> all /\ length answers = 2%nat.
Proof.
  destruct (audit_pages_partition ex_audit_env (fun _ => None) ex_auditor (uuid_n 1) ex_no_query 1 2 ex_all_filter ex_db) as
    (all & H1 & H2 & _ & (answers & H3 & H4 & _) & _).
  - reflexivity.
  - reflexivity.
  - lia.
  - lia.
  - vm_compute. reflexivity.
  - apply (bool_decide_eq_true_1 _). vm_compute. reflexivity.
  - vm_compute. congruence.
  - exists all. split; [exact H1|]. split; [exact H2|]. exists answers. split; [exact H3|exact H4].
Defined.
