(* ===== verification/ChatHandlers.v ===== *)
(** The chat end point, [internal/api/handlers/chat.go], over the use case of
    [ToolLoop], and the use case's constructors from the configuration
    ([internal/usecase/chat/orchestrator.go]). *)

From stdpp Require Import base gmap strings list numbers.
From S2P Require Import GoPrelude Bytes Uuid Errors CircuitBreaker ChatModel Pricing Routing Fallback ToolLoop Http Tenancy AuthHandlers.
Open Scope Z_scope.

(** ** Construction *)

Section Build.
Context {W : Type} `{ModelEnv W}.

(** The production case: the providers come from the configuration. [hasExecutor]
    and [hasRepo] say whether those ports are given. *)
Definition BuildChatUsecaseFromConfig (cfg : RouterConfig) (toolCfg : ToolConfig) (hasExecutor hasRepo : bool) (pricing : Service) (w : W)
    : W * result error (ChatUsecase * ProviderRegistry) :=
  match BuildRegistryFromConfig cfg w with
  | (w, Err e) => (w, Err (EWrap "build registry" e))
  | (w, Ok registry) =>
      (w, Ok (NewChatUsecase (NewFallbackChain cfg) pricing hasExecutor (Some toolCfg) hasRepo (rc_DefaultTimeout cfg) (tcfg_MaxIterations toolCfg),
              registry))
  end.

(** [HealthCheck] asks the registry, which lets a waiting breaker probe. *)
Definition chat_HealthCheck (r : ProviderRegistry) (w : W) : ProviderRegistry * option error :=
  let '(r, healthy) := GetHealthyProviders (env_now w) r in
  (r, if bool_decide (healthy = []) then Some (ErrNoHealthyProvider : error) else None).
End Build.

(** ** Requests and answers *)

(** Raw JSON is text, empty when the field is absent. *)
Record ChatMessage := mkChatMessage {
  hm_Role : string;
  hm_Content : string;
  hm_ToolCalls : string;
  hm_ToolCallID : string;
  hm_Name : string;
}.

Record ChatCompletionRequest := mkChatCompletionRequest {
  cq_Model : string;
  cq_Messages : list ChatMessage;
  cq_Temperature : option float64;
  cq_MaxTokens : option Z;
  cq_Stream : option bool;
  cq_Tools : string;
  cq_ToolChoice : json;
  cq_User : string;
}.

Record ChatCompletionChoice := mkChatCompletionChoice { cc_Index : Z; cc_Message : ChatMessage; cc_FinishReason : string }.

Record ChatCompletionResponse := mkChatCompletionResponse {
  cp_ID : string;
  cp_Object : string;
  cp_Created : Z;
  cp_Model : string;
  cp_Choices : list ChatCompletionChoice;
  cp_Usage : Usage;
  cp_Provider : string;
  cp_CostUSD : float64;
  cp_LatencyMs : Z;
  cp_Retried : bool;
}.

(** The decoder and encoder of the two raw fields. A text of tools that does not
    decode leaves in the slice what was decoded before the error. *)
Class ChatJson := {
  decode_tool_calls : string -> option (list ToolCall);
  decode_tools : string -> list Tool;
  encode_tool_calls : list ToolCall -> string;
}.

Section Handler.
Context {W : Type} `{ModelEnv W, ToolEnv W, ToolCodec, ChatJson}.

Definition parseToolCalls (raw : string) : list ToolCall :=
  if bool_decide (raw = "") then [] else default [] (decode_tool_calls raw).

(** The records here do not tell a nil slice of calls from an empty one; both are
    left out. *)
Definition marshalToolCalls (calls : list ToolCall) : string :=
  match calls with [] => "" | _ => encode_tool_calls calls end.

Definition to_message (m : ChatMessage) : Message :=
  mkMessage (hm_Role m) (hm_Content m) (parseToolCalls (hm_ToolCalls m)) (hm_ToolCallID m) (hm_Name m).

Definition request_tools (req : ChatCompletionRequest) : list Tool :=
  if bool_decide (cq_Tools req = "") then [] else decode_tools (cq_Tools req).

(** The user named in the body is replaced by the caller. *)
Definition convertToUsecaseRequest (hasRepo : bool) (req : ChatCompletionRequest) (tenantID userID : UUID) (w : W)
    : W * result error UsecaseRequest :=
  let tools := request_tools req in
  let '(w, validated) := if negb (bool_decide (tools = [])) && hasRepo then validateTools tenantID tools w else (w, Ok []) in
  (w, match validated with
      | Err e => Err e
      | Ok validatedTools =>
          Ok (mkUsecaseRequest (cq_Model req) (map to_message (cq_Messages req)) (cq_Temperature req) (cq_MaxTokens req)
                (default false (cq_Stream req)) tools validatedTools (cq_ToolChoice req) (uuid_String userID) tenantID)
      end).

Definition from_choice (c : Choice) : ChatCompletionChoice :=
  let m := ch_Message c in
  mkChatCompletionChoice (ch_Index c)
    (mkChatMessage (msg_Role m) (msg_Content m) (marshalToolCalls (msg_ToolCalls m)) (msg_ToolCallID m) (msg_Name m))
    (ch_FinishReason c).

Definition convertFromUsecaseResponse (resp : UsecaseResponse) : ChatCompletionResponse :=
  let cr := cmp_Response (us_Completion resp) in
  mkChatCompletionResponse (resp_ID cr) (resp_Object cr) (resp_Created cr) (resp_Model cr) (map from_choice (resp_Choices cr))
    (resp_Usage cr) (us_Provider resp) (us_CostUSD resp) (us_LatencyMs resp) (us_Retried resp).

(** The body is [None] when it does not decode. *)
Definition handle_ChatCompletions (uc : ChatUsecase) (hasRepo : bool) (r : Request) (body : option ChatCompletionRequest)
    (reg : ProviderRegistry) (w : W) : (ProviderRegistry * W) * Answer ChatCompletionResponse :=
  match body with
  | None => ((reg, w), Failure StatusBadRequest ErrValidation)
  | Some req =>
      if bool_decide (cq_Model req = "") then ((reg, w), Failure StatusBadRequest ErrValidation)
      else if bool_decide (cq_Messages req = []) then ((reg, w), Failure StatusBadRequest ErrValidation)
      else match GetTenantID r with
      | None => ((reg, w), Failure StatusUnauthorized ErrUnauthorized)
      | Some tenantID =>
          match convertToUsecaseRequest hasRepo req tenantID (fst (GetUserID r)) w with
          | (w, Err e) => ((reg, w), Failure (mapError e) e)
          | (w, Ok usecaseReq) =>
              match Complete uc usecaseReq reg w with
              | ((reg, w), Err e) => ((reg, w), Failure (mapError e) e)
              | ((reg, w), Ok resp) => ((reg, w), Success StatusOK (convertFromUsecaseResponse resp))
              end
          end
      end
  end.
End Handler.

(** * What the end point promises *)

Definition is_lookup (e : tool_event) : Prop := match e with EvLookup _ _ _ => True | EvExecute _ _ => False end.

Section Promises.
Context {W : Type} `{ModelEnv W, ToolEnv W, ToolCodec, ChatJson}.

Lemma validateTools_looks tenant tools (w : Watched W) :
  exists evs, snd (fst (validateTools tenant tools w)) = snd w ++ evs /\ Forall is_lookup evs.
Proof.
  revert w. induction tools as [|t tools IH]; intros w; cbn [validateTools].
  { exists []. by rewrite app_nil_r. }
  destruct (bool_decide (tool_Type t = "function")); cbn [negb]; [|apply IH].
  destruct (repo_GetByName tenant (fd_Name (tool_Function t)) w) as [w1 res] eqn:Hg.
  assert (snd w1 = snd w ++ [EvLookup tenant (fd_Name (tool_Function t)) res]) as Hw1.
  { revert Hg. cbn. destruct (repo_GetByName _ _ (fst w)) as [w' res']. by intros [= <- <-]. }
  assert (Forall is_lookup [EvLookup tenant (fd_Name (tool_Function t)) res]) as Hl by (by repeat constructor).
  destruct res as [def|e]; [|destruct (errors_Is e _); by eexists].
  destruct (td_IsActive def); cbn [negb]; [|by eexists]. destruct (bool_decide _); cbn [negb]; [|by eexists].
  destruct (IH w1) as (evs & He & Hall). destruct (validateTools tenant tools w1) as [w2 rest]. cbn [fst] in He.
  exists ([EvLookup tenant (fd_Name (tool_Function t)) (Ok def)] ++ evs). cbn [fst].
  rewrite He, Hw1, <- app_assoc. split; [done|by apply Forall_app].
Qed.

Lemma Complete_events uc req reg (w : Watched W) :
  exists segs, snd (snd (fst (Complete uc req reg w))) = snd w ++ concat segs /\
    Forall (fun evs => exists tc, call_events uc (ur_TenantID req) (authorize (ur_ValidatedTools req)) tc evs) segs.
Proof.
  unfold Complete. pose proof (execute_watched (uc_fallbackChain uc) (to_domain req) reg w) as Hx.
  destruct (ExecuteWithFallback _ _ reg w) as [[r1 w1] [result0 err]]. cbn in Hx.
  destruct err as [e|]; [exists []; cbn; by rewrite Hx, app_nil_r|]. unfold executeToolLoop.
  destruct (uc_toolExecutor uc), (uc_toolConfig uc);
    try (destruct (calculateActualCost _ _); exists []; cbn; by rewrite Hx, app_nil_r).
  destruct (tool_loop_events (Z.to_nat (if uc_MaxIterations uc <=? 0 then 5 else uc_MaxIterations uc)) uc (ur_TenantID req)
    (authorize (ur_ValidatedTools req)) (to_domain req) result0 r1 w1) as (segs & Hs & Hall).
  exists segs. destruct (tool_loop _ _ _ _ _ _ r1 w1) as [[r2 w2] [final|e]]; [destruct (calculateActualCost _ _)|]; cbn in *; by rewrite Hs, Hx.
Qed.

Lemma execute_in_segment uc tenant auth tc evs vt call :
  call_events uc tenant auth tc evs -> EvExecute vt call ∈ evs ->
  auth !! ec_Name call = Some vt /\ toolRequiresApproval uc (ec_Name call) = false /\
  (uc_toolRepo uc = true -> exists def, evs = [EvLookup tenant (ec_Name call) (Ok def); EvExecute vt call] /\
     td_Hash def = vt_Hash vt /\ td_IsActive def = true).
Proof.
  intros [->|[[_ [res ->]]|(vt' & checks & Hauth & Happ & -> & Hchecks)]] Hin.
  - by apply not_elem_of_nil in Hin.
  - by apply list_elem_of_singleton in Hin.
  - assert (EvExecute vt call = EvExecute vt' (mkExecCall (tc_ID tc) (fc_Name (tc_Function tc)) (parseArguments (fc_Arguments (tc_Function tc)))))
      as [= -> ->].
    { apply elem_of_app in Hin as [Hin|Hin%list_elem_of_singleton]; [|done]. destruct (uc_toolRepo uc).
      - destruct Hchecks as (def & -> & _). by apply list_elem_of_singleton in Hin.
      - subst. by apply not_elem_of_nil in Hin. }
    cbn [ec_Name]. split; [done|]. split; [done|]. intros Hrepo. rewrite Hrepo in Hchecks. destruct Hchecks as (def & -> & Hh & Ha).
    by exists def.
Qed.

Lemma Forall2_elem_r {A B} (R : A -> B -> Prop) l k y : Forall2 R l k -> y ∈ k -> exists x, x ∈ l /\ R x y.
Proof.
  induction 1 as [|a b l k Hab _ IH]; intros Hy; [by apply not_elem_of_nil in Hy|].
  apply elem_of_cons in Hy as [->|Hy]; [exists a; split; [by left|done]|].
  destruct (IH Hy) as (x & Hx & Hr). exists x. split; [by right|done].
Qed.

(** C7: Whatever the model answers, the chat end point executes a tool only if the
    client sent a function tool whose name, description and parameters hash to the
    validated hash, only under that tool's name, only if the configuration asks
    for no approval, and, where there is a repository, only right after a look-up
    in the caller's tenant that found the tool active and with that hash. *)
Theorem chat_executes_registered_tools (uc : ChatUsecase) (hasRepo : bool) (r : Request) (body : option ChatCompletionRequest)
    (reg : ProviderRegistry) (w : W) (vt : ValidatedTool) (call : ExecCall) :
  let log := snd (snd (fst (handle_ChatCompletions (W := Watched W) uc hasRepo r body reg (w, [])))) in
  EvExecute vt call ∈ log ->
  exists req tenant t, body = Some req /\ GetTenantID r = Some tenant /\
    t ∈ request_tools req /\ tool_Type t = "function" /\
    ComputeHash (fd_Name (tool_Function t)) (fd_Description (tool_Function t)) (fd_Parameters (tool_Function t)) = vt_Hash vt /\
    vt_Name vt = ec_Name call /\ toolRequiresApproval uc (ec_Name call) = false /\
    (uc_toolRepo uc = true -> exists before def after,
       log = before ++ [EvLookup tenant (ec_Name call) (Ok def); EvExecute vt call] ++ after /\
       td_Hash def = vt_Hash vt /\ td_IsActive def = true).
Proof.
  cbn zeta. unfold handle_ChatCompletions. destruct body as [req|]; [|cbn; by intros ?%not_elem_of_nil].
  destruct (bool_decide (cq_Model req = "")); [cbn; by intros ?%not_elem_of_nil|].
  destruct (bool_decide (cq_Messages req = [])); [cbn; by intros ?%not_elem_of_nil|].
  destruct (GetTenantID r) as [tenant|]; [|cbn; by intros ?%not_elem_of_nil].
  unfold convertToUsecaseRequest.
  set (validation := if negb _ && hasRepo then _ else _).
  assert (exists w1 evs validated, validation = ((w1, evs), validated) /\ Forall is_lookup evs /\
    forall vts, validated = Ok vts -> forall v, v ∈ vts -> exists t, t ∈ List.filter is_function (request_tools req) /\ validates t v)
    as (w1 & evs & validated & -> & Hevs & Hval).
  { unfold validation. destruct (negb _ && hasRepo).
    - destruct (validateTools_looks tenant (request_tools req) (w, [])) as (evs & He & Hall).
      destruct (validateTools tenant (request_tools req) (w, [])) as [[w1 log1] validated] eqn:Hv. cbn in He. subst log1.
      exists w1, evs, validated. split; [done|]. split; [done|]. intros vts -> v Hin. apply validateTools_spec in Hv. by eapply Forall2_elem_r.
    - exists w, [], (Ok []). split; [done|]. split; [constructor|]. intros vts [= <-] v Hin. by apply not_elem_of_nil in Hin. }
  assert (EvExecute vt call ∉ evs) as Hnot.
  { intros Hin. rewrite list.Forall_forall in Hevs. by apply Hevs in Hin. }
  destruct validated as [vts|e]; [|by intros ?]. cbn [fst snd].
  set (ureq := mkUsecaseRequest _ _ _ _ _ _ vts _ _ tenant). destruct (Complete_events uc ureq reg (w1, evs)) as (segs & Hs & Hall).
  assert (snd (snd (fst (let '((reg0, w0), x) := Complete uc ureq reg (w1, evs) in
      match x with Ok resp => ((reg0, w0), Success StatusOK (convertFromUsecaseResponse resp)) | Err e => ((reg0, w0), Failure (mapError e) e) end)))
    = evs ++ concat segs) as Hlog.
  { destruct (Complete uc ureq reg (w1, evs)) as [[reg2 w2] [resp|e]]; exact Hs. }
  intros Hin.
  assert (EvExecute vt call ∈ evs ++ concat segs) as Hin' by (rewrite <- Hlog; clear -Hin; by destruct (Complete _ _ _ _) as [[? ?] [?|?]]).
  apply elem_of_app in Hin' as [Hin'|Hin']; [done|]. apply list_elem_of_In, in_concat in Hin' as (seg & Hmem & Hseg).
  apply list_elem_of_In in Hmem, Hseg.
  rewrite list.Forall_forall in Hall. destruct (Hall seg Hmem) as [tc Hcall].
  destruct (execute_in_segment _ _ _ _ _ _ _ Hcall Hseg) as (Hauth & Happ & Hlook).
  apply authorize_spec in Hauth as [Hvt Hname]. destruct (Hval vts eq_refl vt Hvt) as (t & Ht & Hhash).
  apply list_elem_of_In, filter_In in Ht as [Ht Hf]. apply bool_decide_eq_true in Hf.
  exists req, tenant, t. split; [done|]. split; [done|]. split; [by apply list_elem_of_In|]. split; [done|]. split; [done|]. split; [done|]. split; [done|].
  intros Hrepo. destruct (Hlook Hrepo) as (def & -> & Hh & Ha). apply list_elem_of_split in Hmem as (s1 & s2 & ->).
  exists (evs ++ concat s1), def, (concat s2). split; [|done].
  transitivity (evs ++ concat (s1 ++ [EvLookup (ur_TenantID ureq) (ec_Name call) (Ok def); EvExecute vt call] :: s2)).
  - rewrite <- Hlog. by destruct (Complete _ _ _ _) as [[? ?] [?|?]].
  - rewrite concat_app. cbn. by rewrite <- !app_assoc.
Qed.
End Promises.

(** * Witness *)

#[local] Existing Instance script_model.
#[local] Existing Instance script_tools.
#[local] Existing Instance text_codec.

Definition toy_chat_json : ChatJson := {|
  decode_tool_calls _ := None;
  decode_tools raw := if bool_decide (raw = "search") then [ex_tool] else [];
  encode_tool_calls _ := "[]";
|}.
#[local] Existing Instance toy_chat_json.

Definition ex_chat_body : ChatCompletionRequest :=
  mkChatCompletionRequest "llama3" [mkChatMessage "user" "hi" "" "" ""] None None None "search" JNull "".

Definition ex_chat_caller : Request := mkRequest "POST" "/v1/chat/completions" "" "" (set_TenantIDKey background (Some (uuid_n 1))).

(** One round asks for the tool; the end point validates it, looks it up again and runs it. *)
Lemma chat_executes_registered_tools_witness :
  let log := snd (snd (fst (handle_ChatCompletions (W := Watched (list (list ToolCall))) (ex_usecase 2) true ex_chat_caller (Some ex_chat_body)
    ex_registry ([[ex_call "search"]], [])))) in
  exists before def after,
    log = before ++ [EvLookup (uuid_n 1) "search" (Ok def); EvExecute ex_vt (mkExecCall "call-1" "search" (Some []))] ++ after /\
    td_Hash def = vt_Hash ex_vt.
Proof.
  destruct (chat_executes_registered_tools (ex_usecase 2) true ex_chat_caller (Some ex_chat_body) ex_registry [[ex_call "search"]] ex_vt
    (mkExecCall "call-1" "search" (Some []))) as (req & tenant & t & Hreq & Ht & _ & _ & _ & _ & _ & Hlook).
  - vm_compute. right. right. left.
  - destruct (Hlook eq_refl) as (before & def & after & Hlog & Hh & _). injection Ht as <-. exists before, def, after. split; [exact Hlog|exact Hh].
Defined.
