(* ===== verification/Router.v ===== *)
(** The routing table: [internal/api/router.go] with the [RegisterRoutes] of the
    handlers it mounts, and what every route's middleware chain guarantees.

    The router itself, [chi], is third-party code: the class [Chi] has what its
    documentation says of dispatching as a law. *)

From stdpp Require Import base gmap strings list numbers.
From S2P Require Import GoPrelude Errors Bytes Uuid Tenancy Http Auth Sessions TenantAdmin.
Open Scope Z_scope.

(** ** Registration *)

(** The middlewares of [RouterConfig], and the one of the tools' routes, an
    authentication without a token service. *)
Inductive Mw := AuthMW | TenantMW | DelegationMW | RateLimitMW | AuditMW | GuardrailsMW | HITLMW | UnconfiguredAuth.

(** What is done to a [chi.Router], in order; a handler goes by its name. *)
Inductive reg :=
| Use (m : Mw)
| Handle (method pattern handler : string)
| RouteAt (prefix : string) (body : list reg)
| Group (body : list reg).

Abbreviation Get := (Handle "GET").
Abbreviation Post := (Handle "POST").
Abbreviation Patch := (Handle "PATCH").
Abbreviation Delete := (Handle "DELETE").

Record Route := mkRoute { rt_Method : string; rt_Pattern : string; rt_Middlewares : list Mw; rt_Handler : string }.

#[global] Instance Mw_eq_dec : EqDecision Mw.
Proof. solve_decision. Defined.
#[global] Instance Route_eq_dec : EqDecision Route.
Proof. solve_decision. Defined.

(** The handlers that are given; the others are nil. *)
Record Mounted := mkMounted {
  has_tenants : bool;
  has_users : bool;
  has_roles : bool;
  has_quotas : bool;
  has_audit : bool;
  has_tools : bool;
  has_reviews : bool;
}.

(** [RegisterRoutes] of the handlers. *)
Definition tenants_RegisterRoutes : list reg :=
  [Post "/" "AdminTenants.Create"; Get "/" "AdminTenants.List"; Get "/{id}" "AdminTenants.Get";
   Patch "/{id}" "AdminTenants.Update"; Delete "/{id}" "AdminTenants.Delete"].

Definition users_RegisterRoutes : list reg :=
  [Get "/" "AdminUsers.List"; Post "/" "AdminUsers.Create"; Get "/{id}" "AdminUsers.Get";
   Patch "/{id}" "AdminUsers.Update"; Delete "/{id}" "AdminUsers.Delete"].

Definition roles_RegisterRoutes : list reg :=
  [Get "/" "AdminRoles.List"; Post "/" "AdminRoles.Create"; Get "/{id}" "AdminRoles.Get";
   Patch "/{id}" "AdminRoles.Update"; Delete "/{id}" "AdminRoles.Delete";
   Post "/{id}/permissions" "AdminRoles.AssignPermissions"; Get "/{id}/permissions" "AdminRoles.GetPermissions";
   Delete "/{id}/permissions" "AdminRoles.RevokePermissions"].

Definition quotas_RegisterRoutes : list reg :=
  [Get "/" "AdminQuotas.List"; Post "/" "AdminQuotas.Create"; Get "/{id}" "AdminQuotas.Get";
   Patch "/{id}" "AdminQuotas.Update"; Delete "/{id}" "AdminQuotas.Delete"].

Definition tools_RegisterRoutes : list reg :=
  [Group [Use UnconfiguredAuth; Post "/admin/tools" "AdminTools.CreateTool"; Patch "/admin/tools/{name}" "AdminTools.UpdateTool";
          Delete "/admin/tools/{name}" "AdminTools.DeactivateTool"]].

(** The chain of the tenant's routes, outermost first. *)
Definition full_chain : list Mw := [AuthMW; TenantMW; DelegationMW; RateLimitMW; AuditMW; GuardrailsMW; HITLMW].

Definition NewRouter (cfg : Mounted) : list reg :=
  [Get "/health" "healthHandler"; Get "/ready" "readyHandler";
   RouteAt "/v1"
     [RouteAt "/auth"
        [Post "/login" "Auth.Login"; Post "/super-admin/login" "Auth.SuperAdminLogin"; Post "/refresh" "Auth.Refresh";
         Post "/register" "Auth.Register";
         Group [Use AuthMW; Post "/logout" "Auth.Logout"; Get "/sessions" "Auth.ListSessions"; Delete "/sessions" "Auth.RevokeAllSessions"]];
      RouteAt "/admin"
        [RouteAt "/tenants"
           (Use AuthMW ::
            if has_tenants cfg then tenants_RegisterRoutes
            else [Post "/" "createTenantHandler"; Get "/" "listTenantsHandler"; Get "/{id}" "getTenantHandler";
                  Patch "/{id}" "updateTenantHandler"; Delete "/{id}" "deleteTenantHandler"]);
         Group
           (map Use full_chain ++
            (if has_users cfg then users_RegisterRoutes
             else [Get "/users" "listUsersHandler"; Post "/users" "createUserHandler"; Get "/users/{id}" "getUserHandler";
                   Patch "/users/{id}" "updateUserHandler"; Delete "/users/{id}" "deleteUserHandler"]) ++
            (if has_roles cfg then roles_RegisterRoutes
             else [Get "/roles" "listRolesHandler"; Post "/roles" "createRoleHandler"; Get "/roles/{id}" "getRoleHandler";
                   Patch "/roles/{id}" "updateRoleHandler"; Delete "/roles/{id}" "deleteRoleHandler"]) ++
            (if has_quotas cfg then quotas_RegisterRoutes
             else [Get "/quotas" "listQuotasHandler"; Post "/quotas" "createQuotaHandler"; Get "/quotas/{id}" "getQuotaHandler";
                   Patch "/quotas/{id}" "updateQuotaHandler"; Delete "/quotas/{id}" "deleteQuotaHandler"]) ++
            [Post "/users/{id}/revoke-sessions" "Auth.RevokeUserSessions"] ++
            (if has_audit cfg then [Get "/audit" "AdminAudit.ListAuditEvents"; Post "/audit/verify-chain" "AdminAudit.VerifyChain"] else []) ++
            (if has_tools cfg then tools_RegisterRoutes else []))];
      RouteAt "/reviews"
        (map Use full_chain ++
         if has_reviews cfg then
           [Post "/" "Reviews.CreateReview"; Get "/" "Reviews.ListReviews"; Get "/{id}" "Reviews.GetReview";
            Post "/{id}/approve" "Reviews.ApproveReview"; Post "/{id}/reject" "Reviews.RejectReview"; Patch "/{id}" "Reviews.ExecuteReview";
            Get "/{id}/stream" "Reviews.StreamReview"; Get "/{id}/status" "Reviews.GetReviewStatus"]
         else
           [Post "/" "createReviewHandler"; Get "/" "listReviewsHandler"; Get "/{id}" "getReviewHandler";
            Post "/{id}/approve" "approveReviewHandler"; Post "/{id}/reject" "rejectReviewHandler"; Get "/{id}/stream" "streamReviewHandler"]);
      RouteAt "/chat" (map Use full_chain ++ [Post "/completions" "Chat.ChatCompletions"])]].

(** What [main] mounts. *)
Definition gateway_mounted : Mounted := mkMounted true true true true true true true.

(** The routes a registration amounts to: [Use] adds to the chain of what follows
    in its router, [Route] and [Group] start from the chain around them. *)
Fixpoint routes_of (prefix : string) (mws : list Mw) (r : reg) : list Route :=
  let fix go (prefix : string) (mws : list Mw) (rs : list reg) : list Route :=
    match rs with
    | [] => []
    | Use m :: rs => go prefix (mws ++ [m]) rs
    | r :: rs => routes_of prefix mws r ++ go prefix mws rs
    end in
  match r with
  | Use _ => []
  | Handle method pattern handler => [mkRoute method (prefix +:+ pattern) mws handler]
  | RouteAt p body => go (prefix +:+ p) mws body
  | Group body => go prefix mws body
  end.

Definition routes (rs : list reg) : list Route := routes_of "" [] (Group rs).

(** ** Dispatch *)

Definition not_served (resp : Response) : Prop := StatusCode resp = 404 \/ StatusCode resp = 405.

(** The middlewares a router is configured with, and the handlers by name, given
    the parameters of the route. *)
Record RouterConfig (W : Type) := mkRouterConfig {
  middleware : Mw -> Handler W -> Handler W;
  handler : string -> list (string * string) -> Handler W;
}.
Arguments middleware {W} _ _ _.
Arguments handler {W} _ _ _.

Definition chain {W} (cfg : RouterConfig W) (mws : list Mw) (h : Handler W) : Handler W :=
  foldr (fun m next => middleware cfg m next) h mws.

Definition serve_route {W} (cfg : RouterConfig W) (rt : Route) (params : list (string * string)) : Handler W :=
  chain cfg (rt_Middlewares rt) (handler cfg (rt_Handler rt) params).

(** [chi.Mux.ServeHTTP], after the base middlewares: those set a request id, an
    address and a deadline, which the model's requests do not have. *)
Class Chi (W : Type) := ServeHTTP : RouterConfig W -> list Route -> Handler W.

Class ChiLaw (W : Type) `{Chi W} : Prop := {
  chi_sound : forall cfg rts r w,
    (exists rt params, rt ∈ rts /\ rt_Method rt = Method r /\ ServeHTTP cfg rts r w = serve_route cfg rt params r w) \/
    (exists resp, not_served resp /\ ServeHTTP cfg rts r w = (w, resp));
}.

(** ** Placeholders *)

Definition json_object (fields : list (string * string)) : string :=
  "{" +:+ String.concat "," (map (fun '(k, v) => quote +:+ k +:+ quote +:+ ":" +:+ quote +:+ v +:+ quote) fields) +:+ "}".

(** The code of [domain.NewUUID] and of its [String] again. *)
Definition newUUID (rnd : UUID) : string := uuid_String (NewUUID rnd).

Definition message_placeholders : list (string * string) :=
  [("listTenantsHandler", "list tenants placeholder"); ("getTenantHandler", "get tenant placeholder");
   ("updateTenantHandler", "update tenant placeholder"); ("deleteTenantHandler", "delete tenant placeholder");
   ("listUsersHandler", "list users placeholder"); ("createUserHandler", "create user placeholder");
   ("getUserHandler", "get user placeholder"); ("updateUserHandler", "update user placeholder");
   ("deleteUserHandler", "delete user placeholder"); ("listRolesHandler", "list roles placeholder");
   ("createRoleHandler", "create role placeholder"); ("getRoleHandler", "get role placeholder");
   ("updateRoleHandler", "update role placeholder"); ("deleteRoleHandler", "delete role placeholder");
   ("listPermissionsHandler", "list permissions placeholder"); ("createPermissionHandler", "create permission placeholder");
   ("listQuotasHandler", "list quotas placeholder"); ("createQuotaHandler", "create quota placeholder");
   ("getQuotaHandler", "get quota placeholder"); ("updateQuotaHandler", "update quota placeholder");
   ("deleteQuotaHandler", "delete quota placeholder"); ("createReviewHandler", "create review placeholder");
   ("listReviewsHandler", "list reviews placeholder"); ("getReviewHandler", "get review placeholder");
   ("approveReviewHandler", "approve review placeholder"); ("rejectReviewHandler", "reject review placeholder")].

Definition newline : string := String (Ascii.ascii_of_nat 10) EmptyString.

(** The functions of the file; [now] is the time in RFC 3339. *)
Definition placeholder (rnd : UUID) (now name : string) : option Response :=
  if bool_decide (name = "healthHandler") then Some (mkResponse 200 (json_object [("status", "ok")]))
  else if bool_decide (name = "readyHandler") then Some (mkResponse 200 (json_object [("status", "ready")]))
  else if bool_decide (name = "createTenantHandler") then
    Some (mkResponse 201 (json_object [("id", newUUID rnd); ("name", "Acme Corp"); ("status", "active"); ("created_at", now)]))
  else if bool_decide (name = "streamReviewHandler") then
    Some (mkResponse 200 ("data: " +:+ json_object [("status", "PENDING")] +:+ newline +:+ newline))
  else (fun '(_, text) => mkResponse 200 (json_object [("message", text)])) <$>
    List.find (fun p => bool_decide (fst p = name)) message_placeholders.

(** * What the table guarantees *)





(** The part of the world the first two middlewares read. *)
Class AdminWorld (W : Type) := {
  admin_of : W -> AdminDb;
  set_admin : AdminDb -> W -> W;
  admin_of_set : forall db w, admin_of (set_admin db w) = db;
}.

Section Gateway.
Context {W : Type} `{Clock W} `{AdminWorld W} `{JwtLib}.
Variables (ks : KeyStore) (issuer audience : string) (env : DbEnv).











End Gateway.

(** The collections of users, roles and quotas have no paths of their own: their
    handlers share the root of [/v1/admin]. *)
Lemma admin_collections_unregistered rt :
  rt ∈ routes (NewRouter gateway_mounted) ->
  rt_Pattern rt ∉ ["/v1/admin/users"; "/v1/admin/roles"; "/v1/admin/quotas"; "/v1/admin/tools"].
Proof.
  assert (forallb (fun rt => negb (bool_decide (rt_Pattern rt ∈ ["/v1/admin/users"; "/v1/admin/roles"; "/v1/admin/quotas"; "/v1/admin/tools"])))
    (routes (NewRouter gateway_mounted)) = true) as H by (vm_compute; reflexivity).
  rewrite forallb_forall in H. intros Hin. specialize (H rt (proj1 (list_elem_of_In _ _) Hin)).
  apply negb_true_iff, bool_decide_eq_false in H. exact H.
Qed.

(** * Witnesses *)

#[local] Existing Instance toy_jwt.
#[local] Existing Instance toy_jwt_laws.

(** A dispatcher that serves the first route of the method whose pattern is the
    path, with the parameter it is given. *)
Record ToyWorld := mkToyWorld { tw_admin : AdminDb; tw_now : Z; tw_id : string }.

#[local] Instance toy_clock : Clock ToyWorld := tw_now.
#[local] Instance toy_admin : AdminWorld ToyWorld.
Proof. refine {| admin_of := tw_admin; set_admin db w := mkToyWorld db (tw_now w) (tw_id w) |}. done. Defined.

#[local] Instance toy_chi : Chi ToyWorld := fun cfg rts r w =>
  match List.find (fun rt => bool_decide (rt_Method rt = Method r) && bool_decide (rt_Pattern rt = Path r)) rts with
  | Some rt => serve_route cfg rt [("id", tw_id w)] r w
  | None => (w, mkResponse 404 "404 page not found")
  end.

#[local] Instance toy_chi_law : ChiLaw ToyWorld.
Proof.
  constructor. intros cfg rts r w. unfold ServeHTTP, toy_chi. destruct (List.find _ rts) as [rt|] eqn:Hf.
  - left. apply List.find_some in Hf as [Hin Hb]. rewrite andb_true_iff, !bool_decide_eq_true in Hb.
    exists rt, [("id", tw_id w)]. split_and!; [by apply list_elem_of_In|naive_solver|done].
  - right. exists (mkResponse 404 "404 page not found"). split; [by left|done].
Qed.







