(* ===== verification/Review.v ===== *)
(** Human review of agent actions: [internal/domain/review.go],
    [internal/adapter/postgres/review_repository.go], [queries/review.sql] and
    [internal/usecase/hitl/hitl.go].

    Every statement is one atomic step on the review table; a use case is a
    sequence of statements, and other requests may run between them. *)

From stdpp Require Import base gmap strings list numbers.
From S2P Require Import GoPrelude Bytes Uuid Errors Tenancy Sha256 Http ChatModel AuditLog.

(** ** Data *)

Inductive ReviewStatus :=
| ReviewStatusPending | ReviewStatusApproved | ReviewStatusRejected
| ReviewStatusExpired | ReviewStatusExecuted.

#[global] Instance ReviewStatus_eq_dec : EqDecision ReviewStatus.
Proof. solve_decision. Defined.

(** [CanTransitionTo] *)
Definition review_CanTransitionTo (s target : ReviewStatus) : bool :=
  match s with
  | ReviewStatusPending =>
      bool_decide (target = ReviewStatusApproved) || bool_decide (target = ReviewStatusRejected) ||
      bool_decide (target = ReviewStatusExpired)
  | ReviewStatusApproved => bool_decide (target = ReviewStatusExecuted)
  | _ => false
  end.

Record ReviewRequest := mkReview {
  rv_ID : UUID;
  rv_TenantID : UUID;
  rv_RequesterID : UUID;
  rv_ReviewerID : option UUID;
  rv_TokenHash : bytes;       (* hex text after a look-up by token, raw bytes otherwise *)
  rv_Action : string;
  rv_Payload : string;
  rv_Status : ReviewStatus;
  rv_ExpiresAt : Z;
  rv_DecidedAt : option Z;
  rv_DecidedBy : option UUID;
  rv_DecisionReason : string;
  rv_CreatedAt : Z;
  rv_UpdatedAt : Z;           (* 0 for the zero time *)
}.

Definition review_IsExpired (now : Z) (r : ReviewRequest) : bool := rv_ExpiresAt r <? now.

(** A row of [review_requests]; the CHECK on [status] admits these five texts. *)
Record review_row := mkReviewRow {
  rr_ID : UUID;
  rr_TenantID : UUID;
  rr_RequesterID : UUID;
  rr_ReviewerID : option UUID;
  rr_Action : string;
  rr_Payload : string;
  rr_Status : ReviewStatus;
  rr_TokenHash : bytes;
  rr_ExpiresAt : Z;
  rr_DecidedAt : option Z;
  rr_DecidedBy : option UUID;
  rr_DecisionReason : option string;
  rr_CreatedAt : Z;
  rr_UpdatedAt : Z;
}.

Abbreviation ReviewTable := (gmap (UUID * UUID) review_row).

(** [encoding/json] on payloads: marshalling a map ([None] is the nil map),
    whether a text decodes into a map, and its "action" field if that is a string. *)
Class PayloadJson := {
  json_Marshal : option (list (string * json)) -> result error string;
  decodes_to_map : string -> bool;
  action_field : string -> option string;
}.

Definition review_hashToken (token : string) : bytes := Sum256 (bytes_of_string token).

(** [status = s, updated_at = now()] *)
Definition set_status (now : Z) (s : ReviewStatus) (r : review_row) : review_row :=
  mkReviewRow (rr_ID r) (rr_TenantID r) (rr_RequesterID r) (rr_ReviewerID r) (rr_Action r) (rr_Payload r) s
    (rr_TokenHash r) (rr_ExpiresAt r) (rr_DecidedAt r) (rr_DecidedBy r) (rr_DecisionReason r) (rr_CreatedAt r) (pg_time now).

(** [status = s, decided_at = now(), decided_by = u, decision_reason = NULL]: the
    repository passes no reason. *)
Definition set_decided (now : Z) (s : ReviewStatus) (u : UUID) (r : review_row) : review_row :=
  mkReviewRow (rr_ID r) (rr_TenantID r) (rr_RequesterID r) (rr_ReviewerID r) (rr_Action r) (rr_Payload r) s
    (rr_TokenHash r) (rr_ExpiresAt r) (Some (pg_time now)) (Some u) None (rr_CreatedAt r) (pg_time now).

(** [expires_at > now()] *)
Definition row_current (now : Z) (r : review_row) : bool := pg_time now <? rr_ExpiresAt r.

(** ** The repository *)

Section Repository.
Context `{PayloadJson, JsonText} (env : DbEnv).

Definition extractActionFromPayload (payload : string) : string := default "unknown" (action_field payload).

Definition convertSQLCReviewRequest (e : review_row) : ReviewRequest :=
  mkReview (rr_ID e) (rr_TenantID e) (rr_RequesterID e) (rr_ReviewerID e) (rr_TokenHash e)
    (extractActionFromPayload (rr_Payload e)) (rr_Payload e) (rr_Status e) (rr_ExpiresAt e) (rr_DecidedAt e)
    (rr_DecidedBy e) (default "" (rr_DecisionReason e)) (rr_CreatedAt e) 0.

(** [Create]: [id] and [token] are the random draws, [tenants] the rows the foreign
    key finds. The reviewer is not passed on. *)
Definition review_Create (tenants : gset UUID) (now : Z) (id : UUID) (token : string) (req : ReviewRequest) (tbl : ReviewTable)
    : ReviewTable * result error (ReviewRequest * string) :=
  WithTenant env (rv_TenantID req) (fun c tbl =>
    if negb (rls_visible env c (rv_TenantID req)) then (tbl, Err (EWrap "failed to create review request" rls_check_error))
    else match jsonb_out (rv_Payload req) with
    | None => (tbl, Err (EWrap "failed to create review request" (EOther "invalid input syntax for type json")))
    | Some payload =>
        if negb (bool_decide (rv_TenantID req ∈ tenants))
        then (tbl, Err (EWrap "failed to create review request" tenant_fk_error))
        else match tbl !! (id, rv_TenantID req) with
        | Some _ => (tbl, Err (EWrap "failed to create review request" unique_error))
        | None =>
            let row := mkReviewRow id (rv_TenantID req) (rv_RequesterID req) None (rv_Action req) payload
                         ReviewStatusPending (review_hashToken token) (pg_time (rv_ExpiresAt req)) None None None
                         (pg_time now) (pg_time now) in
            (<[(id, rv_TenantID req) := row]> tbl, Ok (convertSQLCReviewRequest row, token))
        end
    end) tbl.

Definition review_GetByID (tenantID id : UUID) (tbl : ReviewTable) : ReviewTable * result error ReviewRequest :=
  WithTenant env tenantID (fun c tbl =>
    match tbl !! (id, tenantID) with
    | Some row => if rls_visible env c tenantID then (tbl, Ok (convertSQLCReviewRequest row))
                  else (tbl, Err (if bool_decide (db_no_rows env = ESqlNoRows) then (ErrNotFound : error)
                                  else EWrap "failed to get review request" (db_no_rows env)))
    | None => (tbl, Err (if bool_decide (db_no_rows env = ESqlNoRows) then (ErrNotFound : error)
                         else EWrap "failed to get review request" (db_no_rows env)))
    end) tbl.

(** The row as [GetByTokenHash] scans it: the decision columns go to variables that
    are dropped, and the hash becomes hex text. *)
Definition scan_by_token (e : review_row) : ReviewRequest :=
  mkReview (rr_ID e) (rr_TenantID e) (rr_RequesterID e) (rr_ReviewerID e) (hex_encode (rr_TokenHash e))
    (rr_Action e) (rr_Payload e) (rr_Status e) (rr_ExpiresAt e) None None "" (rr_CreatedAt e) (rr_UpdatedAt e).

(** Across tenants, on the pool. *)
Definition GetByTokenHash (tokenHash : bytes) (tbl : ReviewTable) : ReviewTable * result error ReviewRequest :=
  match db_outage env with
  | Some e => (tbl, Err (EWrap "failed to get review request by token hash" e))
  | None =>
      match List.find (fun r => rls_visible env pool_conn (rr_TenantID r) && bool_decide (rr_TokenHash r = tokenHash))
              (map snd (map_to_list tbl)) with
      | Some row => (tbl, Ok (scan_by_token row))
      | None => (tbl, Err (if bool_decide (db_no_rows env = ESqlNoRows) then (ErrNotFound : error)
                           else EWrap "failed to get review request by token hash" (db_no_rows env)))
      end
  end.

(** [ApproveReviewRequest] and [RejectReviewRequest]. *)
Definition decide_row (now : Z) (tenantID id : UUID) (s : ReviewStatus) (by_ : UUID) (c : Conn) (tbl : ReviewTable)
    : ReviewTable * result error unit :=
  match tbl !! (id, tenantID) with
  | Some row =>
      if rls_visible env c tenantID && bool_decide (rr_Status row = ReviewStatusPending) && row_current now row
      then (<[(id, tenantID) := set_decided now s by_ row]> tbl, Ok tt)
      else (tbl, Err (db_no_rows env))
  | None => (tbl, Err (db_no_rows env))
  end.

(** The statement of the default case, which never reports that no row matched. *)
Definition move_pending (now : Z) (tenantID id : UUID) (s : ReviewStatus) (c : Conn) (tbl : ReviewTable)
    : ReviewTable * result error unit :=
  match tbl !! (id, tenantID) with
  | Some row =>
      if rls_visible env c tenantID && bool_decide (rr_Status row = ReviewStatusPending)
      then (<[(id, tenantID) := set_status now s row]> tbl, Ok tt) else (tbl, Ok tt)
  | None => (tbl, Ok tt)
  end.

Definition update_error (e : error) : error :=
  if bool_decide (e = ESqlNoRows) then ErrReviewNotPending else EWrap "failed to update review status" e.

Definition review_UpdateStatus (now : Z) (tenantID id : UUID) (s : ReviewStatus) (decidedBy : UUID) (tbl : ReviewTable)
    : ReviewTable * result error unit :=
  WithTenant env tenantID (fun c tbl =>
    let '(tbl, res) :=
      match s with
      | ReviewStatusApproved | ReviewStatusRejected => decide_row now tenantID id s decidedBy c tbl
      | _ => move_pending now tenantID id s c tbl
      end in
    match res with
    | Ok _ => (tbl, Ok tt)
    | Err e => (tbl, Err (update_error e))
    end) tbl.

Definition MarkExecuted (now : Z) (tenantID id : UUID) (tbl : ReviewTable) : ReviewTable * result error unit :=
  WithTenant env tenantID (fun c tbl =>
    match tbl !! (id, tenantID) with
    | Some row =>
        if rls_visible env c tenantID && bool_decide (rr_Status row = ReviewStatusApproved)
        then (<[(id, tenantID) := set_status now ReviewStatusExecuted row]> tbl, Ok tt)
        else (tbl, Err (ErrReviewNotPending : error))
    | None => (tbl, Err (ErrReviewNotPending : error))
    end) tbl.

(** [SweepExpiredReviews] *)
Definition sweepable (c : Conn) (now : Z) (tenantID : UUID) (r : review_row) : bool :=
  rls_visible env c tenantID && bool_decide (rr_TenantID r = tenantID) &&
  bool_decide (rr_Status r = ReviewStatusPending) && negb (row_current now r).

Definition sweep_tenant (now : Z) (tenantID : UUID) (tbl : ReviewTable) : ReviewTable * result error unit :=
  WithTenant env tenantID (fun c tbl =>
    ((fun r => if sweepable c now tenantID r then set_status now ReviewStatusExpired r else r) <$> tbl, Ok tt)) tbl.

Definition one_minute : Z := 60 * 1000000000.

Definition recently_expired (now : Z) (tenantID : UUID) (r : review_row) : bool :=
  rls_visible env pool_conn tenantID && bool_decide (rr_TenantID r = tenantID) &&
  bool_decide (rr_Status r = ReviewStatusExpired) && (pg_time now - one_minute <? rr_UpdatedAt r).

Fixpoint sweep_tenants (now : Z) (tenants : list UUID) (total : Z) (tbl : ReviewTable) : ReviewTable * result error Z :=
  match tenants with
  | [] => (tbl, Ok total)
  | t :: tenants =>
      match sweep_tenant now t tbl with
      | (tbl, Err e) => (tbl, Err e)
      | (tbl, Ok _) => sweep_tenants now tenants (total + Z.of_nat (map_count (recently_expired now t) tbl)) tbl
      end
  end.

Definition pending_tenants (tbl : ReviewTable) : list UUID :=
  elements (list_to_set (C := gset UUID) (map (fun r => rr_TenantID r)
    (List.filter (fun r => rls_visible env pool_conn (rr_TenantID r) && bool_decide (rr_Status r = ReviewStatusPending))
      (map snd (map_to_list tbl))))).

Definition repo_ExpirePending (now : Z) (tbl : ReviewTable) : ReviewTable * result error Z :=
  match db_outage env with
  | Some e => (tbl, Err (EWrap "failed to get tenants with pending reviews" e))
  | None => sweep_tenants now (pending_tenants tbl) 0 tbl
  end.
End Repository.

(** ** The use case *)

Record ReviewWorld := mkReviewWorld { rw_reviews : ReviewTable; rw_audit : AuditDb; rw_tenants : gset UUID }.

Definition set_reviews (w : ReviewWorld) (t : ReviewTable) : ReviewWorld := mkReviewWorld t (rw_audit w) (rw_tenants w).
Definition set_audit (w : ReviewWorld) (a : AuditDb) : ReviewWorld := mkReviewWorld (rw_reviews w) a (rw_tenants w).

(** A JSON object of text fields written by [fmt.Sprintf]: values are not escaped. *)
Definition json_field (kv : string * string) : string :=
  quote +:+ fst kv +:+ quote +:+ ":" +:+ quote +:+ snd kv +:+ quote.
Definition json_fields (l : list (string * string)) : string := "{" +:+ join "," (map json_field l) +:+ "}".

Definition review_event (tenant : UUID) (actor : option UUID) (action : string) (entity : option UUID)
    (payload severity : string) (now : Z) : AuditEvent :=
  mkAuditEvent ZeroUUID tenant 0 [] [] actor action "review_request" entity payload severity now.

Definition twenty_four_hours : Z := 24 * 3600 * 1000000000.

Section UseCase.
Context `{PayloadJson, JsonText} (env : DbEnv).

Definition on_reviews {A} (f : ReviewTable -> ReviewTable * result error A) (w : ReviewWorld) : ReviewWorld * result error A :=
  let '(t, res) := f (rw_reviews w) in (set_reviews w t, res).

(** [auditRepo.Append], whose error is only logged. The log's tenant must exist;
    [aid] is the id the database draws. *)
Definition emit (now : Z) (aid : UUID) (e : AuditEvent) (w : ReviewWorld) : ReviewWorld :=
  if bool_decide (ae_TenantID e ∈ rw_tenants w) then set_audit w (fst (Append env now aid e (rw_audit w))) else w.

Record CreateReviewInput := mkCreateReviewInput {
  cr_TenantID : UUID;
  cr_RequesterID : UUID;
  cr_Action : string;
  cr_Payload : option (list (string * json));
  cr_ReviewerID : option UUID;
  cr_TTL : Z;
}.

Definition review_ttl (defaultTTL ttl : Z) : Z :=
  let ttl := if ttl =? 0 then defaultTTL else ttl in
  if ttl =? 0 then twenty_four_hours else ttl.

Definition CreateReview (defaultTTL now : Z) (id aid : UUID) (token : string) (input : CreateReviewInput) (w : ReviewWorld)
    : ReviewWorld * result error (ReviewRequest * string) :=
  match json_Marshal (cr_Payload input) with
  | Err e => (w, Err (EWrap "failed to marshal payload" e))
  | Ok payload =>
      let review := mkReview ZeroUUID (cr_TenantID input) (cr_RequesterID input) (cr_ReviewerID input) []
                      (cr_Action input) payload ReviewStatusPending (now + review_ttl defaultTTL (cr_TTL input))
                      None None "" 0 0 in
      match on_reviews (review_Create env (rw_tenants w) now id token review) w with
      | (w, Err e) => (w, Err (EWrap "failed to create review" e))
      | (w, Ok (created, token)) =>
          let e := review_event (cr_TenantID input) (Some (cr_RequesterID input)) "review.created" (Some (rv_ID created))
                     (json_fields [("review_id", uuid_String (rv_ID created)); ("action", cr_Action input)]) "info" now in
          (emit now aid e w, Ok (created, token))
      end
  end.

Definition GetStatus (tenantID reviewID : UUID) (w : ReviewWorld) : ReviewWorld * result error ReviewRequest :=
  on_reviews (review_GetByID env tenantID reviewID) w.

Record DecideInput := mkDecideInput { di_Token : string; di_DecidedBy : UUID; di_DecisionReason : string }.

Definition lookup_error (e : error) : error :=
  if bool_decide (e = (ErrNotFound : error)) then ErrInvalidToken else EWrap "failed to get review" e.

Definition rejectWithReason (now : Z) (review : ReviewRequest) (decidedBy : UUID) (w : ReviewWorld) : ReviewWorld :=
  fst (on_reviews (review_UpdateStatus env now (rv_TenantID review) (rv_ID review) ReviewStatusRejected decidedBy) w).

(** [Approve] up to the transition. *)
Definition approve_check (now : Z) (input : DecideInput) (w : ReviewWorld) : ReviewWorld * result error ReviewRequest :=
  let tokenHash := review_hashToken (di_Token input) in
  match on_reviews (GetByTokenHash env tokenHash) w with
  | (w, Err e) => (w, Err (lookup_error e))
  | (w, Ok review) =>
      match hex_decode (rv_TokenHash review) with
      | None => (w, Err (ErrInvalidToken : error))
      | Some storedHash =>
          if negb (ConstantTimeCompare storedHash tokenHash =? 1) then (w, Err (ErrInvalidToken : error))
          else if negb (bool_decide (rv_Status review = ReviewStatusPending)) then (w, Err (ErrReviewNotPending : error))
          else if review_IsExpired now review then (w, Err (ErrExpired : error))
          else if negb (decodes_to_map (rv_Payload review))
          then (rejectWithReason now review (di_DecidedBy input) w, Err (ErrValidation : error))
          else if bool_decide (rv_Action review = "")
          then (rejectWithReason now review (di_DecidedBy input) w, Err (ErrValidation : error))
          else (w, Ok review)
      end
  end.

(** The transition, the re-read and the audit event; [what] is the past participle
    and the infinitive of the decision. *)
Definition decide_commit (s : ReviewStatus) (what : string * string) (now : Z) (aid : UUID) (input : DecideInput)
    (review : ReviewRequest) (w : ReviewWorld) : ReviewWorld * result error ReviewRequest :=
  match on_reviews (review_UpdateStatus env now (rv_TenantID review) (rv_ID review) s (di_DecidedBy input)) w with
  | (w, Err e) =>
      if bool_decide (e = (ErrReviewNotPending : error)) then (w, Err (ErrReviewNotPending : error))
      else (w, Err (EWrap ("failed to " +:+ snd what +:+ " review") e))
  | (w, Ok _) =>
      match on_reviews (review_GetByID env (rv_TenantID review) (rv_ID review)) w with
      | (w, Err e) => (w, Err (EWrap ("failed to get " +:+ fst what +:+ " review") e))
      | (w, Ok decided) =>
          let e := review_event (rv_TenantID review) (Some (di_DecidedBy input)) ("review." +:+ fst what) (Some (rv_ID review))
                     (json_fields [("review_id", uuid_String (rv_ID review)); ("action", rv_Action review);
                                   ("decision_reason", di_DecisionReason input)]) "info" now in
          (emit now aid e w, Ok decided)
      end
  end.

Definition approve_commit := decide_commit ReviewStatusApproved ("approved", "approve").

Definition Approve (now : Z) (aid : UUID) (input : DecideInput) (w : ReviewWorld) : ReviewWorld * result error ReviewRequest :=
  match approve_check now input w with
  | (w, Err e) => (w, Err e)
  | (w, Ok review) => approve_commit now aid input review w
  end.

(** [Reject] compares the hex text of the stored hash with the raw hash. *)
Definition Reject (now : Z) (aid : UUID) (input : DecideInput) (w : ReviewWorld) : ReviewWorld * result error ReviewRequest :=
  let tokenHash := review_hashToken (di_Token input) in
  match on_reviews (GetByTokenHash env tokenHash) w with
  | (w, Err e) => (w, Err (lookup_error e))
  | (w, Ok review) =>
      if negb (ConstantTimeCompare (rv_TokenHash review) tokenHash =? 1) then (w, Err (ErrInvalidToken : error))
      else if negb (bool_decide (rv_Status review = ReviewStatusPending)) then (w, Err (ErrReviewNotPending : error))
      else if review_IsExpired now review then (w, Err (ErrExpired : error))
      else decide_commit ReviewStatusRejected ("rejected", "reject") now aid input review w
  end.

Record ExecuteInput := mkExecuteInput { xi_TenantID : UUID; xi_ReviewID : UUID; xi_ActorID : UUID }.

Definition review_Execute (now : Z) (aid : UUID) (input : ExecuteInput) (w : ReviewWorld)
    : ReviewWorld * result error ReviewRequest :=
  match on_reviews (review_GetByID env (xi_TenantID input) (xi_ReviewID input)) w with
  | (w, Err e) => (w, Err e)
  | (w, Ok review) =>
      if negb (bool_decide (rv_Status review = ReviewStatusApproved)) then (w, Err (ErrReviewNotPending : error))
      else match on_reviews (MarkExecuted env now (xi_TenantID input) (xi_ReviewID input)) w with
      | (w, Err e) => (w, Err (EWrap "failed to mark review executed" e))
      | (w, Ok _) =>
          match on_reviews (review_GetByID env (xi_TenantID input) (xi_ReviewID input)) w with
          | (w, Err e) => (w, Err (EWrap "failed to get executed review" e))
          | (w, Ok executed) =>
              let e := review_event (xi_TenantID input) (Some (xi_ActorID input)) "review.executed" (Some (xi_ReviewID input))
                         (json_fields [("review_id", uuid_String (xi_ReviewID input)); ("action", rv_Action review)]) "info" now in
              (emit now aid e w, Ok executed)
          end
      end
  end.

(** The summary event is filed under a freshly drawn tenant. *)
Definition ExpirePending (now : Z) (fresh aid : UUID) (w : ReviewWorld) : ReviewWorld * result error Z :=
  match on_reviews (repo_ExpirePending env now) w with
  | (w, Err e) => (w, Err e)
  | (w, Ok count) =>
      let e := review_event fresh None "review.expired" None
                 ("{" +:+ quote +:+ "expired_count" +:+ quote +:+ ":" +:+ string_of_bytes (FormatInt count) +:+ "}") "warn" now in
      (if count >? 0 then emit now aid e w else w, Ok count)
  end.
End UseCase.

(** * The life of a review

    One step is one statement, whichever request runs it, so the steps of
    concurrent use cases interleave freely. *)

Inductive review_step `{PayloadJson, JsonText} (tbl : ReviewTable) : ReviewTable -> Prop :=
| step_create (env : DbEnv) tenants now id token req :
    (forall k r, tbl !! k = Some r -> rr_TokenHash r <> review_hashToken token) ->
    review_step tbl (fst (review_Create env tenants now id token req tbl))
| step_decide (env : DbEnv) now tenantID id s decidedBy :
    s = ReviewStatusApproved \/ s = ReviewStatusRejected \/ s = ReviewStatusExpired ->
    review_step tbl (fst (review_UpdateStatus env now tenantID id s decidedBy tbl))
| step_execute (env : DbEnv) now tenantID id :
    review_step tbl (fst (MarkExecuted env now tenantID id tbl))
| step_sweep (env : DbEnv) now tenantID :
    review_step tbl (fst (sweep_tenant env now tenantID tbl)).

(** What a statement may do to a row. *)
Inductive row_step (r : review_row) : review_row -> Prop :=
| row_decided now s decidedBy :
    rr_Status r = ReviewStatusPending -> row_current now r = true ->
    s = ReviewStatusApproved \/ s = ReviewStatusRejected -> row_step r (set_decided now s decidedBy r)
| row_expired now :
    rr_Status r = ReviewStatusPending -> row_step r (set_status now ReviewStatusExpired r)
| row_executed now :
    rr_Status r = ReviewStatusApproved -> row_step r (set_status now ReviewStatusExecuted r).

(** The decision columns agree with the status; reviewer and reason stay NULL. *)
Definition row_ok (r : review_row) : Prop :=
  rr_ReviewerID r = None /\ rr_DecisionReason r = None /\
  match rr_Status r with
  | ReviewStatusPending | ReviewStatusExpired => rr_DecidedBy r = None /\ rr_DecidedAt r = None
  | _ => (exists u, rr_DecidedBy r = Some u) /\ exists t, rr_DecidedAt r = Some t /\ t < rr_ExpiresAt r
  end.

Record reviews_ok (tbl : ReviewTable) : Prop := mkReviewsOk {
  rok_key : forall k r, tbl !! k = Some r -> k = (rr_ID r, rr_TenantID r);
  rok_hash : forall k1 k2 r1 r2, tbl !! k1 = Some r1 -> tbl !! k2 = Some r2 ->
    rr_TokenHash r1 = rr_TokenHash r2 -> k1 = k2;
  rok_row : forall k r, tbl !! k = Some r -> row_ok r;
}.

(** What never changes in a row, and what a taken decision fixes. *)
Definition same_request (r r' : review_row) : Prop :=
  rr_ID r' = rr_ID r /\ rr_TenantID r' = rr_TenantID r /\ rr_RequesterID r' = rr_RequesterID r /\
  rr_Action r' = rr_Action r /\ rr_Payload r' = rr_Payload r /\ rr_TokenHash r' = rr_TokenHash r /\
  rr_ExpiresAt r' = rr_ExpiresAt r.

Definition review_moves (r r' : review_row) : Prop :=
  same_request r r' /\
  rtc (fun s s' => review_CanTransitionTo s s' = true) (rr_Status r) (rr_Status r') /\
  (rr_Status r <> ReviewStatusPending -> rr_DecidedBy r' = rr_DecidedBy r /\ rr_DecidedAt r' = rr_DecidedAt r).

Lemma row_step_ok r r' : row_step r r' -> row_ok r -> row_ok r'.
Proof.
  unfold row_ok. intros [now s u Hs Hc [-> | ->]|now Hs|now Hs] (? & ? & Hd); rewrite Hs in Hd;
    cbn; (split; [done|]); (split; [done|]); try exact Hd; (split; [eauto|]); eexists; (split; [reflexivity|by apply Z.ltb_lt]).
Qed.

Lemma row_step_same r r' : row_step r r' -> same_request r r'.
Proof. intros []; repeat split. Qed.

(** Every statement moves a row along the domain's transition table. *)
Lemma row_step_transition r r' : row_step r r' -> review_CanTransitionTo (rr_Status r) (rr_Status r') = true.
Proof. intros [now s u Hs Hc [-> | ->]|now Hs|now Hs]; rewrite Hs; reflexivity. Qed.

Lemma row_step_moves r r' : row_step r r' -> review_moves r r'.
Proof.
  intros Hs. split; [by apply row_step_same|]. split; [by apply rtc_once, row_step_transition|].
  destruct Hs; done.
Qed.

Lemma transitions_from_final s s' :
  rtc (fun s s' => review_CanTransitionTo s s' = true) s s' -> s <> ReviewStatusPending -> s' <> ReviewStatusPending.
Proof.
  induction 1 as [s|s s1 s2 Ht _ IH]; [done|]. intros Hs. apply IH.
  destruct s, s1; done.
Qed.

Lemma review_moves_refl r : review_moves r r.
Proof. repeat split; done || apply rtc_refl. Qed.

Lemma review_moves_trans r1 r2 r3 : review_moves r1 r2 -> review_moves r2 r3 -> review_moves r1 r3.
Proof.
  intros (S1 & T1 & D1) (S2 & T2 & D2). split; [unfold same_request in *; intuition congruence|].
  split; [by etrans|]. intros Hp. pose proof (transitions_from_final _ _ T1 Hp) as Hp2.
  destruct (D1 Hp), (D2 Hp2). split; congruence.
Qed.

(** A step either adds one fresh row, or moves rows. *)
Inductive table_change (tbl : ReviewTable) : ReviewTable -> Prop :=
| change_rows tbl' :
    (forall k, match tbl !! k, tbl' !! k with
               | Some r, Some r' => r' = r \/ row_step r r'
               | None, None => True
               | _, _ => False
               end) -> table_change tbl tbl'
| change_new k r :
    tbl !! k = None -> k = (rr_ID r, rr_TenantID r) -> row_ok r -> rr_Status r = ReviewStatusPending ->
    (forall k' r', tbl !! k' = Some r' -> rr_TokenHash r' <> rr_TokenHash r) ->
    table_change tbl (<[k := r]> tbl).

Lemma table_change_none (tbl : ReviewTable) : table_change tbl tbl.
Proof. apply change_rows. intros k. destruct (tbl !! k); auto. Qed.

Lemma table_change_row (tbl : ReviewTable) k r r' :
  tbl !! k = Some r -> row_step r r' -> table_change tbl (<[k := r']> tbl).
Proof.
  intros Hk Hs. apply change_rows. intros i. destruct (decide (k = i)) as [<-|Hne].
  - rewrite Hk, lookup_insert_eq. by right.
  - rewrite lookup_insert_ne by done. destruct (tbl !! i); auto.
Qed.
#[export] Hint Resolve table_change_none : gateway.

Section Changes.
Context `{PayloadJson, JsonText} (env : DbEnv).

Lemma review_Create_change tenants now id token req tbl :
  (forall k r, tbl !! k = Some r -> rr_TokenHash r <> review_hashToken token) ->
  table_change tbl (fst (review_Create env tenants now id token req tbl)).
Proof.
  intros Hh. unfold review_Create, WithTenant. destruct (db_outage env); [apply table_change_none|].
  destruct (negb _); [apply table_change_none|]. destruct (jsonb_out _); [|apply table_change_none].
  destruct (negb _); [apply table_change_none|].
  destruct (tbl !! _) eqn:Hk; [apply table_change_none|]. apply change_new; done.
Qed.

Lemma decide_row_change now tenantID id s u c tbl :
  s = ReviewStatusApproved \/ s = ReviewStatusRejected ->
  table_change tbl (fst (decide_row env now tenantID id s u c tbl)).
Proof.
  intros Hs. unfold decide_row. destruct (tbl !! _) as [r|] eqn:Hk; [|apply table_change_none].
  destruct (_ && _ && _) eqn:Hg; [|apply table_change_none]. reflect_bools.
  eapply table_change_row; [done|]. by constructor.
Qed.

Lemma review_UpdateStatus_change now tenantID id s u tbl :
  s = ReviewStatusApproved \/ s = ReviewStatusRejected \/ s = ReviewStatusExpired ->
  table_change tbl (fst (review_UpdateStatus env now tenantID id s u tbl)).
Proof.
  intros Hs. unfold review_UpdateStatus, WithTenant. destruct (db_outage env); [apply table_change_none|].
  assert (table_change tbl (fst (match s with
    | ReviewStatusApproved | ReviewStatusRejected => decide_row env now tenantID id s u pool_conn tbl
    | _ => move_pending env now tenantID id s pool_conn tbl end))) as Hc.
  { destruct Hs as [-> |[-> | ->]]; [apply decide_row_change; auto..|].
    unfold move_pending. destruct (tbl !! _) as [r|] eqn:Hk; [|apply table_change_none].
    destruct (_ && _) eqn:Hg; [|apply table_change_none]. reflect_bools.
    eapply table_change_row; [done|]. by constructor. }
  destruct (match s with ReviewStatusApproved => _ | _ => _ end) as [t []]; done.
Qed.

Lemma MarkExecuted_change now tenantID id tbl : table_change tbl (fst (MarkExecuted env now tenantID id tbl)).
Proof.
  unfold MarkExecuted, WithTenant. destruct (db_outage env); [apply table_change_none|].
  destruct (tbl !! _) as [r|] eqn:Hk; [|apply table_change_none].
  destruct (_ && _) eqn:Hg; [|apply table_change_none]. reflect_bools.
  eapply table_change_row; [done|]. by constructor.
Qed.

Lemma sweep_tenant_change now tenantID tbl : table_change tbl (fst (sweep_tenant env now tenantID tbl)).
Proof.
  unfold sweep_tenant, WithTenant. destruct (db_outage env); [apply table_change_none|].
  apply change_rows. intros k. cbn [fst]. rewrite lookup_fmap. destruct (tbl !! k) as [r|]; [|done]. cbn.
  destruct (sweepable _ _ _ _ r) eqn:Hg; [|auto]. right. unfold sweepable in Hg. reflect_bools. by constructor.
Qed.
End Changes.

Lemma review_step_change `{PayloadJson, JsonText} tbl tbl' : review_step tbl tbl' -> table_change tbl tbl'.
Proof.
  intros []; [by apply review_Create_change|by apply review_UpdateStatus_change|
    apply MarkExecuted_change|apply sweep_tenant_change].
Qed.

Lemma table_change_ok tbl tbl' : table_change tbl tbl' -> reviews_ok tbl -> reviews_ok tbl'.
Proof.
  intros [t Hrows|k r Hnew Hk Hrow _ Hh] [Ok_key Ok_hash Ok_row].
  - assert (Hback : forall k r', t !! k = Some r' -> exists r, tbl !! k = Some r /\ (r' = r \/ row_step r r')).
    { intros k r' Hk. specialize (Hrows k). rewrite Hk in Hrows. destruct (tbl !! k); naive_solver. }
    split.
    + intros k r' Hk. destruct (Hback k r' Hk) as (r & Hr & [->|Hs]); [eauto|].
      apply row_step_same in Hs as (-> & -> & _). eauto.
    + intros k1 k2 r1' r2' H1 H2 He.
      destruct (Hback _ _ H1) as (r1 & Hr1 & M1), (Hback _ _ H2) as (r2 & Hr2 & M2).
      apply (Ok_hash k1 k2 r1 r2 Hr1 Hr2).
      destruct M1 as [->|(_ & _ & _ & _ & _ & <- & _)%row_step_same],
               M2 as [->|(_ & _ & _ & _ & _ & <- & _)%row_step_same]; done.
    + intros k r' Hk. destruct (Hback k r' Hk) as (r & Hr & [->|Hs]); [eauto|].
      eapply row_step_ok; eauto.
  - split.
    + intros i x. rewrite lookup_insert_Some. naive_solver.
    + intros k1 k2 r1 r2. rewrite !lookup_insert_Some.
      intros [[<- <-]|[? H1]] [[<- <-]|[? H2]] He; try done; [by destruct (Hh k2 r2)|by destruct (Hh k1 r1)|eauto].
    + intros i x. rewrite lookup_insert_Some. naive_solver.
Qed.

Lemma table_change_moves tbl tbl' k r :
  table_change tbl tbl' -> tbl !! k = Some r -> exists r', tbl' !! k = Some r' /\ review_moves r r'.
Proof.
  intros [t Hrows|i x Hnew _ _ _ _] Hk.
  - specialize (Hrows k). rewrite Hk in Hrows. destruct (t !! k) as [r'|]; [|done].
    exists r'. split; [done|]. destruct Hrows as [->|Hs]; [apply review_moves_refl|by apply row_step_moves].
  - exists r. rewrite lookup_insert_ne by congruence. split; [done|apply review_moves_refl].
Qed.

Lemma review_steps_ok `{PayloadJson, JsonText} tbl tbl' :
  rtc review_step tbl tbl' -> reviews_ok tbl ->
  reviews_ok tbl' /\ forall k r, tbl !! k = Some r -> exists r', tbl' !! k = Some r' /\ review_moves r r'.
Proof.
  induction 1 as [t|t1 t2 t3 Hs _ IH]; intros Hok.
  - split; [done|]. intros k r Hk. exists r. split; [done|apply review_moves_refl].
  - apply review_step_change in Hs. destruct (IH (table_change_ok _ _ Hs Hok)) as [Hok3 Hm].
    split; [done|]. intros k r Hk. destruct (table_change_moves _ _ _ _ Hs Hk) as (r2 & Hk2 & M2).
    destruct (Hm k r2 Hk2) as (r3 & Hk3 & M3). exists r3. split; [done|by eapply review_moves_trans].
Qed.

(** ** The use cases are sequences of statements *)

Section Steps.
Context `{PayloadJson, JsonText} (env : DbEnv).

Lemma on_reviews_fst {A} (f : ReviewTable -> ReviewTable * result error A) w :
  fst (on_reviews f w) = set_reviews w (fst (f (rw_reviews w))).
Proof. unfold on_reviews. by destruct (f _). Qed.

Lemma on_reviews_eq {A} (f : ReviewTable -> ReviewTable * result error A) w w' r :
  on_reviews f w = (w', r) -> w' = set_reviews w (fst (f (rw_reviews w))) /\ r = snd (f (rw_reviews w)).
Proof. unfold on_reviews. destruct (f _). intros [= <- <-]. done. Qed.

Lemma emit_reviews now aid e w : rw_reviews (emit env now aid e w) = rw_reviews w.
Proof. unfold emit. by destruct (bool_decide _). Qed.

Lemma review_GetByID_fst tenantID id tbl : fst (review_GetByID env tenantID id tbl) = tbl.
Proof.
  unfold review_GetByID, WithTenant. destruct (db_outage env); [done|].
  destruct (_ !! _); [|done]. by destruct (rls_visible _ _ _).
Qed.

Lemma GetByTokenHash_fst h tbl : fst (GetByTokenHash env h tbl) = tbl.
Proof. unfold GetByTokenHash. destruct (db_outage env); [done|]. by destruct (List.find _ _). Qed.

Lemma set_reviews_id w : set_reviews w (rw_reviews w) = w.
Proof. by destruct w. Qed.

Lemma decide_commit_steps s what now aid input review w :
  s = ReviewStatusApproved \/ s = ReviewStatusRejected ->
  rtc review_step (rw_reviews w) (rw_reviews (fst (decide_commit env s what now aid input review w))).
Proof.
  intros Hs. unfold decide_commit. destruct (on_reviews (review_UpdateStatus _ _ _ _ _ _) w) as [w1 r1] eqn:Hu.
  apply on_reviews_eq in Hu as [-> ->].
  assert (rtc review_step (rw_reviews w) (fst (review_UpdateStatus env now (rv_TenantID review) (rv_ID review) s
            (di_DecidedBy input) (rw_reviews w)))) as Hstep.
  { apply rtc_once, step_decide. tauto. }
  destruct (snd _) as [|e]; [|by destruct (bool_decide _)].
  destruct (on_reviews (review_GetByID _ _ _) _) as [w2 r2] eqn:Hg.
  apply on_reviews_eq in Hg as [-> ->]. rewrite review_GetByID_fst.
  destruct (snd (review_GetByID _ _ _ _)); [|done]. cbn [fst]. by rewrite emit_reviews.
Qed.

Lemma approve_check_steps now input w :
  rtc review_step (rw_reviews w) (rw_reviews (fst (approve_check env now input w))).
Proof.
  unfold approve_check. destruct (on_reviews (GetByTokenHash _ _) w) as [w1 r1] eqn:Hg.
  apply on_reviews_eq in Hg as [-> ->]. rewrite GetByTokenHash_fst, set_reviews_id.
  destruct (snd _) as [review|e]; [|done].
  assert (forall u, rtc review_step (rw_reviews w) (rw_reviews (rejectWithReason env now review u w))) as Hrej.
  { intros u. unfold rejectWithReason. rewrite on_reviews_fst. apply rtc_once, step_decide. tauto. }
  repeat (case_match; try apply rtc_refl; try apply Hrej).
Qed.

Lemma Approve_steps now aid input w :
  rtc review_step (rw_reviews w) (rw_reviews (fst (Approve env now aid input w))).
Proof.
  unfold Approve. pose proof (approve_check_steps now input w) as Hc.
  destruct (approve_check _ _ _ _) as [w1 [review|e]]; [|done]. cbn [fst] in Hc.
  etrans; [exact Hc|]. apply decide_commit_steps. auto.
Qed.

Lemma Reject_steps now aid input w :
  rtc review_step (rw_reviews w) (rw_reviews (fst (Reject env now aid input w))).
Proof.
  unfold Reject. destruct (on_reviews (GetByTokenHash _ _) w) as [w1 r1] eqn:Hg.
  apply on_reviews_eq in Hg as [-> ->]. rewrite GetByTokenHash_fst, set_reviews_id.
  destruct (snd _) as [review|e]; [|done].
  repeat (case_match; try apply rtc_refl). apply decide_commit_steps. auto.
Qed.

Lemma Execute_steps now aid input w :
  rtc review_step (rw_reviews w) (rw_reviews (fst (review_Execute env now aid input w))).
Proof.
  unfold review_Execute. destruct (on_reviews (review_GetByID _ _ _) w) as [w1 r1] eqn:Hg.
  apply on_reviews_eq in Hg as [-> ->]. rewrite review_GetByID_fst, set_reviews_id.
  destruct (snd _) as [review|e]; [|done]. destruct (negb _); [done|].
  destruct (on_reviews (MarkExecuted _ _ _ _) w) as [w1 r1] eqn:Hm. apply on_reviews_eq in Hm as [-> ->].
  assert (rtc review_step (rw_reviews w) (fst (MarkExecuted env now (xi_TenantID input) (xi_ReviewID input) (rw_reviews w)))) as Hs
    by apply rtc_once, step_execute.
  destruct (snd _); [|done]. destruct (on_reviews (review_GetByID _ _ _) _) as [w2 r2] eqn:Hg2.
  apply on_reviews_eq in Hg2 as [-> ->]. rewrite review_GetByID_fst.
  destruct (snd (review_GetByID _ _ _ _)); [|done]. cbn [fst]. by rewrite emit_reviews.
Qed.

Lemma sweep_tenants_steps now tenants total tbl :
  rtc review_step tbl (fst (sweep_tenants env now tenants total tbl)).
Proof.
  revert total tbl. induction tenants as [|t tenants IH]; intros total tbl; cbn [sweep_tenants]; [done|].
  assert (rtc review_step tbl (fst (sweep_tenant env now t tbl))) as Hs by apply rtc_once, step_sweep.
  destruct (sweep_tenant _ _ _ _) as [tbl1 [|]]; [|done]. etrans; [exact Hs|]. apply IH.
Qed.

Lemma ExpirePending_steps now fresh aid w :
  rtc review_step (rw_reviews w) (rw_reviews (fst (ExpirePending env now fresh aid w))).
Proof.
  unfold ExpirePending. destruct (on_reviews _ w) as [w1 r1] eqn:He. apply on_reviews_eq in He as [-> ->].
  assert (rtc review_step (rw_reviews w) (fst (repo_ExpirePending env now (rw_reviews w)))) as Hs.
  { unfold repo_ExpirePending. destruct (db_outage env); [done|]. apply sweep_tenants_steps. }
  destruct (snd _) as [c|]; [|done]. cbn [fst]. destruct (c >? 0); [|done]. by rewrite emit_reviews.
Qed.

Lemma CreateReview_steps defaultTTL now id aid token input w :
  (forall k r, rw_reviews w !! k = Some r -> rr_TokenHash r <> review_hashToken token) ->
  rtc review_step (rw_reviews w) (rw_reviews (fst (CreateReview env defaultTTL now id aid token input w))).
Proof.
  intros Hf. unfold CreateReview. destruct (json_Marshal _) as [p|]; [|done].
  destruct (on_reviews _ w) as [w1 r1] eqn:Hc. apply on_reviews_eq in Hc as [-> ->].
  match goal with |- context [review_Create env ?ts now id token ?req _] =>
    pose proof (rtc_once _ _ (step_create (rw_reviews w) env ts now id token req Hf)) as Hs end.
  destruct (snd _) as [[c t]|]; [|done]. cbn [fst]. by rewrite emit_reviews.
Qed.
End Steps.

(** * What reviews promise *)

(** C23: Whatever requests run and however their statements interleave, a review
    moves only along the domain's transition table (so a decided, expired or
    executed review is never pending again), its request, token and deadline never
    change, a decision once taken keeps its author and time and was taken before
    the deadline, and no reviewer or decision reason is ever recorded. *)
Theorem review_lifecycle `{PayloadJson, JsonText} (tbl tbl' : ReviewTable) :
  reviews_ok tbl -> rtc review_step tbl tbl' ->
  (forall k r, tbl !! k = Some r -> exists r', tbl' !! k = Some r' /\
     rtc (fun s s' => review_CanTransitionTo s s' = true) (rr_Status r) (rr_Status r') /\
     same_request r r' /\
     (rr_Status r <> ReviewStatusPending -> rr_DecidedBy r' = rr_DecidedBy r /\ rr_DecidedAt r' = rr_DecidedAt r)) /\
  (forall k r', tbl' !! k = Some r' ->
     rr_ReviewerID r' = None /\ rr_DecisionReason r' = None /\
     (rr_Status r' = ReviewStatusApproved \/ rr_Status r' = ReviewStatusExecuted ->
      exists u t, rr_DecidedBy r' = Some u /\ rr_DecidedAt r' = Some t /\ t < rr_ExpiresAt r')).
Proof.
  intros Hok Hs. destruct (review_steps_ok _ _ Hs Hok) as [Hok' Hm]. split.
  - intros k r Hk. destruct (Hm k r Hk) as (r' & Hk' & Hsame & Ht & Hd). eauto.
  - intros k r' Hk. destruct (rok_row _ Hok' k r' Hk) as (H1 & H2 & H3). split; [done|]. split; [done|].
    intros Hst. destruct (rr_Status r'); destruct Hst as [Hst|Hst]; try done;
      destruct H3 as ([u Hu] & t & Ht & Hlt); eauto.
Qed.

(** The database is reachable and its role bypasses row-level security. *)
Definition db_open (env : DbEnv) : Prop := db_bypass_rls env = true /\ db_outage env = None.

Lemma open_visible env c t : db_open env -> rls_visible env c t = true.
Proof. intros [Hb _]. unfold rls_visible. by rewrite Hb. Qed.

Section Gates.
Context `{PayloadJson, JsonText} (env : DbEnv) (Hopen : db_open env).

Lemma GetByTokenHash_found tbl k r :
  reviews_ok tbl -> tbl !! k = Some r -> GetByTokenHash env (rr_TokenHash r) tbl = (tbl, Ok (scan_by_token r)).
Proof.
  intros Hok Hk. unfold GetByTokenHash. destruct Hopen as [_ ->].
  destruct (List.find _ _) as [r'|] eqn:Hf.
  - apply find_some in Hf as [Hin Hp]. apply in_map_iff in Hin as ([k' v] & Hv & Hin). cbn in Hv. subst v.
    apply list_elem_of_In, elem_of_map_to_list in Hin. reflect_bools.
    assert (k' = k) as -> by (eapply (rok_hash _ Hok); eauto). naive_solver.
  - exfalso. apply (find_none _ _) with (x := r) in Hf.
    + rewrite open_visible in Hf by done. rewrite bool_decide_eq_true_2 in Hf; done.
    + apply in_map_iff. exists (k, r). split; [done|]. by apply list_elem_of_In, elem_of_map_to_list.
Qed.

Lemma GetByTokenHash_ok tbl h tbl' review :
  GetByTokenHash env h tbl = (tbl', Ok review) ->
  tbl' = tbl /\ exists k r, tbl !! k = Some r /\ rr_TokenHash r = h /\ review = scan_by_token r.
Proof.
  unfold GetByTokenHash. destruct Hopen as [_ ->].
  destruct (List.find _ _) as [r|] eqn:Hf; intros [= <- <-]. split; [done|].
  apply find_some in Hf as [Hin Hp]. apply in_map_iff in Hin as ([k v] & Hv & Hin). cbn in Hv. subst v.
  apply list_elem_of_In, elem_of_map_to_list in Hin. reflect_bools. eauto.
Qed.

(** The look-up of a token, as the first statement of both decisions. *)
Lemma lookup_found w input k r :
  reviews_ok (rw_reviews w) -> rw_reviews w !! k = Some r -> rr_TokenHash r = review_hashToken (di_Token input) ->
  on_reviews (GetByTokenHash env (review_hashToken (di_Token input))) w = (w, Ok (scan_by_token r)).
Proof.
  intros Hok Hk Hh. unfold on_reviews. rewrite <- Hh, (GetByTokenHash_found _ k r) by done.
  by rewrite set_reviews_id.
Qed.

(** What [approve_check] answers for the row of the token. *)
Lemma approve_check_found now input w k r :
  reviews_ok (rw_reviews w) -> rw_reviews w !! k = Some r -> rr_TokenHash r = review_hashToken (di_Token input) ->
  approve_check env now input w =
    if negb (bool_decide (rr_Status r = ReviewStatusPending)) then (w, Err (ErrReviewNotPending : error))
    else if rr_ExpiresAt r <? now then (w, Err (ErrExpired : error))
    else if negb (decodes_to_map (rr_Payload r)) || bool_decide (rr_Action r = "")
    then (rejectWithReason env now (scan_by_token r) (di_DecidedBy input) w, Err (ErrValidation : error))
    else (w, Ok (scan_by_token r)).
Proof.
  intros Hok Hk Hh. unfold approve_check. rewrite (lookup_found w input k r) by done.
  unfold scan_by_token at 1. cbn [rv_TokenHash]. rewrite hex_decode_encode.
  assert (ConstantTimeCompare (rr_TokenHash r) (review_hashToken (di_Token input)) = 1) as ->
    by (by apply ConstantTimeCompare_eq).
  change (1 =? 1) with true. cbn [negb]. unfold review_IsExpired. cbn [scan_by_token rv_Status rv_ExpiresAt rv_Payload rv_Action].
  repeat (case_match; try reflexivity); simplify_eq/=.
Qed.

Lemma decide_row_hit now s u k r tbl :
  reviews_ok tbl -> tbl !! k = Some r -> rr_Status r = ReviewStatusPending -> row_current now r = true ->
  decide_row env now (rr_TenantID r) (rr_ID r) s u pool_conn tbl = (<[k := set_decided now s u r]> tbl, Ok tt).
Proof.
  intros Hok Hk Hs Hc. pose proof (rok_key _ Hok k r Hk) as ->. unfold decide_row. rewrite Hk.
  by rewrite open_visible, bool_decide_eq_true_2, Hc.
Qed.

Lemma decide_row_miss now s u k r tbl :
  reviews_ok tbl -> tbl !! k = Some r -> rr_Status r <> ReviewStatusPending \/ row_current now r = false ->
  decide_row env now (rr_TenantID r) (rr_ID r) s u pool_conn tbl = (tbl, Err (db_no_rows env)).
Proof.
  intros Hok Hk Hm. pose proof (rok_key _ Hok k r Hk) as ->. unfold decide_row. rewrite Hk.
  destruct Hm as [Hs | ->]; [rewrite (bool_decide_eq_false_2 (rr_Status r = _)) by done|];
    by rewrite ?andb_false_r.
Qed.

Lemma approve_commit_hit now aid input w k r :
  reviews_ok (rw_reviews w) -> rw_reviews w !! k = Some r -> rr_Status r = ReviewStatusPending -> row_current now r = true ->
  exists e, approve_commit env now aid input (scan_by_token r) w =
    (emit env now aid e (set_reviews w (<[k := set_decided now ReviewStatusApproved (di_DecidedBy input) r]> (rw_reviews w))),
     Ok (convertSQLCReviewRequest (set_decided now ReviewStatusApproved (di_DecidedBy input) r))).
Proof.
  intros Hok Hk Hs Hc. unfold approve_commit, decide_commit, on_reviews, review_UpdateStatus, review_GetByID, WithTenant.
  destruct Hopen as [_ Ho]. rewrite Ho. cbn [scan_by_token rv_TenantID rv_ID].
  rewrite (decide_row_hit now _ _ k r) by done. cbn [fst set_reviews rw_reviews].
  pose proof (rok_key _ Hok k r Hk) as ->. rewrite lookup_insert_eq, open_visible by done. by eexists.
Qed.

Lemma approve_commit_miss now aid input w k r :
  reviews_ok (rw_reviews w) -> rw_reviews w !! k = Some r ->
  rr_Status r <> ReviewStatusPending \/ row_current now r = false ->
  exists e, approve_commit env now aid input (scan_by_token r) w = (w, Err e).
Proof.
  intros Hok Hk Hm. unfold approve_commit, decide_commit, on_reviews, review_UpdateStatus, WithTenant.
  destruct Hopen as [_ Ho]. rewrite Ho. cbn [scan_by_token rv_TenantID rv_ID].
  rewrite (decide_row_miss now _ _ k r) by done. rewrite set_reviews_id.
  destruct (bool_decide _); eauto.
Qed.
(** Everything an approval asks of the row of its token. *)
Definition approvable (now : Z) (r : review_row) : Prop :=
  rr_Status r = ReviewStatusPending /\ now <= rr_ExpiresAt r /\ row_current now r = true /\
  decodes_to_map (rr_Payload r) = true /\ rr_Action r <> "".

Lemma Approve_hit now aid input w k r :
  reviews_ok (rw_reviews w) -> rw_reviews w !! k = Some r -> rr_TokenHash r = review_hashToken (di_Token input) ->
  approvable now r ->
  let decided := set_decided now ReviewStatusApproved (di_DecidedBy input) r in
  exists e, Approve env now aid input w =
    (emit env now aid e (set_reviews w (<[k := decided]> (rw_reviews w))), Ok (convertSQLCReviewRequest decided)).
Proof.
  intros Hok Hk Hh (Hs & He & Hc & Hd & Ha). cbn zeta. unfold Approve.
  rewrite (approve_check_found now input w k r) by done.
  rewrite bool_decide_eq_true_2, Hd, bool_decide_eq_false_2 by done. cbn [negb orb].
  assert (rr_ExpiresAt r <? now = false) as -> by (apply Z.ltb_ge; lia). by apply approve_commit_hit.
Qed.

Lemma approve_check_ok now input w w' review :
  approve_check env now input w = (w', Ok review) ->
  exists k r, rw_reviews w !! k = Some r /\ rr_TokenHash r = review_hashToken (di_Token input).
Proof.
  unfold approve_check, on_reviews. destruct (GetByTokenHash _ _ _) as [t [rev|e]] eqn:Hg; [|done].
  intros _. apply GetByTokenHash_ok in Hg as (_ & k & r & Hk & Hh & _). eauto.
Qed.

Lemma Approve_ok_inv now aid input w w' out :
  reviews_ok (rw_reviews w) -> Approve env now aid input w = (w', Ok out) ->
  exists k r, rw_reviews w !! k = Some r /\ rr_TokenHash r = review_hashToken (di_Token input) /\ approvable now r.
Proof.
  intros Hok. unfold Approve. destruct (approve_check env now input w) as [w1 [review|e]] eqn:Hc; [|done].
  destruct (approve_check_ok _ _ _ _ _ Hc) as (k & r & Hk & Hh). intros Ha. exists k, r. split; [done|]. split; [done|].
  rewrite (approve_check_found now input w k r) in Hc by done.
  destruct (negb (bool_decide (rr_Status r = ReviewStatusPending))) eqn:Hs; [done|].
  destruct (rr_ExpiresAt r <? now) eqn:He; [done|]. destruct (_ || _) eqn:Hv; [done|].
  injection Hc as <- <-. reflect_bools. repeat split; try done.
  destruct (row_current now r) eqn:Hcur; [done|exfalso].
  destruct (approve_commit_miss now aid input w k r) as [e He']; [auto..|]. by rewrite He' in Ha.
Qed.
End Gates.

(** C22: An approval succeeds exactly when the presented token is that of a pending,
    unexpired review with a decodable payload and a non-empty action: who approves
    does not matter, so the requester, to whom the token was returned, can approve
    the request. A success writes the decision to that row only, answers the
    decided row, and appends at most one event to the audit log. *)
Theorem approve_gates `{PayloadJson, JsonText} (env : DbEnv) now aid input w :
  reviews_ok (rw_reviews w) -> db_open env ->
  (is_ok (snd (Approve env now aid input w)) = true <->
   exists k r, rw_reviews w !! k = Some r /\ rr_TokenHash r = review_hashToken (di_Token input) /\ approvable now r) /\
  (forall k r, rw_reviews w !! k = Some r -> rr_TokenHash r = review_hashToken (di_Token input) -> approvable now r ->
   let decided := set_decided now ReviewStatusApproved (di_DecidedBy input) r in
   exists w', Approve env now aid input w = (w', Ok (convertSQLCReviewRequest decided)) /\
     rw_reviews w' = <[k := decided]> (rw_reviews w) /\
     (rw_audit w' = rw_audit w \/ exists e, rw_audit w' = fst (Append env now aid e (rw_audit w)))).
Proof.
  intros Hok Hopen. split; [split|].
  - destruct (Approve env now aid input w) as [w' [out|e]] eqn:Ha; [|done]. intros _.
    by apply (Approve_ok_inv env Hopen) in Ha.
  - intros (k & r & Hk & Hh & Ha). by destruct (Approve_hit env Hopen now aid input w k r) as [e ->].
  - intros k r Hk Hh Ha. cbn zeta. destruct (Approve_hit env Hopen now aid input w k r) as [e ->]; [done..|].
    eexists. split; [done|]. rewrite emit_reviews. split; [done|].
    unfold emit. destruct (bool_decide _); [right; by eexists|by left].
Qed.

(** C21: A token approves once. After an approval succeeded, whatever statements
    follow, presenting the token again is refused and changes nothing, and so is
    the transition of an approval that had passed its checks before. *)
Theorem approve_single_use `{PayloadJson, JsonText} (env env2 : DbEnv) now aid input w w1 out w2 now2 aid2 input2 :
  reviews_ok (rw_reviews w) -> db_open env -> db_open env2 ->
  Approve env now aid input w = (w1, Ok out) ->
  rtc review_step (rw_reviews w1) (rw_reviews w2) -> di_Token input2 = di_Token input ->
  Approve env2 now2 aid2 input2 w2 = (w2, Err (ErrReviewNotPending : error)) /\
  exists k r, rw_reviews w !! k = Some r /\
    exists e, approve_commit env2 now2 aid2 input2 (scan_by_token r) w2 = (w2, Err e).
Proof.
  intros Hok Ho Ho2 Ha Hs Htok.
  destruct (Approve_ok_inv env Ho now aid input w w1 out Hok Ha) as (k & r & Hk & Hh & Happ).
  destruct (Approve_hit env Ho now aid input w k r Hok Hk Hh Happ) as [e0 He0].
  assert (rw_reviews w1 !! k = Some (set_decided now ReviewStatusApproved (di_DecidedBy input) r)) as Hk1.
  { rewrite He0 in Ha. injection Ha as <- _. rewrite emit_reviews. apply lookup_insert_eq. }
  assert (reviews_ok (rw_reviews w1)) as Hok1.
  { pose proof (Approve_steps env now aid input w) as Hst. rewrite Ha in Hst. by apply (review_steps_ok _ _ Hst). }
  destruct (review_steps_ok _ _ Hs Hok1) as [Hok2 Hm]. destruct (Hm k _ Hk1) as (r2 & Hk2 & Hsame & Ht & _).
  assert (rr_Status r2 <> ReviewStatusPending) as Hnp by by eapply transitions_from_final.
  destruct Hsame as (Hid & Hten & _ & Hact & _ & Hh2 & _). cbn in Hid, Hten, Hact, Hh2. split.
  - unfold Approve. rewrite (approve_check_found env2 Ho2 now2 input2 w2 k r2) by (done || congruence).
    by rewrite (bool_decide_eq_false_2 (rr_Status r2 = _)).
  - exists k, r. split; [done|]. destruct (approve_commit_miss env2 Ho2 now2 aid2 input2 w2 k r2) as [e He]; [auto..|].
    exists e. rewrite <- He. unfold approve_commit, decide_commit. cbn [scan_by_token rv_ID rv_TenantID rv_Action].
    by rewrite Hid, Hten, Hact.
Qed.

(** No rejection ever succeeds: [Reject] compares the 64 characters of the
    stored hash's hex text with the 32 bytes of the presented token's hash, so it
    answers ErrInvalidToken to the right token too, and changes nothing. *)
Theorem reject_never_succeeds `{PayloadJson, JsonText} (env : DbEnv) now aid input w :
  reviews_ok (rw_reviews w) -> db_open env ->
  (exists e, Reject env now aid input w = (w, Err e)) /\
  (forall k r, rw_reviews w !! k = Some r -> rr_TokenHash r = review_hashToken (di_Token input) ->
   Reject env now aid input w = (w, Err (ErrInvalidToken : error))).
Proof.
  intros Hok Ho.
  assert (Hcmp : forall r, rr_TokenHash r = review_hashToken (di_Token input) ->
    (ConstantTimeCompare (rv_TokenHash (scan_by_token r)) (review_hashToken (di_Token input)) =? 1) = false).
  { intros r Hh. apply Z.eqb_neq. rewrite ConstantTimeCompare_eq. cbn [scan_by_token rv_TokenHash]. rewrite Hh.
    intros He. apply (f_equal length) in He. unfold review_hashToken in He.
    rewrite length_hex_encode, length_Sum256 in He. done. }
  split.
  - unfold Reject. destruct (on_reviews (GetByTokenHash _ _) w) as [w1 r1] eqn:Hg.
    unfold on_reviews in Hg. destruct (GetByTokenHash _ _ _) as [t rr] eqn:Hgt. injection Hg as <- <-.
    destruct rr as [review|e].
    + apply GetByTokenHash_ok in Hgt as (-> & k & r & Hk & Hh & ->); [|done]. rewrite Hcmp, set_reviews_id by done. by eexists.
    + assert (t = rw_reviews w) as -> by (rewrite <- (GetByTokenHash_fst env (review_hashToken (di_Token input))), Hgt; done).
      rewrite set_reviews_id. by eexists.
  - intros k r Hk Hh. unfold Reject. rewrite (lookup_found env Ho w input k r) by done. by rewrite Hcmp.
Qed.

(** ** A concrete review *)

Definition ex_payloads : PayloadJson := {|
  json_Marshal _ := Ok "{}";
  decodes_to_map p := bool_decide (p = "{}");
  action_field _ := None;
|}.
Definition ex_jsonb : JsonText := {| json_remarshal := Some; jsonb_out := Some |}.

Definition ex_review_key : UUID * UUID := (uuid_n 61, uuid_n 1).
Definition ex_review_row : review_row :=
  mkReviewRow (uuid_n 61) (uuid_n 1) (uuid_n 3) None "tool:execute" "{}" ReviewStatusPending
    (review_hashToken "tok") 1000000 None None None 0 0.
Definition ex_reviews : ReviewTable := {[ex_review_key := ex_review_row]}.
Definition ex_review_world : ReviewWorld := mkReviewWorld ex_reviews (mkAuditDb [] ∅) {[uuid_n 1]}.
Definition ex_review_env : DbEnv := mkDbEnv true ESqlNoRows None (fun _ => true).
(** The requester decides. *)
Definition ex_decide : DecideInput := mkDecideInput "tok" (uuid_n 3) "fine".

Lemma ex_review_lookup : rw_reviews ex_review_world !! ex_review_key = Some ex_review_row.
Proof. apply lookup_singleton_eq. Qed.

Lemma ex_reviews_ok : reviews_ok (rw_reviews ex_review_world).
Proof.
  change (reviews_ok {[ex_review_key := ex_review_row]}). split.
  - intros k r [<- <-]%lookup_singleton_Some. reflexivity.
  - intros k1 k2 r1 r2 [<- _]%lookup_singleton_Some [<- _]%lookup_singleton_Some _. reflexivity.
  - intros k r [<- <-]%lookup_singleton_Some. repeat split.
Qed.

Lemma ex_review_hash : rr_TokenHash ex_review_row = review_hashToken (di_Token ex_decide).
Proof. unfold ex_review_row, ex_decide. cbn [rr_TokenHash di_Token]. reflexivity. Qed.

Lemma ex_review_open : db_open ex_review_env.
Proof. split; reflexivity. Qed.

Lemma ex_approvable : @approvable ex_payloads 500 ex_review_row.
Proof. unfold approvable, ex_review_row. cbn [rr_Status rr_ExpiresAt rr_Payload rr_Action]. split_and!; done. Qed.

Lemma review_lifecycle_witness :
  exists r', rw_reviews (fst (@Approve ex_payloads ex_jsonb ex_review_env 500 (uuid_n 71) ex_decide ex_review_world))
               !! ex_review_key = Some r' /\ same_request ex_review_row r'.
Proof.
  destruct (@review_lifecycle ex_payloads ex_jsonb _ _ ex_reviews_ok
              (@Approve_steps ex_payloads ex_jsonb ex_review_env 500 (uuid_n 71) ex_decide ex_review_world)) as [H _].
  destruct (H _ _ ex_review_lookup) as (r' & Hk & _ & Hs & _). exists r'. exact (conj Hk Hs).
Defined.

Lemma approve_gates_witness :
  is_ok (snd (@Approve ex_payloads ex_jsonb ex_review_env 500 (uuid_n 71) ex_decide ex_review_world)) = true.
Proof.
  apply (proj2 (proj1 (@approve_gates ex_payloads ex_jsonb ex_review_env 500 (uuid_n 71) ex_decide ex_review_world
                         ex_reviews_ok ex_review_open))).
  exists ex_review_key, ex_review_row. exact (conj ex_review_lookup (conj ex_review_hash ex_approvable)).
Defined.

Lemma approve_single_use_witness :
  exists w1, @Approve ex_payloads ex_jsonb ex_review_env 600 (uuid_n 72) ex_decide w1 =
    (w1, Err (ErrReviewNotPending : error)).
Proof.
  destruct (@Approve_hit ex_payloads ex_jsonb ex_review_env ex_review_open 500 (uuid_n 71) ex_decide ex_review_world
              _ _ ex_reviews_ok ex_review_lookup ex_review_hash ex_approvable) as [e He].
  eexists. exact (proj1 (@approve_single_use ex_payloads ex_jsonb ex_review_env ex_review_env 500 (uuid_n 71) ex_decide
    ex_review_world _ _ _ 600 (uuid_n 72) ex_decide ex_reviews_ok ex_review_open ex_review_open He
    (rtc_refl _ _) eq_refl)).
Defined.

Lemma reject_never_succeeds_witness :
  @Reject ex_payloads ex_jsonb ex_review_env 500 (uuid_n 71) ex_decide ex_review_world =
    (ex_review_world, Err (ErrInvalidToken : error)).
Proof.
  exact (proj2 (@reject_never_succeeds ex_payloads ex_jsonb ex_review_env 500 (uuid_n 71) ex_decide ex_review_world
    ex_reviews_ok ex_review_open) _ _ ex_review_lookup ex_review_hash).
Defined.
