(* ===== verification/ReviewHandlers.v ===== *)
(** The end points of reviews and their event streams:
    [internal/api/handlers/review.go], over the use case of [Review].

    The registry of streams is a heap: a review's connections are a map that the
    registry points to, and a notification that was handed the map goes on reading
    it after the lock is released. Handlers call the whole notification; the last
    sections take it apart into the steps that interleave with the streams. *)

From stdpp Require Import base gmap strings list numbers fin_maps fin_sets relations.
From S2P Require Import GoPrelude Bytes Uuid Errors Tenancy Http ChatModel Quota AuditLog Auth Review AuthHandlers Router.
Open Scope Z_scope.

Definition StatusGone : Z := 410.

(** ** The stream registry *)

(** A buffered channel of texts; its capacity is [chan_cap]. *)
Record Chan := mkChan { ch_buf : list string; ch_closed : bool }.
Definition chan_cap : nat := 10.

(** [connections] gives the address of a review's map, a set of channels in
    [inner_maps]; channels are addresses too. *)
Record Hub := mkHub {
  connections : gmap string positive;
  inner_maps : gmap positive (gset positive);
  channels : gmap positive Chan;
}.

Definition NewHub : Hub := mkHub ∅ ∅ ∅.

Definition conns_of (h : Hub) (m : positive) : gset positive := default ∅ (inner_maps h !! m).

(** [h.connections[reviewID]], where a missing key reads as the nil map. *)
Definition conns_for (h : Hub) (reviewID : string) : gset positive :=
  match connections h !! reviewID with Some m => conns_of h m | None => ∅ end.

Definition set_inner (m : positive) (s : gset positive) (h : Hub) : Hub :=
  mkHub (connections h) (<[m := s]> (inner_maps h)) (channels h).

Definition set_chan (c : positive) (ch : Chan) (h : Hub) : Hub :=
  mkHub (connections h) (inner_maps h) (<[c := ch]> (channels h)).

(** [make(chan []byte, 10)] *)
Definition make_chan (h : Hub) : Hub * positive :=
  let c := fresh (dom (channels h)) in (set_chan c (mkChan [] false) h, c).

Definition registerConnection (reviewID : string) (c : positive) (h : Hub) : Hub :=
  match connections h !! reviewID with
  | Some m => set_inner m ({[c]} ∪ conns_of h m) h
  | None =>
      let m := fresh (dom (inner_maps h)) in
      mkHub (<[reviewID := m]> (connections h)) (<[m := {[c]}]> (inner_maps h)) (channels h)
  end.

Definition delete_connection (reviewID : string) (c : positive) (h : Hub) : Hub :=
  match connections h !! reviewID with
  | Some m =>
      let s := conns_of h m ∖ {[c]} in
      mkHub (if bool_decide (s = ∅) then delete reviewID (connections h) else connections h)
        (<[m := s]> (inner_maps h)) (channels h)
  | None => h
  end.

(** [close] of a closed channel panics: [None]. *)
Definition close_chan (c : positive) (h : Hub) : option Hub :=
  match channels h !! c with
  | Some ch => if ch_closed ch then None else Some (set_chan c (mkChan (ch_buf ch) true) h)
  | None => None
  end.

Definition unregisterConnection (reviewID : string) (c : positive) (h : Hub) : option Hub :=
  close_chan c (delete_connection reviewID c h).

(** A send that is skipped when the buffer is full; on a closed channel it panics. *)
Definition chan_push (data : string) (ch : Chan) : Chan :=
  if (length (ch_buf ch) <? chan_cap)%nat then mkChan (ch_buf ch ++ [data]) (ch_closed ch) else ch.

Definition try_send (data : string) (c : positive) (h : Hub) : option Hub :=
  match channels h !! c with
  | Some ch => if ch_closed ch then None else Some (set_chan c (chan_push data ch) h)
  | None => None
  end.

(** ** Events *)

(** The values here, identifiers, statuses and times, need no escape in JSON; the
    fields are given in the order of their keys, as [Marshal] writes them. *)
Definition formatSSEEvent (eventType : string) (data : list (string * string)) : string :=
  "event: " +:+ eventType +:+ newline +:+ "data: " +:+ json_fields data +:+ newline +:+ newline.

Definition TrimPrefix (s p : string) : string :=
  if String.prefix p s then String.substring (String.length p) (String.length s - String.length p) s else s.

Definition update_event (reviewID eventType : string) : string :=
  formatSSEEvent eventType [("review_id", reviewID); ("status", TrimPrefix eventType "status:")].

(** [None] when a send panics. Go's iteration order is unspecified; the result does
    not depend on it (lemma [notify_deliver]). *)
Definition notifyReviewUpdate (reviewID eventType : string) (h : Hub) : option Hub :=
  match connections h !! reviewID with
  | None => Some h
  | Some m =>
      if bool_decide (size (conns_of h m) = 0%nat) then Some h
      else foldr (fun c oh => oh ≫= try_send (update_event reviewID eventType) c) (Some h) (elements (conns_of h m))
  end.

(** ** The handlers *)

(** A handler answers, or it panics and the router's recoverer answers 500. *)
Inductive Ended (A : Type) := Answered (a : Answer A) | Panicked.
Arguments Answered {_} a.
Arguments Panicked {_}.

Record ReviewServer := mkReviewServer { rs_world : ReviewWorld; rs_hub : Hub }.

Record CreateBody := mkCreateBody {
  cb_Action : string;
  cb_Payload : option (list (string * json));
  cb_ReviewerID : string;
  cb_TTLSeconds : Z;
}.

Record DecideBody := mkDecideBody { db_Token : string; db_DecisionReason : string }.

(** [time.Duration(n) * time.Second], in 64 bits. *)
Definition ttl_of_seconds (n : Z) : Z := if n >? 0 then int64_wrap (n * 1000000000) else 0.

Definition hide_token (r : ReviewRequest) : ReviewRequest :=
  mkReview (rv_ID r) (rv_TenantID r) (rv_RequesterID r) (rv_ReviewerID r) [] (rv_Action r) (rv_Payload r) (rv_Status r)
    (rv_ExpiresAt r) (rv_DecidedAt r) (rv_DecidedBy r) (rv_DecisionReason r) (rv_CreatedAt r) (rv_UpdatedAt r).

Record StatusView := mkStatusView { sv_ID : UUID; sv_Status : ReviewStatus; sv_ExpiresAt : Z; sv_DecidedAt : option Z }.

Definition status_view (r : ReviewRequest) : StatusView :=
  mkStatusView (rv_ID r) (rv_Status r) (rv_ExpiresAt r) (rv_DecidedAt r).

Definition approve_status (e : error) : Z :=
  if bool_decide (e = (ErrInvalidToken : error)) then StatusForbidden
  else if bool_decide (e = (ErrReviewNotPending : error)) then StatusConflict
  else if bool_decide (e = (ErrExpired : error)) then StatusGone
  else if bool_decide (e = (ErrValidation : error)) then StatusBadRequest
  else StatusInternalServerError.

Definition reject_status (e : error) : Z :=
  if bool_decide (e = (ErrInvalidToken : error)) then StatusForbidden
  else if bool_decide (e = (ErrReviewNotPending : error)) then StatusConflict
  else if bool_decide (e = (ErrExpired : error)) then StatusGone
  else StatusInternalServerError.

Definition execute_status (e : error) : Z :=
  if bool_decide (e = (ErrReviewNotPending : error)) then StatusConflict
  else if bool_decide (e = (ErrNotFound : error)) then StatusNotFound
  else StatusInternalServerError.

(** The last lines of the three handlers that change a review. *)
Definition answer_changed (status : error -> Z) (eventType : string) (res : ReviewWorld * result error ReviewRequest) (h : Hub)
    : ReviewServer * Ended ReviewRequest :=
  match res with
  | (w, Err e) => (mkReviewServer w h, Answered (Failure (status e) e))
  | (w, Ok review) =>
      match notifyReviewUpdate (uuid_String (rv_ID review)) eventType h with
      | None => (mkReviewServer w h, Panicked)
      | Some h => (mkReviewServer w h, Answered (Success StatusOK review))
      end
  end.

Section Handlers.
Context `{PayloadJson, JsonText}.
Variable env : DbEnv.

Definition parsed_reviewer (s : string) : result error (option UUID) :=
  if bool_decide (s = "") then Ok None else
  match ParseUUID s with Ok id => Ok (Some id) | Err _ => Err (ErrValidation : error) end.

Definition handle_CreateReview (defaultTTL now : Z) (id aid : UUID) (token : string) (r : Request) (body : option CreateBody)
    (w : ReviewWorld) : ReviewWorld * Answer (ReviewRequest * string) :=
  match GetUserID r with
  | (_, false) => (w, Failure StatusUnauthorized ErrUnauthorized)
  | (userID, true) =>
      match GetTenantID r with
      | None => (w, Failure StatusUnauthorized ErrUnauthorized)
      | Some tenantID =>
          match body with
          | None => (w, Failure StatusBadRequest ErrValidation)
          | Some req =>
              if bool_decide (cb_Action req = "") then (w, Failure StatusBadRequest ErrValidation)
              else match parsed_reviewer (cb_ReviewerID req) with
              | Err _ => (w, Failure StatusBadRequest ErrValidation)
              | Ok reviewerID =>
                  match CreateReview env defaultTTL now id aid token
                          (mkCreateReviewInput tenantID userID (cb_Action req) (cb_Payload req) reviewerID
                             (ttl_of_seconds (cb_TTLSeconds req))) w with
                  | (w, Err e) => (w, Failure StatusInternalServerError e)
                  | (w, Ok output) => (w, Success StatusCreated output)
                  end
              end
          end
      end
  end.

(** The list is a placeholder: always empty. *)
Definition handle_ListReviews (r : Request) : Answer (list ReviewRequest) :=
  match GetTenantID r with
  | None => Failure StatusUnauthorized ErrUnauthorized
  | Some _ => Success StatusOK []
  end.

(** [GetReview] and [GetReviewStatus] differ in what they show of the review. *)
Definition show_review {A} (view : ReviewRequest -> A) (r : Request) (params : list (string * string)) (w : ReviewWorld)
    : ReviewWorld * Answer A :=
  match GetTenantID r with
  | None => (w, Failure StatusUnauthorized ErrUnauthorized)
  | Some tenantID =>
      match ParseUUID (URLParam params "id") with
      | Err _ => (w, Failure StatusBadRequest ErrValidation)
      | Ok reviewID =>
          match GetStatus env tenantID reviewID w with
          | (w, Err e) => (w, Failure (if bool_decide (e = (ErrNotFound : error)) then StatusNotFound else StatusInternalServerError) e)
          | (w, Ok review) => (w, Success StatusOK (view review))
          end
      end
  end.

Definition handle_GetReview := show_review hide_token.
Definition handle_GetReviewStatus := show_review status_view.

(** The checks [ApproveReview] and [RejectReview] begin with. *)
Definition decide_input (r : Request) (body : option DecideBody) : Answer DecideInput :=
  match GetUserID r with
  | (_, false) => Failure StatusUnauthorized ErrUnauthorized
  | (userID, true) =>
      match body with
      | None => Failure StatusBadRequest ErrValidation
      | Some req =>
          if bool_decide (db_Token req = "") then Failure StatusBadRequest ErrValidation
          else Success StatusOK (mkDecideInput (db_Token req) userID (db_DecisionReason req))
      end
  end.

Definition handle_ApproveReview (now : Z) (aid : UUID) (r : Request) (body : option DecideBody) (s : ReviewServer)
    : ReviewServer * Ended ReviewRequest :=
  match decide_input r body with
  | Failure st e => (s, Answered (Failure st e))
  | Success _ input => answer_changed approve_status "status:APPROVED" (Approve env now aid input (rs_world s)) (rs_hub s)
  end.

Definition handle_RejectReview (now : Z) (aid : UUID) (r : Request) (body : option DecideBody) (s : ReviewServer)
    : ReviewServer * Ended ReviewRequest :=
  match decide_input r body with
  | Failure st e => (s, Answered (Failure st e))
  | Success _ input => answer_changed reject_status "status:REJECTED" (Reject env now aid input (rs_world s)) (rs_hub s)
  end.

Definition handle_ExecuteReview (now : Z) (aid : UUID) (r : Request) (params : list (string * string)) (s : ReviewServer)
    : ReviewServer * Ended ReviewRequest :=
  match GetUserID r with
  | (_, false) => (s, Answered (Failure StatusUnauthorized ErrUnauthorized))
  | (userID, true) =>
      match GetTenantID r with
      | None => (s, Answered (Failure StatusUnauthorized ErrUnauthorized))
      | Some tenantID =>
          match ParseUUID (URLParam params "id") with
          | Err _ => (s, Answered (Failure StatusBadRequest ErrValidation))
          | Ok reviewID =>
              answer_changed execute_status "status:EXECUTED"
                (review_Execute env now aid (mkExecuteInput tenantID reviewID userID) (rs_world s)) (rs_hub s)
          end
      end
  end.
End Handlers.

(** ** Streams *)

(** The claims of a ticket; times in seconds. *)
Record TicketClaims := mkTicketClaims {
  tc_ReviewID : string;
  tc_TenantID : string;
  tc_Issuer : string;
  tc_Subject : string;
  tc_IssuedAt : option Z;
  tc_NotBefore : option Z;
  tc_ExpiresAt : option Z;
}.

Definition ticket_valid (now : Z) (c : TicketClaims) : Prop :=
  (forall e, tc_ExpiresAt c = Some e -> now < e * 1000000000) /\
  (forall n, tc_NotBefore c = Some n -> n * 1000000000 <= now).

(** The token library at the type of these claims. *)
Class TicketLib := {
  SignTicket : bytes -> TicketClaims -> result error string;
  ParseTicket : Z -> string -> (SigningMethod -> result error bytes) -> result error TicketClaims;
}.

Class TicketLaws `{TicketLib} : Prop := {
  sign_ticket_parses : forall now key c tok (kf : SigningMethod -> result error bytes),
    SignTicket key c = Ok tok -> kf HS256 = Ok key -> ticket_valid now c -> ParseTicket now tok kf = Ok c;
}.

Definition ticket_key (jwtSecret : bytes) (m : SigningMethod) : result error bytes :=
  match m with OtherMethod _ => Err (EOther "unexpected signing method") | _ => Ok jwtSecret end.

Definition five_minutes : Z := 5 * 60 * 1000000000.

(** [NewNumericDate] cuts a time to the second. *)
Definition GenerateStreamTicket `{TicketLib} (jwtSecret : bytes) (now : Z) (tenantID reviewID : UUID) (ttl : Z) : result error string :=
  let ttl := if ttl =? 0 then five_minutes else ttl in
  SignTicket jwtSecret (mkTicketClaims (uuid_String reviewID) (uuid_String tenantID) "agent-gateway" "sse-stream"
    (Some (now / 1000000000)) (Some (now / 1000000000)) (Some ((now + ttl) / 1000000000))).

(** The checks of [StreamReview] before the stream starts; [flushes] is whether
    the writer it was given is a [http.Flusher]. *)
Definition stream_check `{TicketLib} (jwtSecret : bytes) (now : Z) (flushes : bool) (params : list (string * string)) (ticket : string)
    : Answer UUID :=
  match ParseUUID (URLParam params "id") with
  | Err _ => Failure StatusBadRequest ErrValidation
  | Ok reviewID =>
      if bool_decide (ticket = "") then Failure StatusUnauthorized ErrUnauthorized
      else match ParseTicket now ticket (ticket_key jwtSecret) with
      | Err _ => Failure StatusUnauthorized ErrUnauthorized
      | Ok claims =>
          if negb (bool_decide (tc_ReviewID claims = uuid_String reviewID)) then Failure StatusForbidden ErrForbidden
          else if negb flushes then Failure StatusInternalServerError (EOther "streaming not supported")
          else Success StatusOK reviewID
      end
  end.

(** [sendEvent]; [ok] is whether the write succeeds. *)
Definition sendEvent (ok : bool) (eventType : string) (data : list (string * string)) : list string :=
  if ok then [formatSSEEvent eventType data] else [].

(** A new stream: its channel, registered, and what it writes first. *)
Definition stream_open (reviewID : string) (ok1 ok2 : bool) (h : Hub) : Hub * positive * list string :=
  let '(h, c) := make_chan h in
  (registerConnection reviewID c h, c,
   sendEvent ok1 "connected" [("review_id", reviewID)] ++ sendEvent ok2 "status" [("status", "PENDING")]).

(** One turn of the loop, by the case [select] takes, with whether its write
    succeeds: the registry, what was written, whether the loop goes on. [None]: the
    case is not ready. *)
Inductive select_case := CtxDone | Received (ok : bool) | Tick (time : string) (ok : bool).

Definition stream_turn (c : positive) (s : select_case) (h : Hub) : option (Hub * list string * bool) :=
  match s with
  | CtxDone => Some (h, [], false)
  | Received ok =>
      match channels h !! c with
      | Some (mkChan (eventData :: buf) closed) =>
          Some (set_chan c (mkChan buf closed) h, if ok then [eventData] else [], ok)
      | _ => None
      end
  | Tick time ok => Some (h, sendEvent ok "heartbeat" [("time", time)], true)
  end.

(** The stream of a connection nobody else uses meanwhile: the cases its [select]
    takes, in order; those after the loop ended are not taken. *)
Fixpoint stream_loop (c : positive) (cases : list select_case) (h : Hub) : option (Hub * list string * bool) :=
  match cases with
  | [] => Some (h, [], true)
  | s :: cases =>
      match stream_turn c s h with
      | None => None
      | Some (h, out, false) => Some (h, out, false)
      | Some (h, out, true) =>
          match stream_loop c cases h with
          | None => None
          | Some (h, out', go) => Some (h, out ++ out', go)
          end
      end
  end.

(** The deferred unregistration ends the handler. *)
Definition handle_StreamReview `{TicketLib} (jwtSecret : bytes) (now : Z) (flushes : bool) (params : list (string * string))
    (ticket : string) (ok1 ok2 : bool) (cases : list select_case) (h : Hub) : option (Hub * Answer (list string)) :=
  match stream_check jwtSecret now flushes params ticket with
  | Failure st e => Some (h, Failure st e)
  | Success st reviewID =>
      let '(h, c, hello) := stream_open (uuid_String reviewID) ok1 ok2 h in
      match stream_loop c cases h with
      | Some (h, out, false) =>
          (fun h => (h, Success st (hello ++ out))) <$> unregisterConnection (uuid_String reviewID) c h
      | _ => None      (* still running *)
      end
  end.

(** ** The response writer *)

(** The writers a handler may be given: the server's, which flushes, or one of the
    two that embed the interface [http.ResponseWriter] and add their own methods. *)
Inductive ResponseWriter :=
| serverWriter
| auditResponseWriter (w : ResponseWriter)
| guardrailResponseWriter (w : ResponseWriter).

(** [w.(http.Flusher)]: an embedded interface gives its three methods only. *)
Definition is_Flusher (w : ResponseWriter) : bool :=
  match w with serverWriter => true | _ => false end.

(** What a middleware may hand on: the audit middleware always wraps, the
    guardrails middleware on the requests it checks the output of. *)
Inductive writer_through (w : ResponseWriter) : Mw -> ResponseWriter -> Prop :=
| through_audit : writer_through w AuditMW (auditResponseWriter w)
| through_guardrails : writer_through w GuardrailsMW (guardrailResponseWriter w)
| through_plain m : m <> AuditMW -> writer_through w m w.

Inductive writer_at (w : ResponseWriter) : list Mw -> ResponseWriter -> Prop :=
| writer_at_end : writer_at w [] w
| writer_at_mw m mws w' w'' : writer_through w m w' -> writer_at w' mws w'' -> writer_at w (m :: mws) w''.

(** ** Interleaving

    Streams and notifications run side by side. A stream that ends takes the lock,
    removes its channel, closes it and releases the lock; a notification holds the
    lock only to fetch the map. [must] are the entries there when its iteration
    began: Go produces each of them that is not removed before it is reached, once,
    and may or may not produce entries added later. *)

Inductive notifier_pc :=
| NTake
| NLen (conns : option positive)
| NBegin (m : positive)
| NRange (m : positive) (must seen : gset positive)
| NSend (m : positive) (must seen : gset positive) (c : positive)
| NReturned
| NPanicked.

Record Notifier := mkNotifier { nt_review : string; nt_event : string; nt_pc : notifier_pc }.

Definition at_pc (nt : Notifier) (pc : notifier_pc) : Notifier := mkNotifier (nt_review nt) (nt_event nt) pc.

Inductive notifier_step (lock : option positive) (h : Hub) (nt : Notifier) : Hub -> Notifier -> Prop :=
| notifier_take : nt_pc nt = NTake -> lock = None ->
    notifier_step lock h nt h (at_pc nt (NLen (connections h !! nt_review nt)))
| notifier_nil : nt_pc nt = NLen None -> notifier_step lock h nt h (at_pc nt NReturned)
| notifier_empty m : nt_pc nt = NLen (Some m) -> conns_of h m = ∅ -> notifier_step lock h nt h (at_pc nt NReturned)
| notifier_some m : nt_pc nt = NLen (Some m) -> conns_of h m <> ∅ -> notifier_step lock h nt h (at_pc nt (NBegin m))
| notifier_begin m : nt_pc nt = NBegin m -> notifier_step lock h nt h (at_pc nt (NRange m (conns_of h m) ∅))
| notifier_pick m must seen c : nt_pc nt = NRange m must seen -> c ∈ conns_of h m -> c ∉ seen ->
    notifier_step lock h nt h (at_pc nt (NSend m must seen c))
| notifier_end m must seen : nt_pc nt = NRange m must seen -> conns_of h m ∩ must ⊆ seen ->
    notifier_step lock h nt h (at_pc nt NReturned)
| notifier_send m must seen c h' : nt_pc nt = NSend m must seen c ->
    try_send (update_event (nt_review nt) (nt_event nt)) c h = Some h' ->
    notifier_step lock h nt h' (at_pc nt (NRange m must ({[c]} ∪ seen)))
| notifier_panic m must seen c : nt_pc nt = NSend m must seen c ->
    try_send (update_event (nt_review nt) (nt_event nt)) c h = None ->
    notifier_step lock h nt h (at_pc nt NPanicked).

(** In its loop; past it; removed from the map, holding the lock; gone. *)
Inductive stream_pc := SOpen | SEnding | SRemoved | SClosed.

#[global] Instance stream_pc_eq_dec : EqDecision stream_pc.
Proof. solve_decision. Defined.

Record Sys := mkSys {
  sys_hub : Hub;
  sys_lock : option positive;     (* the stream that holds the lock *)
  sys_streams : gmap positive (string * stream_pc);
  sys_notifiers : gmap nat Notifier;
}.

Definition sys_start : Sys := mkSys NewHub None ∅ ∅.

Inductive sys_step (s : Sys) : Sys -> Prop :=
| sys_open reviewID ok1 ok2 h' c out : sys_lock s = None -> stream_open reviewID ok1 ok2 (sys_hub s) = (h', c, out) ->
    sys_step s (mkSys h' None (<[c := (reviewID, SOpen)]> (sys_streams s)) (sys_notifiers s))
| sys_turn c reviewID sel h' out go : sys_streams s !! c = Some (reviewID, SOpen) ->
    stream_turn c sel (sys_hub s) = Some (h', out, go) ->
    sys_step s (mkSys h' (sys_lock s) (<[c := (reviewID, if go then SOpen else SEnding)]> (sys_streams s)) (sys_notifiers s))
| sys_remove c reviewID : sys_streams s !! c = Some (reviewID, SEnding) -> sys_lock s = None ->
    sys_step s (mkSys (delete_connection reviewID c (sys_hub s)) (Some c) (<[c := (reviewID, SRemoved)]> (sys_streams s)) (sys_notifiers s))
| sys_close c reviewID h' : sys_streams s !! c = Some (reviewID, SRemoved) -> close_chan c (sys_hub s) = Some h' ->
    sys_step s (mkSys h' None (<[c := (reviewID, SClosed)]> (sys_streams s)) (sys_notifiers s))
| sys_notify n reviewID eventType : sys_notifiers s !! n = None ->
    sys_step s (mkSys (sys_hub s) (sys_lock s) (sys_streams s) (<[n := mkNotifier reviewID eventType NTake]> (sys_notifiers s)))
| sys_notifier n nt h' nt' : sys_notifiers s !! n = Some nt -> notifier_step (sys_lock s) (sys_hub s) nt h' nt' ->
    sys_step s (mkSys h' (sys_lock s) (sys_streams s) (<[n := nt']> (sys_notifiers s))).

(** ** What holds of the registry *)

Definition live_stream (streams : gmap positive (string * stream_pc)) (c : positive) (reviewID : string) : Prop :=
  streams !! c = Some (reviewID, SOpen) \/ streams !! c = Some (reviewID, SEnding).

(** A map a notification of the review holds: no other review's. *)
Definition map_of_review (h : Hub) (reviewID : string) (m : positive) : Prop :=
  is_Some (inner_maps h !! m) /\ forall id, connections h !! id = Some m -> id = reviewID.

Definition notifier_ok (h : Hub) (streams : gmap positive (string * stream_pc)) (nt : Notifier) : Prop :=
  match nt_pc nt with
  | NLen (Some m) | NBegin m | NRange m _ _ => map_of_review h (nt_review nt) m
  | NSend m _ _ c => map_of_review h (nt_review nt) m /\ exists pc, streams !! c = Some (nt_review nt, pc)
  | _ => True
  end.

Record registry_ok (h : Hub) (streams : gmap positive (string * stream_pc)) : Prop := mkRegistryOk {
  ro_inj : forall id1 id2 m, connections h !! id1 = Some m -> connections h !! id2 = Some m -> id1 = id2;
  ro_nonempty : forall id m, connections h !! id = Some m -> conns_of h m <> ∅;
  ro_in : forall m c, c ∈ conns_of h m -> exists id, connections h !! id = Some m /\ live_stream streams c id;
  ro_live : forall c id, live_stream streams c id -> c ∈ conns_for h id;
  ro_chan : forall c id pc, streams !! c = Some (id, pc) ->
    exists buf, channels h !! c = Some (mkChan buf (bool_decide (pc = SClosed))) /\ (length buf <= chan_cap)%nat;
}.

Record sys_ok (s : Sys) : Prop := mkSysOk {
  so_registry : registry_ok (sys_hub s) (sys_streams s);
  so_notifiers : forall n nt, sys_notifiers s !! n = Some nt -> notifier_ok (sys_hub s) (sys_streams s) nt;
}.

Lemma conns_of_inner cs im chs m s m' :
  conns_of (mkHub cs (<[m := s]> im) chs) m' = if decide (m = m') then s else conns_of (mkHub cs im chs) m'.
Proof. unfold conns_of. cbn. case_decide; [subst; by rewrite lookup_insert_eq|by rewrite lookup_insert_ne]. Qed.

Lemma conns_of_dom h m c : c ∈ conns_of h m -> is_Some (inner_maps h !! m).
Proof. unfold conns_of. destruct (inner_maps h !! m); [by eexists|]. cbn. set_solver. Qed.

Lemma in_conns_for h id c : c ∈ conns_for h id <-> exists m, connections h !! id = Some m /\ c ∈ conns_of h m.
Proof. unfold conns_for. destruct (connections h !! id) as [m|]; naive_solver set_solver. Qed.

Lemma map_in_use h streams id m : registry_ok h streams -> connections h !! id = Some m -> is_Some (inner_maps h !! m).
Proof.
  intros Hr Hm. pose proof (ro_nonempty _ _ Hr id m Hm) as Hn. apply set_choose_L in Hn as [c Hc]. by eapply conns_of_dom.
Qed.

Lemma live_insert streams c v c' id : c <> c' -> live_stream (<[c := v]> streams) c' id <-> live_stream streams c' id.
Proof. intros Hne. unfold live_stream. by rewrite !lookup_insert_ne by done. Qed.

Lemma live_insert_eq streams c id pc id' :
  live_stream (<[c := (id, pc)]> streams) c id' <-> id' = id /\ (pc = SOpen \/ pc = SEnding).
Proof. unfold live_stream. rewrite !lookup_insert_eq. naive_solver. Qed.

(** Changes of a channel and of a stream's own progress. *)
Lemma registry_same_maps h h' streams streams' :
  registry_ok h streams -> connections h' = connections h -> inner_maps h' = inner_maps h ->
  (forall c id, live_stream streams' c id <-> live_stream streams c id) ->
  (forall c id pc, streams' !! c = Some (id, pc) ->
     exists buf, channels h' !! c = Some (mkChan buf (bool_decide (pc = SClosed))) /\ (length buf <= chan_cap)%nat) ->
  registry_ok h' streams'.
Proof.
  intros [Hinj Hne Hin Hlive Hch] Hc Hi Hl Hch'.
  assert (forall m, conns_of h' m = conns_of h m) as Ho by (intros m; unfold conns_of; by rewrite Hi).
  split.
  - rewrite Hc. done.
  - intros id m. rewrite Hc, Ho. apply Hne.
  - intros m c. rewrite Ho. intros H1'. destruct (Hin m c H1') as (id & H2' & H3'). exists id. rewrite Hc, Hl. done.
  - intros c id. rewrite Hl. intros H1'. apply Hlive in H1'. rewrite in_conns_for in H1' |- *.
    destruct H1' as (m & H2' & H3'). exists m. by rewrite Hc, Ho.
  - done.
Qed.

Lemma notifier_mono h h' streams streams' nt :
  notifier_ok h streams nt ->
  (forall m, is_Some (inner_maps h !! m) -> is_Some (inner_maps h' !! m)) ->
  (forall id m, is_Some (inner_maps h !! m) -> connections h' !! id = Some m -> connections h !! id = Some m) ->
  (forall c id pc, streams !! c = Some (id, pc) -> exists pc', streams' !! c = Some (id, pc')) ->
  notifier_ok h' streams' nt.
Proof.
  intros Hn Hi Hc Hs.
  assert (forall m, map_of_review h (nt_review nt) m -> map_of_review h' (nt_review nt) m) as Hm.
  { intros m [H1' H2']. split; [by apply Hi|]. intros id H3'. by apply H2', Hc. }
  unfold notifier_ok in *. destruct (nt_pc nt) as [|[m|]|m|m ? ?|m ? ? c| |]; try done; try by apply Hm.
  destruct Hn as [H1' [pc H2']]. split; [by apply Hm|]. by eapply Hs.
Qed.

Lemma streams_insert (streams : gmap positive (string * stream_pc)) c id pc pc' :
  streams !! c = Some (id, pc) ->
  forall c' id' pc0, streams !! c' = Some (id', pc0) -> exists pc1, <[c := (id, pc')]> streams !! c' = Some (id', pc1).
Proof.
  intros Hc c' id' pc0 Hc'. destruct (decide (c = c')) as [->|Hne].
  - rewrite lookup_insert_eq. simplify_eq. eauto.
  - rewrite lookup_insert_ne by done. eauto.
Qed.

Section Registry.
Context (h : Hub) (streams : gmap positive (string * stream_pc)).
Hypothesis Hok : registry_ok h streams.

Lemma registry_open id c :
  channels h !! c = None -> registry_ok (registerConnection id c (set_chan c (mkChan [] false) h)) (<[c := (id, SOpen)]> streams).
Proof.
  intros Hc. pose proof Hok as [Hinj Hne Hin Hlive Hch].
  assert (streams !! c = None) as Hs.
  { destruct (streams !! c) as [[id' pc]|] eqn:E; [|done]. destruct (Hch c id' pc E) as (? & ? & _). congruence. }
  assert (forall c' id', live_stream streams c' id' -> c' <> c) as Hold by (intros c' id' [E|E] ->; congruence).
  assert (forall c' id' pc, <[c := (id, SOpen)]> streams !! c' = Some (id', pc) ->
    exists buf, <[c := mkChan [] false]> (channels h) !! c' = Some (mkChan buf (bool_decide (pc = SClosed))) /\ (length buf <= chan_cap)%nat) as Hch'.
  { intros c' id' pc E. destruct (decide (c = c')) as [<-|Hn].
    - rewrite lookup_insert_eq in E. rewrite lookup_insert_eq. simplify_eq. exists []. split; [done|]. cbn. lia.
    - rewrite lookup_insert_ne in E by done. rewrite lookup_insert_ne by done. by apply (Hch c' id'). }
  assert (live_stream (<[c := (id, SOpen)]> streams) c id) as Hnew by (by apply live_insert_eq; auto).
  unfold registerConnection, set_chan. cbn [connections]. destruct (connections h !! id) as [m|] eqn:Em.
  - unfold set_inner. cbn [connections inner_maps channels]. split; cbn [connections channels]; [done| | |intros c' id' H1'; apply in_conns_for|done].
    + intros id' m' H1'. rewrite conns_of_inner. case_decide; [set_solver|]. by apply (Hne id').
    + intros m' c'. rewrite conns_of_inner. case_decide as E.
      * subst m'. intros [->%elem_of_singleton|H1']%elem_of_union; [by exists id|].
        destruct (Hin m c' H1') as (id' & H2' & H3'). exists id'. split; [done|]. apply live_insert; [|done]. intros ->. by eapply Hold.
      * intros H1'. destruct (Hin m' c' H1') as (id' & H2' & H3'). exists id'. split; [done|].
        apply live_insert; [|done]. intros ->. by eapply Hold.
    + cbn [connections]. destruct (decide (c = c')) as [<-|Hn].
      * apply live_insert_eq in H1' as [-> _]. exists m. rewrite conns_of_inner, decide_True by done. set_solver.
      * apply live_insert in H1'; [|done]. apply Hlive, in_conns_for in H1' as (m' & H2' & H3'). exists m'. split; [done|].
        rewrite conns_of_inner. case_decide; [subst; set_solver|done].
  - cbn [inner_maps channels]. set (m := fresh (dom (inner_maps h))).
    assert (inner_maps h !! m = None) as Hm by apply not_elem_of_dom, is_fresh.
    assert (forall id' m', connections h !! id' = Some m' -> m' <> m) as Hm'.
    { intros id' m' E ->. destruct (map_in_use h streams id' m Hok E). congruence. }
    split; cbn [connections channels]; [| | |intros c' id' H1'; apply in_conns_for; cbn [connections]|done].
    + intros id1 id2 m'. rewrite !lookup_insert_Some. naive_solver.
    + intros id' m'. rewrite lookup_insert_Some, conns_of_inner. intros [[-> <-]|[? E]]; [rewrite decide_True by done; set_solver|].
      rewrite decide_False by (intros ->; by eapply Hm'). by apply (Hne id').
    + intros m' c'. rewrite conns_of_inner. case_decide as E.
      * subst m'. intros ->%elem_of_singleton. exists id. by rewrite lookup_insert_eq.
      * intros H1'. destruct (Hin m' c' H1') as (id' & H2' & H3'). exists id'. rewrite lookup_insert_ne by congruence.
        split; [done|]. apply live_insert; [|done]. intros ->. by eapply Hold.
    + destruct (decide (c = c')) as [<-|Hn].
      * apply live_insert_eq in H1' as [-> _]. exists m. rewrite lookup_insert_eq, conns_of_inner, decide_True by done. set_solver.
      * apply live_insert in H1'; [|done]. apply Hlive, in_conns_for in H1' as (m' & H2' & H3'). exists m'.
        rewrite lookup_insert_ne by congruence. split; [done|]. rewrite conns_of_inner.
        rewrite decide_False by (intros ->; by eapply Hm'). done.
Qed.

Lemma registry_remove id c :
  streams !! c = Some (id, SEnding) -> registry_ok (delete_connection id c h) (<[c := (id, SRemoved)]> streams).
Proof.
  intros Hc. pose proof Hok as [Hinj Hne Hin Hlive Hch].
  assert (c ∈ conns_for h id) as Hcm by (apply Hlive; by right). apply in_conns_for in Hcm as (m & Hm & Hcm).
  assert (forall c' id', live_stream (<[c := (id, SRemoved)]> streams) c' id' -> c' <> c /\ live_stream streams c' id') as Hold.
  { intros c' id' H1'. destruct (decide (c = c')) as [<-|Hn]; [apply live_insert_eq in H1'; naive_solver|].
    apply live_insert in H1'; auto. }
  unfold delete_connection. rewrite Hm. set (s := conns_of h m ∖ {[c]}).
  assert (forall id' m', m' <> m -> connections h !! id' = Some m' ->
    (if bool_decide (s = ∅) then delete id (connections h) else connections h) !! id' = Some m') as Hkeep.
  { intros id' m' Hn E. case_bool_decide; [|done]. rewrite lookup_delete_ne; [done|]. intros ->. congruence. }
  assert (forall id' m', (if bool_decide (s = ∅) then delete id (connections h) else connections h) !! id' = Some m' ->
    connections h !! id' = Some m' /\ (m' = m -> s <> ∅)) as Hrev.
  { intros id' m'. case_bool_decide as Es; [|naive_solver]. rewrite lookup_delete_Some. intros [Hn E]. split; [done|].
    intros ->. by destruct Hn; eapply Hinj. }
  split; cbn [connections channels]; [| | |intros c' id' H1'; apply in_conns_for; cbn [connections]|].
  - intros id1 id2 m' [E1 _]%Hrev [E2 _]%Hrev. by eapply Hinj.
  - intros id' m' [E Es]%Hrev. rewrite conns_of_inner. destruct (decide (m = m')) as [Em|]; [exact (Es (eq_sym Em))|]. by apply (Hne id').
  - intros m' c'. rewrite conns_of_inner. destruct (decide (m = m')) as [E|E].
    + subst m'. intros H1'. pose proof H1' as [H2' Hn%not_elem_of_singleton]%elem_of_difference.
      destruct (Hin m c' H2') as (id' & H3' & H4'). exists id'. split.
      * case_bool_decide as Es; [|done]. rewrite Es in H1'. by apply not_elem_of_empty in H1'.
      * by apply live_insert.
    + intros H1'. destruct (Hin m' c' H1') as (id' & H2' & H3'). exists id'. split; [by apply Hkeep|].
      apply live_insert; [|done]. intros <-. assert (id' = id) as -> by (destruct H3'; congruence). congruence.
  - apply Hold in H1' as [Hn H1']. pose proof H1' as H2'. apply Hlive, in_conns_for in H2' as (m' & H2' & H3').
    exists m'. rewrite conns_of_inner. destruct (decide (m = m')) as [<-|Hmm].
    + assert (id' = id) as -> by (by eapply Hinj).
      assert (c' ∈ s) as H4' by (by apply elem_of_difference; rewrite not_elem_of_singleton).
      split; [|done]. case_bool_decide as Es; [|done]. rewrite Es in H4'. by apply not_elem_of_empty in H4'.
    + by split; [apply Hkeep|].
  - intros c' id' pc. destruct (decide (c = c')) as [<-|Hn].
    + rewrite lookup_insert_eq. intros [= <- <-]. by apply (Hch c id SEnding).
    + rewrite lookup_insert_ne by done. apply Hch.
Qed.
End Registry.

(** *** Sends *)

Lemma chan_push_closed data ch : ch_closed (chan_push data ch) = ch_closed ch.
Proof. unfold chan_push. by destruct (_ <? _)%nat. Qed.

Lemma chan_push_bound data buf closed :
  (length buf <= chan_cap)%nat -> exists buf', chan_push data (mkChan buf closed) = mkChan buf' closed /\ (length buf' <= chan_cap)%nat.
Proof.
  intros Hb. unfold chan_push. cbn [ch_buf ch_closed]. destruct (_ <? _)%nat eqn:E; [|by exists buf].
  eexists. split; [done|]. apply Nat.ltb_lt in E. rewrite length_app. cbn. lia.
Qed.

Lemma try_send_ok data c h h' : try_send data c h = Some h' ->
  exists ch, channels h !! c = Some ch /\ ch_closed ch = false /\ h' = set_chan c (chan_push data ch) h.
Proof.
  unfold try_send. destruct (channels h !! c) as [ch|]; [|done]. destruct (ch_closed ch) eqn:Ec; [done|].
  intros [= <-]. eauto.
Qed.

(** *** The step relation keeps the invariant *)

Lemma live_insert_same streams c id pc pc' c' id' :
  live_stream streams c id -> (pc' = SOpen \/ pc' = SEnding) -> streams !! c = Some (id, pc) ->
  live_stream (<[c := (id, pc')]> streams) c' id' <-> live_stream streams c' id'.
Proof.
  intros Hl Hpc Hc. destruct (decide (c = c')) as [<-|Hn]; [|by apply live_insert].
  rewrite live_insert_eq. unfold live_stream in *. rewrite Hc in *. naive_solver.
Qed.

Lemma set_chan_registry h streams streams' c id pc pc' ch' :
  registry_ok h streams -> streams !! c = Some (id, pc) -> streams' = <[c := (id, pc')]> streams ->
  (forall c' id', live_stream streams' c' id' <-> live_stream streams c' id') ->
  ch_closed ch' = bool_decide (pc' = SClosed) -> (length (ch_buf ch') <= chan_cap)%nat ->
  registry_ok (set_chan c ch' h) streams'.
Proof.
  intros Hok Hc -> Hl Hcl Hb. apply (registry_same_maps h _ streams); try done.
  intros c1 id1 pc1 E. cbn [channels set_chan]. destruct (decide (c = c1)) as [<-|Hn].
  - rewrite lookup_insert_eq in E. rewrite lookup_insert_eq. simplify_eq. destruct ch' as [buf closed]. cbn in *. subst. eauto.
  - rewrite lookup_insert_ne in E by done. rewrite lookup_insert_ne by done. by eapply ro_chan.
Qed.

Lemma stream_open_spec reviewID ok1 ok2 h h' c out : stream_open reviewID ok1 ok2 h = (h', c, out) ->
  channels h !! c = None /\ h' = registerConnection reviewID c (set_chan c (mkChan [] false) h).
Proof.
  unfold stream_open, make_chan. intros [= <- <- _]. split; [|done]. apply not_elem_of_dom, is_fresh.
Qed.

Lemma register_maps reviewID c h :
  (forall m, is_Some (inner_maps h !! m) -> is_Some (inner_maps (registerConnection reviewID c h) !! m)) /\
  (forall id m, is_Some (inner_maps h !! m) -> connections (registerConnection reviewID c h) !! id = Some m -> connections h !! id = Some m).
Proof.
  unfold registerConnection. destruct (connections h !! reviewID) as [m0|] eqn:E; cbn.
  - split; [|done]. intros m Hm. destruct (decide (m0 = m)) as [->|Hn]; [rewrite lookup_insert_eq; eauto|by rewrite lookup_insert_ne].
  - set (m0 := fresh (dom (inner_maps h))). assert (inner_maps h !! m0 = None) as Hf by apply not_elem_of_dom, is_fresh. split.
    + intros m Hm. destruct (decide (m0 = m)) as [->|Hn]; [rewrite lookup_insert_eq; eauto|by rewrite lookup_insert_ne].
    + intros id m Hm. rewrite lookup_insert_Some. intros [[_ <-]|[_ H1']]; [|done]. rewrite Hf in Hm. by destruct Hm.
Qed.

Lemma delete_maps reviewID c h :
  (forall m, is_Some (inner_maps h !! m) -> is_Some (inner_maps (delete_connection reviewID c h) !! m)) /\
  (forall id m, is_Some (inner_maps h !! m) -> connections (delete_connection reviewID c h) !! id = Some m -> connections h !! id = Some m).
Proof.
  unfold delete_connection. destruct (connections h !! reviewID) as [m0|]; [|done]. cbn. split.
  - intros m Hm. destruct (decide (m0 = m)) as [->|Hn]; [rewrite lookup_insert_eq; eauto|by rewrite lookup_insert_ne].
  - intros id m _. case_bool_decide; [|done]. by intros [_ ?]%lookup_delete_Some.
Qed.

(** Steps of a stream leave every notification as well placed as it was. *)
Lemma notifiers_after s h' streams' :
  sys_ok s ->
  (forall m, is_Some (inner_maps (sys_hub s) !! m) -> is_Some (inner_maps h' !! m)) ->
  (forall id m, is_Some (inner_maps (sys_hub s) !! m) -> connections h' !! id = Some m -> connections (sys_hub s) !! id = Some m) ->
  (forall c id pc, sys_streams s !! c = Some (id, pc) -> exists pc', streams' !! c = Some (id, pc')) ->
  forall n nt, sys_notifiers s !! n = Some nt -> notifier_ok h' streams' nt.
Proof. intros Hok Hi Hc Hs n nt Hn. eapply notifier_mono; [by eapply so_notifiers|done..]. Qed.

Lemma notifier_step_ok lock h streams nt h' nt' :
  registry_ok h streams -> notifier_ok h streams nt -> notifier_step lock h nt h' nt' ->
  registry_ok h' streams /\ notifier_ok h' streams nt' /\ connections h' = connections h /\ inner_maps h' = inner_maps h.
Proof.
  intros Hok Hn Hs.
  destruct Hs as [Hp Hl|Hp|m Hp He|m Hp He|m Hp|m must seen c Hp Hin Hns|m must seen Hp Hsub|m must seen c h' Hp Hsend|m must seen c Hp Hsend];
    unfold notifier_ok in *; rewrite Hp in Hn; cbn [at_pc nt_pc nt_review]; try done.
  - split; [done|]. split; [|done]. destruct (connections h !! nt_review nt) as [m|] eqn:Em; [|done]. split; [by eapply map_in_use|].
    intros id H1'. by eapply ro_inj.
  - split; [done|]. split; [|done]. split; [done|]. destruct Hn as [_ Hn].
    destruct (ro_in _ _ Hok m c Hin) as (id & Hid & Hlive). apply Hn in Hid as ->. destruct Hlive; eauto.
  - destruct Hn as [Hm [pc Hc]]. apply try_send_ok in Hsend as (ch & Hch & Hcl & ->).
    split; [|split; [exact Hm|done]]. destruct (ro_chan _ _ Hok c _ _ Hc) as (buf & Hb & Hlen). rewrite Hch in Hb. injection Hb as ->.
    destruct (chan_push_bound (update_event (nt_review nt) (nt_event nt)) buf (bool_decide (pc = SClosed)) Hlen) as (buf' & -> & Hlen').
    eapply (set_chan_registry h streams streams c _ pc pc); try done. by rewrite insert_id.
Qed.

Lemma sys_step_ok s s' : sys_step s s' -> sys_ok s -> sys_ok s'.
Proof.
  intros Hs Hok. pose proof (so_registry s Hok) as Hr.
  destruct Hs as [id ok1 ok2 h' c out Hl Ho|c id sel h' out go Hc Ht|c id Hc Hl|c id h' Hc Hcl|n id ev Hn|n nt h' nt' Hn Hst].
  - apply stream_open_spec in Ho as [Hf ->]. destruct (register_maps id c (set_chan c (mkChan [] false) (sys_hub s))) as [H1' H2'].
    split; cbn [sys_hub sys_streams sys_notifiers]; [by apply registry_open|]. eapply (notifiers_after s); [done|exact H1'|exact H2'|].
    intros c' id' pc Hc'. exists pc. rewrite lookup_insert_ne; [done|]. intros <-.
    destruct (ro_chan _ _ Hr c id' pc Hc') as (? & ? & _). congruence.
  - assert (live_stream (sys_streams s) c id) as Hlive by (by left).
    assert (forall c' id', live_stream (<[c := (id, if go then SOpen else SEnding)]> (sys_streams s)) c' id' <-> live_stream (sys_streams s) c' id') as Hl
      by (intros; eapply live_insert_same; [done| |done]; destruct go; auto).
    destruct (ro_chan _ _ Hr c id _ Hc) as (buf & Hb & Hlen).
    assert (registry_ok h' (<[c := (id, if go then SOpen else SEnding)]> (sys_streams s)) /\
      connections h' = connections (sys_hub s) /\ inner_maps h' = inner_maps (sys_hub s)) as (H1' & H2' & H3').
    { destruct sel as [|ok|time ok]; cbn [stream_turn] in Ht.
      2: { rewrite Hb in Ht. destruct buf as [|d buf]; [done|]. injection Ht as <- _ <-. split; [|done]. cbn in Hlen.
           eapply set_chan_registry; try done; cbn; [by destruct ok|lia]. }
      all: injection Ht as <- _ <-; split; [|done]; apply (registry_same_maps (sys_hub s) _ (sys_streams s)); try done;
        intros c1 id1 pc1 E; destruct (decide (c = c1)) as [<-|Hn];
        [rewrite lookup_insert_eq in E; injection E as <- <-; eauto|rewrite lookup_insert_ne in E by done; by eapply ro_chan]. }
    split; [done|]. cbn. eapply notifiers_after; [done|by rewrite H3'|by rewrite H2'|by eapply streams_insert].
  - destruct (delete_maps id c (sys_hub s)) as [H1' H2']. split; [by apply registry_remove|]. eapply (notifiers_after s); [done|exact H1'|exact H2'|].
    by eapply streams_insert.
  - destruct (ro_chan _ _ Hr c id _ Hc) as (buf & Hb & Hlen). unfold close_chan in Hcl. rewrite Hb in Hcl. injection Hcl as <-.
    split; cbn [sys_hub sys_streams sys_notifiers].
    + eapply set_chan_registry; try done. intros c' id'. destruct (decide (c = c')) as [<-|Hn]; [|by apply live_insert].
      rewrite live_insert_eq. unfold live_stream. rewrite Hc. naive_solver.
    + eapply notifiers_after; [done..|]. by eapply streams_insert.
  - split; [done|]. cbn. intros n' nt'. rewrite lookup_insert_Some. intros [[_ <-]|[_ H1']]; [done|]. by eapply so_notifiers.
  - destruct (notifier_step_ok _ _ _ _ _ _ Hr (so_notifiers s Hok n nt Hn) Hst) as (H1' & H2' & H3' & H4').
    split; [done|]. cbn. intros n' nt0. rewrite lookup_insert_Some. intros [[_ <-]|[_ H5']]; [done|].
    eapply notifiers_after; [done|by rewrite H4'|by rewrite H3'|eauto|done].
Qed.

Lemma sys_start_ok : sys_ok sys_start.
Proof.
  split; [split|]; cbn; [done..| | | |].
  - intros m c. unfold conns_of. cbn. rewrite lookup_empty. set_solver.
  - intros c id [E|E]; by rewrite lookup_empty in E.
  - intros c id pc E. by rewrite lookup_empty in E.
  - intros n nt E. by rewrite lookup_empty in E.
Qed.

Lemma reachable_ok s : rtc sys_step sys_start s -> sys_ok s.
Proof. intros Hs. eapply rtc_ind_r with (P := sys_ok); [exact sys_start_ok| |done]. intros s1 s2 _ H1' H2'. by eapply sys_step_ok. Qed.

(** * Delivery *)

(** An event sent once to each of the channels [cs]. *)
Definition deliver (data : string) (cs : gset positive) (h : Hub) : Hub :=
  mkHub (connections h) (inner_maps h)
    (map_imap (fun c ch => Some (if decide (c ∈ cs) then chan_push data ch else ch)) (channels h)).

(** Every registered channel is open. *)
Definition hub_open (h : Hub) : Prop :=
  forall id c, c ∈ conns_for h id -> exists buf, channels h !! c = Some (mkChan buf false).

Lemma registry_live h streams c id : registry_ok h streams -> live_stream streams c id <-> c ∈ conns_for h id.
Proof.
  intros Hok. split; [apply (ro_live _ _ Hok)|]. intros (m & Hm & Hc)%in_conns_for.
  destruct (ro_in _ _ Hok m c Hc) as (id' & Hm' & Hl). by rewrite (ro_inj _ _ Hok id id' m).
Qed.

Lemma live_open h streams c id : registry_ok h streams -> live_stream streams c id ->
  exists buf, channels h !! c = Some (mkChan buf false) /\ (length buf <= chan_cap)%nat.
Proof. intros Hok [Hc|Hc]; apply (ro_chan _ _ Hok) in Hc as (buf & Hb & Hl); eauto. Qed.

Lemma registry_hub_open h streams : registry_ok h streams -> hub_open h.
Proof.
  intros Hok id c Hc. apply (registry_live _ _ _ _ Hok) in Hc. destruct (live_open _ _ _ _ Hok Hc) as (buf & ? & _). eauto.
Qed.

Lemma deliver_lookup data cs h c :
  channels (deliver data cs h) !! c = (fun ch => if decide (c ∈ cs) then chan_push data ch else ch) <$> channels h !! c.
Proof. cbn. rewrite map_lookup_imap. by destruct (channels h !! c). Qed.

Lemma deliver_none data h : deliver data ∅ h = h.
Proof.
  destruct h as [cs im chs]. unfold deliver. f_equal. apply map_eq. intros c.
  pose proof (deliver_lookup data ∅ (mkHub cs im chs) c) as E. cbn in E |- *. rewrite E.
  destruct (chs !! c); [|done]. cbn. by rewrite decide_False by set_solver.
Qed.

Lemma deliver_one data cs h c buf :
  channels h !! c = Some (mkChan buf false) -> c ∉ cs ->
  try_send data c (deliver data cs h) = Some (deliver data ({[c]} ∪ cs) h).
Proof.
  intros Hc Hn. unfold try_send. rewrite deliver_lookup, Hc. cbn [fmap option_fmap option_map]. rewrite decide_False by done. cbn [ch_closed].
  f_equal. unfold set_chan, deliver. cbn [connections inner_maps channels]. f_equal. apply map_eq. intros c'.
  change (map_imap _ (channels h)) with (channels (deliver data cs h)) at 1.
  change (map_imap _ (channels h)) with (channels (deliver data ({[c]} ∪ cs) h)).
  rewrite (deliver_lookup data ({[c]} ∪ cs)). destruct (decide (c = c')) as [<-|Hne].
  - rewrite lookup_insert_eq, Hc. cbn. by rewrite decide_True by set_solver.
  - rewrite lookup_insert_ne, deliver_lookup by done. destruct (channels h !! c'); [|done]. cbn. f_equal.
    destruct (decide (c' ∈ cs)); [by rewrite decide_True by set_solver|by rewrite decide_False by set_solver].
Qed.

Lemma send_all data l h :
  NoDup l -> (forall c, c ∈ l -> exists buf, channels h !! c = Some (mkChan buf false)) ->
  foldr (fun c oh => oh ≫= try_send data c) (Some h) l = Some (deliver data (list_to_set l) h).
Proof.
  intros Hnd Ho. induction Hnd as [|c l Hc Hnd IH]; cbn; [by rewrite deliver_none|].
  rewrite IH by (intros c' H1'; apply Ho; by right). cbn. destruct (Ho c ltac:(left)) as [buf Hb].
  by erewrite deliver_one by (done || by rewrite elem_of_list_to_set).
Qed.

(** The whole notification reaches every stream of the review and no other. *)
Lemma notify_deliver id ev h : hub_open h ->
  notifyReviewUpdate id ev h = Some (deliver (update_event id ev) (conns_for h id) h).
Proof.
  intros Ho. unfold notifyReviewUpdate. specialize (Ho id). unfold conns_for in *. destruct (connections h !! id) as [m|]; [|by rewrite deliver_none].
  case_bool_decide as Es; [apply size_empty_inv in Es; apply leibniz_equiv in Es; by rewrite Es, deliver_none|].
  rewrite send_all; [by rewrite list_to_set_elements_L|apply NoDup_elements|]. intros c. rewrite elem_of_elements. apply Ho.
Qed.

Section Alone.
Context (h0 : Hub) (id ev : string).
Hypothesis Hopen : hub_open h0.

(** Where a notification is after [k] of its own steps, if nothing else runs. *)
Definition alone_at (k : nat) (h : Hub) (nt : Notifier) : Prop :=
  nt_review nt = id /\ nt_event nt = ev /\
  let holds m := connections h0 !! id = Some m in
  let sent seen := h = deliver (update_event id ev) seen h0 in
  match nt_pc nt with
  | NTake => k = 0%nat /\ h = h0
  | NLen o => k = 1%nat /\ h = h0 /\ o = connections h0 !! id
  | NBegin m => k = 2%nat /\ h = h0 /\ holds m
  | NRange m must seen => k = (3 + 2 * size seen)%nat /\ sent seen /\ holds m /\ must = conns_of h0 m /\ seen ⊆ must
  | NSend m must seen c => k = (4 + 2 * size seen)%nat /\ sent seen /\ holds m /\ must = conns_of h0 m /\ seen ⊆ must /\ c ∈ must ∖ seen
  | NReturned => (k <= 4 + 2 * size (conns_for h0 id))%nat /\ sent (conns_for h0 id)
  | NPanicked => False
  end.

Lemma conns_of_deliver data cs m : conns_of (deliver data cs h0) m = conns_of h0 m.
Proof. done. Qed.

Lemma alone_step k h nt h' nt' : alone_at k h nt -> notifier_step None h nt h' nt' -> alone_at (S k) h' nt'.
Proof.
  intros (Hid & Hev & Hat) Hs.
  destruct Hs as [Hp Hl|Hp|m Hp He|m Hp He|m Hp|m must seen c Hp Hin Hns|m must seen Hp Hsub|m must seen c h' Hp Hsend|m must seen c Hp Hsend];
    rewrite Hp in Hat; unfold alone_at; cbn [at_pc nt_pc nt_review nt_event]; (split; [done|]); (split; [done|]); cbn zeta.
  - destruct Hat as [-> ->]. by rewrite Hid.
  - destruct Hat as (-> & -> & E). unfold conns_for. rewrite <- E. split; [lia|]. by rewrite deliver_none.
  - destruct Hat as (-> & -> & E). unfold conns_for. rewrite <- E, He. split; [lia|]. by rewrite deliver_none.
  - by destruct Hat as (-> & -> & E).
  - destruct Hat as (-> & -> & E). rewrite size_empty, deliver_none. split; [lia|]. split; [done|]. split; [done|]. split; [done|]. set_solver.
  - destruct Hat as (-> & -> & E & -> & Hsub). rewrite conns_of_deliver in Hin. split; [lia|]. do 4 (split; [done|]). by apply elem_of_difference.
  - destruct Hat as (-> & -> & E & -> & Hseen). rewrite conns_of_deliver in Hsub.
    assert (conns_for h0 id = seen) as -> by (unfold conns_for; rewrite E; set_solver). split; [lia|done].
  - destruct Hat as (-> & -> & E & -> & Hseen & [Hc Hn]%elem_of_difference). rewrite Hid, Hev in Hsend.
    destruct (Hopen id c) as [buf Hb]; [by apply in_conns_for; eauto|]. rewrite (deliver_one _ _ _ _ buf Hb Hn) in Hsend. injection Hsend as <-.
    rewrite size_union, size_singleton by set_solver. split; [lia|]. do 3 (split; [done|]). set_solver.
  - destruct Hat as (-> & -> & E & -> & Hseen & [Hc Hn]%elem_of_difference). rewrite Hid, Hev in Hsend.
    destruct (Hopen id c) as [buf Hb]; [by apply in_conns_for; eauto|]. by rewrite (deliver_one _ _ _ _ buf Hb Hn) in Hsend.
Qed.

Lemma alone_bounded k h nt : alone_at k h nt -> (k <= 4 + 2 * size (conns_for h0 id))%nat.
Proof.
  intros (_ & _ & Hat). cbn zeta in Hat. destruct (nt_pc nt) as [|o|m|m must seen|m must seen c| |]; try (destruct Hat; lia).
  - destruct Hat as (-> & _ & E & -> & Hs). unfold conns_for. rewrite E. apply subseteq_size in Hs. lia.
  - destruct Hat as (-> & _ & E & -> & Hs & Hc). unfold conns_for. rewrite E.
    assert (size ({[c]} ∪ seen) <= size (conns_of h0 m))%nat as Hle by (apply subseteq_size; set_solver).
    rewrite size_union, size_singleton in Hle by set_solver. lia.
Qed.

(** Only a notification that returned has no next step. *)
Lemma alone_progress k h nt : alone_at k h nt -> nt_pc nt <> NReturned -> exists h' nt', notifier_step None h nt h' nt'.
Proof.
  intros (Hid & Hev & Hat) Hn. destruct (nt_pc nt) as [|o|m|m must seen|m must seen c| |] eqn:Hp; try done.
  - do 2 eexists. by apply notifier_take.
  - destruct o as [m|]; [|do 2 eexists; by eapply notifier_nil].
    destruct (decide (conns_of h m = ∅)); do 2 eexists; [by eapply notifier_empty|by eapply notifier_some].
  - do 2 eexists. by apply notifier_begin.
  - destruct (decide (conns_of h m ⊆ seen)) as [Hs|Hs]; [do 2 eexists; eapply notifier_end; [done|]; intros x [Hx _]%elem_of_intersection; by apply Hs|].
    destruct (set_choose_L (conns_of h m ∖ seen)) as [c [Hc Hs']%elem_of_difference]; [intros E; by apply Hs, empty_difference_subseteq_L|].
    do 2 eexists. by eapply notifier_pick.
  - destruct (try_send (update_event (nt_review nt) (nt_event nt)) c h) as [h'|] eqn:E; do 2 eexists; [by eapply notifier_send|by eapply notifier_panic].
Qed.
End Alone.

(** * What the end points promise *)

(** C25: Whatever streams come and go and however notifications interleave with
    them, the streams open on a review are exactly the channels registered for it,
    none of these is closed or holds more than ten events, no stream closes its
    channel twice, and a notification sends only to streams of its own review and
    panics only on one that ended between the choice and the send. *)
Theorem stream_registry_invariant (s : Sys) : rtc sys_step sys_start s ->
  (forall c id, live_stream (sys_streams s) c id <-> c ∈ conns_for (sys_hub s) id) /\
  (forall c id, live_stream (sys_streams s) c id ->
     exists buf, channels (sys_hub s) !! c = Some (mkChan buf false) /\ (length buf <= chan_cap)%nat) /\
  (forall c id, sys_streams s !! c = Some (id, SRemoved) -> is_Some (close_chan c (sys_hub s))) /\
  (forall n nt m must seen c, sys_notifiers s !! n = Some nt -> nt_pc nt = NSend m must seen c ->
     exists pc, sys_streams s !! c = Some (nt_review nt, pc) /\
       (try_send (update_event (nt_review nt) (nt_event nt)) c (sys_hub s) = None <-> pc = SClosed)).
Proof.
  intros Hs. apply reachable_ok in Hs as [Hr Hn]. split_and!.
  - intros c id. by apply registry_live.
  - intros c id. by apply live_open.
  - intros c id Hc. destruct (ro_chan _ _ Hr c id _ Hc) as (buf & Hb & _). unfold close_chan. rewrite Hb. cbn. eauto.
  - intros n nt m must seen c Hnt Hpc. specialize (Hn n nt Hnt). unfold notifier_ok in Hn. rewrite Hpc in Hn.
    destruct Hn as [_ [pc Hc]]. exists pc. split; [done|]. destruct (ro_chan _ _ Hr c _ pc Hc) as (buf & Hb & _).
    unfold try_send. rewrite Hb. cbn [ch_closed]. case_bool_decide; naive_solver.
Qed.

(** C26: A notification that nothing interrupts ends, whatever order the map is
    walked in: it takes at most four steps and two per stream of the review, it
    cannot stop before it returned, and then it has done what the handlers' call
    does, which is to add the event once to every stream of the review that has
    room, and to no other. *)
Theorem notification_terminates (h : Hub) (streams : gmap positive (string * stream_pc)) (id ev : string) :
  registry_ok h streams ->
  forall k h' nt',
    nsteps (fun x y => notifier_step None x.1 x.2 y.1 y.2) k (h, mkNotifier id ev NTake) (h', nt') ->
    (k <= 4 + 2 * size (conns_for h id))%nat /\
    (nt_pc nt' <> NReturned -> exists h2 nt2, notifier_step None h' nt' h2 nt2) /\
    (nt_pc nt' = NReturned ->
      notifyReviewUpdate id ev h = Some h' /\
      forall c, channels h' !! c =
        (fun ch => if decide (c ∈ conns_for h id) then chan_push (update_event id ev) ch else ch) <$> channels h !! c).
Proof.
  intros Hok k h' nt' Hk. pose proof (registry_hub_open _ _ Hok) as Ho.
  assert (alone_at h id ev k h' nt') as Hat.
  { remember (h', nt') as y eqn:Ey. revert h' nt' Ey. induction k as [|k IH] using nat_ind in y, Hk |- *; intros h' nt' ->.
    - inversion Hk; subst. done.
    - apply nsteps_inv_r in Hk as ([h1 nt1] & Hk & Hs). eapply alone_step; [done|by eapply IH|exact Hs]. }
  split_and!.
  - by eapply alone_bounded.
  - by eapply alone_progress.
  - intros Hp. destruct Hat as (_ & _ & Hat). rewrite Hp in Hat. destruct Hat as [_ ->].
    split; [by apply notify_deliver|]. intros c. apply deliver_lookup.
Qed.

(** A request of a caller the middlewares let through. *)
Definition caller_is (r : Request) (u : UUID) : Prop := UserIDKey (ReqCtx r) = Some u.

Section Decisions.
Context `{PayloadJson, JsonText} (env : DbEnv) (Hopen : db_open env).

Lemma Approve_decided now aid input w k r :
  reviews_ok (rw_reviews w) -> rw_reviews w !! k = Some r -> rr_TokenHash r = review_hashToken (di_Token input) ->
  rr_Status r <> ReviewStatusPending -> Approve env now aid input w = (w, Err (ErrReviewNotPending : error)).
Proof.
  intros Hok Hk Hh Hs. unfold Approve. rewrite (approve_check_found env Hopen now input w k r) by done.
  by rewrite bool_decide_eq_false_2.
Qed.

Lemma decide_input_ok r u token reason :
  caller_is r u -> token <> "" -> decide_input r (Some (mkDecideBody token reason)) = Success StatusOK (mkDecideInput token u reason).
Proof.
  unfold caller_is, decide_input, GetUserID. intros -> Ht. cbn [db_Token]. by rewrite bool_decide_eq_false_2.
Qed.

(** C24: An approval is announced at most once. When no stream starts or ends while
    the notification runs, the request with the token of an approvable review is
    answered 200 with the decided review; the event is added to each stream open on
    that review whose channel holds fewer than ten, is lost for one whose channel is
    full, and reaches no other stream. Whatever statements follow, the same token is
    then answered 409 to anyone and nothing is announced. (A stream that ends during
    the notification can make it panic: [notification_can_panic].) *)
Theorem decision_announced_once (now : Z) (aid : UUID) (req : Request) (u : UUID) (token reason : string) (s : ReviewServer) k r :
  reviews_ok (rw_reviews (rs_world s)) -> hub_open (rs_hub s) -> caller_is req u -> token <> "" ->
  rw_reviews (rs_world s) !! k = Some r -> rr_TokenHash r = review_hashToken token -> approvable now r ->
  let decided := set_decided now ReviewStatusApproved u r in
  let announced := update_event (uuid_String (rr_ID r)) "status:APPROVED" in
  exists s1, handle_ApproveReview env now aid req (Some (mkDecideBody token reason)) s =
      (s1, Answered (Success StatusOK (convertSQLCReviewRequest decided))) /\
    rw_reviews (rs_world s1) = <[k := decided]> (rw_reviews (rs_world s)) /\
    (forall c ch, channels (rs_hub s) !! c = Some ch -> c ∈ conns_for (rs_hub s) (uuid_String (rr_ID r)) ->
       channels (rs_hub s1) !! c =
         Some (if (length (ch_buf ch) <? 10)%nat then mkChan (ch_buf ch ++ [announced]) (ch_closed ch) else ch)) /\
    (forall c, c ∉ conns_for (rs_hub s) (uuid_String (rr_ID r)) -> channels (rs_hub s1) !! c = channels (rs_hub s) !! c) /\
    forall s2 now2 aid2 req2 u2 reason2,
      rtc review_step (rw_reviews (rs_world s1)) (rw_reviews (rs_world s2)) -> caller_is req2 u2 ->
      handle_ApproveReview env now2 aid2 req2 (Some (mkDecideBody token reason2)) s2 =
        (s2, Answered (Failure StatusConflict ErrReviewNotPending)).
Proof.
  intros Hok Hhub Hu Ht Hk Hh Happ decided announced. set (input := mkDecideInput token u reason).
  destruct (Approve_hit env Hopen now aid input (rs_world s) k r Hok Hk Hh Happ) as [e He]. fold decided in He.
  set (w1 := emit env now aid e (set_reviews (rs_world s) (<[k := decided]> (rw_reviews (rs_world s))))) in He.
  assert (rw_reviews w1 = <[k := decided]> (rw_reviews (rs_world s))) as Hw1 by (unfold w1; by rewrite emit_reviews).
  exists (mkReviewServer w1 (deliver announced (conns_for (rs_hub s) (uuid_String (rr_ID r))) (rs_hub s))). split_and!.
  - unfold handle_ApproveReview. rewrite (decide_input_ok req u) by done. fold input. rewrite He. unfold answer_changed.
    by rewrite notify_deliver.
  - done.
  - intros c ch Hc Hin. cbn [rs_hub]. rewrite deliver_lookup, Hc. cbn. rewrite decide_True by done. reflexivity.
  - intros c Hin. cbn [rs_hub]. rewrite deliver_lookup.
    destruct (channels (rs_hub s) !! c); cbn; [by rewrite decide_False|done].
  - cbn [rs_world]. intros s2 now2 aid2 req2 u2 reason2 Hsteps Hu2.
    assert (reviews_ok (rw_reviews w1)) as Hok1.
    { pose proof (Approve_steps env now aid input (rs_world s)) as Hst. rewrite He in Hst. by apply (review_steps_ok _ _ Hst). }
    destruct (review_steps_ok _ _ Hsteps Hok1) as [Hok2 Hm].
    destruct (Hm k decided) as (r2 & Hk2 & Hsame & Htr & _); [rewrite Hw1; apply lookup_insert_eq|].
    destruct Hsame as (_ & _ & _ & _ & _ & Hh2 & _). unfold decided in Hh2. cbn in Hh2. rewrite Hh in Hh2.
    unfold handle_ApproveReview. rewrite (decide_input_ok req2 u2) by done.
    rewrite (Approve_decided now2 aid2 _ (rs_world s2) k r2); [cbn [answer_changed]; by destruct s2|done|done|exact Hh2|by eapply transitions_from_final].
Qed.
End Decisions.

(** *** The stream's route *)

Lemma wrapped_stays w m w' : is_Flusher w = false -> writer_through w m w' -> is_Flusher w' = false.
Proof. intros Hw Hm. by destruct Hm. Qed.

Lemma wrapped_chain w mws w' : is_Flusher w = false -> writer_at w mws w' -> is_Flusher w' = false.
Proof. intros Hw Hm. induction Hm as [|w m mws w1 w2 H1' _ IH]; [done|]. by eapply IH, wrapped_stays. Qed.

Lemma audited_chain w mws w' : AuditMW ∈ mws -> writer_at w mws w' -> is_Flusher w' = false.
Proof.
  intros Hin Hm. induction Hm as [|w m mws w1 w2 H1' H2' IH]; [by apply not_elem_of_nil in Hin|].
  apply elem_of_cons in Hin as [<-|Hin]; [|by apply IH]. eapply wrapped_chain; [|exact H2']. by inversion H1'.
Qed.

Lemma stream_route_audited m rt : rt ∈ routes (NewRouter m) -> rt_Handler rt = "Reviews.StreamReview" -> AuditMW ∈ rt_Middlewares rt.
Proof.
  assert (forallb (fun rt => negb (bool_decide (rt_Handler rt = "Reviews.StreamReview")) || bool_decide (AuditMW ∈ rt_Middlewares rt))
            (routes (NewRouter m)) = true) as H by (destruct m as [[] [] [] [] [] [] []]; vm_compute; reflexivity).
  rewrite forallb_forall in H. intros Hin Hh. apply list_elem_of_In in Hin. specialize (H rt Hin).
  rewrite Hh in H. by apply bool_decide_eq_true in H.
Qed.

Section Tickets.
Context `{TicketLaws} (jwtSecret : bytes).

(** The ticket of a review opens that review's stream, to a writer that flushes. *)
Lemma ticket_opens now0 now tenantID reviewID ttl tok flushes params :
  GenerateStreamTicket jwtSecret now0 tenantID reviewID ttl = Ok tok -> tok <> "" ->
  now0 <= now < (now0 + (if ttl =? 0 then five_minutes else ttl)) / 1000000000 * 1000000000 ->
  ParseUUID (URLParam params "id") = Ok reviewID ->
  stream_check jwtSecret now flushes params tok =
    if flushes then Success StatusOK reviewID else Failure StatusInternalServerError (EOther "streaming not supported").
Proof.
  intros Hgen Hne Hnow Hid. unfold stream_check. rewrite Hid, (bool_decide_eq_false_2 (tok = "")) by done.
  unfold GenerateStreamTicket in Hgen. erewrite sign_ticket_parses; [|exact Hgen|done|].
  - cbn [tc_ReviewID]. rewrite bool_decide_eq_true_2 by done. by destruct flushes.
  - split; cbn; [intros ? [= <-]; lia|intros ? [= <-]]. pose proof (Z.mul_div_le now0 1000000000). lia.
Qed.

(** A ticket of another review is refused. *)
Lemma ticket_of_another_review now0 now tenantID reviewID other ttl tok flushes params :
  GenerateStreamTicket jwtSecret now0 tenantID reviewID ttl = Ok tok -> tok <> "" ->
  now0 <= now < (now0 + (if ttl =? 0 then five_minutes else ttl)) / 1000000000 * 1000000000 ->
  ParseUUID (URLParam params "id") = Ok other -> other <> reviewID ->
  stream_check jwtSecret now flushes params tok = Failure StatusForbidden ErrForbidden.
Proof.
  intros Hgen Hne Hnow Hid Hother. unfold stream_check. rewrite Hid, (bool_decide_eq_false_2 (tok = "")) by done.
  unfold GenerateStreamTicket in Hgen. erewrite sign_ticket_parses; [|exact Hgen|done|].
  - cbn [tc_ReviewID]. rewrite bool_decide_eq_false_2; [done|]. intros E. apply Hother.
    pose proof (ParseUUID_String other) as P1. rewrite <- E, ParseUUID_String in P1. congruence.
  - split; cbn; [intros ? [= <-]; lia|intros ? [= <-]]. pose proof (Z.mul_div_le now0 1000000000). lia.
Qed.

(** No stream ever opens through the router. The audit middleware, on the
    stream's route whatever handlers are mounted, hands on a writer that does not
    flush, so every request is refused and the registry stays as it is; a caller
    with a ticket that opens the stream of a writer that flushes is answered 500. *)
Theorem streams_refused_as_routed (m : Mounted) (rt : Route) (w : ResponseWriter) (now : Z) (params : list (string * string))
    (ticket : string) (ok1 ok2 : bool) (cases : list select_case) (h : Hub) :
  rt ∈ routes (NewRouter m) -> rt_Handler rt = "Reviews.StreamReview" -> writer_at serverWriter (rt_Middlewares rt) w ->
  exists status e,
    handle_StreamReview jwtSecret now (is_Flusher w) params ticket ok1 ok2 cases h = Some (h, Failure status e) /\
    (forall reviewID, stream_check jwtSecret now (is_Flusher serverWriter) params ticket = Success StatusOK reviewID ->
       status = StatusInternalServerError).
Proof.
  intros Hin Hh Hw. rewrite (audited_chain _ _ _ (stream_route_audited _ _ Hin Hh) Hw). unfold handle_StreamReview, stream_check.
  cbn [is_Flusher negb]. destruct (ParseUUID _) as [reviewID|]; [|by do 2 eexists]. case_bool_decide; [by do 2 eexists|].
  destruct (ParseTicket _ _ _) as [claims|]; [|by do 2 eexists]. case_bool_decide; cbn [negb]; by do 2 eexists.
Qed.
End Tickets.

(** * Witnesses *)

#[local] Existing Instance ex_payloads.
#[local] Existing Instance ex_jsonb.

Definition toy_tickets : TicketLib := {|
  SignTicket key c := Ok (tc_ReviewID c);
  ParseTicket now tok kf :=
    match kf HS256 with Ok _ => Ok (mkTicketClaims tok "" "" "" None None None) | Err e => Err e end;
|}.

(** One stream on "r", and the channel and map it was given. *)
Definition ex_channel : positive := snd (fst (stream_open "r" true true NewHub)).
Definition ex_hub : Hub := fst (fst (stream_open "r" true true NewHub)).
Definition ex_map : positive := default 1%positive (connections ex_hub !! "r").
Definition ex_streams : gmap positive (string * stream_pc) := <[ex_channel := ("r", SOpen)]> ∅.
Definition ex_pc (pc : notifier_pc) : gmap nat Notifier := <[0%nat := mkNotifier "r" "status:APPROVED" pc]> ∅.
Definition ex_chosen : notifier_pc := NSend ex_map {[ex_channel]} ∅ ex_channel.

Lemma ex_notifier_step h lock streams pc h' pc' :
  notifier_step lock h (mkNotifier "r" "status:APPROVED" pc) h' (mkNotifier "r" "status:APPROVED" pc') ->
  sys_step (mkSys h lock streams (ex_pc pc)) (mkSys h' lock streams (ex_pc pc')).
Proof.
  intros Hs. pose proof (sys_notifier (mkSys h lock streams (ex_pc pc)) 0 _ h' _ (lookup_insert_eq _ _ _) Hs) as Hstep.
  unfold ex_pc in *. cbn [sys_lock sys_streams sys_notifiers] in Hstep. by rewrite insert_insert_eq in Hstep.
Qed.

Lemma ex_reaches_choice : rtc sys_step sys_start (mkSys ex_hub None ex_streams (ex_pc ex_chosen)).
Proof.
  eapply rtc_l; [eapply (sys_open _ "r" true true); [done|vm_compute; reflexivity]|].
  eapply rtc_l; [by apply (sys_notify _ 0 "r" "status:APPROVED")|].
  change (rtc sys_step (mkSys ex_hub None ex_streams (ex_pc NTake)) (mkSys ex_hub None ex_streams (ex_pc ex_chosen))).
  eapply rtc_l; [apply ex_notifier_step, notifier_take; done|]. change (connections ex_hub !! _) with (Some ex_map).
  eapply rtc_l; [apply ex_notifier_step; eapply notifier_some; [done|vm_compute; congruence]|].
  eapply rtc_l; [apply ex_notifier_step; by eapply notifier_begin|].
  change (conns_of ex_hub ex_map) with ({[ex_channel]} : gset positive).
  eapply rtc_l; [apply ex_notifier_step; eapply notifier_pick; [done|by apply elem_of_singleton|set_solver]|]. done.
Qed.

(** The stream ends between the choice and the send: the notification panics, in a
    request whose decision is already in the database. *)
Lemma notification_can_panic : exists s, rtc sys_step sys_start s /\ sys_notifiers s = ex_pc NPanicked.
Proof.
  eexists. split; [|shelve]. etrans; [exact ex_reaches_choice|].
  eapply rtc_l; [by eapply (sys_turn _ ex_channel "r" CtxDone)|].
  eapply rtc_l; [by eapply (sys_remove _ ex_channel "r")|].
  eapply rtc_l; [by eapply (sys_close _ ex_channel "r")|]. cbn [sys_notifiers].
  eapply rtc_l; [apply ex_notifier_step; eapply notifier_panic; [done|vm_compute; reflexivity]|]. done.
  Unshelve. done.
Qed.

Lemma stream_registry_invariant_witness :
  ex_channel ∈ conns_for ex_hub "r" /\
  exists pc, ex_streams !! ex_channel = Some ("r", pc) /\ pc <> SClosed.
Proof.
  destruct (stream_registry_invariant _ ex_reaches_choice) as (H1 & _ & _ & H4). split.
  - apply H1. left. reflexivity.
  - destruct (H4 0%nat (mkNotifier "r" "status:APPROVED" ex_chosen) ex_map {[ex_channel]} ∅ ex_channel) as (pc & Hpc & Hiff);
      [reflexivity|reflexivity|]. exists pc. split; [exact Hpc|]. intros ->. apply proj2 in Hiff. discriminate (Hiff eq_refl).
Defined.

Lemma ex_registry : registry_ok ex_hub ex_streams.
Proof. exact (so_registry _ (reachable_ok _ ex_reaches_choice)). Qed.

Lemma notification_terminates_witness :
  exists h' nt', nsteps (fun x y : Hub * Notifier => notifier_step None x.1 x.2 y.1 y.2) 2 (ex_hub, mkNotifier "r" "status:APPROVED" NTake) (h', nt') /\
    exists h2 nt2, notifier_step None h' nt' h2 nt2.
Proof.
  exists ex_hub, (mkNotifier "r" "status:APPROVED" (NBegin ex_map)).
  assert (nsteps (fun x y : Hub * Notifier => notifier_step None x.1 x.2 y.1 y.2) 2 (ex_hub, mkNotifier "r" "status:APPROVED" NTake)
            (ex_hub, mkNotifier "r" "status:APPROVED" (NBegin ex_map))) as Hn.
  { apply nsteps_l with (ex_hub, mkNotifier "r" "status:APPROVED" (NLen (Some ex_map))); [by apply (notifier_take None ex_hub (mkNotifier "r" _ NTake))|].
    eapply nsteps_l; [|apply nsteps_O]. apply (notifier_some None ex_hub (mkNotifier "r" _ (NLen (Some ex_map))) ex_map); [done|].
    vm_compute. congruence. }
  split; [exact Hn|]. by apply (notification_terminates ex_hub ex_streams "r" "status:APPROVED" ex_registry 2).
Defined.

Definition ex_caller (u : UUID) : Request :=
  mkRequest "POST" "/v1/reviews/x/approve" "" "" (mkContext None (Some u) (Some (uuid_n 1)) None None None None None).

(** A server with a stream on the example's review. *)
Definition ex_server : ReviewServer :=
  mkReviewServer ex_review_world (fst (fst (stream_open (uuid_String (uuid_n 61)) true true NewHub))).

Lemma ex_server_hub : hub_open (rs_hub ex_server).
Proof.
  apply (registry_hub_open _ (<[ex_channel := (uuid_String (uuid_n 61), SOpen)]> ∅)).
  apply (registry_open NewHub ∅); [|done]. exact (so_registry _ sys_start_ok).
Qed.

Lemma decision_announced_once_witness :
  exists s1, handle_ApproveReview ex_review_env 500 (uuid_n 99) (ex_caller (uuid_n 3)) (Some (mkDecideBody "tok" "fine")) ex_server =
    (s1, Answered (Success StatusOK (convertSQLCReviewRequest (set_decided 500 ReviewStatusApproved (uuid_n 3) ex_review_row)))).
Proof.
  destruct (decision_announced_once ex_review_env ex_review_open 500 (uuid_n 99) (ex_caller (uuid_n 3)) (uuid_n 3) "tok" "fine" ex_server
    ex_review_key ex_review_row) as (s1 & H1 & _).
  - exact ex_reviews_ok.
  - exact ex_server_hub.
  - reflexivity.
  - discriminate.
  - exact ex_review_lookup.
  - exact ex_review_hash.
  - exact ex_approvable.
  - exists s1. exact H1.
Defined.

Definition ex_stream_route : Route := mkRoute "GET" "/v1/reviews/{id}/stream" full_chain "Reviews.StreamReview".

Lemma streams_refused_as_routed_witness :
  exists status e,
    handle_StreamReview (H := toy_tickets) [] 0 (is_Flusher (auditResponseWriter serverWriter)) [("id", uuid_String (uuid_n 61))]
      (uuid_String (uuid_n 61)) true true [CtxDone] NewHub = Some (NewHub, Failure status e) /\ status = 500.
Proof.
  destruct (streams_refused_as_routed (H := toy_tickets) [] gateway_mounted ex_stream_route (auditResponseWriter serverWriter) 0
    [("id", uuid_String (uuid_n 61))] (uuid_String (uuid_n 61)) true true [CtxDone] NewHub) as (status & e & H1 & H2).
  - apply (bool_decide_eq_true_1 _). vm_compute. reflexivity.
  - reflexivity.
  - repeat (first [eapply writer_at_mw; [by apply through_plain|] | eapply writer_at_mw; [apply through_audit|]]). apply writer_at_end.
  - exists status, e. split; [exact H1|]. apply (H2 (uuid_n 61)). vm_compute. reflexivity.
Defined.
