(* ===== verification/Config.v ===== *)
(** The configuration, [internal/config/config.go]: its sections, the file and
    environment it is loaded from, and how the sections of the model router and of
    the prices ([internal/domain/model/{routing,pricing,circuitbreaker}.go]) are
    decoded.

    The configuration library (koanf, and the decoder it uses) is third-party
    code: two classes, with what their documentation says as laws. *)

From stdpp Require Import base gmap strings list numbers.
From Stdlib Require Import Ascii.
From S2P Require Import GoPrelude Bytes Errors Http CircuitBreaker ChatModel Routing Fallback Pricing ToolLoop Guardrail CompositeGuardrail ClassifierClient ExternalClassifiers.
Open Scope Z_scope.

(** ** Sections; durations are nanoseconds *)

Record DatabaseConfig := mkDatabaseConfig {
  db_DSN : string;
  db_MaxOpenConns : Z;
  db_MaxIdleConns : Z;
  db_ConnMaxLifetime : Z;
  db_ConnMaxIdleTime : Z;
  db_ConnectTimeout : Z;
  db_QueryTimeout : Z;
}.

Record RedisConfig := mkRedisConfig {
  rd_Addr : string;
  rd_Password : string;
  rd_DB : Z;
  rd_PoolSize : Z;
  rd_MinIdleConns : Z;
  rd_DialTimeout : Z;
  rd_ReadTimeout : Z;
  rd_WriteTimeout : Z;
  rd_PoolTimeout : Z;
}.

Record KeyRotationConfig := mkKeyRotation { kr_Enabled : bool; kr_CurrentKID : string; kr_Keys : gmap string string }.

Record JWTConfig := mkJWTConfig {
  jwt_Secret : string;
  jwt_Issuer : string;
  jwt_Audience : string;
  jwt_AccessTTL : Z;
  jwt_RefreshTTL : Z;
  jwt_KeyRotation : KeyRotationConfig;
}.

Record RateLimitConfig := mkRateLimitConfig {
  rl_DefaultTenantRequestsPerMin : Z;
  rl_DefaultTenantTokensPerMin : Z;
  rl_DefaultTenantToolExecsPerMin : Z;
  rl_DefaultUserRequestsPerMin : Z;
  rl_DefaultUserTokensPerMin : Z;
  rl_DefaultUserToolExecsPerMin : Z;
  rl_DefaultRoleRequestsPerMin : Z;
  rl_DefaultRoleTokensPerMin : Z;
  rl_DefaultRoleToolExecsPerMin : Z;
  rl_FailOpen : bool;
}.

Record GuardrailsSection := mkGuardrailsSection {
  gs_Local : GuardrailsConfig;
  gs_ExternalClassifier : option ExternalClassifierConfig;
  gs_Composite : CompositeConfig;
}.

Record HITLConfig := mkHITLConfig { hitl_DefaultTTL : Z; hitl_SSEHeartbeatInterval : Z; hitl_CleanupInterval : Z }.

Record ExporterConfig := mkExporterConfig { exp_Type : string; exp_Endpoint : string }.
Record TracingConfig := mkTracingConfig { trc_Enabled : bool; trc_SampleRate : float64 }.
Record MetricsConfig := mkMetricsConfig { met_Enabled : bool; met_Endpoint : string }.
Record OTelConfig := mkOTelConfig { otel_ServiceName : string; otel_Exporter : ExporterConfig; otel_Tracing : TracingConfig; otel_Metrics : MetricsConfig }.

Record ServerConfig := mkServerConfig {
  srv_Addr : string;
  srv_Env : string;
  srv_ReadTimeout : Z;
  srv_WriteTimeout : Z;
  srv_IdleTimeout : Z;
  srv_ShutdownTimeout : Z;
}.

Record Config := mkConfig {
  Database : DatabaseConfig;
  Redis : RedisConfig;
  JWT : JWTConfig;
  RateLimit : RateLimitConfig;
  Guardrails : GuardrailsSection;
  HITL : HITLConfig;
  OTel : OTelConfig;
  Server : ServerConfig;
  Router : RouterConfig;
  ConfigPricing : PricingConfig;
  ConfigTool : ToolConfig;
}.

(** ** Loading

    What a store of settings under dotted keys does: read a file, set a key, take
    the flags' defaults, decode into [Config]; and [k_Get] reads a key back. *)
Class Koanf (K : Type) := {
  k_load_file : string -> result error K;
  k_Set : string -> string -> K -> K;
  k_load_flags : string -> K -> result error K;
  k_Unmarshal : K -> result error Config;
  k_Get : string -> K -> option string;
}.

(** [sec] is a section that [key] lies in. *)
Definition within (sec key : string) : Prop := exists rest, key = sec +:+ "." +:+ rest.
Definition within_b (sec key : string) : bool := is_prefix (bytes_of_string (sec +:+ ".")) (bytes_of_string key).

Lemma within_b_spec sec key : within_b sec key = true <-> within sec key.
Proof.
  unfold within_b. rewrite is_prefix_spec. split.
  - intros [rest E]. exists (string_of_bytes rest). apply bytes_of_string_inj.
    rewrite E, !bytes_of_string_app, bytes_of_string_of_bytes. by rewrite <- app_assoc.
  - intros [rest ->]. exists (bytes_of_string rest). rewrite !bytes_of_string_app. by rewrite <- app_assoc.
Qed.

(** A setting replaces the key's value and, where it turns a section into a value
    or a value into a section, what was there: the keys of a section that became a
    value are gone. Flags fill in the keys they name. *)
Class KoanfLaws (K : Type) `{Koanf K} : Prop := {
  get_set : forall key v (k : K), k_Get key (k_Set key v k) = Some v;
  get_set_other : forall key key' v (k : K), key' <> key -> ~ within key' key -> ~ within key key' ->
    k_Get key (k_Set key' v k) = k_Get key k;
  get_set_section : forall key sec v (k : K), within sec key -> k_Get key (k_Set sec v k) = None;
  get_flags : forall key path (k k' : K), k_load_flags path k = Ok k' -> key <> "config" -> k_Get key k' = k_Get key k;
}.

Definition AG : bytes := bytes_of_string "AG_".

(** One entry of [os.Environ]: the key it sets, if any, and the value. *)
Definition env_entry `{GoText} (e : string) : option (string * string) :=
  match Cut "=" (bytes_of_string e) with
  | None => None
  | Some (key, val) =>
      if negb (is_prefix AG key) then None
      else Some (replace_char "_" "." (ToLower (string_of_bytes (drop (length AG) key))), string_of_bytes val)
  end.

(** [os.Getenv] *)
Definition Getenv (environ : list string) (name : string) : string :=
  let found := List.find (fun e => match Cut "=" (bytes_of_string e) with
                                   | Some (key, _) => bool_decide (key = bytes_of_string name)
                                   | None => false
                                   end) environ in
  match found with
  | Some e => match Cut "=" (bytes_of_string e) with Some (_, val) => string_of_bytes val | None => "" end
  | None => ""
  end.

Definition old_fuel_vars : list string := ["TOOL_DEFAULT_FUEL"; "TOOL_MAX_FUEL"].

Definition validateOldToolFuelEnvVars (environ : list string) : option error :=
  match List.filter (fun v => negb (bool_decide (Getenv environ v = ""))) old_fuel_vars with
  | [] => None
  | found =>
      Some (EOther ("deprecated environment variables detected: " +:+ join ", " found +:+
        ". These were replaced by execution_timeout_ms in migration 0019. Please use TOOL_DEFAULT_TIMEOUT_MS and TOOL_MAX_TIMEOUT_MS instead"))
  end.

Section Load.
Context {K : Type} `{Koanf K} `{GoText}.

Definition set_entry (k : K) (e : string) : K :=
  match env_entry e with Some (key, val) => k_Set key val k | None => k end.

Definition load_store (configPath : string) (environ : list string) : result error K :=
  let? k := k_load_file configPath in
  let k := foldl set_entry k environ in
  match validateOldToolFuelEnvVars environ with
  | Some e => Err e
  | None => k_load_flags configPath k
  end.

Definition Load (configPath : string) (environ : list string) : result error Config :=
  let? k := load_store configPath environ in k_Unmarshal k.

(** [None] is a panic. *)
Definition MustLoad (configPath : string) (environ : list string) : option Config :=
  match Load configPath environ with Ok cfg => Some cfg | Err _ => None end.
End Load.

(** The keys of the settings of [Config], from the [koanf] tags; lists and maps
    count as one setting. The fields of the router and pricing sections have no tag:
    the decoder looks for their names, ignoring case. *)
Definition config_keys : list string :=
  (map (String.append "database.") ["dsn"; "max_open_conns"; "max_idle_conns"; "conn_max_lifetime"; "conn_max_idle_time"; "connect_timeout"; "query_timeout"] ++
   map (String.append "redis.") ["addr"; "password"; "db"; "pool_size"; "min_idle_conns"; "dial_timeout"; "read_timeout"; "write_timeout"; "pool_timeout"] ++
   map (String.append "jwt.") ["secret"; "issuer"; "audience"; "access_ttl"; "refresh_ttl"; "key_rotation.enabled"; "key_rotation.current_kid"; "key_rotation.keys"] ++
   map (String.append "ratelimit.") ["default_tenant_requests_per_min"; "default_tenant_tokens_per_min"; "default_tenant_tool_execs_per_min";
     "default_user_requests_per_min"; "default_user_tokens_per_min"; "default_user_tool_execs_per_min"; "default_role_requests_per_min";
     "default_role_tokens_per_min"; "default_role_tool_execs_per_min"; "fail_open"] ++
   map (String.append "guardrails.") ["enabled"; "pii_patterns.email"; "pii_patterns.credit_card"; "pii_patterns.ssn"; "injection_patterns";
     "wordlist.enabled"; "wordlist.custom_file"; "length_limits.max_input_chars"; "length_limits.max_output_chars"; "rules";
     "external_classifier.enabled"; "external_classifier.type"; "external_classifier.config"; "external_classifier.thresholds";
     "external_classifier.retry.max_attempts"; "external_classifier.retry.backoff"; "external_classifier.circuit_breaker.failure_threshold";
     "external_classifier.circuit_breaker.window"; "external_classifier.circuit_breaker.reset_timeout"; "external_classifier.timeout";
     "composite.mode"; "composite.fail_behavior"; "composite.merge_logic"; "composite.parallel_budget_ms"; "composite.send_content_external"; "composite.thresholds"] ++
   map (String.append "hitl.") ["default_ttl"; "sse_heartbeat_interval"; "cleanup_interval"] ++
   map (String.append "otel.") ["service_name"; "exporter.type"; "exporter.endpoint"; "tracing.enabled"; "tracing.sample_rate"; "metrics.enabled"; "metrics.endpoint"] ++
   map (String.append "server.") ["addr"; "env"; "read_timeout"; "write_timeout"; "idle_timeout"; "shutdown_timeout"] ++
   map (String.append "router.") ["providers"; "fallbackrules"; "defaulttimeout"; "maxretries"; "enablecircuitbreaker"] ++
   map (String.append "pricing.") ["defaultversion"; "tables"; "autoupdate"] ++
   map (String.append "tool.") ["max_iterations"; "default_timeout_ms"; "default_memory_pages"; "cache_ttl"; "cache_max_entries"; "tools"])%list.

Definition has_underscore (key : string) : bool := existsb (Ascii.eqb "_") (bytes_of_string key).

(** * What the environment reaches *)

Lemma replace_char_none c by_ s : c ∉ bytes_of_string by_ -> c ∉ bytes_of_string (replace_char c by_ s).
Proof.
  intros Hb. unfold replace_char. rewrite bytes_of_string_of_bytes. intros (l & Hin & Hl)%list_elem_of_join.
  apply list_elem_of_fmap in Hl as (x & -> & _). case_bool_decide; [done|]. by apply list_elem_of_singleton in Hin as ->.
Qed.

Lemma has_underscore_spec key : has_underscore key = true <-> "_"%char ∈ bytes_of_string key.
Proof.
  unfold has_underscore. rewrite existsb_exists. split.
  - intros (x & Hx%list_elem_of_In & ->%Ascii.eqb_eq). done.
  - intros Hx. exists "_"%char. split; [by apply list_elem_of_In|apply Ascii.eqb_refl].
Qed.

Section Environment.
Context `{GoText}.

Lemma env_entry_plain e key v : env_entry e = Some (key, v) -> has_underscore key = false.
Proof.
  unfold env_entry. destruct (Cut _ _) as [[name val]|]; [|done]. destruct (negb _); [done|]. intros [= <- <-].
  apply not_true_is_false. rewrite has_underscore_spec. apply replace_char_none.
  intros Hin. by apply list_elem_of_singleton in Hin.
Qed.

(** A section with an underscore in its name holds no plain key. *)
Lemma underscore_within key key' : has_underscore key = true -> within key key' -> has_underscore key' = true.
Proof.
  rewrite !has_underscore_spec. intros Hk (rest & ->). rewrite !bytes_of_string_app. apply elem_of_app. by left.
Qed.

Context {K : Type} `{KoanfLaws K}.

Lemma set_entries_other key environ (k : K) :
  (forall e key' v, e ∈ environ -> env_entry e = Some (key', v) -> key' <> key /\ ~ within key' key /\ ~ within key key') ->
  k_Get key (foldl set_entry k environ) = k_Get key k.
Proof.
  induction environ as [|e environ IH] in k |- *; intros Hoth; [done|]. cbn [foldl]. rewrite IH.
  - unfold set_entry. destruct (env_entry e) as [[key' v]|] eqn:E; [|done].
    destruct (Hoth e key' v ltac:(left) E) as (? & ? & ?). by apply get_set_other.
  - intros e' key' v He'. apply Hoth. by right.
Qed.

(** A variable names a section the key lies in. *)
Definition names_section (environ : list string) (key : string) : bool :=
  existsb (fun e => match env_entry e with Some (sec, _) => within_b sec key | None => false end) environ.

(** A key with an underscore is only ever lost with its section. *)
Lemma set_entries_underscore key environ (k : K) :
  has_underscore key = true ->
  k_Get key (foldl set_entry k environ) = if names_section environ key then None else k_Get key k.
Proof.
  intros Hu. induction environ as [|e environ IH] in k |- *; [done|]. cbn [foldl]. rewrite IH.
  change (names_section (e :: environ) key) with
    ((match env_entry e with Some (sec, _) => within_b sec key | None => false end) || names_section environ key).
  destruct (names_section environ key); [by rewrite orb_true_r|]. rewrite orb_false_r. unfold set_entry.
  destruct (env_entry e) as [[sec v]|] eqn:E; [|done]. pose proof (env_entry_plain e sec v E) as Hp.
  destruct (within_b sec key) eqn:Hw; [by apply get_set_section, within_b_spec|].
  apply get_set_other; [congruence|by rewrite <- within_b_spec, Hw|].
  intros Hk. pose proof (underscore_within _ _ Hu Hk). congruence.
Qed.

Lemma load_store_get path environ (k0 k : K) key :
  k_load_file path = Ok k0 -> load_store path environ = Ok k -> key <> "config" ->
  k_Get key k = k_Get key (foldl set_entry k0 environ).
Proof.
  unfold load_store. intros -> Hl Hc. destruct (validateOldToolFuelEnvVars environ); [done|]. by eapply get_flags.
Qed.
End Environment.

(** The name of the variable that sets a key, its dots written as underscores. *)
Definition env_name (key : string) : string := "AG_" +:+ replace_char "." "_" key.

Definition settable_check (key : string) : bool :=
  forallb (fun c => (N_of_ascii c <? 128)%N && negb (Ascii.eqb c "=")) (bytes_of_string (env_name key)) &&
  bool_decide (replace_char "_" "." (ascii_lower (replace_char "." "_" key)) = key).

Lemma env_name_sets `{GoTextLaws} key v : settable_check key = true -> env_entry (env_name key +:+ "=" +:+ v) = Some (key, v).
Proof.
  intros [Hc Hr%bool_decide_eq_true]%andb_true_iff. rewrite forallb_forall in Hc.
  assert (forall c, c ∈ bytes_of_string (env_name key) -> (N_of_ascii c < 128)%N /\ c <> "="%char) as Hin.
  { intros c Hin%list_elem_of_In. apply Hc in Hin. apply andb_true_iff in Hin as [Hlt%N.ltb_lt Hne].
    split; [done|]. intros ->. discriminate. }
  unfold env_entry. rewrite !bytes_of_string_app. cbn [app]. change (bytes_of_string "=") with ["="%char]. cbn [app].
  rewrite Cut_app by (intros Hbad; by destruct (Hin _ Hbad)).
  unfold env_name at 1 2. rewrite bytes_of_string_app. change (bytes_of_string "AG_") with AG.
  assert (is_prefix AG (AG ++ bytes_of_string (replace_char "." "_" key)) = true) as -> by (apply is_prefix_spec; eauto).
  cbn [negb]. rewrite drop_app_length, !string_of_bytes_of_string. rewrite lower_ascii, Hr; [done|].
  apply list.Forall_forall. intros c Hcin. apply Hin. unfold env_name. rewrite bytes_of_string_app. apply elem_of_app. by right.
Qed.

Lemma plain_keys_settable : forallb settable_check (List.filter (fun key => negb (has_underscore key)) config_keys) = true.
Proof. vm_compute. reflexivity. Qed.

(** C19: A setting whose key has an underscore cannot be set from the environment: it
    is what the file says or, when a variable names a section it lies in
    (AG_DATABASE=x), gone. A plain key takes the value of the last variable that
    names it, unless a later one names a section it lies in or a key inside it. Of
    the 90 settings of [Config] variables can name these 28. *)
Theorem env_overrides {K : Type} `{KoanfLaws K} `{GoTextLaws} (path : string) (environ : list string) (k0 k : K) (key : string) :
  k_load_file path = Ok k0 -> load_store path environ = Ok k -> key <> "config" ->
  length config_keys = 90%nat /\
  (has_underscore key = true -> k_Get key k = if names_section environ key then None else k_Get key k0) /\
  (forall before e after v, environ = before ++ e :: after -> env_entry e = Some (key, v) ->
     (forall e' key' v', e' ∈ after -> env_entry e' = Some (key', v') -> key' <> key /\ ~ within key' key /\ ~ within key key') ->
     k_Get key k = Some v) /\
  (key ∈ config_keys -> (exists e v, env_entry e = Some (key, v)) <->
     key ∈ ["database.dsn"; "redis.addr"; "redis.password"; "redis.db"; "jwt.secret"; "jwt.issuer"; "jwt.audience"; "guardrails.enabled";
            "guardrails.wordlist.enabled"; "guardrails.rules"; "guardrails.composite.mode"; "guardrails.composite.thresholds";
            "otel.exporter.type"; "otel.exporter.endpoint"; "otel.tracing.enabled"; "otel.metrics.enabled"; "otel.metrics.endpoint";
            "server.addr"; "server.env";
            "router.providers"; "router.fallbackrules"; "router.defaulttimeout"; "router.maxretries"; "router.enablecircuitbreaker";
            "pricing.defaultversion"; "pricing.tables"; "pricing.autoupdate"; "tool.tools"]).
Proof.
  intros Hf Hl Hc. pose proof (load_store_get path environ k0 k key Hf Hl Hc) as Hg. split; [reflexivity|split; [|split]].
  - intros Hu. rewrite Hg. by apply set_entries_underscore.
  - intros before e after v -> Hev Hafter. rewrite Hg, foldl_app. cbn [foldl]. rewrite set_entries_other by done.
    unfold set_entry at 1. by rewrite Hev, get_set.
  - intros Hin.
    match goal with |- _ <-> key ∈ ?l => change l with (List.filter (fun key => negb (has_underscore key)) config_keys) end.
    rewrite list_elem_of_In, List.filter_In. split.
    + intros (e & v & He%env_entry_plain). split; [by apply list_elem_of_In|]. by rewrite He.
    + intros Hplain. pose proof plain_keys_settable as Hs. rewrite forallb_forall in Hs.
      exists (env_name key +:+ "=" +:+ ""), "". apply env_name_sets, Hs. by apply List.filter_In.
Qed.

(** ** Decoding the router and the prices

    A decoded file is a tree. A struct's field is looked up by its [koanf] tag or,
    where it has none, by its own name. *)
Inductive cval := CText (s : string) | CNumber (text : string) | CBool (b : bool) | CList (l : list cval) | CMap (m : list (string * cval)).

(** The decoder: the field of a name, whether a key folds to a name, and the
    conversions of values to the types of fields. *)
Class Decoder := {
  ms_field : list (string * cval) -> string -> option cval;
  EqualFold : string -> string -> bool;
  cv_string : cval -> result error string;
  cv_int : cval -> result error Z;
  cv_duration : cval -> result error Z;
  cv_bool : cval -> result error bool;
  cv_float : cval -> result error float64;
  cv_list : cval -> result error (list cval);
  cv_map : cval -> result error (list (string * cval));
}.

(** A field is matched by a key that folds to its name, and any such key will do;
    ASCII texts fold when they are equal but for case. *)
Class DecoderLaws `{Decoder} : Prop := {
  field_sound : forall m name v, ms_field m name = Some v -> exists k, (k, v) ∈ m /\ EqualFold k name = true;
  field_complete : forall m k name v, (k, v) ∈ m -> EqualFold k name = true -> is_Some (ms_field m name);
  fold_ascii : forall s t, forallb (fun c => (N_of_ascii c <? 128)%N) (bytes_of_string (s +:+ t)) = true ->
    EqualFold s t = bool_decide (ascii_lower s = ascii_lower t);
  string_text : forall s, cv_string (CText s) = Ok s;
}.

Section Decode.
Context `{Decoder}.

(** A field's zero value where nothing matches it. *)
Definition field {A} (zero : A) (conv : cval -> result error A) (m : list (string * cval)) (name : string) : result error A :=
  match ms_field m name with Some v => conv v | None => Ok zero end.

Fixpoint all_ok {A B} (f : A -> result error B) (l : list A) : result error (list B) :=
  match l with
  | [] => Ok []
  | x :: l => let? y := f x in let? ys := all_ok f l in Ok (y :: ys)
  end.

Definition list_of {A} (f : cval -> result error A) (v : cval) : result error (list A) := let? l := cv_list v in all_ok f l.
Definition strings : cval -> result error (list string) := list_of cv_string.

Definition decode_CircuitBreakerConfig (v : cval) : result error CircuitBreaker.CircuitBreakerConfig :=
  let? m := cv_map v in
  let? e := field false cv_bool m "Enabled" in
  let? f := field 0 cv_int m "FailureThreshold" in
  let? s := field 0 cv_int m "SuccessThreshold" in
  let? t := field 0 cv_duration m "Timeout" in
  let? h := field 0 cv_int m "HalfOpenMaxRequests" in
  Ok (mkCBConfig e f s t h).

Definition decode_ProviderConfig (v : cval) : result error ProviderConfig :=
  let? m := cv_map v in
  let? name := field "" cv_string m "Name" in
  let? type := field "" cv_string m "Type" in
  let? models := field [] strings m "Models" in
  let? prio := field 0 cv_int m "Priority" in
  let? enabled := field false cv_bool m "Enabled" in
  let? apiKey := field "" cv_string m "APIKey" in
  let? baseURL := field "" cv_string m "BaseURL" in
  let? timeout := field 0 cv_duration m "Timeout" in
  let? retries := field 0 cv_int m "MaxRetries" in
  let? cb := field (mkCBConfig false 0 0 0 0) decode_CircuitBreakerConfig m "CircuitBreaker" in
  Ok (mkProviderConfig name type models prio enabled apiKey baseURL timeout retries cb).

Definition decode_FallbackRule (v : cval) : result error FallbackRule :=
  let? m := cv_map v in
  let? errs := field [] strings m "OnErrors" in
  let? next := field "" cv_string m "NextProvider" in
  let? retries := field 0 cv_int m "MaxRetries" in
  let? backoff := field 0 cv_duration m "Backoff" in
  Ok (mkFallbackRule errs next retries backoff).

Definition decode_RouterConfig (m : list (string * cval)) : result error RouterConfig :=
  let? providers := field [] (list_of decode_ProviderConfig) m "Providers" in
  let? rules := field [] (list_of decode_FallbackRule) m "FallbackRules" in
  let? timeout := field 0 cv_duration m "DefaultTimeout" in
  let? retries := field 0 cv_int m "MaxRetries" in
  let? enable := field false cv_bool m "EnableCircuitBreaker" in
  Ok (mkRouterConfig providers rules timeout retries enable).

Definition decode_ModelPrice (v : cval) : result error ModelPrice :=
  let? m := cv_map v in
  let? model := field "" cv_string m "Model" in
  let? input := field (SpecFloat.S754_zero false) cv_float m "InputPricePer1k" in
  let? output := field (SpecFloat.S754_zero false) cv_float m "OutputPricePer1k" in
  Ok (mkModelPrice model input output).

Definition decode_PriceTable (v : cval) : result error PriceTable :=
  let? m := cv_map v in
  let? version := field "" cv_string m "Version" in
  let? provider := field "" cv_string m "Provider" in
  let? prices := field [] (list_of decode_ModelPrice) m "Prices" in
  let? date := field "" cv_string m "EffectiveDate" in
  let? description := field "" cv_string m "Description" in
  Ok (mkPriceTable version provider prices date description).

Definition decode_PricingConfig (m : list (string * cval)) : result error PricingConfig :=
  let? version := field "" cv_string m "DefaultVersion" in
  let? tables := field [] (list_of decode_PriceTable) m "Tables" in
  let? update := field false cv_bool m "AutoUpdate" in
  Ok (mkPricingConfig version tables update).
End Decode.

(** * Keys that no field answers to *)

(** A mapping with these keys, none twice. *)
Definition keyed (ks : list string) (m : list (string * cval)) : Prop :=
  NoDup (map fst m) /\ forall k v, (k, v) ∈ m -> k ∈ ks.

(** The keys of the sections as the repository's [configs/config.yaml] and the
    [json] tags of the structs write them. *)
Definition router_keys : list string := ["providers"; "fallback_rules"; "default_timeout"; "max_retries"; "enable_circuit_breaker"].
Definition provider_keys : list string :=
  ["name"; "type"; "models"; "priority"; "enabled"; "api_key"; "base_url"; "timeout"; "max_retries"; "circuit_breaker"; "metadata"].
Definition pricing_keys : list string := ["default_version"; "tables"; "auto_update"].
Definition table_keys : list string := ["version"; "provider"; "prices"; "effective_date"; "description"].

Definition ascii_only (s : string) : bool := forallb (fun c => (N_of_ascii c <? 128)%N) (bytes_of_string s).

(** No key of the list folds to the name. *)
Definition misses (ks : list string) (name : string) : bool :=
  forallb (fun k => ascii_only (k +:+ name) && negb (bool_decide (ascii_lower k = ascii_lower name))) ks.

Lemma pairs_functional (m : list (string * cval)) key u v : NoDup (map fst m) -> (key, u) ∈ m -> (key, v) ∈ m -> u = v.
Proof.
  induction m as [|[k0 v0] m IH]; intros Hnd Hu Hv; [by apply elem_of_nil in Hu|].
  cbn in Hnd. apply list.NoDup_cons in Hnd as [Hnot Hnd].
  assert (forall w, (key, w) ∈ m -> k0 <> key) as Hk0.
  { intros w Hw ->. apply Hnot, list_elem_of_fmap. by exists (key, w). }
  apply elem_of_cons in Hu as [Hu|Hu]; apply elem_of_cons in Hv as [Hv|Hv].
  - congruence.
  - injection Hu as -> _. by destruct (Hk0 _ Hv).
  - injection Hv as -> _. by destruct (Hk0 _ Hu).
  - by apply IH.
Qed.

(** A breaker that is off stays off. *)
Lemma cb_run_disabled ops cb : enabled cb = false -> enabled (cb_run ops cb) = false.
Proof.
  induction ops as [|[now o] ops IH] in cb |- *; intros He; [done|]. cbn [cb_run]. apply IH.
  destruct o; cbn; unfold AllowRequest, RecordSuccess, RecordFailure, TryTransitionToHalfOpen, Reset; rewrite ?He; cbn; try done.
  by destruct (_ && _).
Qed.

Lemma loaded_table tables s version provider :
  is_Some (svc_tables (foldl (fun s table => loadTable table s) s tables) !! (version, provider)) ->
  is_Some (svc_tables s !! (version, provider)) \/ exists t, t ∈ tables /\ pt_Version t = version.
Proof.
  induction tables as [|t tables IH] in s |- *; cbn [foldl]; [by left|]. intros [Hs|(t' & ? & ?)]%IH.
  - cbn in Hs. destruct (decide ((pt_Version t, pt_Provider t) = (version, provider))) as [[= Hv Hp]|Hne].
    + right. exists t. split; [left|done].
    + rewrite lookup_insert_ne in Hs by done. by left.
  - right. exists t'. split; [by right|done].
Qed.

(** No table of the default version: no service. *)
Lemma NewService_refused cfg :
  (forall t, t ∈ cfg_Tables cfg -> pt_Version t <> cfg_DefaultVersion cfg) ->
  NewService cfg = Err (EOther "default pricing version not found in tables").
Proof.
  intros Hno. assert (forall provider, has_table (foldl (fun s table => loadTable table s)
      (mkService ∅ [] (cfg_DefaultVersion cfg) (cfg_DefaultVersion cfg)) (cfg_Tables cfg)) (cfg_DefaultVersion cfg) provider = false) as Hnone.
  { intros provider. unfold has_table. apply bool_decide_eq_false_2. intros [[t Ht]|(t & Hin & Hv)]%loaded_table.
    - cbn in Ht. by rewrite lookup_empty in Ht.
    - by apply (Hno t). }
  unfold NewService. by rewrite !Hnone.
Qed.

Section Lost.
Context `{DecoderLaws}.

Lemma missed ks m name : keyed ks m -> misses ks name = true -> ms_field m name = None.
Proof.
  intros [_ Hk] Hmiss. destruct (ms_field m name) as [v|] eqn:E; [|done]. apply field_sound in E as (k & Hin & Hf).
  unfold misses in Hmiss. rewrite forallb_forall in Hmiss. specialize (Hk k v Hin). apply list_elem_of_In, Hmiss, andb_true_iff in Hk as [Ha Hne].
  rewrite fold_ascii in Hf by done. by rewrite Hf in Hne.
Qed.

Lemma field_missed {A} (zero : A) conv ks m name : keyed ks m -> misses ks name = true -> field zero conv m name = Ok zero.
Proof. intros Hk Hm. unfold field. by rewrite (missed ks). Qed.

(** The one key of the list that folds to the name. *)
Lemma fold_only ks key name k :
  k ∈ ks -> EqualFold k name = true -> misses (List.filter (fun k => negb (bool_decide (k = key))) ks) name = true -> k = key.
Proof.
  intros Hk Hf Hmiss. destruct (decide (k = key)) as [|Hne]; [done|]. exfalso. unfold misses in Hmiss. rewrite forallb_forall in Hmiss.
  assert (In k (List.filter (fun k => negb (bool_decide (k = key))) ks)) as Hk'.
  { apply List.filter_In. split; [by apply list_elem_of_In|by rewrite bool_decide_eq_false_2]. }
  apply Hmiss, andb_true_iff in Hk' as [Hka Hkn]. rewrite fold_ascii in Hf by done. by rewrite Hf in Hkn.
Qed.

(** A key that folds to the name, alone among the keys to do so. *)
Lemma field_hit {A} (zero : A) conv ks m name key v :
  keyed ks m -> (key, v) ∈ m -> ascii_only (key +:+ name) = true -> ascii_lower key = ascii_lower name ->
  misses (List.filter (fun k => negb (bool_decide (k = key))) ks) name = true -> field zero conv m name = conv v.
Proof.
  intros [Hnd Hk] Hin Ha He Hmiss. unfold field. destruct (field_complete m key name v Hin) as [v' E].
  { rewrite fold_ascii by done. by apply bool_decide_eq_true. }
  rewrite E. apply field_sound in E as (k & Hin' & Hf). assert (k = key) as -> by (eapply fold_only; eauto).
  by rewrite (pairs_functional m key v v').
Qed.

Lemma all_ok_elem {A B} (f : A -> result error B) l ys y : all_ok f l = Ok ys -> y ∈ ys -> exists x, x ∈ l /\ f x = Ok y.
Proof.
  induction l as [|x l IH] in ys |- *; cbn [all_ok]; [intros [= <-] []%elem_of_nil|].
  destruct (f x) as [y0|] eqn:E; [|done]. destruct (all_ok f l) as [ys'|]; [|done]. intros [= <-] [-> |Hy]%elem_of_cons.
  - exists x. split; [left|done].
  - destruct (IH ys' eq_refl Hy) as (x' & ? & ?). exists x'. split; [by right|done].
Qed.

(** What a field of a list of structs holds came from the key's list. *)
Lemma list_field_elem {A} (conv : cval -> result error A) m name (l : list A) y :
  field [] (list_of conv) m name = Ok l -> y ∈ l ->
  exists k v vs x, (k, v) ∈ m /\ EqualFold k name = true /\ cv_list v = Ok vs /\ x ∈ vs /\ conv x = Ok y.
Proof.
  unfold field. destruct (ms_field m name) as [v|] eqn:E; [|intros [= <-] []%elem_of_nil].
  apply field_sound in E as (k & Hin & Hf). unfold list_of. destruct (cv_list v) as [vs|] eqn:Ev; [|done].
  intros Ha Hy. destruct (all_ok_elem _ _ _ _ Ha Hy) as (x & ? & ?). by exists k, v, vs, x.
Qed.

(** A router section written with the documented keys, providers included. *)
Definition documented_router (m : list (string * cval)) : Prop :=
  keyed router_keys m /\ forall v vs x pm, ("providers", v) ∈ m -> cv_list v = Ok vs -> x ∈ vs -> cv_map x = Ok pm -> keyed provider_keys pm.

(** Decoding a provider from its documented keys. *)
Lemma provider_settings_lost x pm p :
  cv_map x = Ok pm -> keyed provider_keys pm -> decode_ProviderConfig x = Ok p ->
  pc_APIKey p = "" /\ pc_BaseURL p = "" /\ pc_MaxRetries p = 0 /\ pc_CircuitBreaker p = mkCBConfig false 0 0 0 0.
Proof.
  intros Hx Hk. unfold decode_ProviderConfig. rewrite Hx.
  rewrite !(field_missed _ _ provider_keys pm "APIKey"), !(field_missed _ _ provider_keys pm "BaseURL"),
    !(field_missed _ _ provider_keys pm "MaxRetries"), !(field_missed _ _ provider_keys pm "CircuitBreaker") by (done || reflexivity).
  repeat match goal with |- context [match ?c with Ok _ => _ | Err _ => _ end] => destruct c; [|done] end.
  by intros [= <-].
Qed.
(** What the router gets of a section written with its documented keys: no
    fallback rules, no default time limit, no retries, and providers without
    credentials or address, without retries, their breakers off. *)
Theorem router_settings_lost m cfg :
  documented_router m -> decode_RouterConfig m = Ok cfg ->
  rc_FallbackRules cfg = [] /\ rc_DefaultTimeout cfg = 0 /\ rc_MaxRetries cfg = 0 /\ rc_EnableCircuitBreaker cfg = false /\
  forall p, p ∈ rc_Providers cfg ->
    pc_APIKey p = "" /\ pc_BaseURL p = "" /\ pc_MaxRetries p = 0 /\
    (pc_Type p = "openai" -> exists timeout models,
       createProviderFromConfig p = Ok (OpenAIClient "" "https://api.openai.com/v1" timeout models)) /\
    forall ops now, snd (AllowRequest now (cb_run ops (CircuitBreaker.NewCircuitBreaker (pc_CircuitBreaker p)))) = None.
Proof.
  intros [Hk Hp]. unfold decode_RouterConfig.
  rewrite !(field_missed _ _ router_keys m "FallbackRules"), !(field_missed _ _ router_keys m "DefaultTimeout"),
    !(field_missed _ _ router_keys m "MaxRetries"), !(field_missed _ _ router_keys m "EnableCircuitBreaker") by (done || reflexivity).
  destruct (field [] (list_of decode_ProviderConfig) m "Providers") as [l|] eqn:El; [|done]. intros [= <-]. cbn.
  do 4 (split; [done|]). intros p Hin. destruct (list_field_elem _ _ _ _ _ El Hin) as (k & v & vs & x & Hm & Hf & Hv & Hx & Hd).
  assert (k = "providers") as -> by (apply (fold_only router_keys _ "Providers"); [by apply Hk in Hm|done|reflexivity]).
  destruct (cv_map x) as [pm|] eqn:Ex; [|by unfold decode_ProviderConfig in Hd; rewrite Ex in Hd].
  destruct (provider_settings_lost x pm p Ex (Hp v vs x pm Hm Hv Hx Ex) Hd) as (Ha & Hb & Hr & Hcb).
  do 3 (split; [done|]). split.
  - intros Ht. unfold createProviderFromConfig, newOpenAIProvider. rewrite Ht, Ha, Hb. cbn. eauto.
  - intros ops now. rewrite Hcb. unfold AllowRequest. by rewrite cb_run_disabled.
Qed.
(** A pricing section written with its documented keys, each table with the text
    of its version. *)
Definition documented_pricing (m : list (string * cval)) : Prop :=
  keyed pricing_keys m /\
  forall v vs x tm, ("tables", v) ∈ m -> cv_list v = Ok vs -> x ∈ vs -> cv_map x = Ok tm ->
    keyed table_keys tm /\ exists version, version <> "" /\ ("version", CText version) ∈ tm.

Lemma table_version x tm t version :
  cv_map x = Ok tm -> keyed table_keys tm -> ("version", CText version) ∈ tm -> decode_PriceTable x = Ok t -> pt_Version t = version.
Proof.
  intros Hx Hk Hv. unfold decode_PriceTable. rewrite Hx.
  rewrite (field_hit "" cv_string table_keys tm "Version" "version" (CText version)) by (done || reflexivity).
  rewrite string_text. repeat match goal with |- context [match ?c with Ok _ => _ | Err _ => _ end] => destruct c; [|done] end.
  by intros [= <-].
Qed.

(** The default version of such a section is not read, no table has the empty
    version that is there instead, and the price service is refused. *)
Lemma pricing_refused m cfg :
  documented_pricing m -> decode_PricingConfig m = Ok cfg ->
  cfg_DefaultVersion cfg = "" /\ NewService cfg = Err (EOther "default pricing version not found in tables").
Proof.
  intros [Hk Ht]. unfold decode_PricingConfig. rewrite (field_missed _ _ pricing_keys m "DefaultVersion") by (done || reflexivity).
  destruct (field [] (list_of decode_PriceTable) m "Tables") as [l|] eqn:El; [|done].
  destruct (field false cv_bool m "AutoUpdate"); [|done]. intros [= <-]. split; [done|]. apply NewService_refused. cbn. intros t Hin.
  destruct (list_field_elem _ _ _ _ _ El Hin) as (k & v & vs & x & Hm & Hf & Hv & Hx & Hd).
  assert (k = "tables") as -> by (apply (fold_only pricing_keys _ "Tables"); [by apply Hk in Hm|done|reflexivity]).
  destruct (cv_map x) as [tm|] eqn:Ex; [|by unfold decode_PriceTable in Hd; rewrite Ex in Hd].
  destruct (Ht v vs x tm Hm Hv Hx Ex) as (Htk & version & Hne & Hver). by rewrite (table_version x tm t version).
Qed.
End Lost.

(** ** Instances to evaluate *)

(** A store that is a flat map, with one file. *)
#[local] Instance flat_koanf : Koanf (gmap string string) := {
  k_load_file := fun path => if bool_decide (path = "configs/config.yaml")
    then Ok {[ "server.addr" := ":8080"; "database.max_open_conns" := "25" ]} else Err (EOther ("open " +:+ path));
  k_Set := fun key v k => <[key := v]> (filter (fun kv => within_b key kv.1 = false /\ within_b kv.1 key = false) k);
  k_load_flags := fun path k => Ok (<["config" := path]> k);
  k_Unmarshal := fun _ => Err (EOther "not decoded");
  k_Get := fun key k => k !! key;
}.

#[local] Instance flat_koanf_laws : KoanfLaws (gmap string string).
Proof.
  split; cbn.
  - intros. apply lookup_insert_eq.
  - intros key key' v k Hne H1 H2. rewrite lookup_insert_ne by done. rewrite map_lookup_filter.
    destruct (k !! key) as [x|]; [|done]. cbn [mbind option_bind]. rewrite option_guard_True; [done|].
    split; apply not_true_is_false; by rewrite within_b_spec.
  - intros key sec v k Hw. rewrite lookup_insert_ne.
    + rewrite map_lookup_filter. destruct (k !! key) as [x|]; [|done]. cbn [mbind option_bind].
      rewrite option_guard_False; [done|]. intros [H _]. apply within_b_spec in Hw. cbn in H. congruence.
    + intros ->. destruct Hw as [rest Hr]. apply (f_equal (fun s => length (bytes_of_string s))) in Hr.
      rewrite !bytes_of_string_app, !length_app in Hr. cbn in Hr. lia.
  - intros key path k k' [= <-] Hne. by rewrite lookup_insert_ne.
Qed.

#[local] Instance ascii_texts : GoText := { ToLower := ascii_lower; regexp_Compile := fun _ => None }.
#[local] Instance ascii_texts_laws : GoTextLaws.
Proof. by split. Qed.

#[local] Instance ascii_decoder : Decoder := {
  ms_field := fun m name => snd <$> List.find (fun kv => bool_decide (ascii_lower (fst kv) = ascii_lower name)) m;
  EqualFold := fun s t => bool_decide (ascii_lower s = ascii_lower t);
  cv_string := fun v => match v with CText s => Ok s | _ => Err (EOther "expected a text") end;
  cv_int := fun v => match v with CNumber s => Ok (Z.of_nat (String.length s)) | _ => Err (EOther "expected a number") end;
  cv_duration := fun v => match v with CText s => Ok (Z.of_nat (String.length s)) | _ => Err (EOther "expected a duration") end;
  cv_bool := fun v => match v with CBool b => Ok b | _ => Err (EOther "expected a boolean") end;
  cv_float := fun v => match v with CNumber _ => Ok (SpecFloat.S754_zero false) | _ => Err (EOther "expected a number") end;
  cv_list := fun v => match v with CList l => Ok l | _ => Err (EOther "expected a list") end;
  cv_map := fun v => match v with CMap m => Ok m | _ => Err (EOther "expected a map") end;
}.

#[local] Instance ascii_decoder_laws : DecoderLaws.
Proof.
  split; cbn.
  - intros m name v. destruct (List.find _ m) as [[k v']|] eqn:E; [|done]. intros [= <-].
    apply List.find_some in E as [Hin Hf]. exists k. split; [by apply list_elem_of_In|done].
  - intros m k name v Hin Hf. destruct (List.find _ m) as [kv|] eqn:E; [by eexists|].
    apply List.find_none with (x := (k, v)) in E; [|by apply list_elem_of_In]. by destruct (eq_true_false_abs _ Hf E).
  - done.
  - done.
Qed.

Lemma keyed_check ks m : bool_decide (NoDup (map fst m)) && forallb (fun kv => bool_decide (fst kv ∈ ks)) m = true -> keyed ks m.
Proof.
  intros [Hnd%bool_decide_eq_true Hk]%andb_true_iff. split; [done|]. intros k v Hin. rewrite forallb_forall in Hk.
  apply list_elem_of_In in Hin. exact (bool_decide_eq_true_1 _ (Hk (k, v) Hin)).
Qed.

Definition ex_environ : list string := ["HOME=/root"; "AG_DATABASE_MAX_OPEN_CONNS=100"; "AG_SERVER_ADDR=:9090"].
Definition ex_section_environ : list string := ["AG_DATABASE=x"; "AG_DATABASE_DSN=postgres"].

Definition ex_file : gmap string string := {[ "server.addr" := ":8080"; "database.max_open_conns" := "25" ]}.
Definition ex_loaded (environ : list string) : gmap string string :=
  match load_store "configs/config.yaml" environ with Ok k => k | Err _ => ∅ end.

Lemma ex_loads :
  k_load_file "configs/config.yaml" = Ok ex_file /\
  load_store "configs/config.yaml" ex_environ = Ok (ex_loaded ex_environ) /\
  load_store "configs/config.yaml" ex_section_environ = Ok (ex_loaded ex_section_environ).
Proof. split_and!; vm_compute; reflexivity. Qed.

Lemma ex_names :
  names_section ex_environ "database.max_open_conns" = false /\
  names_section ex_section_environ "database.max_open_conns" = true /\
  k_Get "database.max_open_conns" ex_file = Some "25".
Proof. split_and!; vm_compute; reflexivity. Qed.

(** The second environment turns the section into a value. *)
Lemma env_overrides_witness :
  k_Get "database.max_open_conns" (ex_loaded ex_environ) = Some "25" /\
  k_Get "server.addr" (ex_loaded ex_environ) = Some ":9090" /\
  k_Get "database.max_open_conns" (ex_loaded ex_section_environ) = None.
Proof.
  destruct ex_loads as (Hf & Hl & Hs). destruct ex_names as (Hn & Hn' & Hv). split_and!.
  - destruct (env_overrides _ _ _ _ "database.max_open_conns" Hf Hl ltac:(done)) as (_ & Hu & _).
    rewrite (Hu eq_refl), Hn. exact Hv.
  - destruct (env_overrides _ _ _ _ "server.addr" Hf Hl ltac:(done)) as (_ & _ & Hp & _).
    apply (Hp ["HOME=/root"; "AG_DATABASE_MAX_OPEN_CONNS=100"] "AG_SERVER_ADDR=:9090" []); [reflexivity|vm_compute; reflexivity|].
    intros e' key' v' Hin. case (not_elem_of_nil _ Hin).
  - destruct (env_overrides _ _ _ _ "database.max_open_conns" Hf Hs ltac:(done)) as (_ & Hu & _).
    rewrite (Hu eq_refl), Hn'. reflexivity.
Defined.

Definition ex_provider : list (string * cval) :=
  [("name", CText "openai-primary"); ("type", CText "openai"); ("models", CList [CText "gpt-4"]); ("priority", CNumber "1"); ("enabled", CBool true);
   ("api_key", CText "sk-1"); ("timeout", CText "30s"); ("max_retries", CNumber "2");
   ("circuit_breaker", CMap [("enabled", CBool true); ("failure_threshold", CNumber "5")])].
Definition ex_router : list (string * cval) :=
  [("providers", CList [CMap ex_provider]); ("fallback_rules", CList [CMap [("on_errors", CList [CText "provider timeout"])]]);
   ("default_timeout", CText "30s"); ("max_retries", CNumber "2"); ("enable_circuit_breaker", CBool true)].

Lemma router_settings_lost_witness :
  exists cfg, decode_RouterConfig ex_router = Ok cfg /\ length (rc_Providers cfg) = 1%nat /\ rc_FallbackRules cfg = [] /\
    forall p, p ∈ rc_Providers cfg -> pc_APIKey p = "".
Proof.
  eexists. split; [vm_compute; reflexivity|]. split; [reflexivity|].
  edestruct (router_settings_lost ex_router) as (Hf & _ & _ & _ & Hp); [|vm_compute; reflexivity|split; [exact Hf|by intros p (Ha & _)%Hp]].
  split; [by apply keyed_check; vm_compute|]. intros v vs x pm Hm Hv Hx Hpm.
  repeat (apply elem_of_cons in Hm as [Hm|Hm]; [try discriminate Hm|]); [|by apply elem_of_nil in Hm].
  injection Hm as ->. injection Hv as <-. apply list_elem_of_singleton in Hx as ->. injection Hpm as <-. by apply keyed_check; vm_compute.
Defined.

Definition ex_table : list (string * cval) :=
  [("version", CText "2024-01"); ("provider", CText "openai"); ("effective_date", CText "2024-01-01");
   ("prices", CList [CMap [("model", CText "gpt-4"); ("input_price_per_1k", CNumber "0.03"); ("output_price_per_1k", CNumber "0.06")]])].
Definition ex_pricing : list (string * cval) :=
  [("default_version", CText "2024-01"); ("auto_update", CBool false); ("tables", CList [CMap ex_table])].

Lemma ex_pricing_documented : documented_pricing ex_pricing.
Proof.
  split; [by apply keyed_check; vm_compute|]. intros v vs x tm Hm Hv Hx Htm.
  repeat (apply elem_of_cons in Hm as [Hm|Hm]; [try discriminate Hm|]); [|by apply elem_of_nil in Hm].
  injection Hm as ->. injection Hv as <-. apply list_elem_of_singleton in Hx as ->. injection Htm as <-.
  split; [by apply keyed_check; vm_compute|]. exists "2024-01". split; [done|left].
Qed.
