(* ===== verification/Gateway.v ===== *)
(** The processes: [cmd/gateway/main.go], what the gateway is built from before it
    listens, and [cmd/bootstrap/main.go] with the database function it calls
    ([migrations/0013_seed.up.sql]), which makes a platform administrator.

    The drivers of the two stores are third-party code: a class of what the start
    asks of them. *)

From stdpp Require Import base gmap strings list numbers.
From S2P Require Import GoPrelude Bytes Uuid Errors Tenancy Http Password CircuitBreaker ChatModel Routing Fallback Pricing ToolLoop WasmExecutor Guardrail CompositeGuardrail ClassifierClient ExternalClassifiers DelegationMW Auth Sessions AuthHandlers ChatHandlers Config.
Open Scope Z_scope.

(** ** Stores *)

(** [pgxpool.Config], as far as the process sets it. *)
Record PoolConfig := mkPoolConfig {
  pool_DSN : string;
  pool_MaxConns : Z;
  pool_MinConns : Z;
  pool_MaxConnLifetime : Z;
  pool_MaxConnIdleTime : Z;
}.

(** [redis.Options] *)
Record RedisOptions := mkRedisOptions {
  opt_Addr : string;
  opt_Password : string;
  opt_DB : Z;
  opt_PoolSize : Z;
  opt_MinIdleConns : Z;
  opt_DialTimeout : Z;
  opt_ReadTimeout : Z;
  opt_WriteTimeout : Z;
  opt_PoolTimeout : Z;
}.

(** A text that does not parse as an address; making a pool and asking it for a
    ping, under one time limit; a ping of the other store. *)
Class Drivers (W : Type) := {
  pgx_ParseConfig : string -> option error;
  pgx_NewWithConfig : PoolConfig -> Z -> W -> W * option error;
  pgx_Ping : PoolConfig -> Z -> W -> W * option error;
  redis_Ping : RedisOptions -> Z -> W -> W * option error;
}.

Section Start.
Context {W : Type} `{Drivers W} `{ModelEnv W} `{GoText} `{GoText2}.

(** The numbers of connections are cut to 32 bits. *)
Definition pool_config (cfg : DatabaseConfig) : PoolConfig :=
  mkPoolConfig (db_DSN cfg) (int32_wrap (db_MaxOpenConns cfg)) (int32_wrap (db_MaxIdleConns cfg)) (db_ConnMaxLifetime cfg) (db_ConnMaxIdleTime cfg).

Definition initDB (cfg : DatabaseConfig) (w : W) : W * result error PoolConfig :=
  match pgx_ParseConfig (db_DSN cfg) with
  | Some e => (w, Err e)
  | None =>
      let pool := pool_config cfg in
      match pgx_NewWithConfig pool (db_ConnectTimeout cfg) w with
      | (w, Some e) => (w, Err e)
      | (w, None) =>
          match pgx_Ping pool (db_ConnectTimeout cfg) w with
          | (w, Some e) => (w, Err e)
          | (w, None) => (w, Ok pool)
          end
      end
  end.

Definition initRedis (cfg : RedisConfig) (w : W) : W * result error RedisOptions :=
  let client := mkRedisOptions (rd_Addr cfg) (rd_Password cfg) (rd_DB cfg) (rd_PoolSize cfg) (rd_MinIdleConns cfg)
    (rd_DialTimeout cfg) (rd_ReadTimeout cfg) (rd_WriteTimeout cfg) (rd_PoolTimeout cfg) in
  match redis_Ping client (rd_DialTimeout cfg) w with
  | (w, Some e) => (w, Err e)
  | (w, None) => (w, Ok client)
  end.

(** ** What the gateway runs with *)

(** [NewToolRepository]'s cache: how long an entry lives, and how many there are. *)
Definition tool_cache (cacheTTL cacheMaxEntries : Z) : Z * Z :=
  (if cacheTTL <=? 0 then 5 * 60 * second else cacheTTL, if cacheMaxEntries <=? 0 then 1000 else cacheMaxEntries).

(** The key that signs, or the random one when none is configured. *)
Definition signing_key (secret : string) (random : bytes) : bytes :=
  if (length (bytes_of_string secret) =? 0)%nat then random else bytes_of_string secret.

Definition gateway_executor : MockExecutor :=
  NewMockExecutor [WithSupportedTools ["echo_tool"; "send_email"; "query_db"]; WithLatency (10 * millisecond)].

Definition gateway_delegation : DelegationConfig := mkDelegationConfig true true 5 10 false.

Record Gateway := mkGateway {
  gw_Pool : PoolConfig;
  gw_Redis : RedisOptions;
  gw_ToolCache : Z * Z;
  gw_KeyStore : KeyStore;
  gw_Issuer : string;
  gw_Audience : string;
  gw_ReviewTTL : Z;
  gw_ReviewSecret : string;
  gw_Pricing : Service;
  gw_Executor : MockExecutor;
  gw_Chat : ChatUsecase;
  gw_Registry : ProviderRegistry;
  gw_RateFailOpen : bool;
  gw_Local : GuardrailsConfig;
  gw_External : option classifier;
  gw_Composite : CompositeConfig;
  gw_Delegation : DelegationConfig;
  gw_Server : ServerConfig;
}.

(** [main], up to the server's start: a message and its error when it ends the
    process. [random] is what the random source gives. *)
Definition start (cfg : Config) (random : bytes) (w : W) : W * result (string * error) Gateway :=
  match initDB (Database cfg) w with
  | (w, Err e) => (w, Err ("Failed to initialize database", e))
  | (w, Ok pool) =>
  match initRedis (Redis cfg) w with
  | (w, Err e) => (w, Err ("Failed to initialize Redis", e))
  | (w, Ok redis) =>
  let signingKey := signing_key (jwt_Secret (JWT cfg)) random in
  let keyStore := NewKeyStore "v1" signingKey (Some {[ "v1" := signingKey ]}) in
  match NewService (ConfigPricing cfg) with
  | Err e => (w, Err ("Failed to initialize pricing service", e))
  | Ok pricingService =>
  match BuildChatUsecaseFromConfig (Router cfg) (ConfigTool cfg) true true pricingService w with
  | (w, Err e) => (w, Err ("Failed to initialize chat usecase", e))
  | (w, Ok (chatUC, registry)) =>
      (w, Ok (mkGateway pool redis (tool_cache (tcfg_CacheTTL (ConfigTool cfg)) (tcfg_CacheMaxEntries (ConfigTool cfg)))
        keyStore (jwt_Issuer (JWT cfg)) (jwt_Audience (JWT cfg)) (hitl_DefaultTTL (HITL cfg)) (string_of_bytes signingKey)
        pricingService gateway_executor chatUC registry (rl_FailOpen (RateLimit cfg)) (gs_Local (Guardrails cfg))
        (setup_external (gs_ExternalClassifier (Guardrails cfg))) (NewCompositeGuardrail (gs_Composite (Guardrails cfg)))
        gateway_delegation (Server cfg)))
  end
  end
  end
  end.
End Start.

(** ** The bootstrap process *)

Section Bootstrap.
Context `{Argon2}.

(** [public.super_admins], and the function: [None] is [NULL]. Addresses compare
    without case. *)
Variable citext : string -> string.

Definition bootstrap_super_admin (id : UUID) (email hash : string) (admins : list SuperAdmin) : list SuperAdmin * option UUID :=
  match List.find (fun a => bool_decide (citext (sa_Email a) = citext email)) admins with
  | Some _ => (admins, None)
  | None => (admins ++ [mkSuperAdmin id email hash], Some id)
  end.

(** [Scan] into a text: [NULL] is an error. *)
Definition scan_text (v : option UUID) : result error string :=
  match v with Some id => Ok (uuid_String id) | None => Err (EOther "cannot scan NULL into *string") end.

(** [connected] is [initDB]'s answer; [salt] what the random source gives, [id] the
    identifier the database draws. *)
Definition bootstrap (connected : result error PoolConfig) (salt : bytes) (id : UUID) (email password : string) (admins : list SuperAdmin)
    : list SuperAdmin * result string string :=
  if (length (bytes_of_string password) <? 8)%nat then (admins, Err "Password must be at least 8 characters")
  else
    match argon2_HashPassword (Some DefaultParams) salt password with
    | None => (admins, Err "panic")
    | Some phcHash =>
    match connected with
    | Err _ => (admins, Err "Failed to initialize database")
    | Ok _ =>
        let '(admins, v) := bootstrap_super_admin id email phcHash admins in
        match scan_text v with
        | Err _ => (admins, Err "Failed to create Super Admin")
        | Ok superAdminID =>
            if bool_decide (superAdminID = "") then (admins, Err ("Super Admin with email " +:+ email +:+ " already exists"))
            else (admins, Ok superAdminID)
        end
    end
    end.
End Bootstrap.

(** * The documented configuration does not start *)

Section Documented.
Context {W : Type} `{Drivers W} `{ModelEnv W} `{GoText} `{GoText2} `{DecoderLaws}.

(** C17: When the prices are written with the keys of the repository's own file, the
    process ends before it listens, whatever the other settings are: where both
    stores answer, because of the prices. *)
Theorem documented_config_does_not_start (m : list (string * cval)) (cfg : Config) (random : bytes) (w : W) :
  documented_pricing m -> decode_PricingConfig m = Ok (ConfigPricing cfg) ->
  exists w' msg e, start cfg random w = (w', Err (msg, e)) /\
    forall w1 w2 pool redis, initDB (Database cfg) w = (w1, Ok pool) -> initRedis (Redis cfg) w1 = (w2, Ok redis) ->
      w' = w2 /\ msg = "Failed to initialize pricing service" /\ e = EOther "default pricing version not found in tables".
Proof.
  intros Hdoc Hdec. unfold start. destruct (initDB (Database cfg) w) as [w1 [pool|e]]; [|do 3 eexists; split; [done|naive_solver]].
  destruct (initRedis (Redis cfg) w1) as [w2 [redis|e]] eqn:Er; [|do 3 eexists; split; [done|intros ???? [= <- <-]; by rewrite Er]].
  rewrite (proj2 (pricing_refused m _ Hdoc Hdec)). do 3 eexists. split; [done|]. intros ???? [= <- <-]. by rewrite Er; intros [= <- <-].
Qed.
End Documented.

(** * The first administrator *)

Definition super_admin_claims (id : UUID) : Claims := mkClaims (uuid_String id) "" "super_admin" ["*"].

Lemma find_none_all {A} (f : A -> bool) l : (forall a, a ∈ l -> f a = false) -> List.find f l = None.
Proof.
  induction l as [|a l IH]; intros Hl; [done|]. cbn. rewrite Hl by left. apply IH. intros b Hb. apply Hl. by right.
Qed.

Section Bootstrapped.
Context {W : Type} `{Drivers W} `{ModelEnv W} `{GoText} `{GoText2} `{Argon2Laws} `{JwtLaws}.
Variables (lower : string -> string) (parse_addr : string -> option string) (env : DbEnv).
Hypothesis Hup : db_outage env = None.

(** The gateway verifies with the key it signs with. *)
Lemma start_keystore cfg random (w w' : W) g : start cfg random w = (w', Ok g) -> keystore_ok (gw_KeyStore g).
Proof.
  unfold start. destruct (initDB _ w) as [w1 [pool|e]]; [|done]. destruct (initRedis _ w1) as [w2 [redis|e]]; [|done].
  destruct (NewService _); [|done]. destruct (BuildChatUsecaseFromConfig _ _ _ _ _ w2) as [w3 [[chatUC registry]|e]]; [|done].
  intros [= <- <-]. apply NewKeyStore_ok.
Qed.

(** No administrator has the address. *)
Definition address_free (email : string) (admins : list SuperAdmin) : Prop := forall a, a ∈ admins -> lower (sa_Email a) <> lower email.

Lemma find_free email admins :
  address_free email admins -> List.find (fun a => bool_decide (lower (sa_Email a) = lower email)) admins = None.
Proof. intros Hfree. apply find_none_all. intros a Ha. apply bool_decide_eq_false_2. auto. Qed.

Lemma find_added a email admins :
  address_free (sa_Email a) admins -> lower email = lower (sa_Email a) ->
  List.find (fun a => bool_decide (lower (sa_Email a) = lower email)) (admins ++ [a]) = Some a.
Proof.
  intros Hfree He. induction admins as [|b admins IH]; cbn.
  - by rewrite bool_decide_eq_true_2.
  - rewrite bool_decide_eq_false_2 by (rewrite He; apply Hfree; left). apply IH. intros c Hc. apply Hfree. by right.
Qed.

Lemma bootstrap_free pool salt id email password admins :
  address_free email admins -> (8 <= length (bytes_of_string password))%nat ->
  exists hash, argon2_VerifyPassword password hash = Some (Ok tt) /\
    bootstrap lower (Ok pool) salt id email password admins = (admins ++ [mkSuperAdmin id email hash], Ok (uuid_String id)).
Proof.
  intros Hfree Hlen. destruct (default_hash salt password) as (hash & Hhash & Haccept). exists hash. split; [done|].
  unfold bootstrap, bootstrap_super_admin. rewrite (proj2 (Nat.ltb_ge _ _)), Hhash by done.
  rewrite find_free by done. cbn [scan_text]. by rewrite bool_decide_eq_false_2 by apply uuid_String_nonempty.
Qed.
(** The address is taken: nothing is added, and the message is not the one written
    for it, for the answer [NULL] does not reach it. *)
Lemma bootstrap_taken pool salt id email password admins a :
  List.find (fun a => bool_decide (lower (sa_Email a) = lower email)) admins = Some a -> (8 <= length (bytes_of_string password))%nat ->
  bootstrap lower (Ok pool) salt id email password admins = (admins, Err "Failed to create Super Admin").
Proof.
  intros Hf Hlen. destruct (default_hash salt password) as (hash & Hhash & _).
  unfold bootstrap, bootstrap_super_admin. rewrite (proj2 (Nat.ltb_ge _ _)), Hhash by done. by rewrite Hf.
Qed.

Lemma login_added ks issuer audience now refresh id email email' password salt hash admins tok :
  let genv := gateway_auth ks issuer audience salt parse_addr lower in
  argon2_VerifyPassword password hash = Some (Ok tt) ->
  address_free email admins -> lower email' = lower email -> IssueSuperAdminToken ks issuer audience now id = Ok tok ->
  SuperAdminLogin env ks issuer audience now refresh email' password (admins ++ [mkSuperAdmin id email hash]) =
    Ok (mkTokenResponse tok refresh 900).
Proof.
  intros genv Haccept Hfree He Htok. unfold SuperAdminLogin. rewrite Hup. cbn [citext_lower genv gateway_auth].
  rewrite (find_added (mkSuperAdmin id email hash) email') by done.
  cbn [sa_PasswordHash sa_ID Sessions.VerifyPassword genv gateway_auth].
  rewrite Haccept. by rewrite Htok.
Qed.

(** C18: Whoever bootstraps can log in at the gateway: the process adds the administrator
    and prints its identifier; a login with the password, the address in any case,
    answers the token, which for fifteen minutes authenticates a super administrator
    with every scope and no tenant. A second run for the address fails and changes
    nothing; for any other address it makes another administrator. *)
Theorem bootstrap_then_login (cfg : Config) (random salt : bytes) (w w' : W) (g : Gateway) (pool : PoolConfig)
    (id : UUID) (email email' password refresh tok : string) (admins : list SuperAdmin) (now now' : Z) :
  let genv := gateway_auth (gw_KeyStore g) (gw_Issuer g) (gw_Audience g) salt parse_addr lower in
  start cfg random w = (w', Ok g) ->
  address_free email admins -> (8 <= length (bytes_of_string password))%nat -> lower email' = lower email ->
  IssueSuperAdminToken (gw_KeyStore g) (gw_Issuer g) (gw_Audience g) now id = Ok tok ->
  now <= now' < (now + fifteen_minutes) / 1000000000 * 1000000000 ->
  exists admins',
    bootstrap lower (Ok pool) salt id email password admins = (admins', Ok (uuid_String id)) /\
    SuperAdminLogin env (gw_KeyStore g) (gw_Issuer g) (gw_Audience g) now refresh email' password admins' =
      Ok (mkTokenResponse tok refresh 900) /\
    auth_gate (gw_KeyStore g) (gw_Issuer g) (gw_Audience g) now' (bearer_request tok) =
      inr (set_auth (bearer_request tok) (super_admin_claims id) id None) /\
    (forall salt2 id2 pw2, (8 <= length (bytes_of_string pw2))%nat ->
       bootstrap lower (Ok pool) salt2 id2 email' pw2 admins' = (admins', Err "Failed to create Super Admin")) /\
    (forall salt2 id2 email2 pw2, address_free email2 admins' -> (8 <= length (bytes_of_string pw2))%nat ->
       snd (bootstrap lower (Ok pool) salt2 id2 email2 pw2 admins') = Ok (uuid_String id2)).
Proof.
  intros genv Hstart Hfree Hlen He Htok Hnow.
  destruct (bootstrap_free pool salt id email password admins Hfree Hlen) as (hash & Haccept & Hboot).
  eexists. split; [exact Hboot|]. split; [|split; [|split]].
  - by apply login_added.
  - apply (issued_token_authenticates _ [] (gw_Issuer g) (gw_Audience g) now now' (super_admin_claims id) tok (bytes_of_string "Bearer")); try done.
    + by eapply start_keystore.
    + apply not_elem_of_nil.
    + apply ParseUUID_String.
  - intros salt2 id2 pw2 Hlen2. eapply bootstrap_taken; [|done]. by apply find_added.
  - intros salt2 id2 email2 pw2 Hfree2 Hlen2.
    by destruct (bootstrap_free pool salt2 id2 email2 pw2 _ Hfree2 Hlen2) as (hash2 & _ & ->).
Qed.
End Bootstrapped.

(** * Witnesses *)

#[local] Existing Instance toy_jwt.
#[local] Existing Instance toy_jwt_laws.
#[local] Existing Instance toy_argon2.
#[local] Existing Instance toy_argon2_laws.
#[local] Existing Instance Config.ascii_texts.
#[local] Existing Instance Config.ascii_decoder.
#[local] Existing Instance Config.ascii_decoder_laws.
#[local] Instance ascii_texts2 : GoText2 := { ToUpper := id; regexp_error := fun p => EOther ("error parsing regexp: " +:+ p) }.

(** Both stores answer. *)
#[local] Instance up_drivers : Drivers Z := {
  pgx_ParseConfig _ := None;
  pgx_NewWithConfig _ _ w := (w, None);
  pgx_Ping _ _ w := (w + 1, None);
  redis_Ping _ _ w := (w + 1, None);
}.

#[local] Instance quiet_env : ModelEnv Z := {
  env_now w := w;
  provider_Complete _ _ _ w := (w + 1, Err (ErrProviderUnavailable : error));
  provider_HealthCheck _ _ w := (w + 1, None);
  wait_backoff d w := (w + d, None);
}.

Definition ex_config (pricing : PricingConfig) : Config :=
  mkConfig (mkDatabaseConfig "postgres://gateway@localhost/agent_gateway" 25 5 0 0 0 0) (mkRedisConfig "localhost:6380" "" 0 20 5 0 0 0 0)
    (mkJWTConfig "change-me-in-production-min-32-chars" "agent-gateway" "agent-gateway-api" 0 0 (mkKeyRotation false "" ∅))
    (mkRateLimitConfig 60 10000 30 30 5000 15 20 3000 10 true)
    (mkGuardrailsSection (mkGuardrailsConfig true true true true [] 100000 200000 []) None
       (mkComposite "sequential" "fallback_local" "any_violation" 500 true None))
    (mkHITLConfig 0 0 0)
    (mkOTelConfig "agent-gateway" (mkExporterConfig "stdout" "") (mkTracingConfig true (SpecFloat.S754_zero false)) (mkMetricsConfig true ":9090"))
    (mkServerConfig ":8080" "development" 0 0 0 0)
    (mkRouterConfig [mkProviderConfig "local" "mock" ["m"] 1 true "" "" 0 0 (mkCBConfig false 0 0 0 0)] [] 0 0 false)
    pricing (mkToolConfig 5 30000 512 0 0 []).

Lemma documented_config_does_not_start_witness :
  exists w' msg e, start (ex_config (default (mkPricingConfig "" [] false) (match decode_PricingConfig ex_pricing with Ok c => Some c | Err _ => None end)))
    [] 0 = (w', Err (msg, e)).
Proof.
  destruct (documented_config_does_not_start ex_pricing
    (ex_config (default (mkPricingConfig "" [] false) (match decode_PricingConfig ex_pricing with Ok c => Some c | Err _ => None end))) [] 0)
    as (w' & msg & e & Hs & _); [apply ex_pricing_documented|vm_compute; reflexivity|by exists w', msg, e].
Defined.

Definition ex_gateway : option Gateway :=
  match start (ex_config (mkPricingConfig "v1" [mkPriceTable "v1" "openai" [] "" ""] false)) [] 0 with
  | (_, Ok g) => Some g
  | (_, Err _) => None
  end.

Lemma bootstrap_then_login_witness :
  exists g tok admins', ex_gateway = Some g /\
    bootstrap ascii_lower (Ok (gw_Pool g)) ex_salt (uuid_n 1) "root@x.io" "password" [] = (admins', Ok (uuid_String (uuid_n 1))) /\
    auth_gate (gw_KeyStore g) (gw_Issuer g) (gw_Audience g) 2000000000 (bearer_request tok) =
      inr (set_auth (bearer_request tok) (super_admin_claims (uuid_n 1)) (uuid_n 1) None).
Proof.
  destruct (start (ex_config (mkPricingConfig "v1" [mkPriceTable "v1" "openai" [] "" ""] false)) [] 0) as [w' [g|e]] eqn:Es;
    [|vm_compute in Es; discriminate Es].
  assert (exists tok, IssueSuperAdminToken (gw_KeyStore g) (gw_Issuer g) (gw_Audience g) 1000000000 (uuid_n 1) = Ok tok) as [tok Htok].
  { vm_compute in Es. injection Es as _ <-. eexists. vm_compute. reflexivity. }
  destruct (bootstrap_then_login ascii_lower Some ex_db_env eq_refl _ [] ex_salt 0 w' g (gw_Pool g) (uuid_n 1) "root@x.io" "Root@X.io" "password"
    "opaque" tok [] 1000000000 2000000000 Es) as (admins' & Hb & _ & Ha & _).
  - intros a Ha. by apply elem_of_nil in Ha.
  - vm_compute. lia.
  - reflexivity.
  - exact Htok.
  - vm_compute. split; congruence.
  - exists g, tok, admins'. split; [by unfold ex_gateway; rewrite Es|by split].
Defined.
