(* ===== verification/OpenApi.v ===== *)
(** The documented interface, [internal/api/openapi.go], and how much of it the
    routing table of [Router.v] serves.

    The file is generated from an earlier [openapi.yaml] (two operations fewer): enumerations, the interface of a
    server, the wrapper that binds parameters, and the registration of the routes.
    Binding parameters is a run-time library, the class [OapiRuntime]. *)

From stdpp Require Import base gmap strings list numbers pretty.
From Stdlib Require Import Ascii.
From S2P Require Import GoPrelude Errors Bytes Uuid Tenancy Http Auth Sessions TenantAdmin Review Router.
Open Scope Z_scope.

(** ** Enumerations *)

Section Enumerations.
Local Definition member (values : list string) (e : string) : bool := bool_decide (e ∈ values).

Definition ChatCompletionRequestMessagesRole_Valid : string -> bool := member ["assistant"; "system"; "tool"; "user"].
Definition ChatCompletionResponseChoicesFinishReason_Valid : string -> bool := member ["content_filter"; "length"; "stop"; "tool_calls"].
Definition QuotaRequestScope_Valid : string -> bool := member ["role"; "tenant"; "user"].
Definition QuotaResponseScope_Valid : string -> bool := member ["role"; "tenant"; "user"].
Definition ReviewResponseStatus_Valid : string -> bool := member ["APPROVED"; "EXECUTED"; "EXPIRED"; "PENDING"; "REJECTED"].
Definition TenantResponseStatus_Valid : string -> bool := member ["active"; "suspended"].
Definition UserResponseStatus_Valid : string -> bool := member ["active"; "deleted"; "suspended"].
Definition ListTenantsParamsStatus_Valid : string -> bool := member ["active"; "suspended"].
Definition ListUsersParamsStatus_Valid : string -> bool := member ["active"; "deleted"; "suspended"].
Definition ListReviewsParamsStatus_Valid : string -> bool := member ["APPROVED"; "EXECUTED"; "EXPIRED"; "PENDING"; "REJECTED"].
End Enumerations.

(** ** Parameters and errors *)

Record ListTenantsParams := mkListTenantsParams { lt_Status : option string; lt_Limit : option Z; lt_Offset : option Z }.
Record ListUsersParams := mkListUsersParams { lu_Status : option string; lu_Limit : option Z; lu_Offset : option Z }.
Record ListReviewsParams := mkListReviewsParams { lv_Status : option string; lv_Limit : option Z; lv_Offset : option Z }.

(** An error inside is kept as its text. *)
Inductive param_error :=
| UnescapedCookieParamError (ParamName Err : string)
| UnmarshalingParamError (ParamName Err : string)
| RequiredParamError (ParamName : string)
| RequiredHeaderError (ParamName Err : string)
| InvalidParamFormatError (ParamName Err : string)
| TooManyValuesForParamError (ParamName : string) (Count : Z).

Definition param_Error (e : param_error) : string :=
  match e with
  | UnescapedCookieParamError n _ => "error unescaping cookie parameter '" +:+ n +:+ "'"
  | UnmarshalingParamError n e => "Error unmarshaling parameter " +:+ n +:+ " as JSON: " +:+ e
  | RequiredParamError n => "Query argument " +:+ n +:+ " is required, but not found"
  | RequiredHeaderError n _ => "Header parameter " +:+ n +:+ " is required, but not found"
  | InvalidParamFormatError n e => "Invalid format for parameter " +:+ n +:+ ": " +:+ e
  | TooManyValuesForParamError n c => "Expected one value for " +:+ n +:+ ", got " +:+ pretty c
  end.

(** [Unwrap]; the two types without the method wrap nothing. *)
Definition param_Unwrap (e : param_error) : option string :=
  match e with
  | UnescapedCookieParamError _ e | UnmarshalingParamError _ e | RequiredHeaderError _ e | InvalidParamFormatError _ e => Some e
  | RequiredParamError _ | TooManyValuesForParamError _ _ => None
  end.

(** What the library answers when it cannot bind. *)
Inductive bind_error := RequiredParameterError | OtherBindError (text : string).

(** [BindStyledParameterWithOptions] for a UUID in the path, and
    [BindQueryParameterWithOptions] for an optional string or integer. *)
Class OapiRuntime := {
  BindUUID : string -> result string UUID;
  BindQueryString : Request -> string -> result bind_error (option string);
  BindQueryInt : Request -> string -> result bind_error (option Z);
}.

(** ** The server *)

Record ServerInterface (W : Type) := mkServerInterface {
  si_ListPermissions : Handler W;
  si_CreatePermission : Handler W;
  si_ListQuotas : Handler W;
  si_CreateQuota : Handler W;
  si_DeleteQuota : UUID -> Handler W;
  si_GetQuota : UUID -> Handler W;
  si_UpdateQuota : UUID -> Handler W;
  si_ListRoles : Handler W;
  si_CreateRole : Handler W;
  si_DeleteRole : UUID -> Handler W;
  si_GetRole : UUID -> Handler W;
  si_UpdateRole : UUID -> Handler W;
  si_ListTenants : ListTenantsParams -> Handler W;
  si_CreateTenant : Handler W;
  si_DeleteTenant : UUID -> Handler W;
  si_GetTenant : UUID -> Handler W;
  si_UpdateTenant : UUID -> Handler W;
  si_ListUsers : ListUsersParams -> Handler W;
  si_CreateUser : Handler W;
  si_DeleteUser : UUID -> Handler W;
  si_GetUser : UUID -> Handler W;
  si_UpdateUser : UUID -> Handler W;
  si_Login : Handler W;
  si_Logout : Handler W;
  si_Refresh : Handler W;
  si_RevokeAllSessions : Handler W;
  si_ListSessions : Handler W;
  si_ChatCompletions : Handler W;
  si_Health : Handler W;
  si_Ready : Handler W;
  si_ListReviews : ListReviewsParams -> Handler W;
  si_CreateReview : Handler W;
  si_GetReview : UUID -> Handler W;
  si_ApproveReview : UUID -> Handler W;
  si_RejectReview : UUID -> Handler W;
  si_StreamReview : UUID -> Handler W;
}.
Arguments si_ListPermissions {W} _.
Arguments si_CreatePermission {W} _.
Arguments si_ListQuotas {W} _.
Arguments si_CreateQuota {W} _.
Arguments si_DeleteQuota {W} _.
Arguments si_GetQuota {W} _.
Arguments si_UpdateQuota {W} _.
Arguments si_ListRoles {W} _.
Arguments si_CreateRole {W} _.
Arguments si_DeleteRole {W} _.
Arguments si_GetRole {W} _.
Arguments si_UpdateRole {W} _.
Arguments si_ListTenants {W} _.
Arguments si_CreateTenant {W} _.
Arguments si_DeleteTenant {W} _.
Arguments si_GetTenant {W} _.
Arguments si_UpdateTenant {W} _.
Arguments si_ListUsers {W} _.
Arguments si_CreateUser {W} _.
Arguments si_DeleteUser {W} _.
Arguments si_GetUser {W} _.
Arguments si_UpdateUser {W} _.
Arguments si_Login {W} _.
Arguments si_Logout {W} _.
Arguments si_Refresh {W} _.
Arguments si_RevokeAllSessions {W} _.
Arguments si_ListSessions {W} _.
Arguments si_ChatCompletions {W} _.
Arguments si_Health {W} _.
Arguments si_Ready {W} _.
Arguments si_ListReviews {W} _.
Arguments si_CreateReview {W} _.
Arguments si_GetReview {W} _.
Arguments si_ApproveReview {W} _.
Arguments si_RejectReview {W} _.
Arguments si_StreamReview {W} _.

Definition not_implemented {W} : Handler W := fun _ w => (w, mkResponse 501 "").

(** Every method answers 501. *)
Definition Unimplemented {W} : ServerInterface W := {|
  si_ListPermissions := not_implemented;
  si_CreatePermission := not_implemented;
  si_ListQuotas := not_implemented;
  si_CreateQuota := not_implemented;
  si_DeleteQuota := fun _ => not_implemented;
  si_GetQuota := fun _ => not_implemented;
  si_UpdateQuota := fun _ => not_implemented;
  si_ListRoles := not_implemented;
  si_CreateRole := not_implemented;
  si_DeleteRole := fun _ => not_implemented;
  si_GetRole := fun _ => not_implemented;
  si_UpdateRole := fun _ => not_implemented;
  si_ListTenants := fun _ => not_implemented;
  si_CreateTenant := not_implemented;
  si_DeleteTenant := fun _ => not_implemented;
  si_GetTenant := fun _ => not_implemented;
  si_UpdateTenant := fun _ => not_implemented;
  si_ListUsers := fun _ => not_implemented;
  si_CreateUser := not_implemented;
  si_DeleteUser := fun _ => not_implemented;
  si_GetUser := fun _ => not_implemented;
  si_UpdateUser := fun _ => not_implemented;
  si_Login := not_implemented;
  si_Logout := not_implemented;
  si_Refresh := not_implemented;
  si_RevokeAllSessions := not_implemented;
  si_ListSessions := not_implemented;
  si_ChatCompletions := not_implemented;
  si_Health := not_implemented;
  si_Ready := not_implemented;
  si_ListReviews := fun _ => not_implemented;
  si_CreateReview := not_implemented;
  si_GetReview := fun _ => not_implemented;
  si_ApproveReview := fun _ => not_implemented;
  si_RejectReview := fun _ => not_implemented;
  si_StreamReview := fun _ => not_implemented
|}.

Record ServerInterfaceWrapper (W : Type) := mkWrapper {
  siw_Handler : ServerInterface W;
  siw_HandlerMiddlewares : list (Handler W -> Handler W);
  siw_ErrorHandlerFunc : param_error -> Handler W;
}.
Arguments siw_Handler {W} _.
Arguments siw_HandlerMiddlewares {W} _.
Arguments siw_ErrorHandlerFunc {W} _ _.

Section Wrapper.
Context {W : Type} `{OapiRuntime}.
Variable siw : ServerInterfaceWrapper W.

(** [for _, middleware := range]: the last one ends up outermost. *)
Definition with_middlewares (handler : Handler W) : Handler W :=
  foldl (fun h middleware => middleware h) handler (siw_HandlerMiddlewares siw).

(** The path parameter "id", bound before the handler is made. *)
Definition with_uuid (params : list (string * string)) (f : UUID -> Handler W) : Handler W := fun r w =>
  match BindUUID (Quota.URLParam params "id") with
  | Err e => siw_ErrorHandlerFunc siw (InvalidParamFormatError "id" e) r w
  | Ok id => with_middlewares (f id) r w
  end.

(** One optional query parameter. *)
Definition bind_failed (name : string) (e : bind_error) : param_error :=
  match e with
  | RequiredParameterError => RequiredParamError name
  | OtherBindError text => InvalidParamFormatError name text
  end.

(** The three of a listing, in their order. *)
Definition with_page {P} (mk : option string -> option Z -> option Z -> P) (f : P -> Handler W) : Handler W := fun r w =>
  match BindQueryString r "status" with
  | Err e => siw_ErrorHandlerFunc siw (bind_failed "status" e) r w
  | Ok status =>
      match BindQueryInt r "limit" with
      | Err e => siw_ErrorHandlerFunc siw (bind_failed "limit" e) r w
      | Ok limit =>
          match BindQueryInt r "offset" with
          | Err e => siw_ErrorHandlerFunc siw (bind_failed "offset" e) r w
          | Ok offset => with_middlewares (f (mk status limit offset)) r w
          end
      end
  end.

Definition siw_ListPermissions : Handler W := with_middlewares (si_ListPermissions (siw_Handler siw)).
Definition siw_CreatePermission : Handler W := with_middlewares (si_CreatePermission (siw_Handler siw)).
Definition siw_ListQuotas : Handler W := with_middlewares (si_ListQuotas (siw_Handler siw)).
Definition siw_CreateQuota : Handler W := with_middlewares (si_CreateQuota (siw_Handler siw)).
Definition siw_DeleteQuota (params : list (string * string)) : Handler W := with_uuid params (si_DeleteQuota (siw_Handler siw)).
Definition siw_GetQuota (params : list (string * string)) : Handler W := with_uuid params (si_GetQuota (siw_Handler siw)).
Definition siw_UpdateQuota (params : list (string * string)) : Handler W := with_uuid params (si_UpdateQuota (siw_Handler siw)).
Definition siw_ListRoles : Handler W := with_middlewares (si_ListRoles (siw_Handler siw)).
Definition siw_CreateRole : Handler W := with_middlewares (si_CreateRole (siw_Handler siw)).
Definition siw_DeleteRole (params : list (string * string)) : Handler W := with_uuid params (si_DeleteRole (siw_Handler siw)).
Definition siw_GetRole (params : list (string * string)) : Handler W := with_uuid params (si_GetRole (siw_Handler siw)).
Definition siw_UpdateRole (params : list (string * string)) : Handler W := with_uuid params (si_UpdateRole (siw_Handler siw)).
Definition siw_ListTenants : Handler W := with_page mkListTenantsParams (si_ListTenants (siw_Handler siw)).
Definition siw_CreateTenant : Handler W := with_middlewares (si_CreateTenant (siw_Handler siw)).
Definition siw_DeleteTenant (params : list (string * string)) : Handler W := with_uuid params (si_DeleteTenant (siw_Handler siw)).
Definition siw_GetTenant (params : list (string * string)) : Handler W := with_uuid params (si_GetTenant (siw_Handler siw)).
Definition siw_UpdateTenant (params : list (string * string)) : Handler W := with_uuid params (si_UpdateTenant (siw_Handler siw)).
Definition siw_ListUsers : Handler W := with_page mkListUsersParams (si_ListUsers (siw_Handler siw)).
Definition siw_CreateUser : Handler W := with_middlewares (si_CreateUser (siw_Handler siw)).
Definition siw_DeleteUser (params : list (string * string)) : Handler W := with_uuid params (si_DeleteUser (siw_Handler siw)).
Definition siw_GetUser (params : list (string * string)) : Handler W := with_uuid params (si_GetUser (siw_Handler siw)).
Definition siw_UpdateUser (params : list (string * string)) : Handler W := with_uuid params (si_UpdateUser (siw_Handler siw)).
Definition siw_Login : Handler W := with_middlewares (si_Login (siw_Handler siw)).
Definition siw_Logout : Handler W := with_middlewares (si_Logout (siw_Handler siw)).
Definition siw_Refresh : Handler W := with_middlewares (si_Refresh (siw_Handler siw)).
Definition siw_RevokeAllSessions : Handler W := with_middlewares (si_RevokeAllSessions (siw_Handler siw)).
Definition siw_ListSessions : Handler W := with_middlewares (si_ListSessions (siw_Handler siw)).
Definition siw_ChatCompletions : Handler W := with_middlewares (si_ChatCompletions (siw_Handler siw)).
Definition siw_Health : Handler W := with_middlewares (si_Health (siw_Handler siw)).
Definition siw_Ready : Handler W := with_middlewares (si_Ready (siw_Handler siw)).
Definition siw_ListReviews : Handler W := with_page mkListReviewsParams (si_ListReviews (siw_Handler siw)).
Definition siw_CreateReview : Handler W := with_middlewares (si_CreateReview (siw_Handler siw)).
Definition siw_GetReview (params : list (string * string)) : Handler W := with_uuid params (si_GetReview (siw_Handler siw)).
Definition siw_ApproveReview (params : list (string * string)) : Handler W := with_uuid params (si_ApproveReview (siw_Handler siw)).
Definition siw_RejectReview (params : list (string * string)) : Handler W := with_uuid params (si_RejectReview (siw_Handler siw)).
Definition siw_StreamReview (params : list (string * string)) : Handler W := with_uuid params (si_StreamReview (siw_Handler siw)).

(** The handlers by the names the registration uses. *)
Definition wrapper_handlers (params : list (string * string)) : list (string * Handler W) :=
  [
   ("ListPermissions", siw_ListPermissions);
   ("CreatePermission", siw_CreatePermission);
   ("ListQuotas", siw_ListQuotas);
   ("CreateQuota", siw_CreateQuota);
   ("DeleteQuota", siw_DeleteQuota params);
   ("GetQuota", siw_GetQuota params);
   ("UpdateQuota", siw_UpdateQuota params);
   ("ListRoles", siw_ListRoles);
   ("CreateRole", siw_CreateRole);
   ("DeleteRole", siw_DeleteRole params);
   ("GetRole", siw_GetRole params);
   ("UpdateRole", siw_UpdateRole params);
   ("ListTenants", siw_ListTenants);
   ("CreateTenant", siw_CreateTenant);
   ("DeleteTenant", siw_DeleteTenant params);
   ("GetTenant", siw_GetTenant params);
   ("UpdateTenant", siw_UpdateTenant params);
   ("ListUsers", siw_ListUsers);
   ("CreateUser", siw_CreateUser);
   ("DeleteUser", siw_DeleteUser params);
   ("GetUser", siw_GetUser params);
   ("UpdateUser", siw_UpdateUser params);
   ("Login", siw_Login);
   ("Logout", siw_Logout);
   ("Refresh", siw_Refresh);
   ("RevokeAllSessions", siw_RevokeAllSessions);
   ("ListSessions", siw_ListSessions);
   ("ChatCompletions", siw_ChatCompletions);
   ("Health", siw_Health);
   ("Ready", siw_Ready);
   ("ListReviews", siw_ListReviews);
   ("CreateReview", siw_CreateReview);
   ("GetReview", siw_GetReview params);
   ("ApproveReview", siw_ApproveReview params);
   ("RejectReview", siw_RejectReview params);
   ("StreamReview", siw_StreamReview params)].
End Wrapper.

(** ** Registration *)

Record ChiServerOptions (W : Type) := mkOptions {
  BaseURL : string;
  BaseRouter : option (list reg);   (* what is registered already; None makes a new router *)
  Middlewares : list (Handler W -> Handler W);
  ErrorHandlerFunc : option (param_error -> Handler W);
}.
Arguments mkOptions {W} _ _ _ _.
Arguments BaseURL {W} _.
Arguments BaseRouter {W} _.
Arguments Middlewares {W} _.
Arguments ErrorHandlerFunc {W} _.

(** [http.Error] with 400. *)
Definition default_ErrorHandler {W} : param_error -> Handler W :=
  fun e _ w => (w, mkResponse 400 (param_Error e +:+ newline)).

Definition wrapper_of {W} (si : ServerInterface W) (options : ChiServerOptions W) : ServerInterfaceWrapper W :=
  mkWrapper W si (Middlewares options) (default default_ErrorHandler (ErrorHandlerFunc options)).

Definition openapi_routes (base : string) : list reg :=
  [
   Group [Get (base +:+ "/health") "Health"];
   Group [Get (base +:+ "/ready") "Ready"];
   Group [Post (base +:+ "/auth/login") "Login"];
   Group [Post (base +:+ "/auth/refresh") "Refresh"];
   Group [Post (base +:+ "/auth/logout") "Logout"];
   Group [Delete (base +:+ "/auth/sessions") "RevokeAllSessions"];
   Group [Get (base +:+ "/auth/sessions") "ListSessions"];
   Group [Get (base +:+ "/admin/tenants") "ListTenants"];
   Group [Post (base +:+ "/admin/tenants") "CreateTenant"];
   Group [Delete (base +:+ "/admin/tenants/{id}") "DeleteTenant"];
   Group [Get (base +:+ "/admin/tenants/{id}") "GetTenant"];
   Group [Patch (base +:+ "/admin/tenants/{id}") "UpdateTenant"];
   Group [Get (base +:+ "/admin/users") "ListUsers"];
   Group [Post (base +:+ "/admin/users") "CreateUser"];
   Group [Delete (base +:+ "/admin/users/{id}") "DeleteUser"];
   Group [Get (base +:+ "/admin/users/{id}") "GetUser"];
   Group [Patch (base +:+ "/admin/users/{id}") "UpdateUser"];
   Group [Get (base +:+ "/admin/roles") "ListRoles"];
   Group [Post (base +:+ "/admin/roles") "CreateRole"];
   Group [Delete (base +:+ "/admin/roles/{id}") "DeleteRole"];
   Group [Get (base +:+ "/admin/roles/{id}") "GetRole"];
   Group [Patch (base +:+ "/admin/roles/{id}") "UpdateRole"];
   Group [Get (base +:+ "/admin/permissions") "ListPermissions"];
   Group [Post (base +:+ "/admin/permissions") "CreatePermission"];
   Group [Get (base +:+ "/admin/quotas") "ListQuotas"];
   Group [Post (base +:+ "/admin/quotas") "CreateQuota"];
   Group [Delete (base +:+ "/admin/quotas/{id}") "DeleteQuota"];
   Group [Get (base +:+ "/admin/quotas/{id}") "GetQuota"];
   Group [Patch (base +:+ "/admin/quotas/{id}") "UpdateQuota"];
   Group [Get (base +:+ "/reviews") "ListReviews"];
   Group [Post (base +:+ "/reviews") "CreateReview"];
   Group [Get (base +:+ "/reviews/{id}") "GetReview"];
   Group [Post (base +:+ "/reviews/{id}/approve") "ApproveReview"];
   Group [Post (base +:+ "/reviews/{id}/reject") "RejectReview"];
   Group [Get (base +:+ "/reviews/{id}/stream") "StreamReview"];
   Group [Post (base +:+ "/chat/completions") "ChatCompletions"]].

(** The router that is returned: its registrations, and its handlers by name. *)
Definition HandlerWithOptions {W} `{OapiRuntime} (si : ServerInterface W) (options : ChiServerOptions W)
    : list reg * (string -> list (string * string) -> option (Handler W)) :=
  (default [] (BaseRouter options) ++ openapi_routes (BaseURL options),
   fun name params => snd <$> List.find (fun p => bool_decide (fst p = name)) (wrapper_handlers (wrapper_of si options) params)).

Definition OpenApiHandler {W} `{OapiRuntime} (si : ServerInterface W) := HandlerWithOptions si (mkOptions "" None [] None).
Definition HandlerFromMux {W} `{OapiRuntime} (si : ServerInterface W) (r : list reg) := HandlerWithOptions si (mkOptions "" (Some r) [] None).
Definition HandlerFromMuxWithBaseURL {W} `{OapiRuntime} (si : ServerInterface W) (r : list reg) (baseURL : string) :=
  HandlerWithOptions si (mkOptions baseURL (Some r) [] None).

(** ** Paths

    A path and a pattern are lists of segments. *)
Definition segments (path : string) : list string := map string_of_bytes (Split "/" (bytes_of_string path)).

Inductive pseg := Lit (s : string) | Param (name : string).

(** A segment of a pattern is a parameter in braces, or is taken as it is. *)
Definition pattern_seg (s : string) : pseg :=
  match bytes_of_string s with
  | "{"%char :: b =>
      match rev b with
      | "}"%char :: name => Param (string_of_bytes (rev name))
      | _ => Lit s
      end
  | _ => Lit s
  end.

(** Neither of the two other kinds of segments [chi] has. *)
Definition plain_segment (s : string) : bool :=
  match pattern_seg s with
  | Lit s => forallb (fun c => negb (Ascii.eqb c "{" || Ascii.eqb c "}" || Ascii.eqb c "*")) (bytes_of_string s)
  | Param n => forallb (fun c => negb (Ascii.eqb c "{" || Ascii.eqb c "}" || Ascii.eqb c "*" || Ascii.eqb c ":")) (bytes_of_string n)
  end.

Fixpoint match_segs (pats segs : list string) : option (list (string * string)) :=
  match pats, segs with
  | [], [] => Some []
  | p :: pats, s :: segs =>
      match pattern_seg p with
      | Lit l => if bool_decide (l = s) then match_segs pats segs else None
      | Param n => if bool_decide (s = "") then None else (fun ps => (n, s) :: ps) <$> match_segs pats segs
      end
  | _, _ => None
  end.

(** The prefixes at which a registration mounts a router of its own. *)
Fixpoint mounts_of (prefix : string) (r : reg) : list string :=
  match r with
  | RouteAt p body => (prefix +:+ p) :: flat_map (mounts_of (prefix +:+ p)) body
  | Group body => flat_map (mounts_of prefix) body
  | Use _ | Handle _ _ _ => []
  end.

Definition mounts (rs : list reg) : list string := mounts_of "" (Group rs).

Definition is_some {A} (o : option A) : bool := match o with Some _ => true | None => false end.

(** [segs] begins with the prefix. *)
Definition under (prefix : string) (segs : list string) : bool :=
  let p := segments prefix in is_some (match_segs p (take (length p) segs)).

(** A mounted router takes every path under its prefix. *)
Definition captured (ms : list string) (rt : Route) (segs : list string) : bool :=
  forallb (fun m => negb (under m segs) || under m (segments (rt_Pattern rt))) ms.

(** The route "/" of a mounted router answers its prefix without the slash. *)
Definition answers (ms : list string) (rt : Route) (segs : list string) : option (list (string * string)) :=
  match match_segs (segments (rt_Pattern rt)) segs with
  | Some ps => Some ps
  | None => if existsb (fun m => bool_decide (rt_Pattern rt = m +:+ "/")) ms then match_segs (removelast (segments (rt_Pattern rt))) segs else None
  end.

Definition eligible (ms : list string) (rt : Route) (method : string) (segs : list string) : option (list (string * string)) :=
  if bool_decide (rt_Method rt = method) && captured ms rt segs then answers ms rt segs else None.

(** Registrations and paths the law below speaks of: patterns of the two kinds,
    literal prefixes, and no empty segment but the first. *)
Definition plain_registration (rs : list reg) : bool :=
  forallb (fun rt => forallb plain_segment (segments (rt_Pattern rt))) (routes rs) &&
  forallb (fun m => forallb (fun s => plain_segment s && match pattern_seg s with Lit _ => true | Param _ => false end) (segments m)) (mounts rs).

Definition clean_path (segs : list string) : bool :=
  match segs with s :: segs => bool_decide (s = "") && forallb (fun s => negb (bool_decide (s = ""))) segs | [] => false end.

(** [chi.Mux.ServeHTTP] of what was registered, mounts included. *)
Class ChiMux (W : Type) := ServeMux : RouterConfig W -> list reg -> Handler W.

(** What [chi] documents of its dispatch: a request is served by a route of its
    method whose pattern its path matches, and when there is none, it is not served. *)
Class ChiPaths (W : Type) `{ChiMux W} : Prop := {
  chi_dispatch : forall cfg rs r w,
    plain_registration rs = true -> clean_path (segments (Path r)) = true ->
    (exists rt params, rt ∈ routes rs /\ eligible (mounts rs) rt (Method r) (segments (Path r)) = Some params /\
       ServeMux cfg rs r w = serve_route cfg rt params r w) \/
    (exists resp, not_served resp /\ ServeMux cfg rs r w = (w, resp) /\
       forall rt, rt ∈ routes rs -> eligible (mounts rs) rt (Method r) (segments (Path r)) = None);
}.

(** ** Paths of documented operations

    A documented pattern with an identifier in the place of its parameters. *)
Definition fill_seg (id s : string) : string := match pattern_seg s with Lit l => l | Param _ => id end.

(** The same matching, on the documented segments themselves. *)
Fixpoint sym_match (pats segs : list string) : option (list (string * string)) :=
  match pats, segs with
  | [], [] => Some []
  | p :: pats, s :: segs =>
      match pattern_seg p, pattern_seg s with
      | Lit l, Lit l' => if bool_decide (l = l') then sym_match pats segs else None
      | Lit _, Param _ => None
      | Param n, Lit l => if bool_decide (l = "") then None else (fun ps => (n, s) :: ps) <$> sym_match pats segs
      | Param n, Param _ => (fun ps => (n, s) :: ps) <$> sym_match pats segs
      end
  | _, _ => None
  end.

Definition sym_under (prefix : string) (segs : list string) : bool :=
  let p := segments prefix in is_some (sym_match p (take (length p) segs)).


Definition fill_params (id : string) (ps : list (string * string)) : list (string * string) :=
  map (fun '(n, s) => (n, fill_seg id s)) ps.


Lemma fill_Lit id s l : pattern_seg s = Lit l -> fill_seg id s = l.
Proof. unfold fill_seg. by intros ->. Qed.

Lemma fill_Param id s n : pattern_seg s = Param n -> fill_seg id s = id.
Proof. unfold fill_seg. by intros ->. Qed.

(** An identifier that is no literal of the patterns matches the parameters only. *)
Definition no_literal (id : string) (pats : list string) : Prop := Forall (fun p => forall l, pattern_seg p = Lit l -> l <> id) pats.

Lemma match_fill id pats segs :
  id <> "" -> no_literal id pats ->
  match_segs pats (map (fill_seg id) segs) = fill_params id <$> sym_match pats segs.
Proof.
  intros Hid Hp. revert segs. induction Hp as [|p pats Hp _ IH]; intros [|s segs]; try done.
  cbn [match_segs map sym_match]. destruct (pattern_seg p) as [l|n] eqn:Ep, (pattern_seg s) as [l'|n'] eqn:Es;
    rewrite ?(fill_Lit id s _ Es), ?(fill_Param id s _ Es).
  - case_bool_decide; [apply IH|done].
  - by rewrite bool_decide_eq_false_2 by by apply Hp.
  - case_bool_decide; [done|]. rewrite IH. destruct (sym_match pats segs); [|done]. cbn. by rewrite (fill_Lit id s _ Es).
  - rewrite bool_decide_eq_false_2 by done. rewrite IH. destruct (sym_match pats segs); [|done]. cbn. by rewrite (fill_Param id s _ Es).
Qed.





(** ** The law on filled patterns *)

Section Filled.
Variables (id : string) (ms : list string) (rts : list Route).
Hypothesis Hid : id <> "".
Hypothesis Hms : forall m, m ∈ ms -> no_literal id (segments m).
Hypothesis Hrts : forall rt, rt ∈ rts -> no_literal id (segments (rt_Pattern rt)).


Lemma under_fill m segs : m ∈ ms -> under m (map (fill_seg id) segs) = sym_under m segs.
Proof using Hid Hms.
  intros Hm. unfold under, sym_under. rewrite firstn_map, match_fill by auto.
  by destruct (sym_match _ _).
Qed.

End Filled.

(** * What of the document the gateway serves *)


(** The operations of the generated interface, and the two the document has
    besides: [openapi.go] was not generated again since they were added. *)
Definition generated_operations : list Route := routes (openapi_routes "").















Section Served.
Context {W : Type} `{!ChiMux W} `{!ChiPaths W}.
Variable cfg : RouterConfig W.

End Served.



(** ** The generated server *)

(** The enumerations are those of the tables' checks, and of the review states. *)
Theorem documented_enumerations (s : string) :
  (QuotaRequestScope_Valid s = true <-> Quota.scope_check s = true) /\ QuotaResponseScope_Valid s = QuotaRequestScope_Valid s /\
  (TenantResponseStatus_Valid s = true <-> tenant_status_check s = true) /\ ListTenantsParamsStatus_Valid s = TenantResponseStatus_Valid s /\
  (UserResponseStatus_Valid s = true <-> user_status_check s = true) /\ ListUsersParamsStatus_Valid s = UserResponseStatus_Valid s /\
  ListReviewsParamsStatus_Valid s = ReviewResponseStatus_Valid s.
Proof.
  unfold QuotaRequestScope_Valid, Quota.scope_check, TenantResponseStatus_Valid, tenant_status_check, UserResponseStatus_Valid, user_status_check, member.
  split_and!; try done; rewrite ?orb_true_iff, !bool_decide_eq_true, ?elem_of_cons, ?elem_of_nil; tauto.
Qed.

Definition operation_names : list string := map rt_Handler generated_operations.

Lemma openapi_names base : map rt_Handler (routes (openapi_routes base)) = operation_names.
Proof. reflexivity. Qed.

Definition unanswered {W} (h : Handler W) : Prop :=
  forall r w, exists resp, h r w = (w, resp) /\ (resp = mkResponse 501 "" \/ exists e, resp = mkResponse 400 (param_Error e +:+ newline)).

Lemma unanswered_plain {W} : unanswered (@not_implemented W).
Proof. intros r w. eexists. split; [reflexivity|by left]. Qed.

Section Unanswered.
Context {W : Type} `{OapiRuntime}.
Let siw : ServerInterfaceWrapper W := wrapper_of Unimplemented (mkOptions "" None [] None).

Lemma unanswered_uuid params : unanswered (with_uuid siw params (fun _ => not_implemented)).
Proof. intros r w. unfold with_uuid. destruct (BindUUID _); eexists; (split; [reflexivity|]); eauto. Qed.

Lemma unanswered_page {P} (mk : option string -> option Z -> option Z -> P) : unanswered (with_page siw mk (fun _ => not_implemented)).
Proof.
  intros r w. unfold with_page. destruct (BindQueryString _ _); [destruct (BindQueryInt r "limit"); [destruct (BindQueryInt r "offset")|]|];
    eexists; (split; [reflexivity|]); eauto.
Qed.

Lemma unimplemented_handlers params : Forall (fun p => unanswered (snd p)) (wrapper_handlers siw params).
Proof.
  unfold wrapper_handlers. repeat (apply Forall_cons; split; [first [apply unanswered_plain|apply unanswered_uuid|apply unanswered_page]|]).
  apply Forall_nil_2.
Qed.
End Unanswered.

(** What is registered has a handler. With nothing implemented it answers 501, or
    400 with the reason for a parameter that does not bind, and does nothing. *)
Theorem unimplemented_server {W} `{OapiRuntime} (base : string) (rt : Route) (params : list (string * string)) :
  rt ∈ routes (openapi_routes base) ->
  exists h, snd (OpenApiHandler (@Unimplemented W)) (rt_Handler rt) params = Some h /\ unanswered h.
Proof.
  intros Hin. assert (rt_Handler rt ∈ operation_names) as Hn by (rewrite <- (openapi_names base); apply list_elem_of_In, in_map, list_elem_of_In, Hin).
  set (siw := wrapper_of (@Unimplemented W) (mkOptions "" None [] None)).
  assert (forallb (fun n => existsb (fun p => bool_decide (fst p = n)) (wrapper_handlers siw params)) operation_names = true) as Hex by reflexivity.
  rewrite forallb_forall in Hex. specialize (Hex _ (proj1 (list_elem_of_In _ _) Hn)).
  destruct (List.find (fun p => bool_decide (fst p = rt_Handler rt)) (wrapper_handlers siw params)) as [[n h]|] eqn:Hf.
  - exists h. split; [cbn [snd OpenApiHandler HandlerWithOptions]; fold siw; by rewrite Hf|].
    pose proof (unimplemented_handlers (W := W) params) as Hall. rewrite Forall_forall in Hall.
    apply (Hall (n, h)), list_elem_of_In, (List.find_some _ _ Hf).
  - apply existsb_exists in Hex as (p & Hp & Hb). pose proof (List.find_none _ _ Hf p Hp) as Hc. congruence.
Qed.

(** ** Concrete instances *)

(** A binder that reads identifiers as the gateway does, and no query. *)
#[local] Instance plain_binding : OapiRuntime := {
  BindUUID s := match ParseUUID s with Ok u => Ok u | Err _ => Err "not a UUID" end;
  BindQueryString _ _ := Ok None;
  BindQueryInt _ _ := Ok None;
}.

Lemma unimplemented_server_witness :
  exists h, snd (OpenApiHandler (@Unimplemented unit)) "GetTenant" [("id", "7")] = Some h /\ unanswered h.
Proof. apply (unimplemented_server "/v1" (mkRoute "GET" "/v1/admin/tenants/{id}" [] "GetTenant")). apply (bool_decide_eq_true_1 _). vm_compute. reflexivity. Defined.

(** A router that serves the first eligible route. *)
#[local] Instance first_mux : ChiMux unit := fun cfg rs r w =>
  match omap (fun rt => pair rt <$> eligible (mounts rs) rt (Method r) (segments (Path r))) (routes rs) with
  | (rt, params) :: _ => serve_route cfg rt params r w
  | [] => (w, mkResponse 404 "404 page not found")
  end.

#[local] Instance first_mux_paths : ChiPaths unit.
Proof.
  constructor. intros cfg rs r w _ _. unfold ServeMux, first_mux. destruct (omap _ _) as [|[rt params] l] eqn:E.
  - right. exists (mkResponse 404 "404 page not found"). split; [by left|]. split; [done|]. intros rt Hrt. destruct (eligible _ _ _ _) as [ps|] eqn:He; [|done].
    assert ((rt, ps) ∈ @nil (Route * list (string * string))) as Hin by (rewrite <- E; apply list_elem_of_omap; exists rt; by rewrite He).
    by apply elem_of_nil in Hin.
  - left. assert ((rt, params) ∈ (rt, params) :: l) as Hin by by left. rewrite <- E in Hin. apply list_elem_of_omap in Hin as (rt' & Hrt & He).
    destruct (eligible _ _ _ _) as [ps|] eqn:Hel; [|done]. injection He as -> ->. by exists rt, params.
Qed.


